(** * local-event-search: normalisation, deduplication and venue staleness

    A shallow embedding of the event pipeline of the scraper
    (utils/date-parser, utils/event-normalizer, utils/deduplicator and
    utils/venue-status-manager) together with the properties its
    specification states about it.

    Conventions of the embedding.
    - JavaScript strings are Rocq strings, one character per code unit,
      the code units being those below 256.  The character classes
      [\d], [a-z] and [\w] are the ASCII ones, as in JavaScript; [\s]
      holds the ASCII white space and the no-break space.
      [toLowerCase] and [toUpperCase] map the ASCII letters, which is
      what JavaScript does on ASCII text; the statements that speak of
      upper-casing are made for such text ([isAscii]).
    - A [Date] is its time value, an integer number of milliseconds since
      the epoch, without bound; an invalid [Date] (time value NaN) is a
      separate constructor.  Local time is a fixed offset from UTC,
      supplied by the host together with the wall clock: the host is in
      a zone without daylight-saving changes, where every local day has
      24 hours.  The reads of the clock within one call give one
      instant.
    - JavaScript numbers that hold scores and confidences are IEEE 754
      doubles: a finite double is the rational it denotes, and sums,
      differences and quotients are rounded to the nearest double, ties
      to even ([Double]).  The similarity of two titles, a quotient of
      two small counts that is only compared with a threshold, is kept
      as the exact rational.
    - [null]/[undefined] are [None]; an optional string is "truthy" when
      it is present and not empty. *)

From Stdlib Require Import ZArith QArith Qround Qabs Qpower Lqa String Ascii List
  Bool Lia.
From Stdlib Require Floats.
From stdpp Require Import base option list gmap strings.
Import ListNotations.

#[local] Open Scope string_scope.
#[local] Open Scope list_scope.
#[local] Open Scope Z_scope.

(** ** JavaScript strings *)

Module JsString.

Definition chars (s : string) : list ascii := list_ascii_of_string s.
Definition ofChars (l : list ascii) : string := string_of_list_ascii l.
Definition onChars (f : list ascii -> list ascii) (s : string) : string :=
  ofChars (f (chars s)).

Definition code (c : ascii) : N := N_of_ascii c.

Definition inRange (lo hi : N) (c : ascii) : bool :=
  (N.leb lo (code c) && N.leb (code c) hi)%bool.

Definition isDigit (c : ascii) : bool := inRange 48 57 c.
Definition isLower (c : ascii) : bool := inRange 97 122 c.
Definition isUpper (c : ascii) : bool := inRange 65 90 c.
Definition isLetter (c : ascii) : bool := (isLower c || isUpper c)%bool.
(* \w *)
Definition isWord (c : ascii) : bool :=
  (isLetter c || isDigit c || Ascii.eqb c "_")%bool.
(* \s, and what trim removes: tab, line feed, vertical tab, form feed,
   carriage return, space and the no-break space *)
Definition isSpace (c : ascii) : bool :=
  (inRange 9 13 c || Ascii.eqb c " " || N.eqb (code c) 160)%bool.

Definition lowerChar (c : ascii) : ascii :=
  if isUpper c then ascii_of_N (code c + 32) else c.
Definition upperChar (c : ascii) : ascii :=
  if isLower c then ascii_of_N (code c - 32) else c.

(* every code unit is below 128 *)
Definition isAscii (s : string) : bool :=
  List.forallb (fun c => N.ltb (code c) 128) (chars s).

Definition toLowerCase (s : string) : string := onChars (List.map lowerChar) s.
Definition toUpperCase (s : string) : string := onChars (List.map upperChar) s.

Fixpoint dropSpaces (l : list ascii) : list ascii :=
  match l with
  | c :: l' => if isSpace c then dropSpaces l' else l
  | [] => []
  end.

Definition trimChars (l : list ascii) : list ascii :=
  rev (dropSpaces (rev (dropSpaces l))).
Definition trim (s : string) : string := onChars trimChars s.

(* replace(/\s+/g, ' '): [inRun] tells that the previous character was
   white space, already replaced by the single space of its run *)
Fixpoint collapseFrom (inRun : bool) (l : list ascii) : list ascii :=
  match l with
  | [] => []
  | c :: l' =>
    if isSpace c
    then (if inRun then collapseFrom true l' else " "%char :: collapseFrom true l')
    else c :: collapseFrom false l'
  end.
Definition collapseSpaces (l : list ascii) : list ascii := collapseFrom false l.

(* replace(/X/g, '') for a character class X *)
Definition removeChars (p : ascii -> bool) (s : string) : string :=
  onChars (List.filter (fun c => negb (p c))) s.

Fixpoint startsWithChars (p l : list ascii) : bool :=
  match p, l with
  | [], _ => true
  | a :: p', b :: l' => (Ascii.eqb a b && startsWithChars p' l')%bool
  | _ :: _, [] => false
  end.

(* s.includes(p) *)
Fixpoint includesChars (p l : list ascii) : bool :=
  (startsWithChars p l ||
   match l with
   | [] => false
   | _ :: l' => includesChars p l'
   end)%bool.
Definition includes (s p : string) : bool := includesChars (chars p) (chars s).

(* s.split(sep)[0] for a one-character separator *)
Fixpoint untilChar (sep : ascii) (l : list ascii) : list ascii :=
  match l with
  | [] => []
  | c :: l' => if Ascii.eqb c sep then [] else c :: untilChar sep l'
  end.
Definition splitHead (sep : ascii) (s : string) : string :=
  onChars (untilChar sep) s.

(* the first character, if any, is not white space *)
Definition startsClean (l : list ascii) : bool :=
  match l with
  | c :: _ => negb (isSpace c)
  | [] => true
  end.

(* an optional string in a boolean context *)
Definition truthy (o : option string) : bool :=
  match o with
  | Some s => negb (String.eqb s "")
  | None => false
  end.

(* the double quote of a template literal *)
Definition quote : string := String (ascii_of_N 34) EmptyString.

(* o || '' *)
Definition orEmpty (o : option string) : string :=
  match o with
  | Some s => s
  | None => ""
  end.

End JsString.

(** ** Numbers in template literals *)

Module JsNumber.

(* a number that may be NaN *)
Inductive t := Num (n : Z) | NaN.

Definition digitChar (d : Z) : ascii := ascii_of_N (48 + Z.to_N d).

(* the [width] low decimal digits of a natural number, zero padded *)
Fixpoint padded (width : nat) (n : Z) : list ascii :=
  match width with
  | O => []
  | S w => padded w (n / 10) ++ [digitChar (n mod 10)]
  end.

Fixpoint dropZeros (l : list ascii) : list ascii :=
  match l with
  | c :: l' => if Ascii.eqb c "0" then dropZeros l' else l
  | [] => []
  end.

(* String(n) of an integer: no leading zero, at least one digit *)
Definition showNat (n : Z) : string :=
  JsString.ofChars
    (dropZeros (padded (Z.to_nat (Z.log2 n)) (n / 10))
     ++ [digitChar (n mod 10)]).

Definition showZ (n : Z) : string :=
  if n <? 0 then "-" +:+ showNat (- n) else showNat n.

Definition show (x : t) : string :=
  match x with
  | Num n => showZ n
  | NaN => "NaN"
  end.

(* x > k *)
Definition gt (x : t) (k : Z) : bool :=
  match x with
  | Num n => k <? n
  | NaN => false
  end.

(* parseInt(digits, 10) on a run of decimal digits *)
Definition parseDigits (l : list ascii) : Z :=
  fold_left (fun acc c => acc * 10 + (Z.of_N (JsString.code c) - 48)) l 0.

End JsNumber.

(** ** Double-precision arithmetic

    A finite double is the rational number it denotes.  An operation
    computes the exact result and rounds it to the nearest value with 53
    significant bits, or to the nearest multiple of 2 ^ -1074 below the
    normal range, the value with an even last bit on a tie.  Results
    beyond the largest finite double do not arise here: a score is the
    sum of a string length over 100, six terms of at most 1 and a
    confidence. *)

Module Double.

(* the exponent of the least positive double *)
Definition emin : Z := -1074.

Definition pow2 (e : Z) : Q := (2 ^ e)%Q.

(* the integer nearest to x, the even one of two that are equally near *)
Definition nearestEven (x : Q) : Z :=
  let f := Qfloor x in
  match (x - inject_Z f ?= 1 # 2)%Q with
  | Lt => f
  | Gt => f + 1
  | Eq => if Z.even f then f else f + 1
  end.

(* the k with 2 ^ k <= |x| < 2 ^ (k + 1), for x other than 0 *)
Definition binade (x : Q) : Z :=
  let k := Z.log2 (Z.abs (Qnum x)) - Z.log2 (Zpos (Qden x)) in
  if Qle_bool (pow2 k) (Qabs x) then k else k - 1.

(* the exponent of the last of the 53 bits that hold x *)
Definition lastBit (x : Q) : Z := Z.max (binade x - 52) emin.

Definition round (x : Q) : Q :=
  if Qeq_bool x 0 then 0%Q
  else (inject_Z (nearestEven (x / pow2 (lastBit x))) * pow2 (lastBit x))%Q.

(* a decimal literal of the source *)
Definition literal (x : Q) : Q := round x.

Definition add (x y : Q) : Q := round (x + y).
Definition sub (x y : Q) : Q := round (x - y).
Definition div (x y : Q) : Q := round (x / y).

(* Math.min *)
Definition min (x y : Q) : Q := if Qle_bool x y then x else y.

(* a multiple of the least positive double, as every finite double is *)
Definition onGrid (x : Q) : Prop := exists k : Z, (x == inject_Z k * pow2 emin)%Q.

(* the rational that a finite binary64 value of the proof assistant
   denotes, to compare the operations above with its arithmetic *)
Definition ofFloat (f : PrimFloat.float) : Q :=
  match FloatOps.Prim2SF f with
  | SpecFloat.S754_finite negative m e =>
    ((if negative then - inject_Z (Zpos m) else inject_Z (Zpos m)) * pow2 e)%Q
  | _ => 0%Q
  end.

Definition floatOfZ (n : Z) : PrimFloat.float :=
  if n <? 0 then PrimFloat.opp (PrimFloat.of_uint63 (Uint63.of_Z (- n)))
  else PrimFloat.of_uint63 (Uint63.of_Z n).

End Double.

(** ** Dates

    The host supplies the wall clock and the offset of local time from
    UTC.  Calendar fields follow the proleptic Gregorian calendar. *)

Record Host := mkHost {
  now : Z;                 (* the time value of [new Date()] *)
  localOffsetMinutes : Z   (* local time minus UTC, in minutes *)
}.

Module JsDate.

Inductive t := Valid (timeValue : Z) | Invalid.

Definition msPerDay : Z := 86400000.
Definition msPerHour : Z := 3600000.
Definition msPerMinute : Z := 60000.

(* day number (days since 1970-01-01) of a calendar date; months count
   from 1, and a day outside its month carries over *)
Definition daysFromCivil (y m d : Z) : Z :=
  let y := if m <=? 2 then y - 1 else y in
  let era := y / 400 in
  let yoe := y - era * 400 in
  let mp := if 2 <? m then m - 3 else m + 9 in
  let doy := (153 * mp + 2) / 5 + d - 1 in
  let doe := yoe * 365 + yoe / 4 - yoe / 100 + doy in
  era * 146097 + doe - 719468.

(* calendar date (year, month from 1, day) of a day number *)
Definition civilFromDays (z : Z) : Z * Z * Z :=
  let z := z + 719468 in
  let era := z / 146097 in
  let doe := z - era * 146097 in
  let yoe := (doe - doe / 1460 + doe / 36524 - doe / 146096) / 365 in
  let y := yoe + era * 400 in
  let doy := doe - (365 * yoe + yoe / 4 - yoe / 100) in
  let mp := (5 * doy + 2) / 153 in
  let d := doy - (153 * mp + 2) / 5 + 1 in
  let m := if mp <? 10 then mp + 3 else mp - 9 in
  (if m <=? 2 then y + 1 else y, m, d).

Definition isLeapYear (y : Z) : bool :=
  ((y mod 400 =? 0) || ((y mod 4 =? 0) && negb (y mod 100 =? 0)))%bool.

(* month counts from 0, as getMonth does *)
Definition daysInMonth (y month : Z) : Z :=
  if month =? 1 then (if isLeapYear y then 29 else 28)
  else if (month =? 3) || (month =? 5) || (month =? 8) || (month =? 10) then 30
  else 31.

(* broken-down time; [month] counts from 0 *)
Record Fields := mkFields {
  year : Z; month : Z; day : Z;
  hours : Z; minutes : Z; seconds : Z; milliseconds : Z
}.

Definition fieldsOfTime (t : Z) : Fields :=
  let dayNo := t / msPerDay in
  let rest := t mod msPerDay in
  let '(y, m, d) := civilFromDays dayNo in
  {| year := y; month := m - 1; day := d;
     hours := rest / msPerHour;
     minutes := (rest mod msPerHour) / msPerMinute;
     seconds := (rest mod msPerMinute) / 1000;
     milliseconds := rest mod 1000 |}.

Definition timeOfFields (f : Fields) : Z :=
  daysFromCivil (year f + month f / 12) (month f mod 12 + 1) (day f) * msPerDay
  + hours f * msPerHour + minutes f * msPerMinute + seconds f * 1000
  + milliseconds f.

Definition offsetMs (h : Host) : Z := localOffsetMinutes h * msPerMinute.

(* the local fields of a time value and back *)
Definition localFields (h : Host) (t : Z) : Fields := fieldsOfTime (t + offsetMs h).
Definition ofLocalFields (h : Host) (f : Fields) : Z := timeOfFields f - offsetMs h.

Definition getFullYear (h : Host) (t : Z) : Z := year (localFields h t).
Definition getHours (h : Host) (t : Z) : Z := hours (localFields h t).
Definition getMinutes (h : Host) (t : Z) : Z := minutes (localFields h t).
(* 0 is Sunday; day number 0 was a Thursday *)
Definition getDay (h : Host) (t : Z) : Z := ((t + offsetMs h) / msPerDay + 4) mod 7.

(* d.setHours(0, 0, 0, 0) *)
Definition startOfDay (h : Host) (t : Z) : Z := t - (t + offsetMs h) mod msPerDay.

(* d.setFullYear(y) *)
Definition setFullYear (h : Host) (t : Z) (y : Z) : Z :=
  let f := localFields h t in
  ofLocalFields h
    {| year := y; month := month f; day := day f; hours := hours f;
       minutes := minutes f; seconds := seconds f;
       milliseconds := milliseconds f |}.

(* d.setHours(hh, mm, 0, 0) *)
Definition setHours (h : Host) (t : Z) (hh mm : Z) : Z :=
  startOfDay h t + hh * msPerHour + mm * msPerMinute.

Definition showYear (y : Z) : string :=
  if (0 <=? y) && (y <=? 9999) then JsString.ofChars (JsNumber.padded 4 y)
  else if y <? 0 then "-" +:+ JsString.ofChars (JsNumber.padded 6 (- y))
  else "+" +:+ JsString.ofChars (JsNumber.padded 6 y).

Definition pad (width : nat) (n : Z) : string :=
  JsString.ofChars (JsNumber.padded width n).

(* d.toISOString() of a valid date *)
Definition toISOString (t : Z) : string :=
  let f := fieldsOfTime t in
  showYear (year f) +:+ "-" +:+ pad 2 (month f + 1) +:+ "-" +:+ pad 2 (day f)
  +:+ "T" +:+ pad 2 (hours f) +:+ ":" +:+ pad 2 (minutes f) +:+ ":"
  +:+ pad 2 (seconds f) +:+ "." +:+ pad 3 (milliseconds f) +:+ "Z".

(* [n] decimal digits at the head of a list *)
Fixpoint takeDigits (n : nat) (l : list ascii) : option (list ascii * list ascii) :=
  match n, l with
  | O, _ => Some ([], l)
  | S n', c :: l' =>
    if JsString.isDigit c
    then match takeDigits n' l' with
         | Some (ds, rest) => Some (c :: ds, rest)
         | None => None
         end
    else None
  | S _, [] => None
  end.

Definition number (n : nat) (l : list ascii) : option (Z * list ascii) :=
  match takeDigits n l with
  | Some (ds, rest) => Some (JsNumber.parseDigits ds, rest)
  | None => None
  end.

Definition expect (c : ascii) (l : list ascii) : option (list ascii) :=
  match l with
  | c' :: l' => if Ascii.eqb c c' then Some l' else None
  | [] => None
  end.

(* [new Date(s)] for the strings [toISOString] writes,
   YYYY-MM-DDTHH:mm:ss.sssZ; any other string gives an invalid date here *)
Definition ofISOString (s : string) : t :=
  let parsed :=
    '(y, l) ← number 4 (JsString.chars s);
    l ← expect "-" l;
    '(m, l) ← number 2 l;
    l ← expect "-" l;
    '(d, l) ← number 2 l;
    l ← expect "T" l;
    '(hh, l) ← number 2 l;
    l ← expect ":" l;
    '(mm, l) ← number 2 l;
    l ← expect ":" l;
    '(ss, l) ← number 2 l;
    l ← expect "." l;
    '(ms, l) ← number 3 l;
    l ← expect "Z" l;
    if (match l with [] => true | _ => false end)
       && (1 <=? m) && (m <=? 12) && (1 <=? d) && (d <=? daysInMonth y (m - 1))
       && (hh <=? 23) && (mm <=? 59) && (ss <=? 59)
    then Some (timeOfFields
                 {| year := y; month := m - 1; day := d; hours := hh;
                    minutes := mm; seconds := ss; milliseconds := ms |})
    else None in
  match parsed with
  | Some t => Valid t
  | None => Invalid
  end.

(* the time value that an ISO string names, for writing examples *)
Definition timeOf (s : string) : Z :=
  match ofISOString s with
  | Valid t => t
  | Invalid => 0
  end.

(* a date-or-null as the ISO string of the date, for reading results *)
Definition iso (d : option t) : option string :=
  match d with
  | Some (Valid t) => Some (toISOString t)
  | _ => None
  end.

End JsDate.

(** ** crypto.createHash('md5'): RFC 1321 on the bytes of an ASCII string *)

Module Md5.

Definition word (x : Z) : Z := x mod 2 ^ 32.

Definition rotl (x : Z) (c : Z) : Z :=
  word (Z.lor (Z.shiftl x c) (Z.shiftr x (32 - c))).

Definition lnot32 (x : Z) : Z := Z.lxor x (2 ^ 32 - 1).

(* per-round shift amounts *)
Definition shifts : list Z :=
  [7; 12; 17; 22; 7; 12; 17; 22; 7; 12; 17; 22; 7; 12; 17; 22;
   5; 9; 14; 20; 5; 9; 14; 20; 5; 9; 14; 20; 5; 9; 14; 20;
   4; 11; 16; 23; 4; 11; 16; 23; 4; 11; 16; 23; 4; 11; 16; 23;
   6; 10; 15; 21; 6; 10; 15; 21; 6; 10; 15; 21; 6; 10; 15; 21].

(* floor(2^32 * abs(sin(i + 1))) *)
Definition sines : list Z :=
 [
  3614090360; 3905402710; 606105819; 3250441966;
  4118548399; 1200080426; 2821735955; 4249261313;
  1770035416; 2336552879; 4294925233; 2304563134;
  1804603682; 4254626195; 2792965006; 1236535329;
  4129170786; 3225465664; 643717713; 3921069994;
  3593408605; 38016083; 3634488961; 3889429448;
  568446438; 3275163606; 4107603335; 1163531501;
  2850285829; 4243563512; 1735328473; 2368359562;
  4294588738; 2272392833; 1839030562; 4259657740;
  2763975236; 1272893353; 4139469664; 3200236656;
  681279174; 3936430074; 3572445317; 76029189;
  3654602809; 3873151461; 530742520; 3299628645;
  4096336452; 1126891415; 2878612391; 4237533241;
  1700485571; 2399980690; 4293915773; 2240044497;
  1873313359; 4264355552; 2734768916; 1309151649;
  4149444226; 3174756917; 718787259; 3951481745
 ].

Record Regs := mkRegs { ra : Z; rb : Z; rc : Z; rd : Z }.

Definition initial : Regs :=
  {| ra := 1732584193; rb := 4023233417; rc := 2562383102; rd := 271733878 |}.

(* 1 [0x80] byte, zeros up to 56 mod 64, the bit length on 8 bytes *)
Definition padding (len : Z) : list Z :=
  128 :: List.repeat 0 (Z.to_nat ((55 - len) mod 64))
  ++ List.map (fun i => ((8 * len) / 2 ^ (8 * i)) mod 256) [0; 1; 2; 3; 4; 5; 6; 7].

Definition bytesOf (s : string) : list Z :=
  List.map (fun c => Z.of_N (JsString.code c)) (JsString.chars s).

Definition padded (s : string) : list Z :=
  let bytes := bytesOf s in bytes ++ padding (Z.of_nat (List.length bytes)).

(* little-endian 32-bit words *)
Fixpoint wordsOf (fuel : nat) (bytes : list Z) : list Z :=
  match fuel, bytes with
  | S fuel', b0 :: b1 :: b2 :: b3 :: rest =>
    (b0 + 256 * b1 + 65536 * b2 + 16777216 * b3) :: wordsOf fuel' rest
  | _, _ => []
  end.

Definition step (m : list Z) (r : Regs) (i : Z) : Regs :=
  let '(f, g) :=
    if i <? 16 then
      (Z.lor (Z.land (rb r) (rc r)) (Z.land (lnot32 (rb r)) (rd r)), i)
    else if i <? 32 then
      (Z.lor (Z.land (rd r) (rb r)) (Z.land (lnot32 (rd r)) (rc r)),
       (5 * i + 1) mod 16)
    else if i <? 48 then
      (Z.lxor (rb r) (Z.lxor (rc r) (rd r)), (3 * i + 5) mod 16)
    else
      (Z.lxor (rc r) (Z.lor (rb r) (lnot32 (rd r))), (7 * i) mod 16) in
  let f := word (f + ra r + List.nth (Z.to_nat i) sines 0 + List.nth (Z.to_nat g) m 0) in
  {| ra := rd r; rd := rc r; rc := rb r;
     rb := word (rb r + rotl f (List.nth (Z.to_nat i) shifts 0)) |}.

Definition rounds : list Z := List.map Z.of_nat (List.seq 0 64).

Definition block (r : Regs) (m : list Z) : Regs :=
  let r' := fold_left (step m) rounds r in
  {| ra := word (ra r + ra r'); rb := word (rb r + rb r');
     rc := word (rc r + rc r'); rd := word (rd r + rd r') |}.

Fixpoint blocks (fuel : nat) (r : Regs) (ws : list Z) : Regs :=
  match fuel, ws with
  | S fuel', _ :: _ => blocks fuel' (block r (List.firstn 16 ws)) (List.skipn 16 ws)
  | _, _ => r
  end.

Definition hexDigit (d : Z) : ascii :=
  if d <? 10 then ascii_of_N (48 + Z.to_N d) else ascii_of_N (87 + Z.to_N d).

Definition hexByte (b : Z) : list ascii := [hexDigit (b / 16); hexDigit (b mod 16)].

Definition hexWord (w : Z) : list ascii :=
  hexByte (w mod 256) ++ hexByte ((w / 256) mod 256)
  ++ hexByte ((w / 65536) mod 256) ++ hexByte ((w / 16777216) mod 256).

(* .update(s).digest('hex') *)
Definition hexdigest (s : string) : string :=
  let bytes := padded s in
  let ws := wordsOf (List.length bytes) bytes in
  let r := blocks (List.length ws) initial ws in
  JsString.ofChars (hexWord (ra r) ++ hexWord (rb r) ++ hexWord (rc r) ++ hexWord (rd r)).

End Md5.

(** ** Array.prototype.sort

    The sort is stable; the comparator returns a number whose sign orders
    its arguments.  Insertion from the right keeps equal elements in
    their original order. *)

Module JsArray.

Definition positive (q : Q) : bool := negb (Qle_bool q 0).

Fixpoint insertSorted {A} (cmp : A -> A -> Q) (x : A) (l : list A) : list A :=
  match l with
  | [] => [x]
  | y :: l' =>
    if positive (cmp x y) then y :: insertSorted cmp x l' else x :: y :: l'
  end.

Definition sort {A} (cmp : A -> A -> Q) (l : list A) : list A :=
  fold_right (insertSorted cmp) [] l.

End JsArray.

(** ** Hand-compiled regular expressions

    A matcher reads a prefix of its input; [search] tries a matcher at
    every position from the left, as an unanchored pattern does. *)

Module Rx.
Import JsString.

(* the longest prefix of characters of a class, and what follows it *)
Fixpoint span (p : ascii -> bool) (l : list ascii) : list ascii * list ascii :=
  match l with
  | c :: l' =>
    if p c then let '(run, rest) := span p l' in (c :: run, rest) else ([], l)
  | [] => ([], [])
  end.

(* at most [n] leading characters of a class *)
Fixpoint spanAtMost (n : nat) (p : ascii -> bool) (l : list ascii)
  : list ascii * list ascii :=
  match n, l with
  | S n', c :: l' =>
    if p c then let '(run, rest) := spanAtMost n' p l' in (c :: run, rest)
    else ([], l)
  | _, _ => ([], l)
  end.

(* \d{1,n} *)
Definition digitsAtMost (n : nat) (l : list ascii) : option (list ascii * list ascii) :=
  match spanAtMost n isDigit l with
  | ([], _) => None
  | found => Some found
  end.

(* \d+ *)
Definition digits (l : list ascii) : option (list ascii * list ascii) :=
  match span isDigit l with
  | ([], _) => None
  | found => Some found
  end.

(* \d{n} *)
Fixpoint digitsExactly (n : nat) (l : list ascii) : option (list ascii * list ascii) :=
  match n, l with
  | O, _ => Some ([], l)
  | S n', c :: l' =>
    if isDigit c
    then match digitsExactly n' l' with
         | Some (ds, rest) => Some (c :: ds, rest)
         | None => None
         end
    else None
  | S _, [] => None
  end.

Definition sameLetter (a b : ascii) : bool := Ascii.eqb (lowerChar a) (lowerChar b).

(* a literal text, the input's case kept; /text/ and /text/i *)
Fixpoint literal (ci : bool) (p l : list ascii) : option (list ascii * list ascii) :=
  match p, l with
  | [], _ => Some ([], l)
  | a :: p', b :: l' =>
    if (if ci then sameLetter a b else Ascii.eqb a b)
    then match literal ci p' l' with
         | Some (m, rest) => Some (b :: m, rest)
         | None => None
         end
    else None
  | _ :: _, [] => None
  end.

(* (a|b|...): the first alternative that matches, with its index *)
Fixpoint oneOf (ci : bool) (alts : list string) (l : list ascii)
  : option (nat * list ascii * list ascii) :=
  match alts with
  | [] => None
  | a :: alts' =>
    match literal ci (chars a) l with
    | Some (m, rest) => Some (O, m, rest)
    | None =>
      match oneOf ci alts' l with
      | Some (i, m, rest) => Some (S i, m, rest)
      | None => None
      end
    end
  end.

(* \s* *)
Definition spaces (l : list ascii) : list ascii := dropSpaces l.

(* \s+ *)
Definition spaces1 (l : list ascii) : option (list ascii) :=
  match l with
  | c :: l' => if isSpace c then Some (dropSpaces l') else None
  | [] => None
  end.

Fixpoint search {A} (m : list ascii -> option A) (l : list ascii) : option A :=
  match m l with
  | Some a => Some a
  | None =>
    match l with
    | [] => None
    | _ :: l' => search m l'
    end
  end.

Definition test {A} (m : list ascii -> option A) (s : string) : bool :=
  match search m (chars s) with Some _ => true | None => false end.

Definition weekdays : list string :=
  ["monday"; "tuesday"; "wednesday"; "thursday"; "friday"; "saturday"; "sunday"].

Definition ordinalSuffixes : list string := ["st"; "nd"; "rd"; "th"].

End Rx.

(** ** The functions imported from date-fns

    A model of [parse], [parseISO], [isValid], [addDays], [addWeeks] and
    [nextDay] with the en-US locale, for the format tokens that the
    tables of the date parser use.  [parseISO] covers calendar, ordinal
    and week dates with an optional time of day and zone; a fraction is
    read on the seconds only. *)

Module DateFns.
Import JsString JsDate.

Definition isValid (d : JsDate.t) : bool :=
  match d with Valid _ => true | Invalid => false end.

Definition addDays (t amount : Z) : Z := t + amount * msPerDay.
Definition addWeeks (t amount : Z) : Z := addDays t (amount * 7).

Definition nextDay (h : Host) (t day : Z) : Z :=
  let delta := day - getDay h t in
  let delta := if delta <=? 0 then delta + 7 else delta in
  addDays t delta.

(** *** parse *)

(* formattingTokensRegExp on a format without quotes: a run of one
   letter is a token, any other character stands for itself *)
Fixpoint tokenize (fuel : nat) (fmt : list ascii) : list (list ascii) :=
  match fuel, fmt with
  | S fuel', c :: _ =>
    if isWord c
    then let '(run, rest) := Rx.span (Ascii.eqb c) fmt in run :: tokenize fuel' rest
    else [c] :: tokenize fuel' (List.tl fmt)
  | _, _ => []
  end.

Definition tokens (fmt : string) : list (list ascii) :=
  tokenize (String.length fmt) (chars fmt).

(* what a parsed token will write into the date *)
Inductive Setter :=
| SetYear (y : Z)
| SetMonth (m : Z)
| SetDate (d : Z)
| SetDay (weekday : Z)
| SetDayPeriod (hours : Z)
| SetHour12 (hh : Z)
| SetHour24 (hh : Z)
| SetMinute (mm : Z).

Definition priority (s : Setter) : Z :=
  match s with
  | SetYear _ => 130
  | SetMonth _ => 110
  | SetDate _ | SetDay _ => 90
  | SetDayPeriod _ => 80
  | SetHour12 _ | SetHour24 _ => 70
  | SetMinute _ => 60
  end.

Definition subPriority (s : Setter) : Z :=
  match s with
  | SetDate _ => 1
  | _ => 0
  end.

(* numericPatterns: /^(XY|[0-p]?\d)/ where XY is the digit [lead]
   followed by a digit up to [top] *)
Definition numericPattern (lead top prefix : ascii) (l : list ascii)
  : option (list ascii * list ascii) :=
  match l with
  | a :: b :: rest =>
    if Ascii.eqb a lead && inRange 48 (code top) b then Some ([a; b], rest)
    else if inRange 48 (code prefix) a && isDigit b then Some ([a; b], rest)
    else if isDigit a then Some ([a], b :: rest)
    else None
  | [a] => if isDigit a then Some ([a], []) else None
  | [] => None
  end.

Definition monthPattern := numericPattern "1" "2" "0".      (* /^(1[0-2]|0?\d)/ *)
Definition datePattern := numericPattern "3" "1" "2".       (* /^(3[0-1]|[0-2]?\d)/ *)
Definition hour23hPattern := numericPattern "2" "3" "1".    (* /^(2[0-3]|[0-1]?\d)/ *)
Definition hour12hPattern := numericPattern "1" "2" "0".    (* /^(1[0-2]|0?\d)/ *)

(* parseNDigits(n): /^\d{1,n}/ *)
Definition parseNDigits (n : nat) (l : list ascii) : option (Z * list ascii) :=
  match Rx.digitsAtMost n l with
  | Some (ds, rest) => Some (JsNumber.parseDigits ds, rest)
  | None => None
  end.

Definition numeric (p : list ascii -> option (list ascii * list ascii))
    (l : list ascii) : option (Z * list ascii) :=
  match p l with
  | Some (ds, rest) => Some (JsNumber.parseDigits ds, rest)
  | None => None
  end.

(* the locale's match functions: the text is matched by [matchPattern],
   its value is the index of the first of [parsePatterns] that the
   matched text begins with *)
Fixpoint findIndex (parsePatterns : list string) (matched : list ascii) : option Z :=
  match parsePatterns with
  | [] => None
  | p :: rest =>
    match Rx.literal true (chars p) matched with
    | Some _ => Some 0
    | None =>
      match findIndex rest matched with
      | Some i => Some (i + 1)
      | None => None
      end
    end
  end.

Definition localeMatch (matchPattern parsePatterns : list string) (l : list ascii)
  : option (Z * list ascii) :=
  match Rx.oneOf true matchPattern l with
  | Some (_, matched, rest) =>
    match findIndex parsePatterns matched with
    | Some key => Some (key, rest)
    | None => None
    end
  | None => None
  end.

Definition orElse {A} (a b : option A) : option A :=
  match a with Some _ => a | None => b end.

Definition monthsWide : list string :=
  ["january"; "february"; "march"; "april"; "may"; "june"; "july"; "august";
   "september"; "october"; "november"; "december"].
Definition monthsAbbreviated : list string :=
  ["jan"; "feb"; "mar"; "apr"; "may"; "jun"; "jul"; "aug"; "sep"; "oct"; "nov"; "dec"].
Definition monthsNarrow : list string :=
  ["j"; "f"; "m"; "a"; "s"; "o"; "n"; "d"].
Definition parseMonthAny : list string :=
  ["ja"; "f"; "mar"; "ap"; "may"; "jun"; "jul"; "au"; "s"; "o"; "n"; "d"].
Definition parseMonthNarrow : list string :=
  ["j"; "f"; "m"; "a"; "m"; "j"; "j"; "a"; "s"; "o"; "n"; "d"].

Definition daysWide : list string :=
  ["sunday"; "monday"; "tuesday"; "wednesday"; "thursday"; "friday"; "saturday"].
Definition daysAbbreviated : list string :=
  ["sun"; "mon"; "tue"; "wed"; "thu"; "fri"; "sat"].
Definition daysShort : list string := ["su"; "mo"; "tu"; "we"; "th"; "fr"; "sa"].
Definition daysNarrow : list string := ["s"; "m"; "t"; "w"; "f"].
Definition parseDayAny : list string := ["su"; "m"; "tu"; "w"; "th"; "f"; "sa"].
Definition parseDayNarrow : list string := ["s"; "m"; "t"; "w"; "t"; "f"; "s"].

Definition matchMonth (width : string) (l : list ascii) : option (Z * list ascii) :=
  if String.eqb width "wide" then localeMatch monthsWide parseMonthAny l
  else if String.eqb width "abbreviated" then localeMatch monthsAbbreviated parseMonthAny l
  else localeMatch monthsNarrow parseMonthNarrow l.

Definition matchDay (width : string) (l : list ascii) : option (Z * list ascii) :=
  if String.eqb width "wide" then localeMatch daysWide parseDayAny l
  else if String.eqb width "abbreviated" then localeMatch daysAbbreviated parseDayAny l
  else if String.eqb width "short" then localeMatch daysShort parseDayAny l
  else localeMatch daysNarrow parseDayNarrow l.

(* the day periods "am" and "pm" of /^([ap]\.?\s?m\.?|midnight|noon|...)/i
   and of the narrow /^(a|p|mi|n|...)/i, as the hours they stand for *)
Definition amPmAny (l : list ascii) : option (Z * list ascii) :=
  match l with
  | c :: rest =>
    if Rx.sameLetter c "a" || Rx.sameLetter c "p" then
      let hours := if Rx.sameLetter c "p" then 12 else 0 in
      let afterDot := match rest with "."%char :: r => r | _ => rest end in
      let afterM (r : list ascii) :=
        match r with
        | m :: r' =>
          if Rx.sameLetter m "m"
          then Some (hours, match r' with "."%char :: r'' => r'' | _ => r' end)
          else None
        | [] => None
        end in
      orElse
        (orElse
           (match afterDot with
            | s :: r => if isSpace s then afterM r else None
            | [] => None
            end)
           (afterM afterDot))
        (orElse
           (match rest with
            | s :: r => if isSpace s then afterM r else None
            | [] => None
            end)
           (afterM rest))
    else None
  | [] => None
  end.

(* the other day periods; a phrase that begins with "at" reads as "am" *)
Definition dayPeriodWords (l : list ascii) : option (Z * list ascii) :=
  match Rx.oneOf true
          ["midnight"; "noon"; "in the morning"; "in the afternoon";
           "in the evening"; "in the night"; "at morning"; "at afternoon";
           "at evening"; "at night"] l with
  | Some (i, _, rest) =>
    Some (List.nth i [0; 12; 4; 12; 17; 0; 0; 0; 0; 0] 0, rest)
  | None => None
  end.

Definition dayPeriodNarrow (l : list ascii) : option (Z * list ascii) :=
  match Rx.oneOf true ["a"; "p"; "mi"; "n"] l with
  | Some (i, _, rest) => Some (List.nth i [0; 12; 0; 0] 0, rest)
  | None => dayPeriodWords l
  end.

Definition matchDayPeriod (l : list ascii) : option (Z * list ascii) :=
  orElse (orElse (amPmAny l) (dayPeriodWords l)) (dayPeriodNarrow l).

Definition minusOne (r : option (Z * list ascii)) : option (Z * list ascii) :=
  match r with
  | Some (v, rest) => Some (v - 1, rest)
  | None => None
  end.

Definition setter (f : Z -> Setter) (r : option (Z * list ascii))
  : option (Setter * list ascii) :=
  match r with
  | Some (v, rest) => Some (f v, rest)
  | None => None
  end.

(* the parser of a letter token; [None] for a token outside this model
   (the two-digit year among them) *)
Definition parserOf (token : list ascii)
  : option (list ascii -> option (Setter * list ascii)) :=
  let n := List.length token in
  match token with
  | "y"%char :: _ =>
    if Nat.eqb n 2 then None
    else Some (fun l => setter SetYear (parseNDigits (if Nat.eqb n 1 then 4 else n) l))
  | "M"%char :: _ =>
    Some (fun l =>
      setter SetMonth
        (match n with
         | 1%nat => minusOne (numeric monthPattern l)
         | 2%nat => minusOne (parseNDigits 2 l)
         | 3%nat => orElse (matchMonth "abbreviated" l) (matchMonth "narrow" l)
         | 5%nat => matchMonth "narrow" l
         | _ => orElse (matchMonth "wide" l)
                  (orElse (matchMonth "abbreviated" l) (matchMonth "narrow" l))
         end))
  | "d"%char :: _ =>
    Some (fun l =>
      setter SetDate
        (match n with
         | 1%nat => numeric datePattern l
         | _ => parseNDigits n l
         end))
  | "E"%char :: _ =>
    Some (fun l =>
      setter SetDay
        (match n with
         | 1%nat | 2%nat | 3%nat =>
           orElse (matchDay "abbreviated" l)
             (orElse (matchDay "short" l) (matchDay "narrow" l))
         | 5%nat => matchDay "narrow" l
         | 6%nat => orElse (matchDay "short" l) (matchDay "narrow" l)
         | _ =>
           orElse (matchDay "wide" l)
             (orElse (matchDay "abbreviated" l)
                (orElse (matchDay "short" l) (matchDay "narrow" l)))
         end))
  | "a"%char :: _ =>
    Some (fun l =>
      setter SetDayPeriod
        (match n with
         | 5%nat => dayPeriodNarrow l
         | _ => matchDayPeriod l
         end))
  | "h"%char :: _ =>
    Some (fun l =>
      setter SetHour12
        (match n with
         | 1%nat => numeric hour12hPattern l
         | _ => parseNDigits n l
         end))
  | "H"%char :: _ =>
    Some (fun l =>
      setter SetHour24
        (match n with
         | 1%nat => numeric hour23hPattern l
         | _ => parseNDigits n l
         end))
  | "m"%char :: _ =>
    if Nat.eqb n 1 then None
    else Some (fun l => setter SetMinute (parseNDigits n l))
  | _ => None
  end.

(* the tokens are read from left to right; a letter without parser is a
   RangeError, a character that is not a letter must be found as it is *)
Fixpoint runTokens (toks : list (list ascii)) (input : list ascii)
    (setters : list Setter) : option (list Setter * list ascii) :=
  match toks with
  | [] => Some (setters, input)
  | token :: toks' =>
    match parserOf token with
    | Some parser =>
      match parser input with
      | Some (s, rest) => runTokens toks' rest (setters ++ [s])
      | None => None
      end
    | None =>
      match token with
      | c :: _ =>
        if isLetter c then None
        else match Rx.literal false token input with
             | Some (_, rest) => runTokens toks' rest setters
             | None => None
             end
      | [] => None
      end
    end
  end.

(* array.filter((x, i) => array.indexOf(x) === i) *)
Fixpoint uniq (l : list Z) : list Z :=
  match l with
  | [] => []
  | x :: l' => x :: List.filter (fun y => negb (y =? x)) (uniq l')
  end.

(* one setter per priority, the one of greatest subPriority, by
   decreasing priority *)
Definition uniquePrioritySetters (setters : list Setter) : list Setter :=
  let priorities :=
    uniq (JsArray.sort (fun a b => inject_Z (b - a)) (List.map priority setters)) in
  List.concat
    (List.map
       (fun p =>
          List.firstn 1
            (JsArray.sort (fun a b => inject_Z (subPriority b - subPriority a))
               (List.filter (fun s => priority s =? p) setters)))
       priorities).

Definition within (lo hi v : Z) : bool := (lo <=? v) && (v <=? hi).

Definition validate (f : Fields) (s : Setter) : bool :=
  match s with
  | SetYear y => 0 <? y
  | SetMonth m => within 0 11 m
  | SetDate d => within 1 (daysInMonth (year f) (month f)) d
  | SetDay w => within 0 6 w
  | SetDayPeriod _ => true
  | SetHour12 hh => within 1 12 hh
  | SetHour24 hh => within 0 23 hh
  | SetMinute mm => within 0 59 mm
  end.

Definition atMidnight (y m d : Z) : Fields :=
  {| year := y; month := m; day := d;
     hours := 0; minutes := 0; seconds := 0; milliseconds := 0 |}.

Definition atHour (f : Fields) (hh : Z) : Fields :=
  {| year := year f; month := month f; day := day f;
     hours := hh; minutes := 0; seconds := 0; milliseconds := 0 |}.

Definition set (f : Fields) (s : Setter) : Fields :=
  match s with
  | SetYear y => atMidnight y 0 1
  | SetMonth m => atMidnight (year f) m 1
  | SetDate d => atMidnight (year f) (month f) d
  | SetDay w =>
    let dayNo := daysFromCivil (year f) (month f + 1) (day f) in
    let currentDay := (dayNo + 4) mod 7 in
    let '(y, m, d) := civilFromDays (dayNo + (w - currentDay)) in
    atMidnight y (m - 1) d
  | SetDayPeriod hrs => atHour f hrs
  | SetHour12 hh =>
    let isPM := 12 <=? hours f in
    if isPM && (hh <? 12) then atHour f (hh + 12)
    else if negb isPM && (hh =? 12) then atHour f 0
    else atHour f hh
  | SetHour24 hh => atHour f hh
  | SetMinute mm =>
    {| year := year f; month := month f; day := day f; hours := hours f;
       minutes := mm; seconds := 0; milliseconds := 0 |}
  end.

Fixpoint runSetters (setters : list Setter) (f : Fields) : option Fields :=
  match setters with
  | [] => Some f
  | s :: rest => if validate f s then runSetters rest (set f s) else None
  end.

(* parse(dateString, formatString, referenceDate): the fields a format
   leaves out are those of the reference date, in local time; an
   exception of the library counts as an invalid date, the callers treat
   both alike *)
Definition parse (h : Host) (dateString formatString : string)
    (referenceDate : Z) : JsDate.t :=
  match runTokens (tokens formatString) (chars dateString) [] with
  | None => Invalid
  | Some (setters, rest) =>
    if List.existsb (fun c => negb (isSpace c)) rest then Invalid
    else
      match runSetters (uniquePrioritySetters setters)
              (localFields h referenceDate) with
      | Some f => Valid (ofLocalFields h f)
      | None => Invalid
      end
  end.

(* [text] is not read by the format [fmt], whatever the reference date:
   a token fails, or text other than white space is left over *)
Definition unreadable (text fmt : string) : bool :=
  match runTokens (tokens fmt) (chars text) [] with
  | None => true
  | Some (_, rest) => List.existsb (fun c => negb (isSpace c)) rest
  end.

(** *** parseISO *)

Fixpoint splitOn (p : ascii -> bool) (l : list ascii) : list (list ascii) :=
  match l with
  | [] => [[]]
  | c :: l' =>
    match splitOn p l' with
    | piece :: pieces => if p c then [] :: piece :: pieces else (c :: piece) :: pieces
    | [] => []
    end
  end.

Definition isDateTimeDelimiter (c : ascii) : bool :=
  Ascii.eqb c "T" || Ascii.eqb c " ".
Definition isTimeZoneDelimiter (c : ascii) : bool :=
  Ascii.eqb c "Z" || Ascii.eqb c "z" || Ascii.eqb c " ".
Definition startsTimezone (c : ascii) : bool :=
  Ascii.eqb c "Z" || Ascii.eqb c "+" || Ascii.eqb c "-".

Record DateStrings := mkDateStrings {
  datePart : option (list ascii);
  timePart : option (list ascii);
  timezonePart : option (list ascii)
}.

Definition nonEmpty (l : list ascii) : bool :=
  match l with [] => false | _ :: _ => true end.

Definition splitDateString (dateString : list ascii) : DateStrings :=
  match splitOn isDateTimeDelimiter dateString with
  | first :: more =>
    if Nat.ltb 1 (List.length more) then mkDateStrings None None None
    else
      let '(date, timeString) :=
        if List.existsb (Ascii.eqb ":") first then (None, Some first)
        else if List.existsb isTimeZoneDelimiter first
        then
          let date := fst (Rx.span (fun c => negb (isTimeZoneDelimiter c)) dateString) in
          (Some date, Some (List.skipn (List.length date) dateString))
        else (Some first, List.head more) in
      match timeString with
      | Some ts =>
        if nonEmpty ts then
          let '(time, zone) := Rx.span (fun c => negb (startsTimezone c)) ts in
          if nonEmpty zone then mkDateStrings date (Some time) (Some zone)
          else mkDateStrings date (Some ts) None
        else mkDateStrings date None None
      | None => mkDateStrings date None None
      end
  | [] => mkDateStrings None None None
  end.

Definition isSign (c : ascii) : bool := Ascii.eqb c "+" || Ascii.eqb c "-".

Definition signed (sign : ascii) (n : Z) : Z := if Ascii.eqb sign "-" then - n else n.

(* /^(?:(\d{4}|[+-]\d{6})|(\d{2}|[+-]\d{4})$)/ : the year, or the century *)
Definition parseYear (dateString : list ascii) : option (Z * list ascii) :=
  let plain :=
    match Rx.digitsExactly 4 dateString with
    | Some (ds, rest) => Some (JsNumber.parseDigits ds, rest)
    | None => None
    end in
  let expanded :=
    match dateString with
    | sign :: l =>
      if isSign sign then
        match Rx.digitsExactly 6 l with
        | Some (ds, rest) => Some (signed sign (JsNumber.parseDigits ds), rest)
        | None => None
        end
      else None
    | [] => None
    end in
  let century :=
    match Rx.digitsExactly 2 dateString with
    | Some (ds, []) => Some (JsNumber.parseDigits ds * 100, [])
    | _ =>
      match dateString with
      | sign :: l =>
        if isSign sign then
          match Rx.digitsExactly 4 l with
          | Some (ds, []) => Some (signed sign (JsNumber.parseDigits ds) * 100, [])
          | _ => None
          end
        else None
      | [] => None
      end
    end in
  orElse (orElse plain expanded) century.

Definition allDigits (l : list ascii) : bool := List.forallb isDigit l.

(* the day number of the date that follows the year:
   /^-?(?:(\d{3})|(\d{2})(?:-?(\d{2}))?|W(\d{2})(?:-?(\d{1}))?|)$/ *)
Definition parseDatePart (rest : list ascii) (y : Z) : option Z :=
  let rest := match rest with "-"%char :: r => r | _ => rest end in
  let calendar (m d : Z) :=
    if within 0 11 (m - 1) && within 1 (daysInMonth y (m - 1)) d
    then Some (daysFromCivil y m d) else None in
  let week (w d : Z) :=
    if within 1 53 w && within 0 6 d then
      let fourth := daysFromCivil y 1 4 in
      let fourthDay := let wd := (fourth + 4) mod 7 in if wd =? 0 then 7 else wd in
      Some (fourth + ((w - 1) * 7 + d + 1 - fourthDay))
    else None in
  match rest with
  | [] => calendar 1 1
  | [a; b; c] =>
    if allDigits rest then
      let doy := JsNumber.parseDigits rest in
      if within 1 (if isLeapYear y then 366 else 365) doy
      then Some (daysFromCivil y 1 doy) else None
    else if Ascii.eqb a "W" && allDigits [b; c]
    then week (JsNumber.parseDigits [b; c]) 0
    else None
  | [a; b] => if allDigits rest then calendar (JsNumber.parseDigits rest) 1 else None
  | [a; b; c; d] =>
    if allDigits rest
    then calendar (JsNumber.parseDigits [a; b]) (JsNumber.parseDigits [c; d])
    else if Ascii.eqb a "W" && allDigits [b; c; d]
    then week (JsNumber.parseDigits [b; c]) (JsNumber.parseDigits [d] - 1)
    else None
  | [a; b; c; d; e] =>
    if Ascii.eqb c "-" && allDigits [a; b; d; e]
    then calendar (JsNumber.parseDigits [a; b]) (JsNumber.parseDigits [d; e])
    else if Ascii.eqb a "W" && Ascii.eqb d "-" && allDigits [b; c; e]
    then week (JsNumber.parseDigits [b; c]) (JsNumber.parseDigits [e] - 1)
    else None
  | _ => None
  end.

(* the milliseconds of HH[:MM[:SS[.fff]]], the colons optional *)
Definition parseTimePart (timeString : list ascii) : option Z :=
  let unit (l : list ascii) : option (Z * list ascii) :=
    let l := match l with ":"%char :: r => r | _ => l end in
    match Rx.digitsExactly 2 l with
    | Some (ds, rest) => Some (JsNumber.parseDigits ds, rest)
    | None => None
    end in
  let fraction (l : list ascii) : option Z :=
    match l with
    | [] => Some 0
    | c :: ds =>
      if (Ascii.eqb c "." || Ascii.eqb c ",") && allDigits ds
      then Some (JsNumber.parseDigits (List.firstn 3 (ds ++ ["0"; "0"; "0"]%char)))
      else None
    end in
  let check (hh mm ss ms : Z) :=
    if (if hh =? 24 then (mm =? 0) && (ss =? 0) && (ms =? 0)
        else within 0 59 ss && within 0 59 mm && within 0 24 hh)
    then Some (hh * msPerHour + mm * msPerMinute + ss * 1000 + ms)
    else None in
  match Rx.digitsExactly 2 timeString with
  | Some (hs, rest) =>
    let hh := JsNumber.parseDigits hs in
    match rest with
    | [] => check hh 0 0 0
    | _ =>
      match unit rest with
      | Some (mm, rest) =>
        match rest with
        | [] => check hh mm 0 0
        | _ =>
          match unit rest with
          | Some (ss, rest) =>
            match fraction rest with
            | Some ms => check hh mm ss ms
            | None => None
            end
          | None => None
          end
        end
      | None => None
      end
    end
  | None => None
  end.

(* 'Z', or /^([+-])(\d{2})(?::?(\d{2}))?$/ *)
Definition parseTimezone (timezoneString : list ascii) : option Z :=
  match timezoneString with
  | ["Z"%char] => Some 0
  | sign :: l =>
    if isSign sign then
      match Rx.digitsExactly 2 l with
      | Some (hs, rest) =>
        let rest := match rest with ":"%char :: r => r | _ => rest end in
        let sgn := if Ascii.eqb sign "+" then -1 else 1 in
        match rest with
        | [] => Some (sgn * (JsNumber.parseDigits hs * msPerHour))
        | _ =>
          match Rx.digitsExactly 2 rest with
          | Some (ms, []) =>
            if within 0 59 (JsNumber.parseDigits ms)
            then Some (sgn * (JsNumber.parseDigits hs * msPerHour
                              + JsNumber.parseDigits ms * msPerMinute))
            else None
          | _ => None
          end
        end
      | None => None
      end
    else None
  | [] => None
  end.

Definition parseISO (h : Host) (argument : string) : JsDate.t :=
  let dateStrings := splitDateString (chars argument) in
  let date :=
    '(dateString) ← datePart dateStrings;
    if nonEmpty dateString then
      '(y, rest) ← parseYear dateString;
      parseDatePart rest y
    else None in
  match date with
  | None => Invalid
  | Some dayNo =>
    let timestamp := dayNo * msPerDay in
    let time :=
      match timePart dateStrings with
      | Some ts => if nonEmpty ts then parseTimePart ts else Some 0
      | None => Some 0
      end in
    match time with
    | None => Invalid
    | Some time =>
      match timezonePart dateStrings with
      | Some zone =>
        match parseTimezone zone with
        | Some offset => Valid (timestamp + time + offset)
        | None => Invalid
        end
      | None => Valid (timestamp + time - offsetMs h)
      end
    end
  end.

End DateFns.

(** ** The logger

    A call of the logger appends an entry to the log that the functions
    below return next to their result. *)

Inductive LogLevel := debug | info | warn | error.

Definition LogEntry : Type := LogLevel * string.

(** ** utils/date-parser.ts *)

Module DateParser.
Import JsString JsDate.

Definition DATE_FORMATS : list string :=
  ["MMMM d, yyyy"; "MMMM d yyyy"; "MMMM d";
   "MMM d, yyyy"; "MMM d yyyy"; "MMM d";
   "MM/dd/yyyy"; "M/d/yyyy"; "MM/dd"; "M/d";
   "yyyy-MM-dd";
   "EEEE, MMMM d, yyyy"; "EEEE, MMMM d"; "EEEE MMMM d";
   "EEE, MMM d"; "EEE MMM d";
   "d MMMM yyyy"; "d MMM yyyy"; "d MMMM"; "d MMM"].

Definition TIME_FORMATS : list string :=
  ["h:mm a"; "hh:mm a"; "H:mm"; "HH:mm"; "h a"; "ha"; "h:mma"; "hh:mma"].

Definition DAY_NAMES : list (string * Z) :=
  [("sunday", 0); ("sun", 0);
   ("monday", 1); ("mon", 1);
   ("tuesday", 2); ("tue", 2); ("tues", 2);
   ("wednesday", 3); ("wed", 3);
   ("thursday", 4); ("thu", 4); ("thurs", 4);
   ("friday", 5); ("fri", 5);
   ("saturday", 6); ("sat", 6)].

Fixpoint lookup (key : string) (table : list (string * Z)) : option Z :=
  match table with
  | [] => None
  | (k, v) :: rest => if String.eqb key k then Some v else lookup key rest
  end.

Definition isOrdinalSuffix (a b : ascii) : bool :=
  match Rx.oneOf true Rx.ordinalSuffixes [a; b] with
  | Some _ => true
  | None => false
  end.

(* replace(/(\d+)(st|nd|rd|th)/gi, '$1'): the two letters that follow a
   run of digits are dropped; [afterDigit] tells that the previous
   character was a digit *)
Fixpoint stripOrdinals (afterDigit : bool) (l : list ascii) : list ascii :=
  match l with
  | [] => []
  | a :: l' =>
    match l' with
    | b :: rest =>
      if afterDigit && isOrdinalSuffix a b then stripOrdinals false rest
      else a :: stripOrdinals (isDigit a) l'
    | [] => a :: stripOrdinals (isDigit a) l'
    end
  end.

(* the last step, replace(/[–—]/g, '-'), rewrites two characters that
   lie outside the character set of this model *)
Definition cleanDateString (dateStr : string) : string :=
  onChars (stripOrdinals false) (onChars collapseSpaces (trim dateStr)).

Definition cleanTimeString (timeStr : string) : string :=
  removeChars (Ascii.eqb ".") (onChars collapseSpaces (toUpperCase (trim timeStr))).

(* /(next|this)?\s*(monday|...|sunday)/ : the qualifier and the day *)
Definition dayMatchAt (l : list ascii) : option (option string * string) :=
  let day (qualifier : option string) (l : list ascii) :=
    match Rx.oneOf false Rx.weekdays (Rx.spaces l) with
    | Some (_, m, _) => Some (qualifier, ofChars m)
    | None => None
    end in
  match Rx.oneOf false ["next"; "this"] l with
  | Some (_, q, rest) =>
    match day (Some (ofChars q)) rest with
    | Some found => Some found
    | None => day None l
    end
  | None => day None l
  end.

(* /every\s*(monday|...|sunday)/ : the day *)
Definition everyMatchAt (ci : bool) (l : list ascii) : option string :=
  match Rx.literal ci (chars "every") l with
  | Some (_, rest) =>
    match Rx.oneOf ci Rx.weekdays (Rx.spaces rest) with
    | Some (_, m, _) => Some (ofChars m)
    | None => None
    end
  | None => None
  end.

Definition parseRelativeDate (h : Host) (dateStr : string) (reference : Z)
  : option JsDate.t :=
  let lower := toLowerCase dateStr in
  if String.eqb lower "today" then Some (Valid reference)
  else if String.eqb lower "tomorrow" then Some (Valid (DateFns.addDays reference 1))
  else
    let viaDay :=
      match Rx.search dayMatchAt (chars lower) with
      | Some (qualifier, dayName) =>
        match lookup dayName DAY_NAMES with
        | Some dayNum =>
          let result := DateFns.nextDay h reference dayNum in
          let result :=
            if (match qualifier with Some q => String.eqb q "next" | None => false end)
            then DateFns.addWeeks result 1 else result in
          Some (Valid result)
        | None => None
        end
      | None => None
      end in
    match viaDay with
    | Some result => Some result
    | None =>
      match Rx.search (everyMatchAt false) (chars lower) with
      | Some dayName =>
        match lookup dayName DAY_NAMES with
        | Some dayNum => Some (Valid (DateFns.nextDay h reference dayNum))
        | None => None
        end
      | None => None
      end
    end.

(* cleanedDate.match(/\d{4}/) *)
Definition hasFourDigits (s : string) : bool := Rx.test (Rx.digitsExactly 4) s.

(* the loop over DATE_FORMATS; the date is compared with the clock *)
Fixpoint tryFormats (h : Host) (cleanedDate : string) (reference : Z)
    (formats : list string) : option JsDate.t :=
  match formats with
  | [] => None
  | fmt :: rest =>
    match DateFns.parse h cleanedDate fmt reference with
    | Valid parsed =>
      if negb (hasFourDigits cleanedDate) then
        let now := now h in
        if parsed <? now
        then Some (Valid (setFullYear h parsed (getFullYear h now + 1)))
        else Some (Valid parsed)
      else Some (Valid parsed)
    | Invalid => tryFormats h cleanedDate reference rest
    end
  end.

(* [referenceDate] is a valid date when given *)
Definition parseDate (h : Host) (dateStr : string) (referenceDate : option Z)
  : option JsDate.t * list LogEntry :=
  if String.eqb dateStr "" then (None, [])
  else
    let cleanedDate := cleanDateString dateStr in
    let reference := match referenceDate with Some r => r | None => now h end in
    let isoDate := DateFns.parseISO h cleanedDate in
    if DateFns.isValid isoDate then (Some isoDate, [])
    else
      match tryFormats h cleanedDate reference DATE_FORMATS with
      | Some parsed => (Some parsed, [])
      | None =>
        match parseRelativeDate h cleanedDate reference with
        | Some relativeDate => (Some relativeDate, [])
        | None =>
          (None, [(warn, "Could not parse date: " +:+ quote +:+ dateStr +:+ quote)])
        end
      end.

Record Time := mkTime { hours : Z; minutes : Z }.

Fixpoint tryTimeFormats (h : Host) (cleanedTime : string) (formats : list string)
  : option Time :=
  match formats with
  | [] => None
  | fmt :: rest =>
    match DateFns.parse h cleanedTime fmt (now h) with
    | Valid parsed =>
      Some {| hours := getHours h parsed; minutes := getMinutes h parsed |}
    | Invalid => tryTimeFormats h cleanedTime rest
    end
  end.

(* /(\d{1,2})(?::(\d{2}))?\s*(am|pm)?/i : hour, minute and period *)
Definition simpleMatchAt (l : list ascii)
  : option (list ascii * option (list ascii) * option string) :=
  match Rx.digitsAtMost 2 l with
  | Some (hs, rest) =>
    let '(ms, rest) :=
      match rest with
      | ":"%char :: r =>
        match Rx.digitsExactly 2 r with
        | Some (ms, r') => (Some ms, r')
        | None => (None, rest)
        end
      | _ => (None, rest)
      end in
    let period :=
      match Rx.oneOf true ["am"; "pm"] (Rx.spaces rest) with
      | Some (_, m, _) => Some (ofChars m)
      | None => None
      end in
    Some (hs, ms, period)
  | None => None
  end.

Definition parseTime (h : Host) (timeStr : string) : option Time * list LogEntry :=
  if String.eqb timeStr "" then (None, [])
  else
    let cleanedTime := cleanTimeString timeStr in
    match tryTimeFormats h cleanedTime TIME_FORMATS with
    | Some time => (Some time, [])
    | None =>
      match Rx.search simpleMatchAt (chars cleanedTime) with
      | Some (hs, ms, period) =>
        let hours := JsNumber.parseDigits hs in
        let minutes := match ms with Some ds => JsNumber.parseDigits ds | None => 0 end in
        let period := option_map toLowerCase period in
        let hours :=
          if (match period with Some p => String.eqb p "pm" | None => false end)
             && negb (hours =? 12)
          then hours + 12 else hours in
        let hours :=
          if (match period with Some p => String.eqb p "am" | None => false end)
             && (hours =? 12)
          then 0 else hours in
        (Some {| hours := hours; minutes := minutes |}, [])
      | None =>
        (None, [(warn, "Could not parse time: " +:+ quote +:+ timeStr +:+ quote)])
      end
    end.

(* date.setHours(time.hours, time.minutes, 0, 0) rewrites the date that
   parseDate returned; the clock is read by parseDate and by parseTime *)
Definition parseDateTime (h : Host) (dateStr : string) (timeStr : option string)
  : option JsDate.t * list LogEntry :=
  let '(date, log) := parseDate h dateStr None in
  match date with
  | None => (None, log)
  | Some date =>
    if truthy timeStr then
      let '(time, timeLog) := parseTime h (orEmpty timeStr) in
      match time with
      | Some time =>
        (Some match date with
              | Valid t => Valid (setHours h t (hours time) (minutes time))
              | Invalid => Invalid
              end,
         log ++ timeLog)
      | None => (Some date, log ++ timeLog)
      end
    else (Some date, log)
  end.

(* /(\d+)(st|nd|rd|th)\s+and\s+(\d+)(st|nd|rd|th)\s+(monday|...)/i *)
Definition ordinalMatchAt (l : list ascii) : option (string * string * string) :=
  '(first, l) ← Rx.digits l;
  '(_, _, l) ← Rx.oneOf true Rx.ordinalSuffixes l;
  l ← Rx.spaces1 l;
  '(_, l) ← Rx.literal true (chars "and") l;
  l ← Rx.spaces1 l;
  '(second, l) ← Rx.digits l;
  '(_, _, l) ← Rx.oneOf true Rx.ordinalSuffixes l;
  l ← Rx.spaces1 l;
  '(_, day, _) ← Rx.oneOf true Rx.weekdays l;
  Some (ofChars first, ofChars second, ofChars day).

Definition detectRecurringPattern (dateStr : string) : option string :=
  let lower := toLowerCase dateStr in
  let everyPattern :=
    if includes lower "every" then
      match Rx.search (everyMatchAt true) (chars lower) with
      | Some day => Some ("weekly:" +:+ day)
      | None =>
        if includes lower "week" then Some "weekly"
        else if includes lower "month" then Some "monthly"
        else if includes lower "day" then Some "daily"
        else None
      end
    else None in
  match everyPattern with
  | Some pattern => Some pattern
  | None =>
    match Rx.search ordinalMatchAt (chars lower) with
    | Some (first, second, day) =>
      Some ("monthly:" +:+ first +:+ "," +:+ second +:+ ":" +:+ day)
    | None => None
    end
  end.

End DateParser.

(** ** Data model (types/event.ts) *)

Inductive EventType :=
| trivia | music | food | wine | beer | paint | comedy | tasting
| workshop | special | recurring | other.

Module VenueInfo.
Record t := mk {
  name : string;
  address : option string;
  city : option string;
  state : option string;
  zip : option string;
  url : option string;
  phone : option string
}.
End VenueInfo.

Module Event.
Record t := mk {
  id : string;
  title : string;
  description : option string;
  date : string;
  startTime : option string;
  endTime : option string;
  venue : VenueInfo.t;
  type : option EventType;
  tags : list string;
  url : option string;
  imageUrl : option string;
  price : option string;
  isRecurring : bool;
  recurringPattern : option string;
  scrapedAt : string;
  source : string;
  confidence : Q
}.
End Event.

(** ** utils/event-normalizer.ts *)

Module RawEventData.
Record t := mk {
  title : option string;
  date : option string;
  startTime : option string;
  endTime : option string;
  description : option string;
  url : option string;
  imageUrl : option string;
  price : option string
}.
End RawEventData.

(* how a statement completes: normally, or by throwing *)
Inductive Completion (A : Type) :=
| Normal (value : A)
| Throw (thrown : string).
Arguments Normal {A} value.
Arguments Throw {A} thrown.

Module EventNormalizer.
Import JsString.

(* in the order of the keys of the object *)
Definition EVENT_TYPE_KEYWORDS : list (EventType * list string) :=
  [(trivia, ["trivia"; "quiz"; "game night"; "pub quiz"]);
   (music, ["music"; "live band"; "concert"; "dj"; "acoustic"; "open mic";
            "karaoke"; "bingo"]);
   (food, ["food"; "dinner"; "brunch"; "lunch"; "food truck"; "bbq"; "taco";
           "burger"]);
   (wine, ["wine"; "vino"; "sommelier"; "vineyard"; "wine tasting"]);
   (beer, ["beer"; "brew"; "ale"; "ipa"; "lager"; "stout"; "tap takeover"]);
   (paint, ["paint"; "art"; "canvas"; "sip and paint"; "paint & sip"]);
   (comedy, ["comedy"; "stand-up"; "standup"; "comedian"; "improv"]);
   (tasting, ["tasting"; "flight"; "sampling"]);
   (workshop, ["workshop"; "class"; "learn"; "education"; "seminar"]);
   (special, ["special"; "holiday"; "celebration"; "anniversary";
              "grand opening"]);
   (recurring, []);
   (other, [])].

(* the key under which a type stands in the table *)
Definition typeName (type : EventType) : string :=
  match type with
  | trivia => "trivia" | music => "music" | food => "food" | wine => "wine"
  | beer => "beer" | paint => "paint" | comedy => "comedy"
  | tasting => "tasting" | workshop => "workshop" | special => "special"
  | recurring => "recurring" | other => "other"
  end.

(* s.toLowerCase().replace(/[^a-z0-9]/g, '') *)
Definition alnumOnly (s : string) : string :=
  removeChars (fun c => negb (isLower c || isDigit c)) (toLowerCase s).

(* the characters of [alnumOnly s], from those of [s] *)
Definition alnumChars (l : list ascii) : list ascii :=
  List.filter (fun c => (isLower c || isDigit c)%bool) (List.map lowerChar l).

(* a character that is neither a letter nor a digit *)
Definition isPunctuation (c : ascii) : bool := negb (isLetter c || isDigit c).

Definition hashInput (title date venue : string) : string :=
  let normalizedTitle := alnumOnly title in
  let normalizedVenue := alnumOnly venue in
  normalizedTitle +:+ "-" +:+ date +:+ "-" +:+ normalizedVenue.

Definition generateEventId (title date venue : string) : string :=
  let hash := String.substring 0 8 (Md5.hexdigest (hashInput title date venue)) in
  "evt-" +:+ hash.

Definition eventText (title : string) (description : option string) : string :=
  toLowerCase (title +:+ " " +:+ orEmpty description).

Definition anyKeyword (text : string) (keywords : list string) : bool :=
  List.existsb (fun keyword => includes text keyword) keywords.

Fixpoint firstType (text : string) (table : list (EventType * list string))
  : EventType :=
  match table with
  | [] => other
  | (type, keywords) :: rest =>
    if anyKeyword text keywords then type else firstType text rest
  end.

Definition detectEventType (title : string) (description : option string)
  : EventType :=
  firstType (eventText title description) EVENT_TYPE_KEYWORDS.

(* Set.add: a value already present keeps its place *)
Definition setAdd (tags : list string) (tag : string) : list string :=
  if List.existsb (String.eqb tag) tags then tags else tags ++ [tag].

(* /(monday|...|sunday)s?/gi : the text of the first match *)
Definition dayTagAt (l : list ascii) : option (list ascii) :=
  match Rx.oneOf true Rx.weekdays l with
  | Some (_, m, rest) =>
    match rest with
    | c :: _ => if Rx.sameLetter c "s" then Some (m ++ [c]) else Some m
    | [] => Some m
    end
  | None => None
  end.

(* replace(/s$/, '') *)
Definition dropFinalS (s : string) : string :=
  onChars
    (fun l =>
       match List.rev l with
       | "s"%char :: r => List.rev r
       | _ => l
       end) s.

Definition extractTags (title : string) (description : option string)
  : list string :=
  let text := eventText title description in
  let tags :=
    fold_left
      (fun tags '(type, keywords) =>
         if anyKeyword text keywords then setAdd tags (typeName type) else tags)
      EVENT_TYPE_KEYWORDS [] in
  match Rx.search dayTagAt (chars text) with
  | Some dayMatch => setAdd tags (dropFinalS (toLowerCase (ofChars dayMatch)))
  | None => tags
  end.

(* the dashes other than the hyphen lie outside the character set *)
Definition normalizeTitle (title : string) : string :=
  let s := onChars collapseSpaces (trim title) in
  let s :=
    onChars
      (fun l =>
         match l with
         | "-"%char :: r => dropSpaces r
         | _ => l
         end) s in
  onChars
    (fun l =>
       match List.rev l with
       | "-"%char :: r => List.rev (dropSpaces r)
       | _ => l
       end) s.

Definition calculateConfidence (data : RawEventData.t) : Q :=
  let score := Double.literal (5 # 10) in
  let score :=
    if truthy (RawEventData.title data)
       && Nat.ltb 5 (String.length (orEmpty (RawEventData.title data)))
    then Double.add score (Double.literal (1 # 10)) else score in
  let score :=
    if truthy (RawEventData.date data)
    then Double.add score (Double.literal (15 # 100)) else score in
  let score :=
    if truthy (RawEventData.startTime data)
    then Double.add score (Double.literal (1 # 10)) else score in
  let score :=
    if truthy (RawEventData.description data)
       && Nat.ltb 20 (String.length (orEmpty (RawEventData.description data)))
    then Double.add score (Double.literal (1 # 10)) else score in
  let score :=
    if truthy (RawEventData.url data)
    then Double.add score (Double.literal (5 # 100)) else score in
  Double.min score 1.

(* date.toISOString(): a RangeError on an invalid date *)
Definition toISOString (date : JsDate.t) : Completion string :=
  match date with
  | JsDate.Valid t => Normal (JsDate.toISOString t)
  | JsDate.Invalid => Throw "RangeError: Invalid time value"
  end.

(* the statements inside the try block *)
Definition normalizeBody (h : Host) (rawData : RawEventData.t)
    (venue : VenueInfo.t) (source : string)
  : Completion (option Event.t) * list LogEntry :=
  if negb (truthy (RawEventData.title rawData))
  then (Normal None, [(warn, "Event missing title, skipping")])
  else
    let title := orEmpty (RawEventData.title rawData) in
    let '(date, log) :=
      if truthy (RawEventData.date rawData)
      then DateParser.parseDate h (orEmpty (RawEventData.date rawData)) None
      else (None, []) in
    match date with
    | None =>
      (Normal None,
       log ++ [(warn, "Could not parse date for event " +:+ quote +:+ title
                        +:+ quote +:+ ": "
                        +:+ match RawEventData.date rawData with
                            | Some d => d
                            | None => "undefined"
                            end)])
    | Some date =>
      match toISOString date with
      | Throw e => (Throw e, log)
      | Normal dateStr =>
        let id := generateEventId title dateStr (VenueInfo.name venue) in
        let eventType := detectEventType title (RawEventData.description rawData) in
        let tags := extractTags title (RawEventData.description rawData) in
        let recurringPattern :=
          if truthy (RawEventData.date rawData)
          then DateParser.detectRecurringPattern (orEmpty (RawEventData.date rawData))
          else None in
        (Normal
           (Some
              {| Event.id := id;
                 Event.title := normalizeTitle title;
                 Event.description := option_map trim (RawEventData.description rawData);
                 Event.date := dateStr;
                 Event.startTime := RawEventData.startTime rawData;
                 Event.endTime := RawEventData.endTime rawData;
                 Event.venue := venue;
                 Event.type := Some eventType;
                 Event.tags := tags;
                 Event.url := RawEventData.url rawData;
                 Event.imageUrl := RawEventData.imageUrl rawData;
                 Event.price := RawEventData.price rawData;
                 Event.isRecurring := truthy recurringPattern;
                 Event.recurringPattern :=
                   if truthy recurringPattern then recurringPattern else None;
                 Event.scrapedAt := JsDate.toISOString (now h);
                 Event.source := source;
                 Event.confidence := calculateConfidence rawData |}),
         log)
      end
    end.

(* try { ... } catch (error) { logger.error(...); return null } *)
Definition normalizeEvent (h : Host) (rawData : RawEventData.t)
    (venue : VenueInfo.t) (source : string) : option Event.t * list LogEntry :=
  match normalizeBody h rawData venue source with
  | (Normal result, log) => (result, log)
  | (Throw e, log) => (None, log ++ [(error, "Error normalizing event: " +:+ e)])
  end.

End EventNormalizer.

(** ** core/base-scraper.ts: the loop of [scrape] over the raw events *)

Module BaseScraper.
Import JsString.

(* `Could not normalize event: ${rawEvent.title || 'Unknown'}` *)
Definition warningFor (rawEvent : RawEventData.t) : string :=
  "Could not normalize event: "
  +:+ (if truthy (RawEventData.title rawEvent)
       then orEmpty (RawEventData.title rawEvent)
       else "Unknown").

(* the clock may advance from one record to the next: [hostAt i] is the
   host while record [i] is normalised; the result is the array of
   events, the array of warnings and what was logged *)
Fixpoint normalizeAll (hostAt : nat -> Host) (index : nat)
    (rawEvents : list RawEventData.t) (venue : VenueInfo.t) (source : string)
  : list Event.t * list string * list LogEntry :=
  match rawEvents with
  | [] => ([], [], [])
  | rawEvent :: rest =>
    let '(event, log) :=
      EventNormalizer.normalizeEvent (hostAt index) rawEvent venue source in
    let '(events, warnings, logs) :=
      normalizeAll hostAt (S index) rest venue source in
    match event with
    | Some event => (event :: events, warnings, log ++ logs)
    | None => (events, warningFor rawEvent :: warnings, log ++ logs)
    end
  end.

End BaseScraper.

(** ** Insertion-ordered [Map] with string keys *)

Module JsMap.

Definition t (V : Type) : Type := list (string * V).

Definition empty {V} : t V := [].

Fixpoint get {V} (k : string) (m : t V) : option V :=
  match m with
  | [] => None
  | (k', v) :: m' => if String.eqb k k' then Some v else get k m'
  end.

Definition has {V} (k : string) (m : t V) : bool :=
  match get k m with Some _ => true | None => false end.

(* an existing key keeps its position, a new key goes last *)
Fixpoint set {V} (k : string) (v : V) (m : t V) : t V :=
  match m with
  | [] => [(k, v)]
  | (k', v') :: m' =>
    if String.eqb k k' then (k', v) :: m' else (k', v') :: set k v m'
  end.

Definition keys {V} (m : t V) : list string := List.map fst m.
Definition values {V} (m : t V) : list V := List.map snd m.

End JsMap.

(** ** utils/deduplicator.ts *)

Module EventDeduplicator.
Import JsString.

Record EventFingerprint := mkFingerprint {
  normalizedTitle : string;
  date : string;
  venue : string
}.

Definition keptByNormalize (c : ascii) : bool :=
  (isLower c || isDigit c || isSpace c)%bool.

Definition normalizeString (str : string) : string :=
  trim
    (onChars collapseSpaces
       (removeChars (fun c => negb (keptByNormalize c))
          (toLowerCase str))).

Definition getFingerprint (event : Event.t) : EventFingerprint :=
  {| normalizedTitle := normalizeString (Event.title event);
     date := splitHead "T" (Event.date event);
     venue := normalizeString (VenueInfo.name (Event.venue event)) |}.

Definition fingerprintKey (fp : EventFingerprint) : string :=
  normalizedTitle fp +:+ "|" +:+ date fp +:+ "|" +:+ venue fp.

Definition eventKey (event : Event.t) : string :=
  fingerprintKey (getFingerprint event).

(* the completeness score computed inside selectBestEvent *)
Definition completeness (event : Event.t) : Q :=
  let score := 0%Q in
  let score :=
    if truthy (Event.description event)
    then Double.add score
           (Double.div
              (inject_Z (Z.of_nat (String.length (orEmpty (Event.description event)))))
              100)
    else score in
  let score := if truthy (Event.startTime event) then Double.add score 1 else score in
  let score := if truthy (Event.endTime event) then Double.add score 1 else score in
  let score := if truthy (Event.url event) then Double.add score 1 else score in
  let score := if truthy (Event.imageUrl event) then Double.add score 1 else score in
  let score :=
    if truthy (Event.price event)
    then Double.add score (Double.literal (5 # 10)) else score in
  let score :=
    if Nat.ltb 0 (List.length (Event.tags event))
    then Double.add score (Double.literal (5 # 10)) else score in
  Double.add score (Event.confidence event).

(* [None] is the TypeError of reading [scored[0].event] on an empty group *)
Definition selectBestEvent (events : list Event.t) : option Event.t :=
  let scored := List.map (fun event => (event, completeness event)) events in
  let scored := JsArray.sort (fun a b => Double.sub (snd b) (snd a)) scored in
  match scored with
  | [] => None
  | first :: _ => Some (fst first)
  end.

(* one iteration of the grouping loop; [None] is the TypeError of
   pushing onto a missing entry *)
Definition addToGroup (seen : JsMap.t (list Event.t)) (event : Event.t)
  : option (JsMap.t (list Event.t)) :=
  let fp := getFingerprint event in
  let key := fingerprintKey fp in
  let seen := if negb (JsMap.has key seen) then JsMap.set key [] seen else seen in
  match JsMap.get key seen with
  | Some group => Some (JsMap.set key (group ++ [event]) seen)
  | None => None
  end.

Fixpoint groupEvents (events : list Event.t) (seen : JsMap.t (list Event.t))
  : option (JsMap.t (list Event.t)) :=
  match events with
  | [] => Some seen
  | event :: rest =>
    match addToGroup seen event with
    | Some seen' => groupEvents rest seen'
    | None => None
    end
  end.

Fixpoint selectAll (groups : list (list Event.t)) : option (list Event.t) :=
  match groups with
  | [] => Some []
  | g :: rest =>
    match selectBestEvent g, selectAll rest with
    | Some best, Some out => Some (best :: out)
    | _, _ => None
    end
  end.

(* the debug/info log lines count the removed duplicates and do not
   influence the returned array *)
Definition deduplicate (events : list Event.t) : option (list Event.t) :=
  match groupEvents events JsMap.empty with
  | Some seen => selectAll (JsMap.values seen)
  | None => None
  end.

(* str.split(' '): never an empty array *)
Definition words (str : string) : list string :=
  List.map ofChars (DateFns.splitOn (Ascii.eqb " ") (chars str)).

(* the Jaccard index of the word sets of the two titles, once the venue
   and the day agree *)
Definition calculateSimilarity (a b : EventFingerprint) : Q :=
  if (negb (String.eqb (venue a) (venue b))
      || negb (String.eqb (date a) (date b)))%bool
  then 0%Q
  else
    let wordsA : gset string := list_to_set (words (normalizedTitle a)) in
    let wordsB : gset string := list_to_set (words (normalizedTitle b)) in
    let intersection : gset string := filter (fun x => x ∈ wordsB) wordsA in
    let union : gset string := wordsA ∪ wordsB in
    (inject_Z (Z.of_nat (size intersection)) / inject_Z (Z.of_nat (size union)))%Q.

(* threshold: number = 0.8 *)
Definition defaultThreshold : Q := (8 # 10)%Q.

Definition findSimilar (event : Event.t) (events : list Event.t) (threshold : Q)
  : list Event.t :=
  let fp := getFingerprint event in
  List.filter
    (fun other =>
       if String.eqb (Event.id event) (Event.id other) then false
       else
         let otherFp := getFingerprint other in
         let similarity := calculateSimilarity fp otherFp in
         Qle_bool threshold similarity)
    events.

End EventDeduplicator.

(** Vocabulary of the deduplication properties *)

Module DedupSpec.
Import JsString EventDeduplicator.

(* the distinct keys of a list, in order of first appearance *)
Fixpoint firstSeen (ks : list string) : list string :=
  match ks with
  | [] => []
  | k :: rest =>
    k :: List.filter (fun k' => negb (String.eqb k' k)) (firstSeen rest)
  end.

(* the members of a fingerprint group, in input order *)
Definition groupOf (k : string) (events : list Event.t) : list Event.t :=
  List.filter (fun e => String.eqb (eventKey e) k) events.

(* the map the grouping loop has built after the events [seen] *)
Definition grouping (seen : list Event.t) : JsMap.t (list Event.t) :=
  List.map (fun k => (k, groupOf k seen)) (firstSeen (List.map eventKey seen)).

(* [r] is the first member of [g] whose completeness is maximal *)
Definition firstBest (r : Event.t) (g : list Event.t) : Prop :=
  exists before after,
    g = before ++ r :: after /\
    List.Forall (fun e => (completeness e < completeness r)%Q) before /\
    List.Forall (fun e => (completeness e <= completeness r)%Q) after.

(* the completeness score as the specification words it: the terms
   that apply, added from the left in double precision *)
Definition scoreTerms (e : Event.t) : list Q :=
  (if truthy (Event.description e)
   then [Double.div
           (inject_Z (Z.of_nat (String.length (orEmpty (Event.description e))))) 100]
   else [])
  ++ (if truthy (Event.startTime e) then [1%Q] else [])
  ++ (if truthy (Event.endTime e) then [1%Q] else [])
  ++ (if truthy (Event.url e) then [1%Q] else [])
  ++ (if truthy (Event.imageUrl e) then [1%Q] else [])
  ++ (if truthy (Event.price e) then [Double.literal (5 # 10)] else [])
  ++ (match Event.tags e with [] => [] | _ :: _ => [Double.literal (5 # 10)] end)
  ++ [Event.confidence e].

Definition scoreFormula (e : Event.t) : Q :=
  List.fold_left Double.add (scoreTerms e) 0%Q.

End DedupSpec.

(** ** types/venue-status.ts *)

Module ScrapeEntry.
Record t := mk {
  scrapedAt : string;
  hadFutureEvents : bool;
  futureEventCount : Z;
  totalEventCount : Z;
  lastEventDate : option string
}.
End ScrapeEntry.

Module VenueStatus.
Record t := mk {
  venueId : string;
  venueName : string;
  lastScrapedAt : string;
  lastEventDate : option string;
  hasFutureEvents : bool;
  futureEventCount : Z;
  totalEventCount : Z;
  consecutiveScrapesWithNoFutureEvents : Z;
  scrapeHistory : option (list ScrapeEntry.t)
}.
End VenueStatus.

Module VenueStatusFile.
Record t := mk {
  version : string;
  updatedAt : string;
  venues : gmap string VenueStatus.t
}.
End VenueStatusFile.

Inductive Recommendation := keep | monitor | disable.

Module StalenessReport.
Record t := mk {
  venueId : string;
  venueName : string;
  isStale : bool;
  reason : option string;
  lastEventDate : option string;
  daysSinceLastEvent : option JsNumber.t;
  consecutiveEmptyScrapes : Z;
  recommendation : Recommendation
}.
End StalenessReport.

(** ** utils/venue-status-manager.ts

    [dateOfString] is the [Date] constructor applied to a string; the
    manager is studied for every behaviour of it.  The state of a
    manager is its field [statusFile], [None] until the first [load];
    [disk] is the parsed content of the status file, [None] when it
    cannot be read. *)

Module VenueStatusManager.
Section Manager.

Variable dateOfString : string -> JsDate.t.
Variable host : Host.

Definition MAX_HISTORY_ENTRIES : Z := 10.
Definition STALE_DAYS_THRESHOLD : Z := 90.
Definition CONSECUTIVE_EMPTY_THRESHOLD : Z := 3.

Definition State : Type := option VenueStatusFile.t.

Definition load (disk : option VenueStatusFile.t) (st : State)
  : State * VenueStatusFile.t :=
  match st with
  | Some statusFile => (st, statusFile)
  | None =>
    let statusFile :=
      match disk with
      | Some parsed => parsed
      | None =>
        {| VenueStatusFile.version := "1.0.0";
           VenueStatusFile.updatedAt := JsDate.toISOString (now host);
           VenueStatusFile.venues := ∅ |}
      end in
    (Some statusFile, statusFile)
  end.

(* eventDate >= startOfDay; a comparison with an invalid date is false *)
Definition notBefore (eventDate : JsDate.t) (startOfDay : Z) : bool :=
  match eventDate with
  | JsDate.Valid t => startOfDay <=? t
  | JsDate.Invalid => false
  end.

Definition filterFutureEvents (events : list Event.t) (asOfDate : Z)
  : list Event.t :=
  let startOfDay := JsDate.startOfDay host asOfDate in
  List.filter
    (fun event =>
       let eventDate := dateOfString (Event.date event) in
       notBefore eventDate startOfDay)
    events.

(* the time values of the valid dates of a list *)
Fixpoint validTimes (dates : list JsDate.t) : list Z :=
  match dates with
  | [] => []
  | JsDate.Valid t :: rest => t :: validTimes rest
  | JsDate.Invalid :: rest => validTimes rest
  end.

(* Math.max(...times) on a list that is not empty *)
Definition maxTime (first : Z) (rest : list Z) : Z := fold_left Z.max rest first.

Definition findLastEventDate (events : list Event.t) : option string :=
  match events with
  | [] => None
  | _ :: _ =>
    let dates := validTimes (List.map (fun e => dateOfString (Event.date e)) events) in
    match dates with
    | [] => None
    | first :: rest =>
      let maxDate := maxTime first rest in
      Some (JsDate.toISOString maxDate)
    end
  end.

Definition updateHistory (existing : option (list ScrapeEntry.t))
    (newEntry : ScrapeEntry.t) : option (list ScrapeEntry.t) :=
  let history := match existing with Some l => l | None => [] end in
  let history := history ++ [newEntry] in
  if MAX_HISTORY_ENTRIES <? Z.of_nat (List.length history)
  then Some (List.skipn (List.length history - Z.to_nat MAX_HISTORY_ENTRIES) history)
  else Some history.

Definition updateVenueStatus (disk : option VenueStatusFile.t) (st : State)
    (venueId venueName : string) (allEvents futureEvents : list Event.t)
    (scrapedAt : Z) : State * VenueStatus.t :=
  let '(_, statusFile) := load disk st in
  let lastEventDate := findLastEventDate allEvents in
  let hasFutureEvents := 0 <? Z.of_nat (List.length futureEvents) in
  let existingStatus := VenueStatusFile.venues statusFile !! venueId in
  let previousConsecutive :=
    match existingStatus with
    | Some s => VenueStatus.consecutiveScrapesWithNoFutureEvents s
    | None => 0
    end in
  let status :=
    {| VenueStatus.venueId := venueId;
       VenueStatus.venueName := venueName;
       VenueStatus.lastScrapedAt := JsDate.toISOString scrapedAt;
       VenueStatus.lastEventDate := lastEventDate;
       VenueStatus.hasFutureEvents := hasFutureEvents;
       VenueStatus.futureEventCount := Z.of_nat (List.length futureEvents);
       VenueStatus.totalEventCount := Z.of_nat (List.length allEvents);
       VenueStatus.consecutiveScrapesWithNoFutureEvents :=
         if hasFutureEvents then 0 else previousConsecutive + 1;
       VenueStatus.scrapeHistory :=
         updateHistory
           (match existingStatus with
            | Some s => VenueStatus.scrapeHistory s
            | None => None
            end)
           {| ScrapeEntry.scrapedAt := JsDate.toISOString scrapedAt;
              ScrapeEntry.hadFutureEvents := hasFutureEvents;
              ScrapeEntry.futureEventCount := Z.of_nat (List.length futureEvents);
              ScrapeEntry.totalEventCount := Z.of_nat (List.length allEvents);
              ScrapeEntry.lastEventDate := lastEventDate |} |} in
  (Some {| VenueStatusFile.version := VenueStatusFile.version statusFile;
           VenueStatusFile.updatedAt := VenueStatusFile.updatedAt statusFile;
           VenueStatusFile.venues :=
             <[venueId := status]> (VenueStatusFile.venues statusFile) |},
   status).

(* one scrape as the command runs it (cli/commands/validate.ts): the
   future events are the batch filtered as of the scrape date *)
Definition recordScrape (disk : option VenueStatusFile.t) (st : State)
    (venueId venueName : string) (events : list Event.t) (scrapeDate : Z)
  : State * VenueStatus.t :=
  let futureEvents := filterFutureEvents events scrapeDate in
  updateVenueStatus disk st venueId venueName events futureEvents scrapeDate.

(* Math.floor((asOf - lastEvent) / (1000 * 60 * 60 * 24)) *)
Definition daysBetween (lastEvent : JsDate.t) (asOfDate : Z) : JsNumber.t :=
  match lastEvent with
  | JsDate.Valid t => JsNumber.Num ((asOfDate - t) / (1000 * 60 * 60 * 24))
  | JsDate.Invalid => JsNumber.NaN
  end.

Definition analyzeVenueStaleness (status : VenueStatus.t) (asOfDate : Z)
  : StalenessReport.t :=
  let consecutive := VenueStatus.consecutiveScrapesWithNoFutureEvents status in
  let '(daysSinceLastEvent, reason, isStale, recommendation) :=
    if JsString.truthy (VenueStatus.lastEventDate status)
    then
      let lastEvent := dateOfString (JsString.orEmpty (VenueStatus.lastEventDate status)) in
      let days := daysBetween lastEvent asOfDate in
      if JsNumber.gt days STALE_DAYS_THRESHOLD
      then (Some days,
            Some ("Last event was " +:+ JsNumber.show days +:+ " days ago"),
            true, disable)
      else (Some days, None, false, keep)
    else
      (None, Some "No events ever found", true,
       if CONSECUTIVE_EMPTY_THRESHOLD <=? consecutive then disable else monitor) in
  let '(reason, isStale, recommendation) :=
    if CONSECUTIVE_EMPTY_THRESHOLD <=? consecutive
    then
      (Some
         (match reason with
          | Some r =>
            r +:+ "; " +:+ JsNumber.showZ consecutive
              +:+ " consecutive scrapes with no future events"
          | None =>
            JsNumber.showZ consecutive
              +:+ " consecutive scrapes with no future events"
          end),
       true, disable)
    else if (0 <? consecutive)
            && negb (match recommendation with disable => true | _ => false end)
    then (reason, isStale, monitor)
    else (reason, isStale, recommendation) in
  {| StalenessReport.venueId := VenueStatus.venueId status;
     StalenessReport.venueName := VenueStatus.venueName status;
     StalenessReport.isStale := isStale;
     StalenessReport.reason := reason;
     StalenessReport.lastEventDate := VenueStatus.lastEventDate status;
     StalenessReport.daysSinceLastEvent := daysSinceLastEvent;
     StalenessReport.consecutiveEmptyScrapes := consecutive;
     StalenessReport.recommendation := recommendation |}.

Definition getVenueStatus (disk : option VenueStatusFile.t) (st : State)
    (venueId : string) : State * option VenueStatus.t :=
  let '(st', statusFile) := load disk st in
  (st', VenueStatusFile.venues statusFile !! venueId).

(* const order = { disable: 0, monitor: 1, keep: 2 } *)
Definition order (recommendation : Recommendation) : Z :=
  match recommendation with
  | disable => 0
  | monitor => 1
  | keep => 2
  end.

(* [objectValues] is Object.values on the record of venues: the statuses
   in the order in which the engine enumerates the keys *)
Definition generateStalenessReport
    (objectValues : gmap string VenueStatus.t -> list VenueStatus.t)
    (disk : option VenueStatusFile.t) (st : State) (asOfDate : Z)
  : State * list StalenessReport.t :=
  let '(st', statusFile) := load disk st in
  let reports :=
    List.map (fun status => analyzeVenueStaleness status asOfDate)
      (objectValues (VenueStatusFile.venues statusFile)) in
  (st',
   JsArray.sort
     (fun a b =>
        inject_Z (order (StalenessReport.recommendation a)
                  - order (StalenessReport.recommendation b)))
     reports).

(* the reports of a list that carry a given recommendation *)
Definition recommended (recommendation : Recommendation)
    (reports : list StalenessReport.t) : list StalenessReport.t :=
  List.filter
    (fun report =>
       order (StalenessReport.recommendation report) =? order recommendation)
    reports.

End Manager.
End VenueStatusManager.

(** ** Runs of the scrape command (cli/commands/validate.ts)

    The status files that the command can produce when it starts
    without a status file.  Each venue of a run is recorded by one call
    of [updateVenueStatus], on the batch of the venue filtered as of the
    scrape date or, after a failed scrape, on the empty batch; at the
    end of a run [save] stamps the file, and the next run loads it. *)

Module ScrapeRuns.
Section Runs.

Variable dateOfString : string -> JsDate.t.

(* this.statusFile.updatedAt = new Date().toISOString() *)
Definition stamped (host : Host) (file : VenueStatusFile.t) : VenueStatusFile.t :=
  {| VenueStatusFile.version := VenueStatusFile.version file;
     VenueStatusFile.updatedAt := JsDate.toISOString (now host);
     VenueStatusFile.venues := VenueStatusFile.venues file |}.

Inductive reachable : VenueStatusFile.t -> Prop :=
| reachable_fresh (host : Host) :
    reachable (snd (VenueStatusManager.load host None None))
| reachable_scrape (host : Host) (file file' : VenueStatusFile.t)
    (venueId venueName : string) (events : list Event.t) (scrapeDate : Z) :
    reachable file ->
    fst (VenueStatusManager.recordScrape dateOfString host None (Some file)
           venueId venueName events scrapeDate) = Some file' ->
    reachable file'
| reachable_saved (host : Host) (file : VenueStatusFile.t) :
    reachable file -> reachable (stamped host file).

(* what holds of a status stored under a key *)
Definition consistent (venueId : string) (status : VenueStatus.t) : Prop :=
  VenueStatus.venueId status = venueId /\
  0 <= VenueStatus.consecutiveScrapesWithNoFutureEvents status /\
  (VenueStatus.hasFutureEvents status = true <->
   VenueStatus.consecutiveScrapesWithNoFutureEvents status = 0) /\
  (VenueStatus.hasFutureEvents status = true <->
   0 < VenueStatus.futureEventCount status) /\
  0 <= VenueStatus.futureEventCount status <= VenueStatus.totalEventCount status /\
  (VenueStatus.hasFutureEvents status = true ->
   JsString.truthy (VenueStatus.lastEventDate status) = true) /\
  exists history,
    VenueStatus.scrapeHistory status = Some history /\
    (1 <= List.length history <= 10)%nat.

End Runs.
End ScrapeRuns.

(** ** Sample data *)

Module Samples.

Definition crookedLane : VenueInfo.t :=
  {| VenueInfo.name := "Crooked Lane"; VenueInfo.address := None;
     VenueInfo.city := None; VenueInfo.state := None; VenueInfo.zip := None;
     VenueInfo.url := None; VenueInfo.phone := None |}.

Definition triviaNight : RawEventData.t :=
  {| RawEventData.title := Some "Trivia Night";
     RawEventData.date := Some "Every Thursday";
     RawEventData.startTime := Some "7pm";
     RawEventData.endTime := None; RawEventData.description := None;
     RawEventData.url := None; RawEventData.imageUrl := None;
     RawEventData.price := None |}.

(* an event as the normaliser builds it, dated by the given string *)
Definition triviaEvent (date : string) : Event.t :=
  {| Event.id := EventNormalizer.generateEventId "Trivia Night" date "Crooked Lane";
     Event.title := "Trivia Night"; Event.description := None;
     Event.date := date; Event.startTime := Some "7pm"; Event.endTime := None;
     Event.venue := crookedLane; Event.type := Some trivia;
     Event.tags := ["trivia"]; Event.url := None; Event.imageUrl := None;
     Event.price := None; Event.isRecurring := true;
     Event.recurringPattern := Some "weekly:thursday";
     Event.scrapedAt := "2025-06-01T12:00:00.000Z";
     Event.source := "crooked-lane";
     Event.confidence := Double.literal (85 # 100) |}.

(* an event of the same venue under another title *)
Definition eventTitled (title date : string) : Event.t :=
  {| Event.id := EventNormalizer.generateEventId title date "Crooked Lane";
     Event.title := title; Event.description := None;
     Event.date := date; Event.startTime := None; Event.endTime := None;
     Event.venue := crookedLane; Event.type := Some trivia;
     Event.tags := ["trivia"]; Event.url := None; Event.imageUrl := None;
     Event.price := None; Event.isRecurring := false;
     Event.recurringPattern := None;
     Event.scrapedAt := "2025-06-01T12:00:00.000Z";
     Event.source := "crooked-lane";
     Event.confidence := Double.literal (75 # 100) |}.

(* an event of that venue and title with the given start time, tags and
   confidence, the confidence written as a decimal literal *)
Definition scored (date : string) (startTime : option string)
    (tags : list string) (confidence : Q) : Event.t :=
  {| Event.id := EventNormalizer.generateEventId "Trivia Night" date "Crooked Lane";
     Event.title := "Trivia Night"; Event.description := None;
     Event.date := date; Event.startTime := startTime; Event.endTime := None;
     Event.venue := crookedLane; Event.type := Some trivia;
     Event.tags := tags; Event.url := None; Event.imageUrl := None;
     Event.price := None; Event.isRecurring := false;
     Event.recurringPattern := None;
     Event.scrapedAt := "2025-06-01T12:00:00.000Z";
     Event.source := "crooked-lane";
     Event.confidence := Double.literal confidence |}.

(* the status of a venue whose last two scrapes found nothing ahead *)
Definition quietStatus : VenueStatus.t :=
  {| VenueStatus.venueId := "crooked-lane";
     VenueStatus.venueName := "Crooked Lane";
     VenueStatus.lastScrapedAt := "2025-05-25T12:00:00.000Z";
     VenueStatus.lastEventDate := Some "2025-01-05T08:00:00.000Z";
     VenueStatus.hasFutureEvents := false;
     VenueStatus.futureEventCount := 0;
     VenueStatus.totalEventCount := 1;
     VenueStatus.consecutiveScrapesWithNoFutureEvents := 2;
     VenueStatus.scrapeHistory := Some [] |}.

Definition statusFile : VenueStatusFile.t :=
  {| VenueStatusFile.version := "1.0.0";
     VenueStatusFile.updatedAt := "2025-05-25T12:00:00.000Z";
     VenueStatusFile.venues := {[ "crooked-lane" := quietStatus ]} |}.

(* a host in UTC with its clock at the given instant *)
Definition utcAt (instant : string) : Host := mkHost (JsDate.timeOf instant) 0.

(* a host eight hours behind UTC *)
Definition pacificAt (instant : string) : Host := mkHost (JsDate.timeOf instant) (-480).

End Samples.

(** * Strings *)

Section StringFacts.
Import JsString.

Lemma chars_ofChars (l : list ascii) : chars (ofChars l) = l.
Proof. apply list_ascii_of_string_of_list_ascii. Qed.

Lemma ofChars_chars (s : string) : ofChars (chars s) = s.
Proof. apply string_of_list_ascii_of_string. Qed.

Lemma chars_append (s1 s2 : string) : chars (s1 +:+ s2) = chars s1 ++ chars s2.
Proof.
  unfold chars. induction s1 as [|c s1 IH]; simpl; [reflexivity|].
  f_equal. exact IH.
Qed.

Lemma chars_inj (s1 s2 : string) : chars s1 = chars s2 -> s1 = s2.
Proof. intros H. rewrite <- (ofChars_chars s1), <- (ofChars_chars s2). now rewrite H. Qed.

Lemma split_at_first (sep : ascii) (a a' x x' : list ascii) :
  ~ List.In sep a -> ~ List.In sep a' ->
  a ++ sep :: x = a' ++ sep :: x' -> a = a' /\ x = x'.
Proof.
  revert a'. induction a as [|c a IH]; intros [|c' a'] Ha Ha' H; simpl in *.
  - now inversion H.
  - inversion H; subst. exfalso. apply Ha'. now left.
  - inversion H; subst. exfalso. apply Ha. now left.
  - inversion H; subst. destruct (IH a') as [-> ->]; auto.
Qed.

Lemma split_at_last (sep : ascii) (d d' v v' : list ascii) :
  ~ List.In sep v -> ~ List.In sep v' ->
  d ++ sep :: v = d' ++ sep :: v' -> d = d' /\ v = v'.
Proof.
  intros Hv Hv' H. apply (f_equal (@List.rev ascii)) in H.
  rewrite !List.rev_app_distr in H. simpl in H. rewrite <- !List.app_assoc in H.
  simpl in H. apply split_at_first in H.
  - destruct H as [H1 H2]. split.
    + rewrite <- (List.rev_involutive d), <- (List.rev_involutive d'). now rewrite H2.
    + rewrite <- (List.rev_involutive v), <- (List.rev_involutive v'). now rewrite H1.
  - now rewrite <- List.in_rev.
  - now rewrite <- List.in_rev.
Qed.

End StringFacts.

(** * Double-precision arithmetic *)

Section DoubleFacts.
Import Double.

Lemma pow2_pos (e : Z) : (0 < pow2 e)%Q.
Proof. apply Qpower_0_lt. reflexivity. Qed.

Lemma pow2_add (a b : Z) : (pow2 (a + b) == pow2 a * pow2 b)%Q.
Proof. apply Qpower_plus. discriminate. Qed.

Lemma pow2_nonneg (e : Z) : 0 <= e -> (pow2 e == inject_Z (2 ^ e))%Q.
Proof. intros He. unfold pow2. now rewrite Zpower_Qpower. Qed.

Lemma pow2_ge_1 (e : Z) : 0 <= e -> (1 <= pow2 e)%Q.
Proof.
  intros He. rewrite (pow2_nonneg e He).
  change 1%Q with (inject_Z 1). rewrite <- Zle_Qle.
  assert (0 < 2 ^ e) by (apply Z.pow_pos_nonneg; lia). lia.
Qed.

Lemma pow2_le (a b : Z) : a <= b -> (pow2 a <= pow2 b)%Q.
Proof.
  intros Hab. replace b with (a + (b - a)) by lia. rewrite pow2_add.
  pose proof (pow2_pos a). pose proof (pow2_ge_1 (b - a) ltac:(lia)). nra.
Qed.

Lemma nearestEven_cases (x : Q) :
  nearestEven x = Qfloor x \/ nearestEven x = Qfloor x + 1.
Proof.
  unfold nearestEven. cbv zeta.
  destruct (x - inject_Z (Qfloor x) ?= 1 # 2)%Q; auto.
  destruct (Z.even (Qfloor x)); auto.
Qed.

Lemma nearestEven_ge_1 (x : Q) : (1 <= x)%Q -> 1 <= nearestEven x.
Proof.
  intros Hx. apply Qfloor_resp_le in Hx. change (Qfloor 1) with 1 in Hx.
  destruct (nearestEven_cases x) as [-> | ->]; lia.
Qed.

Lemma nearestEven_nonpos (x : Q) : (x <= 0)%Q -> nearestEven x <= 0.
Proof.
  intros Hx.
  assert (Hf : Qfloor x <= 0) by (apply Qfloor_resp_le in Hx; exact Hx).
  destruct (Z_le_gt_dec (Qfloor x) (-1)) as [Hneg|Hzero].
  - destruct (nearestEven_cases x) as [-> | ->]; lia.
  - assert (H0 : Qfloor x = 0) by lia.
    unfold nearestEven. cbv zeta. rewrite H0.
    destruct (Qcompare_spec (x - inject_Z 0) (1 # 2)) as [Heq|Hlt|Hgt].
    + exfalso. unfold inject_Z in Heq. lra.
    + lia.
    + exfalso. unfold inject_Z in Hgt. lra.
Qed.

(* rounding to the nearest integer moves a number by at most one half *)
Lemma nearestEven_near (x : Q) :
  (x - (1 # 2) <= inject_Z (nearestEven x) <= x + (1 # 2))%Q.
Proof.
  pose proof (Qfloor_le x) as Hlo. pose proof (Qlt_floor x) as Hhi.
  rewrite inject_Z_plus in Hhi. change (inject_Z 1) with 1%Q in Hhi.
  unfold nearestEven. cbv zeta.
  destruct (Qcompare_spec (x - inject_Z (Qfloor x)) (1 # 2)) as [Heq|Hlt|Hgt].
  - destruct (Z.even (Qfloor x)).
    + lra.
    + rewrite inject_Z_plus. change (inject_Z 1) with 1%Q. lra.
  - lra.
  - rewrite inject_Z_plus. change (inject_Z 1) with 1%Q. lra.
Qed.

Lemma binade_le (x : Q) : ~ (x == 0)%Q -> (pow2 (binade x) <= Qabs x)%Q.
Proof.
  intros Hx. unfold binade. cbv zeta.
  set (n := Z.abs (Qnum x)). set (d := Zpos (Qden x)).
  destruct (Qle_bool (pow2 (Z.log2 n - Z.log2 d)) (Qabs x)) eqn:Hle.
  - now apply Qle_bool_iff.
  - assert (Hn : 0 < n).
    { unfold n. destruct x as [[|p|p] q]; simpl; try lia.
      exfalso. apply Hx. reflexivity. }
    assert (Hd : 0 < d) by (unfold d; lia).
    destruct (Z.log2_spec n Hn) as [Hn1 _].
    destruct (Z.log2_spec d Hd) as [_ Hd2].
    pose proof (Z.log2_nonneg n) as Hln. pose proof (Z.log2_nonneg d) as Hld.
    assert (Habs : (Qabs x == inject_Z n / inject_Z d)%Q).
    { unfold n, d. destruct x as [xn xd]. simpl Qnum. simpl Qden.
      rewrite <- Zabs_Qabs. unfold Qeq, Qdiv, Qmult, Qinv, inject_Z. simpl. lia. }
    rewrite Habs.
    replace (Z.log2 n - Z.log2 d - 1) with (Z.log2 n + - (Z.log2 d + 1)) by lia.
    rewrite pow2_add. unfold pow2 at 2. rewrite Qpower_opp.
    fold (pow2 (Z.log2 d + 1)).
    rewrite (pow2_nonneg (Z.log2 n)) by lia.
    rewrite (pow2_nonneg (Z.log2 d + 1)) by lia.
    replace (Z.log2 d + 1) with (Z.succ (Z.log2 d)) by lia.
    assert (H1 : (inject_Z (2 ^ Z.log2 n) <= inject_Z n)%Q) by now rewrite <- Zle_Qle.
    assert (H2 : (inject_Z d <= inject_Z (2 ^ Z.succ (Z.log2 d)))%Q)
      by (rewrite <- Zle_Qle; lia).
    assert (H3 : (0 < inject_Z d)%Q)
      by (change 0%Q with (inject_Z 0); now rewrite <- Zlt_Qlt).
    assert (H4 : (0 < inject_Z (2 ^ Z.log2 n))%Q).
    { change 0%Q with (inject_Z 0). rewrite <- Zlt_Qlt. apply Z.pow_pos_nonneg; lia. }
    set (a := inject_Z (2 ^ Z.log2 n)) in *. set (b := inject_Z n) in *.
    set (c := inject_Z d) in *. set (e := inject_Z (2 ^ Z.succ (Z.log2 d))) in *.
    assert (He : (0 < e)%Q) by lra.
    apply Qle_shift_div_l; [assumption|].
    assert (Hrw : (a * / e * c == a * (c / e))%Q) by (field; lra).
    rewrite Hrw.
    assert (Hce : (c / e <= 1)%Q) by (apply Qle_shift_div_r; lra).
    nra.
Qed.

Lemma lastBit_le (x : Q) :
  ~ (x == 0)%Q -> (pow2 (lastBit x) <= Qabs x)%Q \/ lastBit x = emin.
Proof.
  intros Hx. unfold lastBit.
  destruct (Z.max_spec (binade x - 52) emin) as [[_ ->]|[_ ->]]; [now right|left].
  apply Qle_trans with (pow2 (binade x)); [apply pow2_le; lia|now apply binade_le].
Qed.

(* a value of at least the least positive double rounds to a positive one *)
Lemma round_pos (x : Q) : (pow2 emin <= x)%Q -> (0 < round x)%Q.
Proof.
  intros Hx. pose proof (pow2_pos emin) as Hmin.
  assert (Hne : ~ (x == 0)%Q) by lra.
  unfold round. destruct (Qeq_bool x 0) eqn:H0; [now apply Qeq_bool_iff in H0|].
  pose proof (pow2_pos (lastBit x)) as He.
  assert (Hle : (pow2 (lastBit x) <= x)%Q).
  { destruct (lastBit_le x Hne) as [Hle | ->]; [|assumption].
    rewrite Qabs_pos in Hle by lra. assumption. }
  assert (H1 : (1 <= x / pow2 (lastBit x))%Q) by (apply Qle_shift_div_l; lra).
  apply nearestEven_ge_1 in H1.
  assert (Hm : (1 <= inject_Z (nearestEven (x / pow2 (lastBit x))))%Q).
  { change 1%Q with (inject_Z 1). now rewrite <- Zle_Qle. }
  nra.
Qed.

Lemma round_nonpos (x : Q) : (x <= 0)%Q -> (round x <= 0)%Q.
Proof.
  intros Hx. unfold round. destruct (Qeq_bool x 0); [lra|].
  pose proof (pow2_pos (lastBit x)) as He.
  assert (H1 : (x / pow2 (lastBit x) <= 0)%Q) by (apply Qle_shift_div_r; lra).
  apply nearestEven_nonpos in H1.
  assert (Hm : (inject_Z (nearestEven (x / pow2 (lastBit x))) <= 0)%Q).
  { change 0%Q with (inject_Z 0). now rewrite <- Zle_Qle. }
  nra.
Qed.

Lemma round_onGrid (x : Q) : onGrid (round x).
Proof.
  unfold round. destruct (Qeq_bool x 0).
  - exists 0. change (inject_Z 0) with 0%Q. now rewrite Qmult_0_l.
  - set (e := lastBit x). set (m := nearestEven (x / pow2 e)).
    assert (He : emin <= e) by (unfold e, lastBit; lia).
    exists (m * 2 ^ (e - emin)).
    replace e with ((e - emin) + emin) at 1 by lia.
    rewrite pow2_add, (pow2_nonneg (e - emin)) by lia.
    rewrite inject_Z_mult. ring.
Qed.

(* the rounding error is at most half a unit of the last bit *)
Lemma round_near (x : Q) :
  (Qabs (round x - x) <= pow2 (lastBit x) / 2)%Q.
Proof.
  unfold round. destruct (Qeq_bool x 0) eqn:H0.
  - apply Qeq_bool_iff in H0. pose proof (pow2_pos (lastBit x)).
    assert (0 <= pow2 (lastBit x) / 2)%Q by (apply Qle_shift_div_l; lra).
    apply Qabs_Qle_condition. split; lra.
  - pose proof (pow2_pos (lastBit x)) as He.
    pose proof (nearestEven_near (x / pow2 (lastBit x))) as [Hlo Hhi].
    set (m := inject_Z (nearestEven (x / pow2 (lastBit x)))) in *.
    set (u := pow2 (lastBit x)) in *.
    assert (Hx : (x == (x / u) * u)%Q) by (field; lra).
    set (y := (x / u)%Q) in *.
    apply Qabs_Qle_condition.
    assert (Hhalf : (u / 2 == u * (1 # 2))%Q) by (field).
    rewrite Hhalf. split.
    + assert (Hrw : (m * u - x == (m - y) * u)%Q) by (rewrite Hx at 1; ring).
      rewrite Hrw. nra.
    + assert (Hrw : (m * u - x == (m - y) * u)%Q) by (rewrite Hx at 1; ring).
      rewrite Hrw. nra.
Qed.

(* the difference of two doubles is positive exactly when its rounded
   value is: subtraction never rounds a difference to zero *)
Lemma sub_positive (a b : Q) :
  onGrid a -> onGrid b -> JsArray.positive (sub b a) = JsArray.positive (b - a).
Proof.
  intros [ka Ha] [kb Hb]. unfold sub, JsArray.positive. f_equal.
  pose proof (pow2_pos emin) as Hmin.
  assert (Hd : (b - a == inject_Z (kb - ka) * pow2 emin)%Q).
  { rewrite Ha, Hb. unfold Zminus. rewrite inject_Z_plus, inject_Z_opp. ring. }
  destruct (Qle_bool (b - a) 0) eqn:Hle.
  - apply Qle_bool_iff. apply round_nonpos. now apply Qle_bool_iff.
  - destruct (Qle_bool (round (b - a)) 0) eqn:Hr; [|reflexivity]. exfalso.
    apply Qle_bool_iff in Hr.
    assert (Hpos : (0 < b - a)%Q).
    { destruct (Qlt_le_dec 0 (b - a)) as [H|H]; [assumption|].
      apply Qle_bool_iff in H. congruence. }
    assert (Hk : 1 <= kb - ka).
    { rewrite Hd in Hpos.
      assert (H : (0 < inject_Z (kb - ka))%Q) by nra.
      change 0%Q with (inject_Z 0) in H. rewrite <- Zlt_Qlt in H. lia. }
    assert (Hge : (pow2 emin <= b - a)%Q).
    { rewrite Hd.
      assert (1 <= inject_Z (kb - ka))%Q.
      { change 1%Q with (inject_Z 1). now rewrite <- Zle_Qle. }
      nra. }
    apply round_pos in Hge. lra.
Qed.

End DoubleFacts.

(* the operations agree with binary64 arithmetic on quotients of small
   integers and on their sums and differences, the decimal constants of
   the sources among them *)
Lemma double_agrees_with_binary64 :
  let quotient '(n, d) := PrimFloat.div (Double.floatOfZ n) (Double.floatOfZ d) in
  let exact '(n, d) := Double.div (inject_Z n) (inject_Z d) in
  let samples :=
    [(5, 10); (1, 10); (15, 100); (5, 100); (32, 100); (82, 100); (85, 100);
     (1, 1); (7, 100); (1, 3); (2, 3); (-1, 3); (123456789, 1000); (1, 1048576);
     (9007199254740993, 2); (57, 100); (0, 1)] in
  List.forallb
    (fun a =>
       List.forallb
         (fun b =>
            Qeq_bool (Double.ofFloat (quotient a)) (exact a)
            && Qeq_bool (Double.ofFloat (PrimFloat.add (quotient a) (quotient b)))
                 (Double.add (exact a) (exact b))
            && Qeq_bool (Double.ofFloat (PrimFloat.sub (quotient a) (quotient b)))
                 (Double.sub (exact a) (exact b)))
         samples)
    samples = true.
Proof. vm_compute. reflexivity. Qed.

(** * Deduplication *)

Section DedupFacts.
Import JsString EventDeduplicator DedupSpec.

Lemma firstSeen_In (ks : list string) (k : string) :
  List.In k (firstSeen ks) <-> List.In k ks.
Proof.
  induction ks as [|a ks IH]; simpl; [tauto|].
  rewrite List.filter_In, IH, negb_true_iff, String.eqb_neq.
  destruct (String.eqb_spec k a) as [->|Hne]; split; intros H; auto.
  - destruct H as [H|[H _]]; auto.
  - destruct H as [H|H]; auto.
Qed.

Lemma firstSeen_NoDup (ks : list string) : List.NoDup (firstSeen ks).
Proof.
  induction ks as [|a ks IH]; simpl; constructor.
  - rewrite List.filter_In, String.eqb_refl. simpl. intros [_ H]. discriminate.
  - now apply List.NoDup_filter.
Qed.

Lemma filter_ne_notin (k : string) (l : list string) :
  ~ List.In k l -> List.filter (fun k' => negb (String.eqb k' k)) l = l.
Proof.
  induction l as [|a l IH]; simpl; intros Hn; [reflexivity|].
  destruct (String.eqb_spec a k) as [->|Hne]; simpl.
  - exfalso. apply Hn. now left.
  - f_equal. apply IH. intros H. apply Hn. now right.
Qed.

Lemma firstSeen_snoc (ks : list string) (k : string) :
  firstSeen (ks ++ [k]) =
  if List.existsb (String.eqb k) ks then firstSeen ks else firstSeen ks ++ [k].
Proof.
  induction ks as [|a ks IH]; simpl; [reflexivity|].
  rewrite IH. destruct (String.eqb_spec k a) as [->|Hne]; simpl.
  - destruct (List.existsb (String.eqb a) ks); [reflexivity|].
    rewrite List.filter_app. simpl. rewrite String.eqb_refl. simpl.
    now rewrite List.app_nil_r.
  - destruct (List.existsb (String.eqb k) ks); [reflexivity|].
    rewrite List.filter_app. simpl.
    destruct (String.eqb_spec k a); [contradiction|]. reflexivity.
Qed.

Lemma firstSeen_NoDup_id (ks : list string) :
  List.NoDup ks -> firstSeen ks = ks.
Proof.
  induction 1 as [|a ks Hn Hnd IH]; simpl; [reflexivity|].
  rewrite IH. f_equal. now apply filter_ne_notin.
Qed.

Lemma existsb_eqb_In (k : string) (ks : list string) :
  List.existsb (String.eqb k) ks = true <-> List.In k ks.
Proof.
  rewrite List.existsb_exists. split.
  - intros (x & Hx & He). apply String.eqb_eq in He. now subst.
  - intros H. exists k. split; [assumption|apply String.eqb_refl].
Qed.

Lemma existsb_eqb_notIn (k : string) (ks : list string) :
  List.existsb (String.eqb k) ks = false <-> ~ List.In k ks.
Proof.
  rewrite <- existsb_eqb_In. now destruct (List.existsb _ ks).
Qed.

(** The insertion-ordered map *)

Lemma get_tabulate {V} (f : string -> V) (k : string) (ks : list string) :
  JsMap.get k (List.map (fun k' => (k', f k')) ks) =
  if List.existsb (String.eqb k) ks then Some (f k) else None.
Proof.
  induction ks as [|a ks IH]; simpl; [reflexivity|].
  destruct (String.eqb_spec k a) as [->|Hne]; simpl; [reflexivity|exact IH].
Qed.

Lemma set_tabulate {V} (f : string -> V) (k : string) (v : V) (ks : list string) :
  List.NoDup ks -> List.In k ks ->
  JsMap.set k v (List.map (fun k' => (k', f k')) ks) =
  List.map (fun k' => (k', if String.eqb k' k then v else f k')) ks.
Proof.
  induction 1 as [|a ks Hn Hnd IH]; simpl; intros Hin; [contradiction|].
  destruct (String.eqb_spec k a) as [->|Hne].
  - rewrite String.eqb_refl. f_equal. apply List.map_ext_in.
    intros k' Hk'. destruct (String.eqb_spec k' a) as [->|]; [contradiction|reflexivity].
  - destruct (String.eqb_spec a k) as [->|_]; [contradiction|].
    f_equal. apply IH. destruct Hin as [->|Hin]; [contradiction|assumption].
Qed.

Lemma set_fresh {V} (k : string) (v : V) (m : JsMap.t V) :
  ~ List.In k (JsMap.keys m) -> JsMap.set k v m = m ++ [(k, v)].
Proof.
  induction m as [|[a w] m IH]; simpl; intros Hn; [reflexivity|].
  destruct (String.eqb_spec k a) as [->|Hne].
  - exfalso. apply Hn. now left.
  - f_equal. apply IH. intros H. apply Hn. now right.
Qed.

Lemma get_last {V} (k : string) (v : V) (m : JsMap.t V) :
  ~ List.In k (JsMap.keys m) -> JsMap.get k (m ++ [(k, v)]) = Some v.
Proof.
  induction m as [|[a w] m IH]; simpl; intros Hn.
  - now rewrite String.eqb_refl.
  - destruct (String.eqb_spec k a) as [->|Hne].
    + exfalso. apply Hn. now left.
    + apply IH. intros H. apply Hn. now right.
Qed.

Lemma set_last {V} (k : string) (v v' : V) (m : JsMap.t V) :
  ~ List.In k (JsMap.keys m) ->
  JsMap.set k v' (m ++ [(k, v)]) = m ++ [(k, v')].
Proof.
  induction m as [|[a w] m IH]; simpl; intros Hn.
  - now rewrite String.eqb_refl.
  - destruct (String.eqb_spec k a) as [->|Hne].
    + exfalso. apply Hn. now left.
    + f_equal. apply IH. intros H. apply Hn. now right.
Qed.

Lemma keys_grouping (seen : list Event.t) :
  JsMap.keys (grouping seen) = firstSeen (List.map eventKey seen).
Proof.
  unfold grouping, JsMap.keys. rewrite List.map_map. simpl. apply List.map_id.
Qed.

(** Groups *)

Lemma groupOf_snoc (k : string) (seen : list Event.t) (e : Event.t) :
  groupOf k (seen ++ [e]) =
  groupOf k seen ++ (if String.eqb (eventKey e) k then [e] else []).
Proof. unfold groupOf. rewrite List.filter_app. reflexivity. Qed.

Lemma groupOf_absent (k : string) (seen : list Event.t) :
  ~ List.In k (List.map eventKey seen) -> groupOf k seen = [].
Proof.
  unfold groupOf. induction seen as [|a seen IH]; simpl; intros Hn; [reflexivity|].
  destruct (String.eqb_spec (eventKey a) k) as [<-|Hne].
  - exfalso. apply Hn. now left.
  - apply IH. intros H. apply Hn. now right.
Qed.

Lemma groupOf_In (k : string) (events : list Event.t) (e : Event.t) :
  List.In e (groupOf k events) <-> List.In e events /\ eventKey e = k.
Proof. unfold groupOf. now rewrite List.filter_In, String.eqb_eq. Qed.

Lemma get_grouping (k : string) (seen : list Event.t) :
  JsMap.get k (grouping seen) =
  if List.existsb (String.eqb k) (List.map eventKey seen)
  then Some (groupOf k seen) else None.
Proof.
  unfold grouping.
  rewrite (get_tabulate (fun k' => groupOf k' seen)).
  destruct (List.existsb (String.eqb k) (List.map eventKey seen)) eqn:Hk.
  - apply existsb_eqb_In in Hk. apply (firstSeen_In _ k) in Hk.
    apply existsb_eqb_In in Hk. now rewrite Hk.
  - apply existsb_eqb_notIn in Hk. rewrite <- (firstSeen_In _ k) in Hk.
    apply existsb_eqb_notIn in Hk. now rewrite Hk.
Qed.

Lemma grouping_snoc_known (seen : list Event.t) (e : Event.t) :
  List.In (eventKey e) (List.map eventKey seen) ->
  grouping (seen ++ [e]) =
  JsMap.set (eventKey e) (groupOf (eventKey e) seen ++ [e]) (grouping seen).
Proof.
  intros Hin. set (k := eventKey e) in *.
  unfold grouping. rewrite List.map_app. simpl List.map. fold k.
  rewrite firstSeen_snoc.
  apply existsb_eqb_In in Hin. rewrite Hin. apply existsb_eqb_In in Hin.
  rewrite (set_tabulate (fun k' => groupOf k' seen)).
  - apply List.map_ext. intros k'. f_equal. rewrite groupOf_snoc. fold k.
    rewrite (String.eqb_sym k k').
    destruct (String.eqb_spec k' k) as [->|Hne]; [reflexivity|].
    now rewrite List.app_nil_r.
  - apply firstSeen_NoDup.
  - now apply firstSeen_In.
Qed.

Lemma grouping_snoc_fresh (seen : list Event.t) (e : Event.t) :
  ~ List.In (eventKey e) (List.map eventKey seen) ->
  grouping (seen ++ [e]) = grouping seen ++ [(eventKey e, [e])].
Proof.
  intros Hnin. set (k := eventKey e) in *.
  unfold grouping. rewrite List.map_app. simpl List.map. fold k.
  rewrite firstSeen_snoc.
  apply existsb_eqb_notIn in Hnin. rewrite Hnin. apply existsb_eqb_notIn in Hnin.
  rewrite List.map_app. simpl. f_equal.
  - apply List.map_ext_in. intros k' Hk'. f_equal.
    rewrite groupOf_snoc. fold k.
    destruct (String.eqb_spec k k') as [Heq|Hne].
    + apply (proj1 (firstSeen_In _ _)) in Hk'. rewrite <- Heq in Hk'. contradiction.
    + now rewrite List.app_nil_r.
  - rewrite groupOf_snoc. fold k. rewrite String.eqb_refl.
    now rewrite groupOf_absent.
Qed.

Lemma addToGroup_grouping (seen : list Event.t) (e : Event.t) :
  addToGroup (grouping seen) e = Some (grouping (seen ++ [e])).
Proof.
  unfold addToGroup, JsMap.has. fold (eventKey e).
  rewrite get_grouping.
  destruct (List.existsb (String.eqb (eventKey e)) (List.map eventKey seen)) eqn:Hk.
  - simpl. rewrite get_grouping, Hk. f_equal. symmetry.
    apply grouping_snoc_known. now apply existsb_eqb_In.
  - simpl. apply existsb_eqb_notIn in Hk.
    assert (Hnk : ~ List.In (eventKey e) (JsMap.keys (grouping seen))).
    { rewrite keys_grouping, firstSeen_In. exact Hk. }
    rewrite (set_fresh _ [] _ Hnk), (get_last _ [] _ Hnk), (set_last _ [] _ _ Hnk).
    f_equal. symmetry. now apply grouping_snoc_fresh.
Qed.

Lemma groupEvents_grouping (rest seen : list Event.t) :
  groupEvents rest (grouping seen) = Some (grouping (seen ++ rest)).
Proof.
  revert seen. induction rest as [|e rest IH]; intros seen; simpl.
  - now rewrite List.app_nil_r.
  - rewrite addToGroup_grouping, IH. now rewrite <- List.app_assoc.
Qed.

(** Selection of the representative *)

Lemma positive_lt (a b : Q) : JsArray.positive (b - a) = true <-> (a < b)%Q.
Proof.
  unfold JsArray.positive. rewrite negb_true_iff.
  destruct (Qle_bool (b - a) 0) eqn:H.
  - apply Qle_bool_iff in H. split; [discriminate|]. intros Hlt. lra.
  - split; [intros _|reflexivity].
    destruct (Qlt_le_dec a b) as [Hlt|Hle]; [assumption|].
    assert (Hb : Qle_bool (b - a) 0 = true) by (apply Qle_bool_iff; lra).
    congruence.
Qed.

Lemma positive_ge (a b : Q) : JsArray.positive (b - a) = false <-> (b <= a)%Q.
Proof.
  destruct (JsArray.positive (b - a)) eqn:H.
  - apply positive_lt in H. split; [discriminate|]. intros Hle. lra.
  - split; [intros _|reflexivity].
    destruct (Qlt_le_dec a b) as [Hlt|Hle]; [|assumption].
    apply positive_lt in Hlt. congruence.
Qed.

Lemma insertSorted_In {A} (cmp : A -> A -> Q) (x y : A) (l : list A) :
  List.In y (JsArray.insertSorted cmp x l) <-> y = x \/ List.In y l.
Proof.
  induction l as [|a l IH]; simpl.
  - intuition congruence.
  - destruct (JsArray.positive (cmp x a)); simpl; rewrite ?IH; intuition congruence.
Qed.

Lemma sort_In {A} (cmp : A -> A -> Q) (y : A) (l : list A) :
  List.In y (JsArray.sort cmp l) <-> List.In y l.
Proof.
  induction l as [|a l IH]; simpl; [tauto|].
  rewrite insertSorted_In, IH. intuition congruence.
Qed.

(* a score is a double: its last operation rounds *)
Lemma completeness_onGrid (e : Event.t) : Double.onGrid (completeness e).
Proof. unfold completeness. cbv zeta. apply round_onGrid. Qed.

Lemma selectBestEvent_cons (e : Event.t) (l : list Event.t) :
  selectBestEvent (e :: l) =
  match selectBestEvent l with
  | None => Some e
  | Some y =>
    if JsArray.positive (completeness y - completeness e) then Some y else Some e
  end.
Proof.
  unfold selectBestEvent. simpl List.map. simpl JsArray.sort.
  set (cmp := fun a b : Event.t * Q => Double.sub (snd b) (snd a)).
  set (scored := List.map (fun event => (event, completeness event)) l).
  destruct (JsArray.sort cmp scored) as [|[y cy] rest] eqn:Hs; simpl; [reflexivity|].
  assert (Hy : List.In (y, cy) scored).
  { apply (sort_In cmp). rewrite Hs. now left. }
  apply List.in_map_iff in Hy. destruct Hy as (y' & Heq & _).
  inversion Heq; subst y' cy. unfold cmp at 1. simpl.
  rewrite (sub_positive (completeness e) (completeness y))
    by apply completeness_onGrid.
  now destruct (JsArray.positive (completeness y - completeness e)).
Qed.

Lemma selectBestEvent_single (e : Event.t) : selectBestEvent [e] = Some e.
Proof. reflexivity. Qed.

Lemma selectBestEvent_nonempty (g : list Event.t) :
  g <> [] -> exists r, selectBestEvent g = Some r.
Proof.
  destruct g as [|e l]; [congruence|]. intros _.
  rewrite selectBestEvent_cons. destruct (selectBestEvent l) as [y|]; [|eauto].
  destruct (JsArray.positive _); eauto.
Qed.

Lemma Forall_Qlt_le (c : Q) (r : Q) (l : list Event.t) :
  (r <= c)%Q ->
  List.Forall (fun e => (completeness e < r)%Q) l ->
  List.Forall (fun e => (completeness e <= c)%Q) l.
Proof.
  intros Hrc H. induction H; constructor; [lra|assumption].
Qed.

Lemma Forall_Qle_le (c : Q) (r : Q) (l : list Event.t) :
  (r <= c)%Q ->
  List.Forall (fun e => (completeness e <= r)%Q) l ->
  List.Forall (fun e => (completeness e <= c)%Q) l.
Proof.
  intros Hrc H. induction H; constructor; [lra|assumption].
Qed.

Lemma selectBestEvent_firstBest (g : list Event.t) (r : Event.t) :
  selectBestEvent g = Some r -> firstBest r g.
Proof.
  revert r. induction g as [|e l IH]; intros r; [discriminate|].
  rewrite selectBestEvent_cons.
  destruct (selectBestEvent l) as [y|] eqn:Hl.
  - destruct (IH y eq_refl) as (before & after & Heq & Hb & Ha).
    destruct (JsArray.positive (completeness y - completeness e)) eqn:Hp;
      intros [= <-].
    + apply positive_lt in Hp.
      exists (e :: before), after. rewrite Heq. simpl. repeat split; auto.
    + apply positive_ge in Hp.
      exists [], l. simpl. repeat split; auto. rewrite Heq.
      apply List.Forall_app. split; [|constructor].
      * now apply (Forall_Qlt_le _ (completeness y)).
      * assumption.
      * now apply (Forall_Qle_le _ (completeness y)).
  - intros [= <-]. destruct l as [|e' l'].
    + exists [], []. repeat split; constructor.
    + destruct (selectBestEvent_nonempty (e' :: l')) as [y Hy]; congruence.
Qed.

Lemma firstBest_In (r : Event.t) (g : list Event.t) :
  firstBest r g -> List.In r g.
Proof.
  intros (before & after & -> & _). apply List.in_or_app. right. now left.
Qed.

(** The key of a fingerprint determines the fingerprint *)

Lemma dropSpaces_Forall (P : ascii -> Prop) (l : list ascii) :
  List.Forall P l -> List.Forall P (dropSpaces l).
Proof.
  induction 1 as [|c l Hc Hl IH]; simpl; [constructor|].
  destruct (isSpace c); [assumption|now constructor].
Qed.

Lemma trimChars_Forall (P : ascii -> Prop) (l : list ascii) :
  List.Forall P l -> List.Forall P (trimChars l).
Proof.
  intros H. unfold trimChars.
  apply List.Forall_rev, dropSpaces_Forall, List.Forall_rev, dropSpaces_Forall, H.
Qed.

Lemma collapseFrom_Forall (P : ascii -> Prop) (b : bool) (l : list ascii) :
  P " "%char -> List.Forall P l -> List.Forall P (collapseFrom b l).
Proof.
  intros Hsp H. revert b. induction H as [|c l Hc Hl IH]; intros b; simpl; [constructor|].
  destruct (isSpace c); [destruct b|]; auto.
Qed.

Lemma kept_not_bar (c : ascii) : keptByNormalize c = true -> c <> "|"%char.
Proof. intros H ->. discriminate H. Qed.

Lemma normalizeString_kept (s : string) :
  List.Forall (fun c => keptByNormalize c = true) (chars (normalizeString s)).
Proof.
  unfold normalizeString, trim, onChars, removeChars, onChars.
  rewrite !chars_ofChars.
  apply trimChars_Forall, collapseFrom_Forall; [reflexivity|].
  apply List.Forall_forall. intros c Hc. apply List.filter_In in Hc.
  destruct Hc as [_ Hc]. now rewrite negb_involutive in Hc.
Qed.

Lemma normalizeString_no_bar (s : string) :
  ~ List.In "|"%char (chars (normalizeString s)).
Proof.
  intros H. pose proof (normalizeString_kept s) as Hk.
  rewrite List.Forall_forall in Hk. specialize (Hk _ H). discriminate Hk.
Qed.

Lemma eventKey_fingerprint (a b : Event.t) :
  eventKey a = eventKey b <-> getFingerprint a = getFingerprint b.
Proof.
  split; [|unfold eventKey; congruence].
  unfold eventKey, fingerprintKey, getFingerprint. simpl. intros H.
  apply (f_equal chars) in H. rewrite !chars_append in H. simpl in H.
  apply split_at_first in H; try apply normalizeString_no_bar.
  destruct H as [Ht H]. apply split_at_last in H; try apply normalizeString_no_bar.
  destruct H as [Hd Hv].
  apply chars_inj in Ht, Hd, Hv. now rewrite Ht, Hd, Hv.
Qed.

(** Every group of the map is the list of the events of its key *)

Lemma selectAll_groups (events : list Event.t) (ks : list string) :
  (forall k, List.In k ks -> List.In k (List.map eventKey events)) ->
  exists out,
    selectAll (List.map (fun k => groupOf k events) ks) = Some out /\
    List.map eventKey out = ks /\
    List.Forall (fun r => firstBest r (groupOf (eventKey r) events)) out.
Proof.
  induction ks as [|k ks IH]; intros Hks; simpl.
  - exists []. repeat split. constructor.
  - destruct IH as (out & Hout & Hkeys & Hbest).
    { intros k' Hk'. apply Hks. now right. }
    destruct (selectBestEvent_nonempty (groupOf k events)) as [r Hr].
    { specialize (Hks k (or_introl eq_refl)). apply List.in_map_iff in Hks.
      destruct Hks as (e & He & Hin). intros Hnil.
      assert (Hg : List.In e (groupOf k events)) by now apply groupOf_In.
      rewrite Hnil in Hg. contradiction. }
    rewrite Hr, Hout. exists (r :: out).
    pose proof (selectBestEvent_firstBest _ _ Hr) as Hfb.
    pose proof (firstBest_In _ _ Hfb) as Hin. apply groupOf_In in Hin.
    destruct Hin as [_ Hkey]. repeat split.
    + simpl. now rewrite Hkey, Hkeys.
    + constructor; [now rewrite Hkey|assumption].
Qed.

Lemma deduplicate_grouping (events : list Event.t) :
  deduplicate events =
  selectAll (List.map (fun k => groupOf k events)
               (firstSeen (List.map eventKey events))).
Proof.
  unfold deduplicate. change (@JsMap.empty (list Event.t)) with (grouping []).
  rewrite groupEvents_grouping. simpl. unfold JsMap.values, grouping.
  now rewrite List.map_map.
Qed.

Lemma groupOf_unique (events : list Event.t) (e : Event.t) :
  List.NoDup (List.map eventKey events) -> List.In e events ->
  groupOf (eventKey e) events = [e].
Proof.
  unfold groupOf. induction events as [|a l IH]; simpl; intros Hnd Hin; [contradiction|].
  inversion Hnd as [|? ? Hna Hnd']; subst.
  destruct Hin as [->|Hin].
  - rewrite String.eqb_refl. f_equal.
    apply (groupOf_absent (eventKey e) l Hna).
  - destruct (String.eqb_spec (eventKey a) (eventKey e)) as [Heq|Hne].
    + exfalso. apply Hna. rewrite Heq. now apply List.in_map.
    + now apply IH.
Qed.

Lemma selectAll_singletons (l : list Event.t) :
  selectAll (List.map (fun e => [e]) l) = Some l.
Proof.
  induction l as [|e l IH]; [reflexivity|].
  cbn [List.map selectAll]. now rewrite selectBestEvent_single, IH.
Qed.

Lemma deduplicate_distinct (l : list Event.t) :
  List.NoDup (List.map eventKey l) -> deduplicate l = Some l.
Proof.
  intros Hnd. rewrite deduplicate_grouping, firstSeen_NoDup_id by assumption.
  rewrite List.map_map.
  transitivity (selectAll (List.map (fun e => [e]) l)); [|apply selectAll_singletons].
  f_equal. apply List.map_ext_in. intros e He. now apply groupOf_unique.
Qed.

Lemma completeness_formula (e : Event.t) : completeness e = scoreFormula e.
Proof.
  unfold completeness, scoreFormula, scoreTerms. cbv zeta.
  destruct (truthy (Event.description e)), (truthy (Event.startTime e)),
    (truthy (Event.endTime e)), (truthy (Event.url e)),
    (truthy (Event.imageUrl e)), (truthy (Event.price e)), (Event.tags e);
    cbn [List.fold_left List.app]; reflexivity.
Qed.

(* the fields that the key of an event is made from *)
Lemma eventKey_fields (a b : Event.t) :
  eventKey a = eventKey b <->
  normalizeString (Event.title a) = normalizeString (Event.title b) /\
  splitHead "T" (Event.date a) = splitHead "T" (Event.date b) /\
  normalizeString (VenueInfo.name (Event.venue a))
    = normalizeString (VenueInfo.name (Event.venue b)).
Proof.
  rewrite eventKey_fingerprint. unfold getFingerprint. split.
  - intros [= Ht Hd Hv]. auto.
  - intros (-> & -> & ->). reflexivity.
Qed.

(** C5. For every input list, [deduplicate] returns one representative
    per fingerprint, the fingerprint of an event being its normalised
    title, the part of its date string before the "T" and the
    normalised name of its venue: the keys of the output are the
    distinct keys of the input in order of first appearance (and two
    events have the same key exactly when they have the same
    fingerprint, that is when these three strings agree), every input
    event is represented, and each representative is the first member of
    its group whose completeness score is maximal.  The score is the
    double that the code computes, the terms the specification lists
    added from the left, each sum rounded to double precision; scores
    are compared, and tie, as these doubles. *)
Theorem deduplicate_first_best_per_fingerprint (events : list Event.t) :
  exists out,
    deduplicate events = Some out /\
    List.map eventKey out = firstSeen (List.map eventKey events) /\
    List.NoDup (List.map getFingerprint out) /\
    (forall e, List.In e events ->
       exists r, List.In r out /\ getFingerprint r = getFingerprint e) /\
    List.Forall (fun r => firstBest r (groupOf (eventKey r) events)) out /\
    (forall a b, eventKey a = eventKey b <-> getFingerprint a = getFingerprint b) /\
    (forall a b,
       getFingerprint a = getFingerprint b <->
       normalizeString (Event.title a) = normalizeString (Event.title b) /\
       splitHead "T" (Event.date a) = splitHead "T" (Event.date b) /\
       normalizeString (VenueInfo.name (Event.venue a))
         = normalizeString (VenueInfo.name (Event.venue b))) /\
    (forall e, completeness e = scoreFormula e).
Proof.
  destruct (selectAll_groups events (firstSeen (List.map eventKey events)))
    as (out & Hout & Hkeys & Hbest).
  { intros k. apply firstSeen_In. }
  exists out. rewrite deduplicate_grouping.
  assert (Hnd : List.NoDup (List.map eventKey out)).
  { rewrite Hkeys. apply firstSeen_NoDup. }
  split; [assumption|]. split; [assumption|]. split.
  { unfold eventKey in Hnd. rewrite <- List.map_map in Hnd.
    now apply List.NoDup_map_inv in Hnd. }
  split.
  { intros e He.
    assert (Hk : List.In (eventKey e) (List.map eventKey out)).
    { rewrite Hkeys. apply firstSeen_In. now apply List.in_map. }
    apply List.in_map_iff in Hk. destruct Hk as (r & Hr & Hin).
    exists r. split; [assumption|]. now apply eventKey_fingerprint. }
  split; [assumption|]. split; [apply eventKey_fingerprint|]. split.
  - intros a b. rewrite <- eventKey_fingerprint. apply eventKey_fields.
  - apply completeness_formula.
Qed.

(* two events of one fingerprint whose scores would tie as exact sums,
   0.5 + 0.82 and 1 + 0.32: the doubles differ, and the second event,
   whose double is the larger, is the one kept *)
Lemma deduplicate_compares_doubles :
  let first :=
    Samples.scored "2025-06-05T19:00:00.000Z" None ["trivia"] (82 # 100) in
  let second :=
    Samples.scored "2025-06-05T21:30:00.000Z" (Some "7pm") [] (32 # 100) in
  eventKey first = eventKey second /\
  (completeness first < completeness second)%Q /\
  deduplicate [first; second] = Some [second].
Proof.
  cbv zeta. split; [vm_compute; reflexivity|]. split; [vm_compute; reflexivity|].
  vm_compute. reflexivity.
Qed.

(** C9. Deduplicating an already deduplicated list changes nothing:
    [deduplicate] always returns, and applied to its own result it
    returns that result again. *)
Theorem deduplicate_idempotent (events : list Event.t) :
  exists out, deduplicate events = Some out /\ deduplicate out = Some out.
Proof.
  destruct (selectAll_groups events (firstSeen (List.map eventKey events)))
    as (out & Hout & Hkeys & _).
  { intros k. apply firstSeen_In. }
  exists out. rewrite deduplicate_grouping. split; [assumption|].
  apply deduplicate_distinct. rewrite Hkeys. apply firstSeen_NoDup.
Qed.

End DedupFacts.

(** * Venue status *)

Section StatusFacts.
Import JsString VenueStatusManager.

Variable dateOfString : string -> JsDate.t.
Variable host : Host.

Ltac case_tests :=
  repeat match goal with
  | |- context [?a <? ?b] => destruct (Z.ltb_spec a b)
  | |- context [?a <=? ?b] => destruct (Z.leb_spec a b)
  end.

Lemma analyze_recommendation (status : VenueStatus.t) (asOfDate : Z) :
  StalenessReport.recommendation (analyzeVenueStaleness dateOfString status asOfDate) =
  let c := VenueStatus.consecutiveScrapesWithNoFutureEvents status in
  if (truthy (VenueStatus.lastEventDate status)
      && JsNumber.gt
           (daysBetween (dateOfString (orEmpty (VenueStatus.lastEventDate status)))
              asOfDate) 90
      || (3 <=? c))%bool
  then disable
  else if (negb (truthy (VenueStatus.lastEventDate status)) || (0 <? c))%bool
  then monitor else keep.
Proof.
  unfold analyzeVenueStaleness, STALE_DAYS_THRESHOLD, CONSECUTIVE_EMPTY_THRESHOLD.
  cbv zeta.
  destruct (truthy (VenueStatus.lastEventDate status)); simpl.
  - destruct (JsNumber.gt _ 90); simpl; case_tests; simpl; try reflexivity; lia.
  - case_tests; simpl; try reflexivity; lia.
Qed.

Lemma analyze_days (status : VenueStatus.t) (asOfDate : Z) :
  StalenessReport.daysSinceLastEvent (analyzeVenueStaleness dateOfString status asOfDate) =
  if truthy (VenueStatus.lastEventDate status)
  then Some (daysBetween (dateOfString (orEmpty (VenueStatus.lastEventDate status)))
               asOfDate)
  else None.
Proof.
  unfold analyzeVenueStaleness, STALE_DAYS_THRESHOLD, CONSECUTIVE_EMPTY_THRESHOLD.
  cbv zeta.
  destruct (truthy (VenueStatus.lastEventDate status)); simpl.
  - destruct (JsNumber.gt _ 90); simpl; case_tests; reflexivity.
  - case_tests; reflexivity.
Qed.

(** C1. The staleness classifier recommends "disable" exactly when the
    days since the last event (the floor of the days from lastEventDate
    to the "as of" instant, defined only when lastEventDate is known)
    exceed 90 or the counter of consecutive scrapes without future
    events is at least 3; otherwise "monitor" exactly when lastEventDate
    is unknown or the counter is positive; otherwise "keep".  A last
    event 91 days back with the counter at 0 gives "disable", one 89
    days back with a counter below 3 does not, and a counter of exactly
    3 gives "disable" whatever the last event. *)
Theorem staleness_recommendation (status : VenueStatus.t) (asOfDate : Z) :
  let report := analyzeVenueStaleness dateOfString status asOfDate in
  let c := VenueStatus.consecutiveScrapesWithNoFutureEvents status in
  let known := truthy (VenueStatus.lastEventDate status) in
  let days := StalenessReport.daysSinceLastEvent report in
  let stale := (exists d, days = Some (JsNumber.Num d) /\ 90 < d) \/ 3 <= c in
  let watch := known = false \/ 0 < c in
  (days =
   if known
   then Some (daysBetween
                (dateOfString (orEmpty (VenueStatus.lastEventDate status)))
                asOfDate)
   else None) /\
  (StalenessReport.recommendation report = disable <-> stale) /\
  (StalenessReport.recommendation report = monitor <-> ~ stale /\ watch) /\
  (StalenessReport.recommendation report = keep <-> ~ stale /\ ~ watch) /\
  (forall s t,
     VenueStatus.lastEventDate status = Some s -> s <> "" ->
     dateOfString s = JsDate.Valid t ->
     asOfDate - t = 91 * JsDate.msPerDay -> c = 0 ->
     StalenessReport.recommendation report = disable) /\
  (forall s t,
     VenueStatus.lastEventDate status = Some s -> s <> "" ->
     dateOfString s = JsDate.Valid t ->
     asOfDate - t = 89 * JsDate.msPerDay -> c < 3 ->
     StalenessReport.recommendation report <> disable) /\
  (c = 3 -> StalenessReport.recommendation report = disable).
Proof.
  cbv zeta. rewrite analyze_recommendation, analyze_days. cbv zeta.
  set (c := VenueStatus.consecutiveScrapesWithNoFutureEvents status).
  set (known := truthy (VenueStatus.lastEventDate status)).
  set (days := daysBetween
                 (dateOfString (orEmpty (VenueStatus.lastEventDate status)))
                 asOfDate).
  assert (Hstale :
            ((exists d, (if known then Some days else None) = Some (JsNumber.Num d)
                        /\ 90 < d) \/ 3 <= c)
            <-> (known && JsNumber.gt days 90 || (3 <=? c))%bool = true).
  { rewrite orb_true_iff, andb_true_iff, Z.leb_le. split.
    - intros [(d & Hd & Hlt)|Hc]; [left|now right].
      destruct known; [|discriminate]. inversion Hd as [Hd']. split; [reflexivity|].
      rewrite Hd'. simpl. now apply Z.ltb_lt.
    - intros [[Hk Hgt]|Hc]; [left|now right].
      rewrite Hk. destruct days as [d|]; [|discriminate].
      exists d. split; [reflexivity|]. now apply Z.ltb_lt. }
  assert (Hwatch : (known = false \/ 0 < c)
                   <-> (negb known || (0 <? c))%bool = true).
  { rewrite orb_true_iff, negb_true_iff, Z.ltb_lt. reflexivity. }
  assert (Hboundary : forall s t k,
            VenueStatus.lastEventDate status = Some s -> s <> "" ->
            dateOfString s = JsDate.Valid t ->
            asOfDate - t = k * JsDate.msPerDay ->
            known = true /\ days = JsNumber.Num k).
  { intros s t k Hs Hne Ht Hk. unfold known, days. rewrite Hs. simpl.
    rewrite Ht. simpl. split.
    - now destruct (String.eqb_spec s "").
    - f_equal. rewrite Hk. now apply Z.div_mul. }
  split; [reflexivity|]. rewrite Hstale, Hwatch.
  split; [|split; [|split; [|split; [|split]]]].
  - destruct (known && JsNumber.gt days 90 || (3 <=? c))%bool;
      destruct (negb known || (0 <? c))%bool; intuition congruence.
  - destruct (known && JsNumber.gt days 90 || (3 <=? c))%bool;
      destruct (negb known || (0 <? c))%bool; intuition congruence.
  - destruct (known && JsNumber.gt days 90 || (3 <=? c))%bool;
      destruct (negb known || (0 <? c))%bool; intuition congruence.
  - intros s t Hs Hne Ht Hk Hc.
    destruct (Hboundary s t 91 Hs Hne Ht Hk) as [-> ->]. reflexivity.
  - intros s t Hs Hne Ht Hk Hc.
    destruct (Hboundary s t 89 Hs Hne Ht Hk) as [-> ->]. simpl.
    destruct (Z.leb_spec 3 c); [lia|]. simpl.
    destruct (0 <? c); discriminate.
  - intros Hc. rewrite Hc. simpl. now rewrite orb_true_r.
Qed.

(** Scrape updates *)

Lemma filterFutureEvents_nonempty (events : list Event.t) (asOfDate : Z) :
  (0 <? Z.of_nat (List.length (filterFutureEvents dateOfString host events asOfDate))) = true
  <-> exists e t, List.In e events /\ dateOfString (Event.date e) = JsDate.Valid t
                  /\ JsDate.startOfDay host asOfDate <= t.
Proof.
  unfold filterFutureEvents. cbv zeta. rewrite Z.ltb_lt. split.
  - intros Hlen.
    destruct (List.filter _ events) as [|e l] eqn:Hf; [simpl in Hlen; lia|].
    assert (He : List.In e (List.filter
                  (fun event => notBefore (dateOfString (Event.date event))
                                  (JsDate.startOfDay host asOfDate)) events)).
    { rewrite Hf. now left. }
    apply List.filter_In in He. destruct He as [Hin Hnb].
    destruct (dateOfString (Event.date e)) as [t|] eqn:Hd; [|discriminate].
    exists e, t. repeat split; auto. now apply Z.leb_le.
  - intros (e & t & Hin & Hd & Hle).
    assert (He : List.In e (List.filter
                  (fun event => notBefore (dateOfString (Event.date event))
                                  (JsDate.startOfDay host asOfDate)) events)).
    { apply List.filter_In. split; [assumption|]. rewrite Hd. simpl.
      now apply Z.leb_le. }
    destruct (List.filter _ events); [contradiction|]. simpl. lia.
Qed.

Lemma updateVenueStatus_counter (disk : option VenueStatusFile.t) (st : State)
    (venueId venueName : string) (allEvents futureEvents : list Event.t)
    (scrapedAt : Z) :
  VenueStatus.consecutiveScrapesWithNoFutureEvents
    (snd (updateVenueStatus dateOfString host disk st venueId venueName
            allEvents futureEvents scrapedAt)) =
  if 0 <? Z.of_nat (List.length futureEvents) then 0
  else match VenueStatusFile.venues (snd (load host disk st)) !! venueId with
       | Some s => VenueStatus.consecutiveScrapesWithNoFutureEvents s
       | None => 0
       end + 1.
Proof.
  unfold updateVenueStatus. destruct (load host disk st) as [st' file]. reflexivity.
Qed.

Lemma updateVenueStatus_hasFutureEvents (disk : option VenueStatusFile.t)
    (st : State) (venueId venueName : string)
    (allEvents futureEvents : list Event.t) (scrapedAt : Z) :
  VenueStatus.hasFutureEvents
    (snd (updateVenueStatus dateOfString host disk st venueId venueName
            allEvents futureEvents scrapedAt)) =
  (0 <? Z.of_nat (List.length futureEvents)).
Proof.
  unfold updateVenueStatus. destruct (load host disk st) as [st' file]. reflexivity.
Qed.

Lemma updateVenueStatus_stored (disk : option VenueStatusFile.t) (st : State)
    (venueId venueName : string) (allEvents futureEvents : list Event.t)
    (scrapedAt : Z) :
  let result := updateVenueStatus dateOfString host disk st venueId venueName
                  allEvents futureEvents scrapedAt in
  exists file, fst result = Some file /\
               VenueStatusFile.venues file !! venueId = Some (snd result).
Proof.
  cbv zeta. unfold updateVenueStatus. destruct (load host disk st) as [st' file].
  simpl. eexists. split; [reflexivity|]. simpl. apply lookup_insert_eq.
Qed.

(** C8. On every scrape update the counter of consecutive scrapes
    without future events becomes 0 exactly when the batch holds an
    event dated at or after the start of the reference day, and becomes
    the previous value plus 1 otherwise, the previous value being 0 on
    the first scrape of a venue.  The status that carries this counter
    is the one the manager holds for the venue after the update.  The
    stored counter is a count: it is not negative. *)
Theorem scrape_counter_reset_or_increment
    (disk : option VenueStatusFile.t) (st : State)
    (venueId venueName : string) (events : list Event.t) (scrapeDate : Z) :
  let previous :=
    match VenueStatusFile.venues (snd (load host disk st)) !! venueId with
    | Some s => VenueStatus.consecutiveScrapesWithNoFutureEvents s
    | None => 0
    end in
  let result :=
    recordScrape dateOfString host disk st venueId venueName events scrapeDate in
  let status := snd result in
  let hasFuture :=
    exists e t, List.In e events /\ dateOfString (Event.date e) = JsDate.Valid t
                /\ JsDate.startOfDay host scrapeDate <= t in
  0 <= previous ->
  (exists file, fst result = Some file /\
                VenueStatusFile.venues file !! venueId = Some status) /\
  (VenueStatus.consecutiveScrapesWithNoFutureEvents status = 0 <-> hasFuture) /\
  (~ hasFuture ->
   VenueStatus.consecutiveScrapesWithNoFutureEvents status = previous + 1) /\
  (VenueStatus.hasFutureEvents status = true <-> hasFuture).
Proof.
  cbv zeta. intros Hprev. unfold recordScrape.
  split; [apply updateVenueStatus_stored|].
  rewrite updateVenueStatus_counter, updateVenueStatus_hasFutureEvents.
  rewrite <- filterFutureEvents_nonempty.
  destruct (0 <? Z.of_nat (List.length (filterFutureEvents dateOfString host events scrapeDate))).
  - intuition congruence.
  - split; [|split].
    + split; [lia|discriminate].
    + reflexivity.
    + reflexivity.
Qed.

(** The last event date *)

Lemma validTimes_In (events : list Event.t) (t : Z) :
  List.In t (validTimes (List.map (fun e => dateOfString (Event.date e)) events))
  <-> exists e, List.In e events /\ dateOfString (Event.date e) = JsDate.Valid t.
Proof.
  induction events as [|a l IH]; simpl.
  - split; [contradiction|]. now intros (e & [] & _).
  - destruct (dateOfString (Event.date a)) as [ta|] eqn:Ha; simpl; rewrite IH; split.
    + intros [<-|(e & He & Hd)]; eauto.
    + intros (e & [<-|He] & Hd); [left; congruence|eauto].
    + intros (e & He & Hd). eauto.
    + intros (e & [<-|He] & Hd); [congruence|eauto].
Qed.

Lemma maxTime_greatest (first : Z) (rest : list Z) :
  List.In (maxTime first rest) (first :: rest) /\
  forall t, List.In t (first :: rest) -> t <= maxTime first rest.
Proof.
  unfold maxTime. revert first. induction rest as [|a l IH]; intros first; simpl.
  - split; [now left|]. intros t [Ht|Ht]; [lia|contradiction].
  - destruct (IH (Z.max first a)) as [Hin Hmax]. split.
    + destruct Hin as [Heq|Hin]; [|now right; right].
      rewrite <- Heq. destruct (Z.max_spec first a) as [[_ ->]|[_ ->]]; auto.
    + intros t [Ht|[Ht|Ht]].
      * specialize (Hmax (Z.max first a) (or_introl eq_refl)). lia.
      * specialize (Hmax (Z.max first a) (or_introl eq_refl)). lia.
      * apply Hmax. now right.
Qed.

Lemma updateVenueStatus_lastEventDate (disk : option VenueStatusFile.t) (st : State)
    (venueId venueName : string) (allEvents futureEvents : list Event.t)
    (scrapedAt : Z) :
  VenueStatus.lastEventDate
    (snd (updateVenueStatus dateOfString host disk st venueId venueName
            allEvents futureEvents scrapedAt)) =
  findLastEventDate dateOfString allEvents.
Proof.
  unfold updateVenueStatus. destruct (load host disk st) as [st' file]. reflexivity.
Qed.

(** C2 (as the code has it). The status written by an update takes its
    lastEventDate from the batch alone, whatever was recorded before: an
    empty batch, or a batch none of whose dates parses, leaves it null;
    a batch with a valid date sets it to the latest valid date of all
    its events, future or past.  The written status is the one stored
    for the venue. *)
Theorem update_lastEventDate_from_batch
    (disk : option VenueStatusFile.t) (st : State)
    (venueId venueName : string) (allEvents futureEvents : list Event.t)
    (scrapedAt : Z) :
  let result := updateVenueStatus dateOfString host disk st venueId venueName
                  allEvents futureEvents scrapedAt in
  let valid t :=
    exists e, List.In e allEvents /\ dateOfString (Event.date e) = JsDate.Valid t in
  (exists file, fst result = Some file /\
                VenueStatusFile.venues file !! venueId = Some (snd result)) /\
  (allEvents = [] -> VenueStatus.lastEventDate (snd result) = None) /\
  ((forall t, ~ valid t) -> VenueStatus.lastEventDate (snd result) = None) /\
  (forall t, valid t ->
     exists latest,
       VenueStatus.lastEventDate (snd result) = Some (JsDate.toISOString latest) /\
       valid latest /\ forall t', valid t' -> t' <= latest).
Proof.
  cbv zeta. split; [apply updateVenueStatus_stored|].
  rewrite updateVenueStatus_lastEventDate. unfold findLastEventDate.
  split; [|split].
  - now intros ->.
  - intros Hnone. destruct allEvents as [|a l]; [reflexivity|].
    destruct (validTimes _) as [|first rest] eqn:Hv; [reflexivity|].
    exfalso. apply (Hnone first). apply validTimes_In. rewrite Hv. now left.
  - intros t Ht. apply validTimes_In in Ht.
    destruct allEvents as [|a l]; [contradiction|].
    destruct (validTimes _) as [|first rest] eqn:Hv; [contradiction|].
    exists (maxTime first rest).
    destruct (maxTime_greatest first rest) as [Hin Hmax].
    split; [reflexivity|]. split.
    + apply validTimes_In. now rewrite Hv.
    + intros t' Ht'. apply Hmax. rewrite <- Hv. now apply validTimes_In.
Qed.

End StatusFacts.

(* a third scrape of a quiet venue, with a past event only: the counter
   goes from 2 to 3, in the status returned and in the one stored *)
Lemma scrape_counter_third_quiet_scrape :
  let host := Samples.utcAt "2025-06-01T12:00:00.000Z" in
  let st := Some Samples.statusFile in
  let events := [Samples.triviaEvent "2025-05-29T19:00:00.000Z"] in
  let result :=
    VenueStatusManager.recordScrape JsDate.ofISOString host None st
      "crooked-lane" "Crooked Lane" events
      (JsDate.timeOf "2025-06-01T12:00:00.000Z") in
  0 <= match VenueStatusFile.venues
               (snd (VenueStatusManager.load host None st)) !! "crooked-lane" with
       | Some s => VenueStatus.consecutiveScrapesWithNoFutureEvents s
       | None => 0
       end /\
  VenueStatus.consecutiveScrapesWithNoFutureEvents (snd result) = 3 /\
  exists file,
    fst result = Some file /\
    VenueStatusFile.venues file !! "crooked-lane" = Some (snd result).
Proof.
  cbv zeta.
  assert (Hprev : 0 <= match VenueStatusFile.venues
                           (snd (VenueStatusManager.load
                                   (Samples.utcAt "2025-06-01T12:00:00.000Z") None
                                   (Some Samples.statusFile))) !! "crooked-lane" with
                       | Some s => VenueStatus.consecutiveScrapesWithNoFutureEvents s
                       | None => 0
                       end).
  { vm_compute. discriminate. }
  split; [exact Hprev|].
  destruct (scrape_counter_reset_or_increment JsDate.ofISOString
              (Samples.utcAt "2025-06-01T12:00:00.000Z") None
              (Some Samples.statusFile) "crooked-lane" "Crooked Lane"
              [Samples.triviaEvent "2025-05-29T19:00:00.000Z"]
              (JsDate.timeOf "2025-06-01T12:00:00.000Z") Hprev)
    as (Hstored & _ & Hinc & _).
  split; [|exact Hstored].
  rewrite Hinc.
  - vm_compute. reflexivity.
  - intros (e & t & [<-|[]] & Hd & Hle). vm_compute in Hd.
    injection Hd as <-. vm_compute in Hle. now apply Hle.
Defined.

(* a failed scrape, recorded with an empty batch, and a batch whose only
   date does not parse: both erase the recorded date of the last event *)
Lemma empty_batch_clears_lastEventDate :
  let host := Samples.utcAt "2025-06-01T12:00:00.000Z" in
  let st := Some Samples.statusFile in
  let update events :=
    snd (VenueStatusManager.updateVenueStatus JsDate.ofISOString host None st
           "crooked-lane" "Crooked Lane" events []
           (JsDate.timeOf "2025-06-01T12:00:00.000Z")) in
  (VenueStatus.lastEventDate <$>
     VenueStatusFile.venues Samples.statusFile !! "crooked-lane")
    = Some (Some "2025-01-05T08:00:00.000Z") /\
  VenueStatus.lastEventDate (update []) = None /\
  VenueStatus.lastEventDate (update [Samples.triviaEvent "to be announced"]) = None.
Proof. cbv zeta. repeat split; vm_compute; reflexivity. Qed.

(** * Dates and times *)

Section ParserFacts.
Import JsString JsDate.

Variable h : Host.

(** The time formats read their tokens before they look at the
    reference date: a text that no format reads is rejected on every
    host. *)

Lemma parse_unreadable (text fmt : string) (reference : Z) :
  DateFns.unreadable text fmt = true ->
  DateFns.parse h text fmt reference = Invalid.
Proof.
  unfold DateFns.unreadable, DateFns.parse.
  destruct (DateFns.runTokens _ _ _) as [[setters rest]|]; [|reflexivity].
  now intros ->.
Qed.

Lemma tryTimeFormats_unreadable (text : string) (formats : list string) :
  List.forallb (DateFns.unreadable text) formats = true ->
  DateParser.tryTimeFormats h text formats = None.
Proof.
  induction formats as [|fmt rest IH]; simpl; [reflexivity|].
  intros H. apply andb_true_iff in H. destruct H as [Hf Hr].
  rewrite (parse_unreadable _ _ _ Hf). now apply IH.
Qed.

Lemma tryFormats_unreadable (text : string) (reference : Z) (formats : list string) :
  List.forallb (DateFns.unreadable text) formats = true ->
  DateParser.tryFormats h text reference formats = None.
Proof.
  induction formats as [|fmt rest IH]; simpl; [reflexivity|].
  intros H. apply andb_true_iff in H. destruct H as [Hf Hr].
  rewrite (parse_unreadable _ _ _ Hf). now apply IH.
Qed.

(** The fallback pattern of parseTime *)

Lemma digitsAtMost_digit (n : nat) (c : ascii) (l : list ascii) :
  isDigit c = true -> exists r, Rx.digitsAtMost (S n) (c :: l) = Some r.
Proof.
  intros Hc. unfold Rx.digitsAtMost. simpl. rewrite Hc.
  destruct (Rx.spanAtMost n isDigit l) as [run rest]. eauto.
Qed.

Lemma simpleMatchAt_digit (c : ascii) (l : list ascii) :
  isDigit c = true -> exists r, DateParser.simpleMatchAt (c :: l) = Some r.
Proof.
  intros Hc. unfold DateParser.simpleMatchAt.
  destruct (digitsAtMost_digit 1 c l Hc) as [[hs rest] ->].
  match goal with |- context [let '(_, _) := ?e in _] => destruct e as [ms rest'] end.
  eauto.
Qed.

Lemma search_simpleMatchAt (l : list ascii) :
  List.existsb isDigit l = true ->
  exists r, Rx.search DateParser.simpleMatchAt l = Some r.
Proof.
  induction l as [|c l IH]; simpl; [discriminate|]. intros H.
  destruct (DateParser.simpleMatchAt (c :: l)) as [r|] eqn:Hm; [eauto|].
  destruct (isDigit c) eqn:Hc.
  - destruct (simpleMatchAt_digit c l Hc) as [r Hr]. congruence.
  - simpl in H. now apply IH.
Qed.

Lemma parseTime_99 :
  DateParser.parseTime h "99" =
  (Some {| DateParser.hours := 99; DateParser.minutes := 0 |}, []).
Proof.
  unfold DateParser.parseTime.
  change (String.eqb "99" "") with false. cbv iota.
  change (DateParser.cleanTimeString "99") with "99".
  rewrite tryTimeFormats_unreadable by reflexivity.
  reflexivity.
Qed.

(** C10. parseTime validates nothing on its fallback path: the fallback
    pattern matches every cleaned text that holds a digit, so every
    such text yields a time, wanted or not;
    parseTime("99") is 99 hours and 0 minutes; so the hour of a result
    need not lie in 0-23. *)
Theorem parseTime_fallback_unchecked :
  (forall cleaned,
     List.existsb isDigit cleaned = true ->
     exists found, Rx.search DateParser.simpleMatchAt cleaned = Some found) /\
  (forall timeStr,
     List.existsb isDigit (chars (DateParser.cleanTimeString timeStr)) = true ->
     exists time, fst (DateParser.parseTime h timeStr) = Some time) /\
  DateParser.parseTime h "99" =
    (Some {| DateParser.hours := 99; DateParser.minutes := 0 |}, []) /\
  (exists timeStr time,
     fst (DateParser.parseTime h timeStr) = Some time /\
     23 < DateParser.hours time).
Proof.
  split; [exact search_simpleMatchAt|]. split; [|split].
  - intros timeStr Hd. unfold DateParser.parseTime.
    destruct (String.eqb_spec timeStr "") as [->|Hne]; [discriminate Hd|].
    destruct (DateParser.tryTimeFormats h _ _) as [time|]; [eauto|].
    destruct (search_simpleMatchAt _ Hd) as [[[hs ms] period] ->]. simpl. eauto.
  - apply parseTime_99.
  - exists "99". eexists. rewrite parseTime_99. split; [reflexivity|]. simpl. lia.
Qed.

(** Local fields of a date built from local fields *)

Lemma timeOfDay_fields (f : Fields) :
  0 <= hours f < 24 -> 0 <= minutes f < 60 -> 0 <= seconds f < 60 ->
  0 <= milliseconds f < 1000 ->
  let t := ofLocalFields h f in
  getHours h t = hours f /\ getMinutes h t = minutes f.
Proof.
  intros Hh Hm Hs Hms. cbv zeta.
  unfold getHours, getMinutes, localFields, ofLocalFields, fieldsOfTime.
  replace (timeOfFields f - offsetMs h + offsetMs h) with (timeOfFields f) by lia.
  unfold timeOfFields.
  set (dayNo := daysFromCivil _ _ _).
  set (tod := hours f * msPerHour + minutes f * msPerMinute + seconds f * 1000
              + milliseconds f).
  replace (dayNo * msPerDay + hours f * msPerHour + minutes f * msPerMinute
           + seconds f * 1000 + milliseconds f) with (tod + dayNo * msPerDay)
    by (unfold tod; lia).
  assert (Htod : 0 <= tod < msPerDay).
  { unfold tod, msPerDay, msPerHour, msPerMinute. lia. }
  rewrite Z.mod_add by (unfold msPerDay; lia).
  rewrite Z.mod_small by assumption.
  destruct (civilFromDays _) as [[y m] d]. simpl.
  unfold tod, msPerHour, msPerMinute in *.
  split.
  - symmetry. apply (Z.div_unique _ _ _ (minutes f * 60000 + seconds f * 1000 + milliseconds f)); lia.
  - replace ((hours f * 3600000 + minutes f * 60000 + seconds f * 1000
              + milliseconds f) mod 3600000)
      with (minutes f * 60000 + seconds f * 1000 + milliseconds f).
    + symmetry. apply (Z.div_unique _ _ _ (seconds f * 1000 + milliseconds f)); lia.
    + apply (Z.mod_unique _ _ (hours f)); lia.
Qed.

Lemma parse_7PM_ha (reference : Z) :
  DateFns.parse h "7PM" "ha" reference =
  Valid (ofLocalFields h (DateFns.atHour (localFields h reference) 19)).
Proof. reflexivity. Qed.

Lemma parseTime_7pm :
  DateParser.parseTime h "7pm" =
  (Some {| DateParser.hours := 19; DateParser.minutes := 0 |}, []).
Proof.
  unfold DateParser.parseTime.
  change (String.eqb "7pm" "") with false. cbv iota.
  change (DateParser.cleanTimeString "7pm") with "7PM".
  change DateParser.TIME_FORMATS with
    (["h:mm a"; "hh:mm a"; "H:mm"; "HH:mm"; "h a"] ++ ["ha"; "h:mma"; "hh:mma"]).
  assert (Hsplit : forall l1 l2,
            DateParser.tryTimeFormats h "7PM" l1 = None ->
            DateParser.tryTimeFormats h "7PM" (l1 ++ l2) =
            DateParser.tryTimeFormats h "7PM" l2).
  { induction l1 as [|f l1 IH]; simpl; intros l2 Hn; [reflexivity|].
    destruct (DateFns.parse h "7PM" f (now h)); [discriminate|]. now apply IH. }
  rewrite Hsplit by (apply tryTimeFormats_unreadable; reflexivity).
  cbn [DateParser.tryTimeFormats]. rewrite parse_7PM_ha.
  destruct (timeOfDay_fields (DateFns.atHour (localFields h (now h)) 19))
    as [-> ->]; simpl; try lia.
  reflexivity.
Qed.

(** Every date that parseDate returns is a valid one *)

Lemma tryFormats_valid (text : string) (reference : Z) (formats : list string)
    (d : JsDate.t) :
  DateParser.tryFormats h text reference formats = Some d -> exists t, d = Valid t.
Proof.
  induction formats as [|fmt rest IH]; simpl; [discriminate|].
  destruct (DateFns.parse h text fmt reference) as [parsed|]; [|exact IH].
  destruct (negb (DateParser.hasFourDigits text)); [destruct (parsed <? now h)|];
    intros [= <-]; eauto.
Qed.

Lemma parseRelativeDate_valid (text : string) (reference : Z) (d : JsDate.t) :
  DateParser.parseRelativeDate h text reference = Some d -> exists t, d = Valid t.
Proof.
  unfold DateParser.parseRelativeDate.
  destruct (String.eqb (toLowerCase text) "today"); [intros [= <-]; eauto|].
  destruct (String.eqb (toLowerCase text) "tomorrow"); [intros [= <-]; eauto|].
  destruct (Rx.search DateParser.dayMatchAt _) as [[q dayName]|].
  - destruct (DateParser.lookup dayName DateParser.DAY_NAMES) as [dayNum|].
    + intros [= <-]; eauto.
    + destruct (Rx.search (DateParser.everyMatchAt false) _) as [dayName'|];
        [|discriminate].
      destruct (DateParser.lookup dayName' DateParser.DAY_NAMES);
        [intros [= <-]; eauto|discriminate].
  - destruct (Rx.search (DateParser.everyMatchAt false) _) as [dayName'|];
      [|discriminate].
    destruct (DateParser.lookup dayName' DateParser.DAY_NAMES);
      [intros [= <-]; eauto|discriminate].
Qed.

Lemma parseDate_valid (dateStr : string) (referenceDate : option Z) (d : JsDate.t) :
  fst (DateParser.parseDate h dateStr referenceDate) = Some d ->
  exists t, d = Valid t.
Proof.
  unfold DateParser.parseDate.
  destruct (String.eqb dateStr ""); [discriminate|]. cbv zeta.
  destruct (DateFns.parseISO h _) as [t|] eqn:Hiso; cbn [DateFns.isValid].
  - cbn [fst]. intros [= <-]. eauto.
  - destruct (DateParser.tryFormats h _ _ _) as [parsed|] eqn:Hf.
    + cbn [fst]. intros [= <-]. eapply tryFormats_valid, Hf.
    + destruct (DateParser.parseRelativeDate h _ _) as [rel|] eqn:Hr; cbn [fst].
      * intros [= <-]. eapply parseRelativeDate_valid, Hr.
      * discriminate.
Qed.

(* a dropped date leaves a warning *)
Lemma parseDate_none_warns (dateStr : string) (referenceDate : option Z) :
  dateStr <> "" ->
  fst (DateParser.parseDate h dateStr referenceDate) = None ->
  exists message, List.In (warn, message) (snd (DateParser.parseDate h dateStr referenceDate)).
Proof.
  intros Hne. unfold DateParser.parseDate.
  destruct (String.eqb_spec dateStr ""); [contradiction|].
  destruct (DateFns.isValid _); [discriminate|].
  destruct (DateParser.tryFormats h _ _ _); [discriminate|].
  destruct (DateParser.parseRelativeDate h _ _); [discriminate|].
  intros _. cbn [snd]. eexists. now left.
Qed.

Lemma parseDate_every_thursday :
  DateParser.parseDate h "Every Thursday" None =
  (Some (Valid (DateFns.nextDay h (now h) 4)), []).
Proof.
  unfold DateParser.parseDate.
  change (String.eqb "Every Thursday" "") with false. cbv iota.
  change (DateParser.cleanDateString "Every Thursday") with "Every Thursday".
  change (DateFns.parseISO h "Every Thursday") with Invalid. simpl DateFns.isValid.
  cbv iota.
  rewrite tryFormats_unreadable by reflexivity.
  reflexivity.
Qed.

End ParserFacts.

(** The year of a date without year: the clock decides, not the
    reference date *)

Section YearRollover.
Import JsDate.

(** C3 (the code at the dates of the specification). With the reference date
    2025-06-01 and, again, 2025-01-01, read at a later time, the year
    of "January 5" is the year after that of the clock: the date is
    compared with the clock and its year is counted from the clock, the
    reference date gives only the year that the comparison starts from. *)
Theorem parseDate_rollover_follows_clock :
  iso (fst (DateParser.parseDate (Samples.utcAt "2026-11-03T12:00:00.000Z")
              "January 5" (Some (timeOf "2025-06-01T00:00:00.000Z"))))
  = Some "2027-01-05T00:00:00.000Z" /\
  iso (fst (DateParser.parseDate (Samples.utcAt "2026-11-03T12:00:00.000Z")
              "January 5" (Some (timeOf "2025-01-01T00:00:00.000Z"))))
  = Some "2027-01-05T00:00:00.000Z".
Proof. split; vm_compute; reflexivity. Qed.

(* when the clock stands at the reference date, as in every call of the
   program, the dates are the expected ones *)
Lemma parseDate_rollover_at_reference :
  iso (fst (DateParser.parseDate (Samples.utcAt "2025-06-01T00:00:00.000Z")
              "January 5" (Some (timeOf "2025-06-01T00:00:00.000Z"))))
  = Some "2026-01-05T00:00:00.000Z" /\
  iso (fst (DateParser.parseDate (Samples.utcAt "2025-01-01T00:00:00.000Z")
              "January 5" (Some (timeOf "2025-01-01T00:00:00.000Z"))))
  = Some "2025-01-05T00:00:00.000Z".
Proof. split; vm_compute; reflexivity. Qed.

End YearRollover.


(** * Normalisation *)

Section NormalizerFacts.
Import JsString EventNormalizer.

Variable h : Host.

Lemma normalizeBody_completes (rawData : RawEventData.t) (venue : VenueInfo.t)
    (source : string) :
  exists result,
    fst (normalizeBody h rawData venue source) = Normal result.
Proof.
  unfold normalizeBody.
  destruct (truthy (RawEventData.title rawData)); cbn [negb]; [|cbn [fst]; eauto].
  destruct (truthy (RawEventData.date rawData)); [|cbn [fst]; eauto].
  destruct (DateParser.parseDate h _ None) as [[date|] log] eqn:Hp;
    [|cbn [fst]; eauto].
  destruct (parseDate_valid h (orEmpty (RawEventData.date rawData)) None date)
    as [t ->]; [now rewrite Hp|].
  cbn [toISOString fst]. eauto.
Qed.

(** C6. For every raw record, venue and source id, normalizeEvent
    returns an event or null and nothing is thrown to the caller: the
    try block itself completes normally, so its result and log are
    those of normalizeEvent.  The record is dropped exactly when the
    title is missing or empty, or the date is missing or empty, or the
    date parser does not resolve it; and a dropped record leaves a
    warning in the log. *)
Theorem normalizeEvent_total_drops_exactly (rawData : RawEventData.t)
    (venue : VenueInfo.t) (source : string) :
  let result := fst (normalizeEvent h rawData venue source) in
  let log := snd (normalizeEvent h rawData venue source) in
  let resolved :=
    fst (DateParser.parseDate h (orEmpty (RawEventData.date rawData)) None) in
  normalizeBody h rawData venue source = (Normal result, log) /\
  (result = None <->
   truthy (RawEventData.title rawData) = false \/
   truthy (RawEventData.date rawData) = false \/
   resolved = None) /\
  (result = None -> exists message, List.In (warn, message) log).
Proof.
  cbv zeta. unfold normalizeEvent.
  destruct (normalizeBody_completes rawData venue source) as [r Hr].
  destruct (normalizeBody h rawData venue source) as [c log] eqn:Hb.
  cbn [fst] in Hr. subst c. cbn [fst snd]. split; [reflexivity|].
  revert Hb. unfold normalizeBody.
  destruct (truthy (RawEventData.title rawData)) eqn:Ht; cbn [negb].
  2:{ intros [= <- <-]. split; [tauto|]. intros _. eexists. now left. }
  destruct (truthy (RawEventData.date rawData)) eqn:Hd.
  2:{ intros [= <- <-]. split; [tauto|]. intros _. eexists. now left. }
  destruct (DateParser.parseDate h (orEmpty (RawEventData.date rawData)) None)
    as [[date|] plog] eqn:Hp; cbn [fst].
  - destruct (parseDate_valid h (orEmpty (RawEventData.date rawData)) None date)
      as [t ->]; [now rewrite Hp|].
    cbn [toISOString]. intros [= <- <-].
    split; [|discriminate]. split; [discriminate|].
    intros [H|[H|H]]; discriminate.
  - intros [= <- <-]. split; [tauto|]. intros _.
    eexists. apply List.in_or_app. right. now left.
Qed.

(* the identifier of a returned event is the one of its raw title, its
   date string and the name of its venue *)
Lemma normalizeEvent_id (rawData : RawEventData.t) (venue : VenueInfo.t)
    (source : string) (event : Event.t) :
  fst (normalizeEvent h rawData venue source) = Some event ->
  Event.id event =
    generateEventId (orEmpty (RawEventData.title rawData)) (Event.date event)
      (VenueInfo.name venue).
Proof.
  unfold normalizeEvent, normalizeBody.
  destruct (truthy (RawEventData.title rawData)); cbn [negb]; [|discriminate].
  destruct (truthy (RawEventData.date rawData)); [|discriminate].
  destruct (DateParser.parseDate h (orEmpty (RawEventData.date rawData)) None)
    as [[date|] log] eqn:Hp; [|discriminate].
  destruct (parseDate_valid h (orEmpty (RawEventData.date rawData)) None date)
    as [t ->]; [now rewrite Hp|].
  cbn [toISOString fst]. intros [= <-]. reflexivity.
Qed.

(** C4. On every host, the record with title "Trivia Night", date text
    "Every Thursday" and start time text "7pm" for the venue "Crooked
    Lane" becomes an event, without any log entry, of category trivia,
    recurring with the pattern "weekly:thursday", whose start time is
    the text "7pm", which parseTime reads as 19:00.  Its tags are
    "trivia" alone.  The tag "thursday" that the specification states,
    and that extractTags is written to add for recurring events, is
    missing: extractTags reads the title and the description, and the
    weekday stands in the date text. *)
Theorem trivia_night_normalized (source : string) :
  exists event,
    normalizeEvent h Samples.triviaNight Samples.crookedLane source
      = (Some event, []) /\
    Event.type event = Some trivia /\
    Event.tags event = ["trivia"] /\
    ~ List.In "thursday" (Event.tags event) /\
    Event.isRecurring event = true /\
    Event.recurringPattern event = Some "weekly:thursday" /\
    Event.startTime event = Some "7pm" /\
    fst (DateParser.parseTime h "7pm")
      = Some {| DateParser.hours := 19; DateParser.minutes := 0 |}.
Proof.
  unfold normalizeEvent, normalizeBody.
  change (truthy (RawEventData.title Samples.triviaNight)) with true.
  change (truthy (RawEventData.date Samples.triviaNight)) with true.
  change (orEmpty (RawEventData.date Samples.triviaNight)) with "Every Thursday".
  cbn [negb]. rewrite parseDate_every_thursday. cbn [toISOString].
  eexists. split; [reflexivity|]. cbn [Event.type Event.tags Event.isRecurring
    Event.recurringPattern Event.startTime Event.date].
  rewrite parseTime_7pm. repeat split.
  intros [H|[]]. discriminate H.
Qed.

End NormalizerFacts.

(* the weekday of the date text is not among the tags *)
Lemma trivia_night_tags_lack_thursday :
  exists event,
    fst (EventNormalizer.normalizeEvent
           (Samples.pacificAt "2026-11-03T20:00:00.000Z")
           Samples.triviaNight Samples.crookedLane "crooked-lane") = Some event /\
    Event.tags event = ["trivia"] /\
    ~ List.In "thursday" (Event.tags event).
Proof.
  eexists. split; [vm_compute; reflexivity|]. split; [reflexivity|].
  simpl. intros [H|[]]. discriminate H.
Qed.

(** * Event ids *)

Section IdFacts.
Import JsString EventNormalizer.

Lemma lower_upper (c : ascii) : lowerChar (upperChar c) = lowerChar c.
Proof. destruct c as [[] [] [] [] [] [] [] []]; reflexivity. Qed.

Lemma lower_lower (c : ascii) : lowerChar (lowerChar c) = lowerChar c.
Proof. destruct c as [[] [] [] [] [] [] [] []]; reflexivity. Qed.

Lemma lower_alnum_not_punctuation (c : ascii) :
  (isLower (lowerChar c) || isDigit (lowerChar c))%bool = true ->
  isPunctuation c = false.
Proof. destruct c as [[] [] [] [] [] [] [] []]; intros H; try reflexivity; discriminate H. Qed.

Lemma alnum_not_hyphen (c : ascii) :
  (isLower c || isDigit c)%bool = true -> c <> "-"%char.
Proof. intros H ->. discriminate H. Qed.

Lemma chars_alnumOnly (s : string) : chars (alnumOnly s) = alnumChars (chars s).
Proof.
  unfold alnumOnly, removeChars, toLowerCase, onChars, alnumChars.
  rewrite !chars_ofChars. apply List.filter_ext. intros c.
  now rewrite negb_involutive.
Qed.

Lemma alnumOnly_ext (s1 s2 : string) :
  alnumChars (chars s1) = alnumChars (chars s2) -> alnumOnly s1 = alnumOnly s2.
Proof. intros H. apply chars_inj. now rewrite !chars_alnumOnly. Qed.

Lemma alnumOnly_toUpperCase (s : string) : alnumOnly (toUpperCase s) = alnumOnly s.
Proof.
  apply alnumOnly_ext. unfold toUpperCase, onChars. rewrite chars_ofChars.
  unfold alnumChars. rewrite List.map_map. f_equal.
  apply List.map_ext. apply lower_upper.
Qed.

Lemma alnumOnly_toLowerCase (s : string) : alnumOnly (toLowerCase s) = alnumOnly s.
Proof.
  apply alnumOnly_ext. unfold toLowerCase, onChars. rewrite chars_ofChars.
  unfold alnumChars. rewrite List.map_map. f_equal.
  apply List.map_ext. apply lower_lower.
Qed.

Lemma alnumChars_app (l1 l2 : list ascii) :
  alnumChars (l1 ++ l2) = alnumChars l1 ++ alnumChars l2.
Proof. unfold alnumChars. now rewrite List.map_app, List.filter_app. Qed.

Lemma alnumChars_punctuation (c : ascii) :
  isPunctuation c = true -> alnumChars [c] = [].
Proof.
  intros Hp. unfold alnumChars. simpl.
  destruct (isLower (lowerChar c) || isDigit (lowerChar c))%bool eqn:H; [|reflexivity].
  apply lower_alnum_not_punctuation in H. congruence.
Qed.

Lemma alnumOnly_without_punctuation (s : string) :
  alnumOnly (removeChars isPunctuation s) = alnumOnly s.
Proof.
  apply alnumOnly_ext. unfold removeChars, onChars. rewrite chars_ofChars.
  induction (chars s) as [|c l IH]; [reflexivity|]. simpl List.filter.
  change (c :: l) with ([c] ++ l). rewrite (alnumChars_app [c] l).
  destruct (isPunctuation c) eqn:Hp; simpl negb; cbv iota.
  - now rewrite (alnumChars_punctuation c Hp), IH.
  - change (c :: List.filter (fun c0 => negb (isPunctuation c0)) l)
      with ([c] ++ List.filter (fun c0 => negb (isPunctuation c0)) l).
    now rewrite alnumChars_app, IH.
Qed.

Lemma alnumOnly_insert_punctuation (s1 s2 : string) (c : ascii) :
  isPunctuation c = true ->
  alnumOnly (s1 +:+ String c s2) = alnumOnly (s1 +:+ s2).
Proof.
  intros Hp. apply alnumOnly_ext. rewrite !chars_append.
  change (chars (String c s2)) with ([c] ++ chars s2).
  rewrite !alnumChars_app, (alnumChars_punctuation c Hp). reflexivity.
Qed.

Lemma alnumOnly_no_hyphen (s : string) : ~ List.In "-"%char (chars (alnumOnly s)).
Proof.
  rewrite chars_alnumOnly. unfold alnumChars. intros H.
  apply List.filter_In in H. destruct H as [_ H]. discriminate H.
Qed.

Lemma hashInput_injective (t1 t2 d1 d2 v1 v2 : string) :
  hashInput t1 d1 v1 = hashInput t2 d2 v2 <->
  alnumOnly t1 = alnumOnly t2 /\ d1 = d2 /\ alnumOnly v1 = alnumOnly v2.
Proof.
  unfold hashInput. split.
  - intros H. apply (f_equal chars) in H. rewrite !chars_append in H. simpl in H.
    apply split_at_first in H; try apply alnumOnly_no_hyphen.
    destruct H as [Ht H]. apply split_at_last in H; try apply alnumOnly_no_hyphen.
    destruct H as [Hd Hv]. apply chars_inj in Ht, Hd, Hv. auto.
  - intros (-> & -> & ->). reflexivity.
Qed.

(** C7 (as the code has it). The event id is computed from the
    lowercased title stripped to the letters a-z and the digits, the
    date string and the venue name stripped alike, and from nothing
    else: equal triples give equal ids.  So the case of the ASCII
    letters of the title does not matter (two titles with the same
    lower-casing get the same id, and so does an ASCII title and its
    upper-casing), nor does its punctuation, whether all characters
    other than letters and digits are removed or one such character is
    inserted anywhere.  Two normalisations give the same id whenever
    their titles and venue names agree in this way and their dates
    resolve to the same string, whatever the clocks, the sources and the
    other fields of the records are.  The text that is hashed
    determines the triple, hence changes with the date; the id is the
    first eight hexadecimal digits of the MD5 of that text. *)
Theorem generateEventId_of_normalized_triple :
  (forall t1 t2 d v1 v2,
     alnumOnly t1 = alnumOnly t2 -> alnumOnly v1 = alnumOnly v2 ->
     generateEventId t1 d v1 = generateEventId t2 d v2) /\
  (forall t1 t2 d v,
     toLowerCase t1 = toLowerCase t2 ->
     generateEventId t1 d v = generateEventId t2 d v) /\
  (forall t d v,
     (isAscii t = true ->
      generateEventId (toUpperCase t) d v = generateEventId t d v) /\
     generateEventId (toLowerCase t) d v = generateEventId t d v /\
     generateEventId (removeChars isPunctuation t) d v = generateEventId t d v) /\
  (forall t1 t2 c d v,
     isPunctuation c = true ->
     generateEventId (t1 +:+ String c t2) d v = generateEventId (t1 +:+ t2) d v) /\
  (forall hostA hostB rawA rawB venueA venueB sourceA sourceB a b,
     fst (normalizeEvent hostA rawA venueA sourceA) = Some a ->
     fst (normalizeEvent hostB rawB venueB sourceB) = Some b ->
     alnumOnly (orEmpty (RawEventData.title rawA))
       = alnumOnly (orEmpty (RawEventData.title rawB)) ->
     alnumOnly (VenueInfo.name venueA) = alnumOnly (VenueInfo.name venueB) ->
     Event.date a = Event.date b ->
     Event.id a = Event.id b) /\
  (forall t1 t2 d1 d2 v1 v2,
     hashInput t1 d1 v1 = hashInput t2 d2 v2 <->
     alnumOnly t1 = alnumOnly t2 /\ d1 = d2 /\ alnumOnly v1 = alnumOnly v2) /\
  (forall t d v,
     generateEventId t d v =
     "evt-" +:+ String.substring 0 8 (Md5.hexdigest (hashInput t d v))).
Proof.
  assert (Hsame : forall t1 t2 d v1 v2,
            alnumOnly t1 = alnumOnly t2 -> alnumOnly v1 = alnumOnly v2 ->
            generateEventId t1 d v1 = generateEventId t2 d v2).
  { intros t1 t2 d v1 v2 Ht Hv. unfold generateEventId, hashInput.
    now rewrite Ht, Hv. }
  split; [exact Hsame|]. split; [|split; [|split; [|split; [|split]]]].
  - intros t1 t2 d v Hlower. apply Hsame; [|reflexivity].
    rewrite <- (alnumOnly_toLowerCase t1), <- (alnumOnly_toLowerCase t2).
    now rewrite Hlower.
  - intros t d v. repeat split; try intros _; apply Hsame; try reflexivity.
    + apply alnumOnly_toUpperCase.
    + apply alnumOnly_toLowerCase.
    + apply alnumOnly_without_punctuation.
  - intros t1 t2 c d v Hp. apply Hsame; [|reflexivity].
    now apply alnumOnly_insert_punctuation.
  - intros hostA hostB rawA rawB venueA venueB sourceA sourceB a b Ha Hb Ht Hv Hd.
    rewrite (normalizeEvent_id hostA rawA venueA sourceA a Ha).
    rewrite (normalizeEvent_id hostB rawB venueB sourceB b Hb).
    rewrite Hd. now apply Hsame.
  - apply hashInput_injective.
  - reflexivity.
Qed.

End IdFacts.

(* two dates of one event whose ids are the same *)
Lemma generateEventId_collision :
  "2026-08-07T05:00:00.000Z" <> "2026-09-24T03:45:00.000Z" /\
  EventNormalizer.generateEventId "Trivia Night" "2026-08-07T05:00:00.000Z"
    "Crooked Lane" = "evt-072d22a9" /\
  EventNormalizer.generateEventId "Trivia Night" "2026-09-24T03:45:00.000Z"
    "Crooked Lane" = "evt-072d22a9".
Proof. split; [discriminate|]. split; vm_compute; reflexivity. Qed.

(** * More on the venue status manager *)

Section HistoryFacts.
Import VenueStatusManager.

(** X1. The scrape history never holds more than ten entries: the new
    entry is always its last one, and what is dropped is dropped from
    the front, leaving the most recent entries in their order. *)
Theorem updateHistory_keeps_last_ten (existing : option (list ScrapeEntry.t))
    (newEntry : ScrapeEntry.t) :
  let before := match existing with Some l => l | None => [] end in
  exists dropped kept,
    updateHistory existing newEntry = Some (kept ++ [newEntry]) /\
    before = dropped ++ kept /\
    List.length (kept ++ [newEntry]) = Nat.min (List.length before + 1) 10.
Proof.
  cbv zeta. unfold updateHistory, MAX_HISTORY_ENTRIES.
  set (before := match existing with Some l => l | None => [] end).
  rewrite List.length_app. simpl List.length.
  destruct (Z.ltb_spec 10 (Z.of_nat (List.length before + 1))) as [Hlong|Hshort].
  - exists (List.firstn (List.length before + 1 - Z.to_nat 10) before),
      (List.skipn (List.length before + 1 - Z.to_nat 10) before).
    split; [|split].
    + f_equal. rewrite List.skipn_app.
      replace (List.length before + 1 - Z.to_nat 10 - List.length before)%nat
        with 0%nat by lia.
      reflexivity.
    + symmetry. apply List.firstn_skipn.
    + rewrite List.length_app, List.length_skipn. simpl. lia.
  - exists [], before. split; [reflexivity|]. split; [reflexivity|].
    rewrite List.length_app. simpl. lia.
Qed.

(* the new entry is the last one, and the history stays short *)
Lemma updateHistory_last (existing : option (list ScrapeEntry.t))
    (newEntry : ScrapeEntry.t) :
  exists earlier,
    updateHistory existing newEntry = Some (earlier ++ [newEntry]) /\
    (1 <= List.length (earlier ++ [newEntry]) <= 10)%nat.
Proof.
  unfold updateHistory, MAX_HISTORY_ENTRIES.
  set (before := match existing with Some l => l | None => [] end).
  destruct (Z.ltb_spec 10 (Z.of_nat (List.length (before ++ [newEntry]))))
    as [Hlong|Hshort].
  - exists (List.skipn (List.length (before ++ [newEntry]) - Z.to_nat 10) before).
    rewrite List.length_app in *. simpl List.length in *.
    rewrite List.skipn_app.
    replace (List.length before + 1 - Z.to_nat 10 - List.length before)%nat
      with 0%nat by lia.
    split; [reflexivity|]. rewrite List.length_app, List.length_skipn. simpl. lia.
  - exists before. split; [reflexivity|].
    rewrite List.length_app in *. simpl List.length in *. lia.
Qed.

End HistoryFacts.

Section StoreFacts.
Import JsString VenueStatusManager.

Variable dateOfString : string -> JsDate.t.
Variable host : Host.

Lemma load_loaded (disk disk' : option VenueStatusFile.t) (st : State) :
  load host disk' (fst (load host disk st)) = load host disk st.
Proof. destruct st as [file|]; reflexivity. Qed.

Lemma load_state (disk : option VenueStatusFile.t) (st : State) :
  fst (load host disk st) = Some (snd (load host disk st)).
Proof. destruct st as [file|]; reflexivity. Qed.

(** X2. A status written for one venue is the one read back for it, and
    the statuses of all other venues stay as they were; once a manager
    has loaded its file it does not read the disk again. *)
Theorem updateVenueStatus_lookup_and_frame
    (disk disk' : option VenueStatusFile.t) (st : State)
    (venueId venueName : string) (allEvents futureEvents : list Event.t)
    (scrapedAt : Z) :
  let result := updateVenueStatus dateOfString host disk st venueId venueName
                  allEvents futureEvents scrapedAt in
  snd (getVenueStatus host disk' (fst result) venueId) = Some (snd result) /\
  (forall other, other <> venueId ->
     snd (getVenueStatus host disk' (fst result) other)
     = snd (getVenueStatus host disk st other)) /\
  fst (getVenueStatus host disk' (fst result) venueId) = fst result /\
  load host disk' (fst (load host disk st)) = load host disk st.
Proof.
  cbv zeta. pose proof (load_loaded disk disk' st) as Hll.
  unfold updateVenueStatus, getVenueStatus.
  destruct (load host disk st) as [st' file]. cbn [fst snd load].
  split; [apply lookup_insert_eq|]. split; [|split; [reflexivity|exact Hll]].
  intros other Hne. cbn. now apply lookup_insert_ne.
Qed.

(** X3. In every status that a scrape records, the count of future
    events does not exceed the count of all events, the flag
    hasFutureEvents says that the former is positive, and the last
    entry of the history repeats the flag, the counts and the date of
    the last event. *)
Theorem recordScrape_counts_agree
    (disk : option VenueStatusFile.t) (st : State)
    (venueId venueName : string) (events : list Event.t) (scrapeDate : Z) :
  let status :=
    snd (recordScrape dateOfString host disk st venueId venueName events scrapeDate) in
  0 <= VenueStatus.futureEventCount status <= VenueStatus.totalEventCount status /\
  VenueStatus.totalEventCount status = Z.of_nat (List.length events) /\
  (VenueStatus.hasFutureEvents status = true
   <-> 0 < VenueStatus.futureEventCount status) /\
  exists earlier,
    VenueStatus.scrapeHistory status =
    Some (earlier ++
          [{| ScrapeEntry.scrapedAt := VenueStatus.lastScrapedAt status;
              ScrapeEntry.hadFutureEvents := VenueStatus.hasFutureEvents status;
              ScrapeEntry.futureEventCount := VenueStatus.futureEventCount status;
              ScrapeEntry.totalEventCount := VenueStatus.totalEventCount status;
              ScrapeEntry.lastEventDate := VenueStatus.lastEventDate status |}]).
Proof.
  cbv zeta. unfold recordScrape, updateVenueStatus.
  destruct (load host disk st) as [st' file]. cbn [snd].
  cbn [VenueStatus.futureEventCount VenueStatus.totalEventCount
       VenueStatus.hasFutureEvents VenueStatus.scrapeHistory
       VenueStatus.lastScrapedAt VenueStatus.lastEventDate].
  split; [|split; [reflexivity|split; [apply Z.ltb_lt|]]].
  - split; [lia|]. apply inj_le. unfold filterFutureEvents.
    apply List.filter_length_le.
  - match goal with |- context [updateHistory ?e ?n] =>
      destruct (updateHistory_last e n) as (earlier & -> & _)
    end.
    eauto.
Qed.

(** Day granularity of the filter *)

Lemma startOfDay_bounds (t : Z) :
  JsDate.startOfDay host t <= t < JsDate.startOfDay host t + JsDate.msPerDay.
Proof.
  unfold JsDate.startOfDay.
  pose proof (Z.mod_pos_bound (t + JsDate.offsetMs host) JsDate.msPerDay) as H.
  unfold JsDate.msPerDay in *. lia.
Qed.

(** X4. The filter of future events works by the day: it keeps, in
    their order, the events whose date parses and is not before the
    local midnight that starts the day of the reference instant.  So
    every event dated at or after the reference instant is kept, an
    event whose date does not parse is never kept, and filtering twice
    changes nothing. *)
Theorem filterFutureEvents_by_day (events : list Event.t) (asOfDate : Z) :
  let kept := filterFutureEvents dateOfString host events asOfDate in
  sublist kept events /\
  (forall e, List.In e kept <->
     List.In e events /\
     exists t, dateOfString (Event.date e) = JsDate.Valid t /\
               JsDate.startOfDay host asOfDate <= t) /\
  (forall e t, List.In e events -> dateOfString (Event.date e) = JsDate.Valid t ->
     asOfDate <= t -> List.In e kept) /\
  (forall e, List.In e kept -> dateOfString (Event.date e) <> JsDate.Invalid) /\
  filterFutureEvents dateOfString host kept asOfDate = kept.
Proof.
  cbv zeta. unfold filterFutureEvents. cbv zeta.
  set (keep := fun event : Event.t =>
                 notBefore (dateOfString (Event.date event))
                   (JsDate.startOfDay host asOfDate)).
  assert (Hkeep : forall e, keep e = true <->
            exists t, dateOfString (Event.date e) = JsDate.Valid t /\
                      JsDate.startOfDay host asOfDate <= t).
  { intros e. unfold keep.
    destruct (dateOfString (Event.date e)) as [t|]; simpl.
    - rewrite Z.leb_le. split; [eauto|]. now intros (t' & [= <-] & H).
    - split; [discriminate|]. now intros (t' & H & _). }
  pose proof (startOfDay_bounds asOfDate) as Hb.
  split; [|split; [|split; [|split]]].
  - induction events as [|e l IH]; simpl; [constructor|].
    destruct (keep e); [now apply sublist_skip|now apply sublist_cons].
  - intros e. now rewrite List.filter_In, Hkeep.
  - intros e t Hin Hd Hle. apply List.filter_In. split; [assumption|].
    apply Hkeep. exists t. split; [assumption|lia].
  - intros e Hin Hd. apply List.filter_In in Hin. destruct Hin as [_ Hk].
    apply Hkeep in Hk. destruct Hk as (t' & Hd' & _). congruence.
  - induction events as [|e l IH]; simpl; [reflexivity|].
    destruct (keep e) eqn:Hk; simpl; [rewrite Hk; now f_equal|assumption].
Qed.

(** Scrapes and the staleness analysis together *)

Lemma toISOString_truthy (t : Z) : truthy (Some (JsDate.toISOString t)) = true.
Proof.
  unfold truthy, JsDate.toISOString.
  destruct (JsDate.showYear _); reflexivity.
Qed.

(** X5. A scrape without future events on a venue that already had two
    or more such scrapes in a row makes the venue stale at once: analysed
    at any instant, the status it writes is recommended for disabling. *)
Theorem quiet_scrape_after_two_disables
    (disk : option VenueStatusFile.t) (st : State)
    (venueId venueName : string) (events : list Event.t)
    (scrapeDate asOfDate : Z) :
  let previous :=
    match VenueStatusFile.venues (snd (load host disk st)) !! venueId with
    | Some s => VenueStatus.consecutiveScrapesWithNoFutureEvents s
    | None => 0
    end in
  let status :=
    snd (recordScrape dateOfString host disk st venueId venueName events scrapeDate) in
  2 <= previous ->
  (forall e t, List.In e events -> dateOfString (Event.date e) = JsDate.Valid t ->
     t < JsDate.startOfDay host scrapeDate) ->
  StalenessReport.recommendation
    (analyzeVenueStaleness dateOfString status asOfDate) = disable /\
  StalenessReport.isStale
    (analyzeVenueStaleness dateOfString status asOfDate) = true.
Proof.
  cbv zeta. intros Hprev Hquiet.
  assert (Hc : 3 <= VenueStatus.consecutiveScrapesWithNoFutureEvents
                      (snd (recordScrape dateOfString host disk st venueId venueName
                              events scrapeDate))).
  { unfold recordScrape. rewrite updateVenueStatus_counter.
    destruct (0 <? Z.of_nat (List.length
                (filterFutureEvents dateOfString host events scrapeDate))) eqn:Hf;
      [|lia].
    apply filterFutureEvents_nonempty in Hf. destruct Hf as (e & t & Hin & Hd & Hle).
    specialize (Hquiet e t Hin Hd). lia. }
  split.
  - rewrite analyze_recommendation. cbv zeta.
    apply Z.leb_le in Hc. rewrite Hc. now rewrite orb_true_r.
  - unfold analyzeVenueStaleness, CONSECUTIVE_EMPTY_THRESHOLD. cbv zeta.
    apply Z.leb_le in Hc. rewrite Hc.
    destruct (truthy _); [destruct (JsNumber.gt _ _)|]; reflexivity.
Qed.

(* a venue without empty scrapes whose last event is not before the day
   of the scrape is kept until ninety-one days have passed since the
   start of that day *)
Lemma recent_status_kept (status : VenueStatus.t) (latest scrapeDate asOfDate : Z) :
  VenueStatus.consecutiveScrapesWithNoFutureEvents status = 0 ->
  VenueStatus.lastEventDate status = Some (JsDate.toISOString latest) ->
  dateOfString (JsDate.toISOString latest) = JsDate.Valid latest ->
  JsDate.startOfDay host scrapeDate <= latest ->
  asOfDate < JsDate.startOfDay host scrapeDate + 91 * JsDate.msPerDay ->
  StalenessReport.recommendation
    (analyzeVenueStaleness dateOfString status asOfDate) = keep /\
  StalenessReport.isStale
    (analyzeVenueStaleness dateOfString status asOfDate) = false.
Proof.
  intros Hc Hl Hparse Hle HasOf.
  assert (Hdays : (asOfDate - latest) / (1000 * 60 * 60 * 24) <= 90).
  { apply Z.lt_succ_r. apply Z.div_lt_upper_bound; [lia|].
    unfold JsDate.msPerDay in *. lia. }
  assert (Hgt : JsNumber.gt (daysBetween (dateOfString (JsDate.toISOString latest))
                               asOfDate) 90 = false).
  { rewrite Hparse. simpl. apply Z.ltb_ge. exact Hdays. }
  split.
  - rewrite analyze_recommendation. cbv zeta. rewrite Hc, Hl.
    rewrite toISOString_truthy. simpl orEmpty. rewrite Hgt. reflexivity.
  - unfold analyzeVenueStaleness, CONSECUTIVE_EMPTY_THRESHOLD, STALE_DAYS_THRESHOLD.
    cbv zeta. rewrite Hc, Hl. rewrite toISOString_truthy. simpl orEmpty.
    rewrite Hgt. reflexivity.
Qed.

(** X6. A scrape that finds an event dated on or after the scrape day
    leaves the venue in good standing: provided the dates of the batch
    read back from their ISO form, the status it writes is recommended
    "keep" and is not stale when analysed at any instant less than 91
    days after the local midnight that starts the day of the scrape,
    the scrape instant itself among them. *)
Theorem fresh_scrape_is_kept
    (disk : option VenueStatusFile.t) (st : State)
    (venueId venueName : string) (events : list Event.t)
    (scrapeDate asOfDate : Z) :
  let status :=
    snd (recordScrape dateOfString host disk st venueId venueName events scrapeDate) in
  (exists e t, List.In e events /\ dateOfString (Event.date e) = JsDate.Valid t
               /\ JsDate.startOfDay host scrapeDate <= t) ->
  (forall e t, List.In e events -> dateOfString (Event.date e) = JsDate.Valid t ->
     dateOfString (JsDate.toISOString t) = JsDate.Valid t) ->
  asOfDate < JsDate.startOfDay host scrapeDate + 91 * JsDate.msPerDay ->
  StalenessReport.recommendation
    (analyzeVenueStaleness dateOfString status asOfDate) = keep /\
  StalenessReport.isStale
    (analyzeVenueStaleness dateOfString status asOfDate) = false.
Proof.
  cbv zeta. intros Hfut Hround HasOf.
  set (status := snd (recordScrape dateOfString host disk st venueId venueName
                        events scrapeDate)).
  assert (Hc : VenueStatus.consecutiveScrapesWithNoFutureEvents status = 0).
  { unfold status, recordScrape. rewrite updateVenueStatus_counter.
    apply filterFutureEvents_nonempty in Hfut. now rewrite Hfut. }
  assert (Hlast : exists latest,
            VenueStatus.lastEventDate status = Some (JsDate.toISOString latest) /\
            dateOfString (JsDate.toISOString latest) = JsDate.Valid latest /\
            JsDate.startOfDay host scrapeDate <= latest).
  { unfold status, recordScrape. rewrite updateVenueStatus_lastEventDate.
    unfold findLastEventDate. destruct Hfut as (e & t & Hin & Hd & Hle).
    assert (Ht : List.In t (validTimes
                   (List.map (fun e => dateOfString (Event.date e)) events))).
    { apply validTimes_In. eauto. }
    destruct events as [|a l]; [contradiction|].
    destruct (validTimes _) as [|first rest] eqn:Hv; [contradiction|].
    destruct (maxTime_greatest first rest) as [Hmem Hmax].
    exists (maxTime first rest). split; [reflexivity|]. split.
    - rewrite <- Hv in Hmem. apply validTimes_In in Hmem.
      destruct Hmem as (e' & Hin' & Hd'). now apply (Hround e').
    - specialize (Hmax t Ht). lia. }
  destruct Hlast as (latest & Hl & Hparse & Hle).
  now apply (recent_status_kept status latest scrapeDate asOfDate).
Qed.

End StoreFacts.

(* the third quiet scrape of the sample venue *)
Lemma quiet_scrape_after_two_disables_sample :
  StalenessReport.recommendation
    (VenueStatusManager.analyzeVenueStaleness JsDate.ofISOString
       (snd (VenueStatusManager.recordScrape JsDate.ofISOString
               (Samples.utcAt "2025-06-01T12:00:00.000Z") None
               (Some Samples.statusFile) "crooked-lane" "Crooked Lane"
               [Samples.triviaEvent "2025-05-29T19:00:00.000Z"]
               (JsDate.timeOf "2025-06-01T12:00:00.000Z")))
       (JsDate.timeOf "2025-06-02T09:00:00.000Z")) = disable.
Proof.
  apply (quiet_scrape_after_two_disables JsDate.ofISOString
           (Samples.utcAt "2025-06-01T12:00:00.000Z") None (Some Samples.statusFile)
           "crooked-lane" "Crooked Lane"
           [Samples.triviaEvent "2025-05-29T19:00:00.000Z"]
           (JsDate.timeOf "2025-06-01T12:00:00.000Z")
           (JsDate.timeOf "2025-06-02T09:00:00.000Z")).
  - vm_compute. discriminate.
  - intros e t [<-|[]] Hd. vm_compute in Hd. injection Hd as <-.
    vm_compute. reflexivity.
Defined.

(* a scrape of the sample venue that finds next Thursday's trivia night *)
Lemma fresh_scrape_is_kept_sample :
  StalenessReport.recommendation
    (VenueStatusManager.analyzeVenueStaleness JsDate.ofISOString
       (snd (VenueStatusManager.recordScrape JsDate.ofISOString
               (Samples.utcAt "2025-06-01T12:00:00.000Z") None
               (Some Samples.statusFile) "crooked-lane" "Crooked Lane"
               [Samples.triviaEvent "2025-06-05T19:00:00.000Z"]
               (JsDate.timeOf "2025-06-01T12:00:00.000Z")))
       (JsDate.timeOf "2025-06-01T12:00:00.000Z")) = keep.
Proof.
  apply (fresh_scrape_is_kept JsDate.ofISOString
           (Samples.utcAt "2025-06-01T12:00:00.000Z") None (Some Samples.statusFile)
           "crooked-lane" "Crooked Lane"
           [Samples.triviaEvent "2025-06-05T19:00:00.000Z"]
           (JsDate.timeOf "2025-06-01T12:00:00.000Z")
           (JsDate.timeOf "2025-06-01T12:00:00.000Z")).
  - exists (Samples.triviaEvent "2025-06-05T19:00:00.000Z"),
      (JsDate.timeOf "2025-06-05T19:00:00.000Z").
    split; [now left|]. split; vm_compute; [reflexivity|discriminate].
  - intros e t [<-|[]] Hd. vm_compute in Hd. injection Hd as <-.
    vm_compute. reflexivity.
  - vm_compute. reflexivity.
Defined.

(** ** The staleness report *)

Section ReportFacts.
Import JsString VenueStatusManager.

Variable dateOfString : string -> JsDate.t.
Variable host : Host.

(** X17. The flags of a staleness report agree with each other: a
    report is stale exactly when it gives a reason, and exactly when it
    recommends disabling or the venue has no last event date; "keep" is
    never stale and "disable" always is.  The days since the last event
    are given exactly when the venue has a last event date.  A last
    event date that cannot be read as a date counts as fresh: with no
    empty scrape on record the venue is kept. *)
Theorem staleness_flags_consistent (status : VenueStatus.t) (asOfDate : Z) :
  let report := analyzeVenueStaleness dateOfString status asOfDate in
  let known := truthy (VenueStatus.lastEventDate status) in
  (StalenessReport.isStale report = true <->
   exists text, StalenessReport.reason report = Some text) /\
  (StalenessReport.isStale report = true <->
   StalenessReport.recommendation report = disable \/ known = false) /\
  (StalenessReport.recommendation report = disable ->
   StalenessReport.isStale report = true) /\
  (StalenessReport.recommendation report = keep ->
   StalenessReport.isStale report = false) /\
  (StalenessReport.daysSinceLastEvent report = None <-> known = false) /\
  (known = true ->
   dateOfString (orEmpty (VenueStatus.lastEventDate status)) = JsDate.Invalid ->
   StalenessReport.daysSinceLastEvent report = Some JsNumber.NaN /\
   (VenueStatus.consecutiveScrapesWithNoFutureEvents status <= 0 ->
    StalenessReport.recommendation report = keep /\
    StalenessReport.isStale report = false)).
Proof.
  cbv zeta. unfold analyzeVenueStaleness, CONSECUTIVE_EMPTY_THRESHOLD,
    STALE_DAYS_THRESHOLD. cbv zeta.
  set (c := VenueStatus.consecutiveScrapesWithNoFutureEvents status).
  destruct (truthy (VenueStatus.lastEventDate status)) eqn:Hknown.
  - destruct (dateOfString (orEmpty (VenueStatus.lastEventDate status)))
      as [t|] eqn:Hdate; simpl daysBetween; simpl JsNumber.gt.
    + destruct (90 <? (asOfDate - t) / (1000 * 60 * 60 * 24)) eqn:Hold;
        destruct (Z.leb_spec 3 c) as [Hc|Hc]; simpl;
        try (destruct (Z.ltb_spec 0 c) as [Hpos|Hpos]; simpl);
        repeat split; intros; try discriminate; try reflexivity;
        try (eexists; reflexivity); try tauto; try lia;
        try (now left); try (now destruct H as [? [=]]);
        try (now destruct H as [[=]|[=]]).
    + destruct (Z.leb_spec 3 c) as [Hc|Hc]; simpl;
        try (destruct (Z.ltb_spec 0 c) as [Hpos|Hpos]; simpl);
        repeat split; intros; try discriminate; try reflexivity;
        try (eexists; reflexivity); try tauto; try lia;
        try (now left); try (now destruct H as [? [=]]);
        try (now destruct H as [[=]|[=]]).
  - destruct (Z.leb_spec 3 c) as [Hc|Hc]; simpl;
      try (destruct (Z.ltb_spec 0 c) as [Hpos|Hpos]; simpl);
      repeat split; intros; try discriminate; try reflexivity;
      try (eexists; reflexivity); try tauto; try lia;
      try (now left); try (now right).
Qed.

Lemma insertSorted_disable (x : StalenessReport.t) (l : list StalenessReport.t) :
  StalenessReport.recommendation x = disable ->
  JsArray.insertSorted
    (fun a b =>
       inject_Z (order (StalenessReport.recommendation a)
                 - order (StalenessReport.recommendation b))) x l
  = x :: l.
Proof.
  intros Hx. destruct l as [|y l]; [reflexivity|]. simpl. rewrite Hx.
  destruct (StalenessReport.recommendation y); reflexivity.
Qed.

Lemma insertSorted_past (x : StalenessReport.t) (before after : list StalenessReport.t) :
  List.Forall
    (fun y => order (StalenessReport.recommendation y)
              < order (StalenessReport.recommendation x)) before ->
  JsArray.insertSorted
    (fun a b =>
       inject_Z (order (StalenessReport.recommendation a)
                 - order (StalenessReport.recommendation b))) x (before ++ after)
  = before ++
    JsArray.insertSorted
      (fun a b =>
         inject_Z (order (StalenessReport.recommendation a)
                   - order (StalenessReport.recommendation b))) x after.
Proof.
  induction 1 as [|y before Hy _ IH]; [reflexivity|]. simpl.
  replace (JsArray.positive _) with true; [now rewrite IH|].
  symmetry. unfold JsArray.positive. apply negb_true_iff.
  destruct (Qle_bool _ 0) eqn:Hle; [|reflexivity].
  apply Qle_bool_iff in Hle. change 0%Q with (inject_Z 0) in Hle.
  rewrite <- Zle_Qle in Hle. lia.
Qed.

Lemma insertSorted_here (x : StalenessReport.t) (after : list StalenessReport.t) :
  List.Forall
    (fun y => order (StalenessReport.recommendation x)
              <= order (StalenessReport.recommendation y)) after ->
  JsArray.insertSorted
    (fun a b =>
       inject_Z (order (StalenessReport.recommendation a)
                 - order (StalenessReport.recommendation b))) x after
  = x :: after.
Proof.
  intros Hall. destruct after as [|y after]; [reflexivity|]. simpl.
  inversion Hall as [|? ? Hy _]; subst.
  replace (JsArray.positive _) with false; [reflexivity|].
  symmetry. unfold JsArray.positive. apply negb_false_iff.
  apply Qle_bool_iff. change 0%Q with (inject_Z 0). rewrite <- Zle_Qle. lia.
Qed.

Lemma recommended_order (r : Recommendation) (reports : list StalenessReport.t) :
  List.Forall (fun y => StalenessReport.recommendation y = r) (recommended r reports).
Proof.
  apply List.Forall_forall. intros y Hy. unfold recommended in Hy.
  apply List.filter_In in Hy. destruct Hy as [_ Hy]. apply Z.eqb_eq in Hy.
  destruct (StalenessReport.recommendation y), r; (reflexivity || discriminate).
Qed.

Lemma sort_by_recommendation (reports : list StalenessReport.t) :
  JsArray.sort
    (fun a b =>
       inject_Z (order (StalenessReport.recommendation a)
                 - order (StalenessReport.recommendation b))) reports
  = recommended disable reports ++ recommended monitor reports
    ++ recommended keep reports.
Proof.
  induction reports as [|x reports IH]; [reflexivity|].
  unfold JsArray.sort in *. simpl fold_right. rewrite IH.
  pose proof (recommended_order disable reports) as Hd.
  pose proof (recommended_order monitor reports) as Hm.
  pose proof (recommended_order keep reports) as Hk.
  unfold recommended at 4 5 6. simpl List.filter.
  fold (recommended disable reports) (recommended monitor reports)
    (recommended keep reports).
  destruct (StalenessReport.recommendation x) eqn:Hx; simpl.
  - rewrite List.app_assoc.
    rewrite insertSorted_past.
    + rewrite insertSorted_here; [now rewrite <- List.app_assoc|].
      eapply List.Forall_impl; [|exact Hk]. intros y ->. rewrite Hx. simpl. lia.
    + apply List.Forall_app. split.
      * eapply List.Forall_impl; [|exact Hd]. intros y ->. rewrite Hx. simpl. lia.
      * eapply List.Forall_impl; [|exact Hm]. intros y ->. rewrite Hx. simpl. lia.
  - rewrite insertSorted_past.
    + rewrite insertSorted_here; [reflexivity|].
      apply List.Forall_app. split.
      * eapply List.Forall_impl; [|exact Hm]. intros y ->. rewrite Hx. simpl. lia.
      * eapply List.Forall_impl; [|exact Hk]. intros y ->. rewrite Hx. simpl. lia.
    + eapply List.Forall_impl; [|exact Hd]. intros y ->. rewrite Hx. simpl. lia.
  - now rewrite insertSorted_disable.
Qed.

(** X18. The staleness report lists the venues to disable first, then
    those to monitor, then those to keep, and within each of the three
    groups the venues stand in the order of the status file.  It has one
    report for each status of the file: when the enumeration of the
    record yields each stored status, every stored venue is reported
    with its own analysis. *)
Theorem generateStalenessReport_grouped
    (objectValues : gmap string VenueStatus.t -> list VenueStatus.t)
    (disk : option VenueStatusFile.t) (st : State) (asOfDate : Z) :
  let statusFile := snd (load host disk st) in
  let reports :=
    List.map (fun status => analyzeVenueStaleness dateOfString status asOfDate)
      (objectValues (VenueStatusFile.venues statusFile)) in
  let result :=
    snd (generateStalenessReport dateOfString host objectValues disk st asOfDate) in
  result = recommended disable reports ++ recommended monitor reports
           ++ recommended keep reports /\
  fst (generateStalenessReport dateOfString host objectValues disk st asOfDate)
    = fst (load host disk st) /\
  (forall report, List.In report result <-> List.In report reports) /\
  List.length result = List.length reports /\
  ((forall venues status,
      List.In status (objectValues venues) <->
      exists venueId, venues !! venueId = Some status) ->
   forall venueId status,
     VenueStatusFile.venues statusFile !! venueId = Some status ->
     List.In (analyzeVenueStaleness dateOfString status asOfDate) result).
Proof.
  cbv zeta. unfold generateStalenessReport.
  destruct (load host disk st) as [st' statusFile]. simpl fst. simpl snd.
  set (reports := List.map _ _).
  assert (Hmem : forall report,
            List.In report
              (JsArray.sort
                 (fun a b =>
                    inject_Z (order (StalenessReport.recommendation a)
                              - order (StalenessReport.recommendation b))) reports)
            <-> List.In report reports) by (intros report; apply sort_In).
  split; [apply sort_by_recommendation|]. split; [reflexivity|].
  split; [exact Hmem|]. split.
  - rewrite sort_by_recommendation. unfold recommended.
    rewrite !List.length_app.
    clear Hmem. induction reports as [|x reports IH]; [reflexivity|].
    simpl. destruct (StalenessReport.recommendation x); simpl in *; lia.
  - intros Hvalues venueId status Hstored. apply Hmem. unfold reports.
    apply (List.in_map
             (fun status => analyzeVenueStaleness dateOfString status asOfDate)).
    apply Hvalues. now exists venueId.
Qed.

Lemma analyze_isStale (status : VenueStatus.t) (asOfDate : Z) :
  StalenessReport.isStale (analyzeVenueStaleness dateOfString status asOfDate) =
  (if truthy (VenueStatus.lastEventDate status)
   then JsNumber.gt
          (daysBetween (dateOfString (orEmpty (VenueStatus.lastEventDate status)))
             asOfDate) 90
   else true)
  || (3 <=? VenueStatus.consecutiveScrapesWithNoFutureEvents status).
Proof.
  unfold analyzeVenueStaleness, CONSECUTIVE_EMPTY_THRESHOLD, STALE_DAYS_THRESHOLD.
  cbv zeta.
  destruct (truthy (VenueStatus.lastEventDate status)).
  - destruct (JsNumber.gt _ 90); destruct (3 <=? _); try reflexivity;
      now destruct (0 <? _).
  - destruct (3 <=? _); [reflexivity|]. now destruct (0 <? _).
Qed.

(** X22. A scrape that fails, or that yields no event at all, is
    recorded with an empty batch, and that forgets what was known of the
    venue: the status has no last event date and one more empty scrape
    on its counter, so at any instant the venue is reported stale with
    no days count and a reason that begins "No events ever found".  It
    is to be monitored if fewer than two empty scrapes preceded, and
    disabled otherwise; it is never kept. *)
Theorem empty_scrape_is_stale (disk : option VenueStatusFile.t) (st : State)
    (venueId venueName : string) (scrapeDate asOfDate : Z) :
  let previous :=
    match VenueStatusFile.venues (snd (load host disk st)) !! venueId with
    | Some s => VenueStatus.consecutiveScrapesWithNoFutureEvents s
    | None => 0
    end in
  let status :=
    snd (updateVenueStatus dateOfString host disk st venueId venueName [] []
           scrapeDate) in
  let report := analyzeVenueStaleness dateOfString status asOfDate in
  recordScrape dateOfString host disk st venueId venueName [] scrapeDate
    = updateVenueStatus dateOfString host disk st venueId venueName [] []
        scrapeDate /\
  VenueStatus.lastEventDate status = None /\
  VenueStatus.totalEventCount status = 0 /\
  VenueStatus.hasFutureEvents status = false /\
  VenueStatus.consecutiveScrapesWithNoFutureEvents status = previous + 1 /\
  StalenessReport.isStale report = true /\
  StalenessReport.daysSinceLastEvent report = None /\
  StalenessReport.recommendation report
    = (if 2 <=? previous then disable else monitor) /\
  StalenessReport.recommendation report <> keep /\
  exists rest,
    StalenessReport.reason report = Some ("No events ever found" +:+ rest).
Proof.
  cbv zeta.
  set (status := snd (updateVenueStatus dateOfString host disk st venueId venueName
                        [] [] scrapeDate)).
  assert (Hlast : VenueStatus.lastEventDate status = None).
  { unfold status. now rewrite updateVenueStatus_lastEventDate. }
  assert (Hcount : VenueStatus.consecutiveScrapesWithNoFutureEvents status
                   = match VenueStatusFile.venues (snd (load host disk st)) !! venueId with
                     | Some s => VenueStatus.consecutiveScrapesWithNoFutureEvents s
                     | None => 0
                     end + 1).
  { unfold status. now rewrite updateVenueStatus_counter. }
  set (previous := match VenueStatusFile.venues (snd (load host disk st)) !! venueId with
                   | Some s => VenueStatus.consecutiveScrapesWithNoFutureEvents s
                   | None => 0
                   end) in *.
  split; [reflexivity|]. split; [exact Hlast|].
  split; [unfold status, updateVenueStatus;
          now destruct (load host disk st)|].
  split; [unfold status; now rewrite updateVenueStatus_hasFutureEvents|].
  split; [exact Hcount|].
  unfold analyzeVenueStaleness, CONSECUTIVE_EMPTY_THRESHOLD. cbv zeta.
  rewrite Hlast, Hcount. simpl truthy. cbv iota.
  destruct (Z.leb_spec 3 (previous + 1)) as [Hc|Hc];
    destruct (Z.leb_spec 2 previous) as [Hp|Hp]; try lia; simpl.
  - repeat split; try reflexivity; try discriminate. eexists. reflexivity.
  - destruct (0 <? previous + 1); simpl;
      repeat split; try reflexivity; try discriminate; now exists "".
Qed.

(** X23. Time alone never rescues a venue: for a status that is not
    rewritten, a recommendation to disable at one instant is a
    recommendation to disable at every later instant, and a report that
    is stale stays stale.  So a venue that is skipped as stale, and
    therefore not scraped, is skipped again on every later run. *)
Theorem disable_persists_without_scrape (status : VenueStatus.t)
    (asOfDate laterDate : Z) :
  asOfDate <= laterDate ->
  (StalenessReport.recommendation
     (analyzeVenueStaleness dateOfString status asOfDate) = disable ->
   StalenessReport.recommendation
     (analyzeVenueStaleness dateOfString status laterDate) = disable) /\
  (StalenessReport.isStale
     (analyzeVenueStaleness dateOfString status asOfDate) = true ->
   StalenessReport.isStale
     (analyzeVenueStaleness dateOfString status laterDate) = true) /\
  (StalenessReport.recommendation
     (analyzeVenueStaleness dateOfString status laterDate) = keep ->
   StalenessReport.recommendation
     (analyzeVenueStaleness dateOfString status asOfDate) = keep).
Proof.
  intros Hlater.
  assert (Hdays : JsNumber.gt
                    (daysBetween
                       (dateOfString (orEmpty (VenueStatus.lastEventDate status)))
                       asOfDate) 90 = true ->
                  JsNumber.gt
                    (daysBetween
                       (dateOfString (orEmpty (VenueStatus.lastEventDate status)))
                       laterDate) 90 = true).
  { destruct (dateOfString _) as [t|]; simpl; [|discriminate].
    rewrite !Z.ltb_lt. intros Hold.
    assert ((asOfDate - t) / (1000 * 60 * 60 * 24)
            <= (laterDate - t) / (1000 * 60 * 60 * 24))
      by (apply Z.div_le_mono; lia).
    lia. }
  split; [|split].
  - rewrite !analyze_recommendation. cbv zeta.
    destruct (truthy (VenueStatus.lastEventDate status)); simpl.
    + destruct (JsNumber.gt (daysBetween _ asOfDate) 90) eqn:Hold.
      * now rewrite (Hdays eq_refl).
      * simpl. destruct (3 <=? _); [now rewrite orb_true_r|].
        destruct (0 <? _); discriminate.
    + destruct (3 <=? _); [reflexivity|discriminate].
  - rewrite !analyze_isStale.
    destruct (truthy (VenueStatus.lastEventDate status)); [|trivial].
    destruct (JsNumber.gt (daysBetween _ asOfDate) 90) eqn:Hold.
    + now rewrite (Hdays eq_refl).
    + simpl. intros ->. apply orb_true_r.
  - rewrite !analyze_recommendation. cbv zeta.
    destruct (truthy (VenueStatus.lastEventDate status)); simpl.
    + destruct (JsNumber.gt (daysBetween _ asOfDate) 90) eqn:Hold.
      * now rewrite (Hdays eq_refl).
      * simpl. now destruct (JsNumber.gt (daysBetween _ laterDate) 90).
    + destruct (3 <=? _); [discriminate|]. simpl. discriminate.
Qed.

End ReportFacts.

(* the quiet venue of the samples, five and then six months after its
   last event *)
Lemma disable_persists_without_scrape_sample :
  StalenessReport.recommendation
    (VenueStatusManager.analyzeVenueStaleness JsDate.ofISOString
       Samples.quietStatus (JsDate.timeOf "2025-07-01T12:00:00.000Z")) = disable.
Proof.
  apply (disable_persists_without_scrape JsDate.ofISOString Samples.quietStatus
           (JsDate.timeOf "2025-06-01T12:00:00.000Z")
           (JsDate.timeOf "2025-07-01T12:00:00.000Z")).
  - vm_compute. discriminate.
  - vm_compute. reflexivity.
Defined.

(** * More on the event normaliser *)

(** ** What the hand-compiled regular expressions match *)

Section RegexFacts.
Import JsString.

Lemma literal_exact (p l m rest : list ascii) :
  Rx.literal false p l = Some (m, rest) -> m = p /\ l = p ++ rest.
Proof.
  revert l m rest. induction p as [|a p IH]; intros l m rest; simpl.
  - intros [= <- <-]. now split.
  - destruct l as [|b l]; [discriminate|].
    destruct (Ascii.eqb_spec a b) as [<-|]; [|discriminate].
    destruct (Rx.literal false p l) as [[m' rest']|] eqn:Hl; [|discriminate].
    intros [= <- <-]. destruct (IH _ _ _ Hl) as [-> ->]. now split.
Qed.

Lemma literal_ci (p l m rest : list ascii) :
  Rx.literal true p l = Some (m, rest) ->
  l = m ++ rest /\ List.map lowerChar m = List.map lowerChar p.
Proof.
  revert l m rest. induction p as [|a p IH]; intros l m rest; simpl.
  - intros [= <- <-]. now split.
  - destruct l as [|b l]; [discriminate|].
    unfold Rx.sameLetter at 1.
    destruct (Ascii.eqb_spec (lowerChar a) (lowerChar b)) as [Hab|]; [|discriminate].
    destruct (Rx.literal true p l) as [[m' rest']|] eqn:Hl; [|discriminate].
    intros [= <- <-]. destruct (IH _ _ _ Hl) as [-> Hm]. simpl.
    split; [reflexivity|]. now rewrite Hm, Hab.
Qed.

Lemma oneOf_exact (alts : list string) (l : list ascii) (i : nat)
    (m rest : list ascii) :
  Rx.oneOf false alts l = Some (i, m, rest) ->
  List.In (ofChars m) alts /\ l = m ++ rest.
Proof.
  revert i. induction alts as [|a alts IH]; intros i; simpl; [discriminate|].
  destruct (Rx.literal false (chars a) l) as [[m' rest']|] eqn:Hl.
  - intros [= <- <- <-]. destruct (literal_exact _ _ _ _ Hl) as [-> ->].
    rewrite ofChars_chars. split; [now left|reflexivity].
  - destruct (Rx.oneOf false alts l) as [[[j m'] rest']|]; [|discriminate].
    intros [= <- <- <-]. destruct (IH j eq_refl) as [Hin Heq]. split; [now right|exact Heq].
Qed.

Lemma oneOf_ci (alts : list string) (l : list ascii) (i : nat)
    (m rest : list ascii) :
  Rx.oneOf true alts l = Some (i, m, rest) ->
  l = m ++ rest /\
  exists a, List.In a alts /\ List.map lowerChar m = List.map lowerChar (chars a).
Proof.
  revert i. induction alts as [|a alts IH]; intros i; simpl; [discriminate|].
  destruct (Rx.literal true (chars a) l) as [[m' rest']|] eqn:Hl.
  - intros [= <- <- <-]. destruct (literal_ci _ _ _ _ Hl) as [-> Hm].
    split; [reflexivity|]. exists a. split; [now left|exact Hm].
  - destruct (Rx.oneOf true alts l) as [[[j m'] rest']|]; [|discriminate].
    intros [= <- <- <-]. destruct (IH j eq_refl) as [Heq (b & Hin & Hm)].
    split; [exact Heq|]. exists b. split; [now right|exact Hm].
Qed.

Lemma search_found {A} (f : list ascii -> option A) (l : list ascii) (a : A) :
  Rx.search f l = Some a -> exists pre suf, l = pre ++ suf /\ f suf = Some a.
Proof.
  induction l as [|c l IH]; simpl.
  - destruct (f []) eqn:Hf; [|discriminate]. intros [= <-]. now exists [], [].
  - destruct (f (c :: l)) eqn:Hf.
    + intros [= <-]. now exists [], (c :: l).
    + intros Hs. destruct (IH Hs) as (pre & suf & -> & Hsuf).
      now exists (c :: pre), suf.
Qed.

Lemma search_none {A} (f : list ascii -> option A) (l : list ascii) :
  Rx.search f l = None <-> forall pre suf, l = pre ++ suf -> f suf = None.
Proof.
  induction l as [|c l IH]; simpl.
  - destruct (f []) eqn:Hf.
    + split; [discriminate|]. intros Hall. rewrite <- Hf. now apply (Hall []).
    + split; [|reflexivity]. intros _ pre suf Heq.
      symmetry in Heq. apply List.app_eq_nil in Heq. destruct Heq as [_ ->]. exact Hf.
  - destruct (f (c :: l)) eqn:Hf.
    + split; [discriminate|]. intros Hall. rewrite <- Hf. now apply (Hall []).
    + rewrite IH. split.
      * intros Hall pre suf Heq. destruct pre as [|c' pre].
        -- simpl in Heq. now subst suf.
        -- injection Heq as _ Heq. now apply (Hall pre).
      * intros Hall pre suf Heq. apply (Hall (c :: pre)). simpl. now rewrite Heq.
Qed.

Lemma includesChars_false (p l : list ascii) :
  includesChars p l = false <->
  forall pre suf, l = pre ++ suf -> startsWithChars p suf = false.
Proof.
  induction l as [|c l IH].
  - simpl. rewrite orb_false_r. split.
    + intros Hf pre suf Heq.
      symmetry in Heq. apply List.app_eq_nil in Heq. destruct Heq as [_ ->]. exact Hf.
    + intros Hall. now apply (Hall []).
  - cbn [includesChars]. rewrite orb_false_iff, IH. split.
    + intros [Hhere Hall] pre suf Heq. destruct pre as [|c' pre].
      * simpl in Heq. now subst suf.
      * injection Heq as _ Heq. now apply (Hall pre).
    + intros Hall. split; [now apply (Hall [])|].
      intros pre suf Heq. apply (Hall (c :: pre)). simpl. now rewrite Heq.
Qed.

Lemma literal_lowered_none (p l : list ascii) :
  List.Forall (fun c => lowerChar c = c) p ->
  List.Forall (fun c => lowerChar c = c) l ->
  (Rx.literal true p l = None <-> startsWithChars p l = false).
Proof.
  intros Hp. revert l. induction Hp as [|a p Ha _ IH]; intros l Hl; simpl.
  - split; discriminate.
  - destruct Hl as [|b l Hb Hl]; [tauto|].
    unfold Rx.sameLetter. rewrite Ha, Hb.
    destruct (Ascii.eqb a b); simpl; [|tauto].
    rewrite <- (IH l Hl). destruct (Rx.literal true p l) as [[m rest]|].
    + split; discriminate.
    + tauto.
Qed.

Lemma oneOf_lowered_none (alts : list string) (l : list ascii) :
  (forall a, List.In a alts -> List.Forall (fun c => lowerChar c = c) (chars a)) ->
  List.Forall (fun c => lowerChar c = c) l ->
  (Rx.oneOf true alts l = None <->
   forall a, List.In a alts -> startsWithChars (chars a) l = false).
Proof.
  intros Halts Hl. induction alts as [|a alts IH]; simpl.
  - split; [intros _ ? []|reflexivity].
  - pose proof (literal_lowered_none (chars a) l (Halts a (or_introl eq_refl)) Hl)
      as Hlit.
    destruct (Rx.literal true (chars a) l) as [[m rest]|].
    + split; [discriminate|]. intros Hall. exfalso.
      destruct Hlit as [_ Hlit]. specialize (Hlit (Hall a (or_introl eq_refl))).
      discriminate.
    + destruct Hlit as [Hlit _]. specialize (Hlit eq_refl).
      destruct (Rx.oneOf true alts l) as [[[i m] rest]|].
      * split; [discriminate|]. intros Hall. exfalso.
        destruct IH as [_ IH]; [intros; apply Halts; now right|].
        discriminate IH. intros b Hb. apply Hall. now right.
      * split; [|reflexivity]. intros _ b [<-|Hb]; [exact Hlit|].
        destruct IH as [IH _]; [intros; apply Halts; now right|]. now apply IH.
Qed.

(* a text in lower case *)
Lemma chars_toLowerCase (s : string) :
  chars (toLowerCase s) = List.map lowerChar (chars s).
Proof. unfold toLowerCase, onChars. apply chars_ofChars. Qed.

Lemma map_lower_fixed (l : list ascii) :
  List.Forall (fun c => lowerChar c = c) l -> List.map lowerChar l = l.
Proof.
  induction 1 as [|c l Hc _ IH]; simpl; [reflexivity|]. now rewrite Hc, IH.
Qed.

Lemma lowered_toLowerCase (s : string) :
  List.Forall (fun c => lowerChar c = c) (chars (toLowerCase s)).
Proof.
  rewrite chars_toLowerCase. apply List.Forall_forall. intros c Hc.
  apply List.in_map_iff in Hc. destruct Hc as (c' & <- & _). apply lower_lower.
Qed.

End RegexFacts.

(** ** Tags and the detected type *)

Section TagFacts.
Import JsString EventNormalizer.

Lemma setAdd_fresh (tags : list string) (tag : string) :
  ~ List.In tag tags -> setAdd tags tag = tags ++ [tag].
Proof.
  intros Hn. unfold setAdd. apply existsb_eqb_notIn in Hn. now rewrite Hn.
Qed.

Lemma setAdd_NoDup (tags : list string) (tag : string) :
  List.NoDup tags -> List.NoDup (setAdd tags tag).
Proof.
  intros Hnd. unfold setAdd.
  destruct (List.existsb (String.eqb tag) tags) eqn:He; [exact Hnd|].
  apply existsb_eqb_notIn in He.
  apply List.NoDup_rev in Hnd. rewrite <- (List.rev_involutive (tags ++ [tag])).
  apply List.NoDup_rev. rewrite List.rev_app_distr. simpl. constructor; [|exact Hnd].
  now rewrite <- List.in_rev.
Qed.

Lemma fold_categories (text : string) (table : list (EventType * list string))
    (acc : list string) :
  List.NoDup (List.map (fun entry => typeName (fst entry)) table) ->
  (forall entry, List.In entry table -> ~ List.In (typeName (fst entry)) acc) ->
  fold_left
    (fun tags '(type, keywords) =>
       if anyKeyword text keywords then setAdd tags (typeName type) else tags)
    table acc
  = acc ++ List.map (fun entry => typeName (fst entry))
             (List.filter (fun entry => anyKeyword text (snd entry)) table).
Proof.
  revert acc. induction table as [|[type keywords] table IH]; intros acc Hnd Hfresh.
  - simpl. now rewrite List.app_nil_r.
  - simpl in Hnd. inversion Hnd as [|? ? Hhead Htail]; subst. simpl.
    destruct (anyKeyword text keywords).
    + rewrite setAdd_fresh by (apply (Hfresh (type, keywords)); now left).
      rewrite IH; [now rewrite <- List.app_assoc| exact Htail |].
      intros entry Hin Hmem. apply List.in_app_iff in Hmem.
      destruct Hmem as [Hmem|[Heq|[]]].
      * apply (Hfresh entry); [now right|exact Hmem].
      * apply Hhead. rewrite Heq. now apply (List.in_map (fun e => typeName (fst e))).
    + apply IH; [exact Htail|]. intros entry Hin. apply Hfresh. now right.
Qed.

Lemma NoDup_map_filter {A B} (f : A -> B) (p : A -> bool) (l : list A) :
  List.NoDup (List.map f l) -> List.NoDup (List.map f (List.filter p l)).
Proof.
  induction l as [|a l IH]; simpl; [trivial|].
  intros Hnd. inversion Hnd as [|? ? Hhead Htail]; subst.
  destruct (p a); [|now apply IH]. simpl. constructor; [|now apply IH].
  intros Hin. apply Hhead. apply List.in_map_iff in Hin.
  destruct Hin as (x & Hx & Hmem). apply List.filter_In in Hmem.
  apply List.in_map_iff. exists x. tauto.
Qed.

Lemma typeNames_NoDup :
  List.NoDup (List.map (fun entry => typeName (fst entry)) EVENT_TYPE_KEYWORDS).
Proof.
  simpl. repeat (constructor; [simpl; intuition discriminate|]). constructor.
Qed.

Lemma weekday_not_typeName (day : string) (type : EventType) :
  List.In day Rx.weekdays -> day <> typeName type.
Proof.
  intros Hin. simpl in Hin.
  repeat (destruct Hin as [<-|Hin]; [destruct type; discriminate|]).
  contradiction.
Qed.

(* the weekday tag is one of the seven names *)
Lemma dayTag_weekday (text : string) (dayMatch : list ascii) :
  Rx.search dayTagAt (chars (toLowerCase text)) = Some dayMatch ->
  List.In (dropFinalS (toLowerCase (ofChars dayMatch))) Rx.weekdays.
Proof.
  intros Hs. apply search_found in Hs. destruct Hs as (pre & suf & Heq & Hm).
  pose proof (lowered_toLowerCase text) as Hlow. rewrite Heq in Hlow.
  apply List.Forall_app in Hlow. destruct Hlow as [_ Hlow].
  unfold dayTagAt in Hm.
  destruct (Rx.oneOf true Rx.weekdays suf) as [[[i m] rest]|] eqn:Ho; [|discriminate].
  apply oneOf_ci in Ho. destruct Ho as [-> (day & Hday & Hmap)].
  apply List.Forall_app in Hlow. destruct Hlow as [Hm_low Hrest_low].
  rewrite (map_lower_fixed m Hm_low) in Hmap.
  assert (Hfix : forall tail,
             List.Forall (fun c => lowerChar c = c) tail ->
             toLowerCase (ofChars (m ++ tail)) = ofChars (m ++ tail)).
  { intros tail Htail. unfold toLowerCase, onChars. rewrite chars_ofChars.
    rewrite map_lower_fixed; [reflexivity|].
    apply List.Forall_app. now split. }
  assert (Hplain : dropFinalS (toLowerCase (ofChars m)) = day).
  { rewrite <- (List.app_nil_r m), Hfix by constructor. rewrite List.app_nil_r.
    subst m. simpl in Hday.
    repeat (destruct Hday as [<-|Hday]; [reflexivity|]). contradiction. }
  assert (Hplural : dropFinalS (toLowerCase (ofChars (m ++ ["s"%char]))) = day).
  { rewrite Hfix by (repeat constructor).
    subst m. simpl in Hday.
    repeat (destruct Hday as [<-|Hday]; [reflexivity|]). contradiction. }
  destruct rest as [|c rest].
  - injection Hm as <-. now rewrite Hplain.
  - destruct (Rx.sameLetter c "s") eqn:Hc; injection Hm as <-.
    + assert (c = "s"%char) as ->.
      { unfold Rx.sameLetter in Hc. apply Ascii.eqb_eq in Hc.
        inversion Hrest_low as [|? ? Hc_low _]; subst. now rewrite Hc_low in Hc. }
      now rewrite Hplural.
    + now rewrite Hplain.
Qed.

(* there is a weekday tag exactly when the lowered text names a weekday *)
Lemma dayTag_none (text : string) :
  Rx.search dayTagAt (chars (toLowerCase text)) = None <->
  forall day, List.In day Rx.weekdays -> includes (toLowerCase text) day = false.
Proof.
  pose proof (lowered_toLowerCase text) as Hlow.
  assert (Hdays : forall a, List.In a Rx.weekdays ->
                            List.Forall (fun c => lowerChar c = c) (chars a)).
  { intros a Hin. simpl in Hin.
    repeat (destruct Hin as [<-|Hin]; [repeat constructor|]). contradiction. }
  rewrite search_none. unfold includes. split.
  - intros Hall day Hday. apply includesChars_false. intros pre suf Heq.
    specialize (Hall pre suf Heq). rewrite Heq in Hlow.
    apply List.Forall_app in Hlow. destruct Hlow as [_ Hsuf].
    unfold dayTagAt in Hall.
    destruct (Rx.oneOf true Rx.weekdays suf) as [[[i m] rest]|] eqn:Ho.
    + destruct rest as [|c rest]; [discriminate|].
      destruct (Rx.sameLetter c "s"); discriminate.
    + apply (oneOf_lowered_none Rx.weekdays suf Hdays Hsuf); assumption.
  - intros Hall pre suf Heq. rewrite Heq in Hlow.
    apply List.Forall_app in Hlow. destruct Hlow as [_ Hsuf].
    unfold dayTagAt.
    replace (Rx.oneOf true Rx.weekdays suf) with (@None (nat * list ascii * list ascii));
      [reflexivity|].
    symmetry. apply (oneOf_lowered_none Rx.weekdays suf Hdays Hsuf).
    intros day Hday. specialize (Hall day Hday).
    rewrite includesChars_false in Hall. now apply (Hall pre).
Qed.

Lemma matching_has_keywords (text : string) (entry : EventType * list string) :
  List.In entry
    (List.filter (fun entry => anyKeyword text (snd entry)) EVENT_TYPE_KEYWORDS) ->
  fst entry <> other /\ fst entry <> recurring.
Proof.
  intros Hin. apply List.filter_In in Hin. destruct Hin as [Hin Hany].
  simpl in Hin.
  repeat (destruct Hin as [<-|Hin]; [split; try discriminate; simpl in Hany;
                                      discriminate|]).
  contradiction.
Qed.

Lemma firstType_filter (text : string) (table : list (EventType * list string)) :
  firstType text table =
  match List.filter (fun entry => anyKeyword text (snd entry)) table with
  | [] => other
  | entry :: _ => fst entry
  end.
Proof.
  induction table as [|[type keywords] table IH]; simpl; [reflexivity|].
  destruct (anyKeyword text keywords); [reflexivity|exact IH].
Qed.

(** X7. The tags of an event are the categories whose keywords occur in
    its title and description, in the order of the keyword table and
    each once, followed by at most one weekday name.  The detected type
    is the first of these categories, so it is the first tag whenever it
    is not "other"; "other" is detected exactly when no category
    matches, and "recurring" is never detected. *)
Theorem extractTags_categories_then_weekday (title : string)
    (description : option string) :
  let text := eventText title description in
  let matching :=
    List.filter (fun entry => anyKeyword text (snd entry)) EVENT_TYPE_KEYWORDS in
  let categories := List.map (fun entry => typeName (fst entry)) matching in
  let tags := extractTags title description in
  let type := detectEventType title description in
  (tags = categories \/
   exists day, List.In day Rx.weekdays /\ tags = categories ++ [day]) /\
  (tags = categories <->
   forall day, List.In day Rx.weekdays -> includes text day = false) /\
  List.NoDup tags /\
  type = match matching with [] => other | entry :: _ => fst entry end /\
  (type <> other -> exists rest, tags = typeName type :: rest) /\
  (type = other <-> categories = []) /\
  type <> recurring.
Proof.
  cbv zeta.
  set (text := eventText title description).
  set (matching :=
         List.filter (fun entry => anyKeyword text (snd entry)) EVENT_TYPE_KEYWORDS).
  set (categories := List.map (fun entry => typeName (fst entry)) matching).
  assert (Hc_nodup : List.NoDup categories).
  { apply NoDup_map_filter, typeNames_NoDup. }
  assert (Hcases :
            match Rx.search dayTagAt (chars text) with
            | None => extractTags title description = categories
            | Some _ =>
              exists day, List.In day Rx.weekdays /\
                          extractTags title description = categories ++ [day]
            end).
  { unfold extractTags. fold text.
    rewrite (fold_categories text EVENT_TYPE_KEYWORDS []);
      [|exact typeNames_NoDup|intros ? _ []].
    rewrite List.app_nil_l.
    change (List.map (fun entry => typeName (fst entry))
              (List.filter (fun entry => anyKeyword text (snd entry))
                 EVENT_TYPE_KEYWORDS)) with categories.
    destruct (Rx.search dayTagAt (chars text)) as [dayMatch|] eqn:Hs; [|reflexivity].
    unfold text, eventText in Hs. apply dayTag_weekday in Hs.
    eexists. split; [exact Hs|]. apply setAdd_fresh.
    intros Hin. apply List.in_map_iff in Hin. destruct Hin as (entry & Hname & _).
    symmetry in Hname. revert Hname. now apply weekday_not_typeName. }
  assert (Htags :
            extractTags title description = categories \/
            exists day, List.In day Rx.weekdays /\
                        extractTags title description = categories ++ [day]).
  { destruct (Rx.search dayTagAt (chars text)); [now right|now left]. }
  assert (Hnone :
            extractTags title description = categories <->
            forall day, List.In day Rx.weekdays -> includes text day = false).
  { unfold text at 1, eventText. rewrite <- dayTag_none.
    fold (eventText title description). fold text.
    destruct (Rx.search dayTagAt (chars text)) as [dayMatch|].
    - destruct Hcases as (day & _ & ->). split; [|discriminate].
      intros Heq. exfalso. rewrite <- (List.app_nil_r categories) in Heq at 2.
      apply List.app_inv_head in Heq. discriminate.
    - tauto. }
  assert (Htype : detectEventType title description =
                  match matching with [] => other | entry :: _ => fst entry end).
  { unfold detectEventType. fold text. apply firstType_filter. }
  split; [exact Htags|]. split; [exact Hnone|].
  split; [|split; [exact Htype|split; [|split]]].
  - destruct Htags as [->|(day & Hday & ->)]; [exact Hc_nodup|].
    apply List.NoDup_rev in Hc_nodup.
    rewrite <- (List.rev_involutive (categories ++ [day])).
    apply List.NoDup_rev. rewrite List.rev_app_distr. simpl.
    constructor; [|exact Hc_nodup]. rewrite <- List.in_rev.
    intros Hin. apply List.in_map_iff in Hin. destruct Hin as (entry & Hname & _).
    symmetry in Hname. revert Hname. now apply weekday_not_typeName.
  - rewrite Htype. unfold categories.
    destruct matching as [|entry rest]; [congruence|]. intros _. simpl.
    destruct Htags as [->|(day & _ & ->)]; eexists; reflexivity.
  - rewrite Htype. unfold categories.
    pose proof (matching_has_keywords text) as Hkw. fold matching in Hkw.
    destruct matching as [|entry rest]; [tauto|].
    split; [|discriminate]. intros Hother. exfalso.
    destruct (Hkw entry) as [Hne _]; [now left|]. now apply Hne.
  - rewrite Htype.
    pose proof (matching_has_keywords text) as Hkw. fold matching in Hkw.
    destruct matching as [|entry rest]; [discriminate|].
    destruct (Hkw entry) as [_ Hne]; [now left|exact Hne].
Qed.

End TagFacts.

(** ** Identifiers *)

Section IdFacts.
Import JsString EventNormalizer.

Lemma hexDigit_hex (d : Z) :
  0 <= d < 16 ->
  (isDigit (Md5.hexDigit d) || inRange 97 102 (Md5.hexDigit d))%bool = true.
Proof.
  intros Hd.
  assert (Hcases : d = 0 \/ d = 1 \/ d = 2 \/ d = 3 \/ d = 4 \/ d = 5 \/ d = 6 \/ d = 7
                   \/ d = 8 \/ d = 9 \/ d = 10 \/ d = 11 \/ d = 12 \/ d = 13
                   \/ d = 14 \/ d = 15) by lia.
  repeat (destruct Hcases as [->|Hcases]; [reflexivity|]). now subst d.
Qed.

Lemma hexByte_hex (b : Z) :
  0 <= b < 256 ->
  List.Forall (fun c => (isDigit c || inRange 97 102 c)%bool = true) (Md5.hexByte b).
Proof.
  intros Hb. unfold Md5.hexByte. repeat constructor; apply hexDigit_hex.
  - split; [apply Z.div_pos; lia|apply Z.div_lt_upper_bound; lia].
  - apply Z.mod_pos_bound. lia.
Qed.

Lemma hexWord_hex (w : Z) :
  List.length (Md5.hexWord w) = 8%nat /\
  List.Forall (fun c => (isDigit c || inRange 97 102 c)%bool = true) (Md5.hexWord w).
Proof.
  split; [reflexivity|]. unfold Md5.hexWord.
  repeat (apply List.Forall_app; split);
    apply hexByte_hex; apply Z.mod_pos_bound; lia.
Qed.

Lemma substring_prefix (l rest : list ascii) :
  String.substring 0 (List.length l) (ofChars (l ++ rest)) = ofChars l.
Proof.
  induction l as [|c l IH]; simpl.
  - destruct (ofChars rest); reflexivity.
  - now rewrite IH.
Qed.

(** X8. An event identifier always has the same shape: the four
    characters "evt-" followed by exactly eight digits of lower-case
    hexadecimal, twelve characters in all, whatever the title, the date
    and the venue are. *)
Theorem generateEventId_shape (title date venue : string) :
  exists digits,
    generateEventId title date venue = "evt-" +:+ ofChars digits /\
    List.length digits = 8%nat /\
    List.Forall (fun c => (isDigit c || inRange 97 102 c)%bool = true) digits /\
    String.length (generateEventId title date venue) = 12%nat.
Proof.
  unfold generateEventId, Md5.hexdigest. cbv zeta.
  set (r := Md5.blocks _ _ _).
  destruct (hexWord_hex (Md5.ra r)) as [Hlen Hhex].
  exists (Md5.hexWord (Md5.ra r)).
  assert (Hsub : String.substring 0 8
                   (ofChars (Md5.hexWord (Md5.ra r) ++ Md5.hexWord (Md5.rb r)
                             ++ Md5.hexWord (Md5.rc r) ++ Md5.hexWord (Md5.rd r)))
                 = ofChars (Md5.hexWord (Md5.ra r))).
  { rewrite <- Hlen at 1. apply substring_prefix. }
  rewrite Hsub. split; [reflexivity|]. split; [exact Hlen|]. split; [exact Hhex|].
  reflexivity.
Qed.

End IdFacts.

(** ** What removing white space and dashes leaves of a title *)

Section FilterFacts.
Import JsString.

Variable q : ascii -> bool.
Hypothesis q_space : forall c, isSpace c = true -> q c = false.

Lemma filter_dropSpaces (l : list ascii) :
  List.filter q (dropSpaces l) = List.filter q l.
Proof.
  induction l as [|c l IH]; simpl; [reflexivity|].
  destruct (isSpace c) eqn:Hc; [|reflexivity].
  now rewrite (q_space c Hc).
Qed.

Lemma filter_q_rev (l : list ascii) :
  List.filter q (List.rev l) = List.rev (List.filter q l).
Proof.
  induction l as [|c l IH]; simpl; [reflexivity|].
  rewrite List.filter_app, IH. simpl.
  destruct (q c); simpl; [reflexivity|now rewrite List.app_nil_r].
Qed.

Lemma filter_trimChars (l : list ascii) :
  List.filter q (trimChars l) = List.filter q l.
Proof.
  unfold trimChars.
  rewrite filter_q_rev, filter_dropSpaces, filter_q_rev, filter_dropSpaces.
  apply List.rev_involutive.
Qed.

Lemma filter_collapseFrom (inRun : bool) (l : list ascii) :
  List.filter q (collapseFrom inRun l) = List.filter q l.
Proof.
  revert inRun. induction l as [|c l IH]; intros inRun; simpl; [reflexivity|].
  destruct (isSpace c) eqn:Hc.
  - rewrite (q_space c Hc). destruct inRun; simpl; [apply IH|].
    rewrite (q_space " "%char eq_refl). apply IH.
  - simpl. now rewrite IH.
Qed.

End FilterFacts.

Section NormalizedEventFacts.
Import JsString EventNormalizer.

Variable h : Host.

Lemma alnumChars_filter (l : list ascii) :
  alnumChars l =
  List.map lowerChar
    (List.filter (fun c => (isLower (lowerChar c) || isDigit (lowerChar c))%bool) l).
Proof.
  unfold alnumChars. induction l as [|c l IH]; simpl; [reflexivity|].
  destruct (isLower (lowerChar c) || isDigit (lowerChar c))%bool; simpl;
    now rewrite IH.
Qed.

Lemma alnum_not_space (c : ascii) :
  isSpace c = true -> (isLower (lowerChar c) || isDigit (lowerChar c))%bool = false.
Proof. destruct c as [[] [] [] [] [] [] [] []]; (reflexivity || discriminate). Qed.

(* the title that is stored has the letters and digits of the raw title *)
Lemma alnumOnly_normalizeTitle (title : string) :
  alnumOnly (normalizeTitle title) = alnumOnly title.
Proof.
  apply alnumOnly_ext. rewrite !alnumChars_filter. f_equal.
  set (q := fun c => (isLower (lowerChar c) || isDigit (lowerChar c))%bool).
  unfold normalizeTitle, trim, onChars. rewrite !chars_ofChars.
  set (l1 := collapseSpaces (trimChars (chars title))).
  assert (H1 : List.filter q l1 = List.filter q (chars title)).
  { unfold l1, collapseSpaces.
    rewrite (filter_collapseFrom q alnum_not_space),
      (filter_trimChars q alnum_not_space). reflexivity. }
  set (l2 := match l1 with "-"%char :: r => dropSpaces r | _ => l1 end).
  assert (H2 : List.filter q l2 = List.filter q l1).
  { unfold l2. destruct l1 as [|c r]; [reflexivity|].
    destruct (Ascii.eqb_spec c "-") as [->|Hne].
    - rewrite (filter_dropSpaces q alnum_not_space). reflexivity.
    - destruct c as [[] [] [] [] [] [] [] []]; try reflexivity. now elim Hne. }
  rewrite <- H1, <- H2.
  destruct (List.rev l2) as [|c r] eqn:Hrev; [reflexivity|].
  assert (Hl2 : l2 = List.rev r ++ [c]).
  { rewrite <- (List.rev_involutive l2), Hrev. reflexivity. }
  destruct (Ascii.eqb_spec c "-") as [->|Hne].
  - rewrite Hl2, List.filter_app, (filter_q_rev q),
      (filter_dropSpaces q alnum_not_space), (filter_q_rev q).
    simpl. now rewrite List.app_nil_r.
  - destruct c as [[] [] [] [] [] [] [] []]; try reflexivity. now elim Hne.
Qed.

Lemma calculateConfidence_dated (data : RawEventData.t) :
  truthy (RawEventData.date data) = true ->
  ((13 # 20) <= calculateConfidence data <= 1)%Q.
Proof.
  intros Hdate. unfold calculateConfidence. rewrite Hdate. cbv zeta.
  destruct (truthy (RawEventData.title data) && _)%bool;
    destruct (truthy (RawEventData.startTime data));
    destruct (truthy (RawEventData.description data) && _)%bool;
    destruct (truthy (RawEventData.url data));
    vm_compute; split; discriminate.
Qed.

Lemma calculateConfidence_range (data : RawEventData.t) :
  ((1 # 2) <= calculateConfidence data <= 1)%Q.
Proof.
  unfold calculateConfidence. cbv zeta.
  destruct (truthy (RawEventData.title data) && _)%bool;
    destruct (truthy (RawEventData.date data));
    destruct (truthy (RawEventData.startTime data));
    destruct (truthy (RawEventData.description data) && _)%bool;
    destruct (truthy (RawEventData.url data));
    vm_compute; split; discriminate.
Qed.

Lemma detectRecurringPattern_truthy (dateStr pattern : string) :
  DateParser.detectRecurringPattern dateStr = Some pattern ->
  truthy (Some pattern) = true.
Proof.
  unfold DateParser.detectRecurringPattern. cbv zeta.
  destruct (includes (toLowerCase dateStr) "every").
  - destruct (Rx.search (DateParser.everyMatchAt true) _) as [day|].
    + intros [= <-]. reflexivity.
    + destruct (includes (toLowerCase dateStr) "week"); [intros [= <-]; reflexivity|].
      destruct (includes (toLowerCase dateStr) "month"); [intros [= <-]; reflexivity|].
      destruct (includes (toLowerCase dateStr) "day"); [intros [= <-]; reflexivity|].
      destruct (Rx.search DateParser.ordinalMatchAt _) as [[[first second] day]|];
        [|discriminate].
      intros [= <-]. reflexivity.
  - destruct (Rx.search DateParser.ordinalMatchAt _) as [[[first second] day]|];
      [|discriminate].
    intros [= <-]. reflexivity.
Qed.

(* what a returned event is made of *)
Lemma normalizeEvent_some (rawData : RawEventData.t) (venue : VenueInfo.t)
    (source : string) (event : Event.t) :
  fst (normalizeEvent h rawData venue source) = Some event ->
  truthy (RawEventData.title rawData) = true /\
  truthy (RawEventData.date rawData) = true /\
  snd (normalizeEvent h rawData venue source) = [] /\
  exists t,
    DateParser.parseDate h (orEmpty (RawEventData.date rawData)) None
      = (Some (JsDate.Valid t), []) /\
    event =
    {| Event.id := generateEventId (orEmpty (RawEventData.title rawData))
                     (JsDate.toISOString t) (VenueInfo.name venue);
       Event.title := normalizeTitle (orEmpty (RawEventData.title rawData));
       Event.description := option_map trim (RawEventData.description rawData);
       Event.date := JsDate.toISOString t;
       Event.startTime := RawEventData.startTime rawData;
       Event.endTime := RawEventData.endTime rawData;
       Event.venue := venue;
       Event.type :=
         Some (detectEventType (orEmpty (RawEventData.title rawData))
                 (RawEventData.description rawData));
       Event.tags :=
         extractTags (orEmpty (RawEventData.title rawData))
           (RawEventData.description rawData);
       Event.url := RawEventData.url rawData;
       Event.imageUrl := RawEventData.imageUrl rawData;
       Event.price := RawEventData.price rawData;
       Event.isRecurring :=
         truthy (DateParser.detectRecurringPattern
                   (orEmpty (RawEventData.date rawData)));
       Event.recurringPattern :=
         DateParser.detectRecurringPattern (orEmpty (RawEventData.date rawData));
       Event.scrapedAt := JsDate.toISOString (now h);
       Event.source := source;
       Event.confidence := calculateConfidence rawData |}.
Proof.
  unfold normalizeEvent, normalizeBody.
  destruct (truthy (RawEventData.title rawData)) eqn:Htitle; [|discriminate].
  destruct (truthy (RawEventData.date rawData)) eqn:Hdate; [|discriminate].
  simpl negb. cbv iota.
  pose proof (parseDate_valid h (orEmpty (RawEventData.date rawData)) None) as Hvalid.
  assert (Hlog : forall d,
             fst (DateParser.parseDate h (orEmpty (RawEventData.date rawData)) None)
               = Some d ->
             snd (DateParser.parseDate h (orEmpty (RawEventData.date rawData)) None)
               = []).
  { unfold DateParser.parseDate. intros d.
    destruct (String.eqb _ ""); [discriminate|]. cbv zeta.
    destruct (DateFns.isValid _); [reflexivity|].
    destruct (DateParser.tryFormats _ _ _ _); [reflexivity|].
    destruct (DateParser.parseRelativeDate _ _ _); [reflexivity|discriminate]. }
  destruct (DateParser.parseDate h (orEmpty (RawEventData.date rawData)) None)
    as [[date|] log] eqn:Hparse; [|discriminate].
  destruct (Hvalid date eq_refl) as [t ->]. specialize (Hlog _ eq_refl).
  simpl in Hlog. subst log. simpl.
  intros [= <-]. split; [reflexivity|]. split; [reflexivity|].
  split; [reflexivity|]. exists t. split; [reflexivity|].
  destruct (DateParser.detectRecurringPattern (orEmpty (RawEventData.date rawData)))
    as [pattern|] eqn:Hp; [|reflexivity].
  now rewrite (detectRecurringPattern_truthy _ _ Hp).
Qed.

(** X9. An event that the normaliser returns is coherent: nothing was
    logged for it; its date is the ISO form of the date that the parser
    read; its identifier can be recomputed from the stored title, date
    and venue name, although it was computed from the raw title; it is
    flagged recurring exactly when it carries a recurrence pattern; and
    its confidence lies between 0.65 and 1. *)
Theorem normalizeEvent_result_coherent (rawData : RawEventData.t)
    (venue : VenueInfo.t) (source : string) (event : Event.t) :
  fst (normalizeEvent h rawData venue source) = Some event ->
  snd (normalizeEvent h rawData venue source) = [] /\
  (exists t,
     fst (DateParser.parseDate h (orEmpty (RawEventData.date rawData)) None)
       = Some (JsDate.Valid t) /\
     Event.date event = JsDate.toISOString t) /\
  Event.id event =
    generateEventId (Event.title event) (Event.date event)
      (VenueInfo.name (Event.venue event)) /\
  Event.recurringPattern event =
    DateParser.detectRecurringPattern (orEmpty (RawEventData.date rawData)) /\
  (Event.isRecurring event = true <->
   exists pattern, Event.recurringPattern event = Some pattern) /\
  ((13 # 20) <= Event.confidence event <= 1)%Q.
Proof.
  intros Hsome. apply normalizeEvent_some in Hsome.
  destruct Hsome as (Htitle & Hdate & Hlog & t & Hparse & ->). simpl.
  split; [exact Hlog|]. split; [|split; [|split; [reflexivity|split]]].
  - exists t. now rewrite Hparse.
  - unfold generateEventId, hashInput. cbv zeta.
    now rewrite alnumOnly_normalizeTitle.
  - destruct (DateParser.detectRecurringPattern _) as [pattern|] eqn:Hp.
    + rewrite (detectRecurringPattern_truthy _ _ Hp). split; eauto.
    + simpl. split; [discriminate|]. now intros [pattern [=]].
  - now apply calculateConfidence_dated.
Qed.

End NormalizedEventFacts.

(* the sample record of the trivia night, normalised on the Pacific coast *)
Lemma normalizeEvent_result_coherent_sample :
  exists event,
    fst (EventNormalizer.normalizeEvent
           (Samples.pacificAt "2026-11-03T20:00:00.000Z")
           Samples.triviaNight Samples.crookedLane "crooked-lane") = Some event /\
    Event.id event =
      EventNormalizer.generateEventId (Event.title event) (Event.date event)
        (VenueInfo.name (Event.venue event)).
Proof.
  eexists. split; [vm_compute; reflexivity|].
  apply (normalizeEvent_result_coherent
           (Samples.pacificAt "2026-11-03T20:00:00.000Z")
           Samples.triviaNight Samples.crookedLane "crooked-lane").
  vm_compute. reflexivity.
Defined.

(** * More on deduplication *)

(** ** Fingerprints and identifiers *)

Section FingerprintFacts.
Import JsString EventNormalizer EventDeduplicator.

Lemma kept_not_space (c : ascii) :
  (negb (negb (keptByNormalize c)) && negb (isSpace c))%bool
  = (isLower c || isDigit c)%bool.
Proof. destruct c as [[] [] [] [] [] [] [] []]; reflexivity. Qed.

Lemma filter_filter_kept (l : list ascii) :
  List.filter (fun c => negb (isSpace c))
    (List.filter (fun c => negb (negb (keptByNormalize c))) l)
  = List.filter (fun c => (isLower c || isDigit c)%bool) l.
Proof.
  induction l as [|c l IH]; simpl; [reflexivity|].
  rewrite <- kept_not_space.
  destruct (negb (negb (keptByNormalize c))); simpl.
  - destruct (negb (isSpace c)); now rewrite IH.
  - exact IH.
Qed.

(* the letters and digits of a text are those of its normalised form *)
Lemma alnumChars_normalizeString (s : string) :
  alnumChars (chars s) =
  List.filter (fun c => negb (isSpace c)) (chars (normalizeString s)).
Proof.
  unfold normalizeString, trim, onChars, removeChars, toLowerCase, onChars.
  rewrite !chars_ofChars.
  assert (Hq : forall c, isSpace c = true -> negb (isSpace c) = false)
    by (now intros c ->).
  rewrite (filter_trimChars _ Hq). unfold collapseSpaces.
  rewrite (filter_collapseFrom _ Hq), filter_filter_kept. reflexivity.
Qed.

Lemma normalizeString_alnumOnly (s1 s2 : string) :
  normalizeString s1 = normalizeString s2 -> alnumOnly s1 = alnumOnly s2.
Proof.
  intros Heq. apply alnumOnly_ext. rewrite !alnumChars_normalizeString.
  now rewrite Heq.
Qed.

(** X10. The two notions of "the same event" agree in one direction:
    events that deduplication puts in one group and that carry the same
    date string also get the same identifier from the normaliser's hash,
    whether it is recomputed from the stored fields or was assigned when
    the events were normalised. *)
Theorem same_fingerprint_same_identifier (a b : Event.t) :
  eventKey a = eventKey b ->
  Event.date a = Event.date b ->
  generateEventId (Event.title a) (Event.date a) (VenueInfo.name (Event.venue a))
  = generateEventId (Event.title b) (Event.date b) (VenueInfo.name (Event.venue b))
  /\
  (forall hostA hostB rawA rawB sourceA sourceB,
     fst (normalizeEvent hostA rawA (Event.venue a) sourceA) = Some a ->
     fst (normalizeEvent hostB rawB (Event.venue b) sourceB) = Some b ->
     Event.id a = Event.id b).
Proof.
  intros Hkey Hdate. apply eventKey_fingerprint in Hkey.
  unfold getFingerprint in Hkey. injection Hkey as Htitle _ Hvenue.
  apply normalizeString_alnumOnly in Htitle, Hvenue.
  assert (Hid : generateEventId (Event.title a) (Event.date a)
                  (VenueInfo.name (Event.venue a))
                = generateEventId (Event.title b) (Event.date b)
                    (VenueInfo.name (Event.venue b))).
  { unfold generateEventId, hashInput. cbv zeta. now rewrite Htitle, Hvenue, Hdate. }
  split; [exact Hid|].
  intros hostA hostB rawA rawB sourceA sourceB Ha Hb.
  assert (Hrecompute : forall h raw source e,
            fst (normalizeEvent h raw (Event.venue e) source) = Some e ->
            Event.id e = generateEventId (Event.title e) (Event.date e)
                           (VenueInfo.name (Event.venue e))).
  { intros h raw source e He. apply normalizeEvent_some in He.
    destruct He as (_ & _ & _ & t & _ & He). rewrite He at 1 2 3. simpl.
    unfold generateEventId, hashInput. cbv zeta.
    now rewrite alnumOnly_normalizeTitle. }
  rewrite (Hrecompute _ _ _ _ Ha), (Hrecompute _ _ _ _ Hb). exact Hid.
Qed.

End FingerprintFacts.

(* two spellings of one title on one evening *)
Lemma same_fingerprint_same_identifier_sample :
  EventNormalizer.generateEventId "Trivia Night" "2025-06-05T19:00:00.000Z"
    "Crooked Lane"
  = EventNormalizer.generateEventId "TRIVIA  night!" "2025-06-05T19:00:00.000Z"
      "Crooked Lane".
Proof.
  apply (same_fingerprint_same_identifier
           (Samples.eventTitled "Trivia Night" "2025-06-05T19:00:00.000Z")
           (Samples.eventTitled "TRIVIA  night!" "2025-06-05T19:00:00.000Z"));
    vm_compute; reflexivity.
Defined.

(** ** The size of the deduplicated list *)

Section SizeFacts.
Import JsString EventDeduplicator DedupSpec.

Lemma filter_length_all {A} (p : A -> bool) (l : list A) :
  List.length (List.filter p l) = List.length l -> List.filter p l = l.
Proof.
  induction l as [|a l IH]; simpl; [reflexivity|].
  pose proof (List.filter_length_le p l) as Hle.
  destruct (p a); simpl; intros Hlen.
  - f_equal. apply IH. lia.
  - lia.
Qed.

Lemma firstSeen_length (ks : list string) :
  (List.length (firstSeen ks) <= List.length ks)%nat.
Proof.
  induction ks as [|k ks IH]; simpl; [lia|].
  pose proof (List.filter_length_le (fun k' => negb (String.eqb k' k)) (firstSeen ks)).
  lia.
Qed.

Lemma firstSeen_full (ks : list string) :
  List.length (firstSeen ks) = List.length ks -> List.NoDup ks.
Proof.
  induction ks as [|k ks IH]; simpl; [constructor|].
  pose proof (List.filter_length_le (fun k' => negb (String.eqb k' k)) (firstSeen ks))
    as Hle.
  pose proof (firstSeen_length ks) as Hle'.
  intros Hlen.
  assert (Hks : List.NoDup ks) by (apply IH; lia).
  constructor; [|exact Hks].
  assert (Hall : List.filter (fun k' => negb (String.eqb k' k)) (firstSeen ks)
                 = firstSeen ks) by (apply filter_length_all; lia).
  intros Hin. apply firstSeen_In in Hin. rewrite <- Hall in Hin.
  apply List.filter_In in Hin. destruct Hin as [_ Hne].
  now rewrite String.eqb_refl in Hne.
Qed.

(** X11. Deduplication only selects: every event of its result is one
    of the given events, the result is never longer than the input, and
    it is as long as the input (and then equal to it, order included)
    exactly when no two of the given events share a fingerprint. *)
Theorem deduplicate_selects (events : list Event.t) :
  exists out,
    deduplicate events = Some out /\
    (forall e, List.In e out -> List.In e events) /\
    (List.length out <= List.length events)%nat /\
    (List.length out = List.length events <->
     List.NoDup (List.map eventKey events)) /\
    (out = events <-> List.NoDup (List.map eventKey events)) /\
    (out = [] <-> events = []).
Proof.
  destruct (selectAll_groups events (firstSeen (List.map eventKey events)))
    as (out & Hout & Hkeys & Hbest).
  { intros k. apply firstSeen_In. }
  exists out. rewrite deduplicate_grouping.
  assert (Hlen : List.length out = List.length (firstSeen (List.map eventKey events))).
  { rewrite <- Hkeys. now rewrite List.length_map. }
  pose proof (firstSeen_length (List.map eventKey events)) as Hle.
  rewrite List.length_map in Hle.
  assert (Hfull : List.length out = List.length events <->
                  List.NoDup (List.map eventKey events)).
  { split.
    - intros Heq. apply firstSeen_full. rewrite List.length_map. lia.
    - intros Hnd. rewrite Hlen, (firstSeen_NoDup_id _ Hnd). apply List.length_map. }
  split; [exact Hout|]. split; [|split; [lia|split; [exact Hfull|split]]].
  - intros e He. rewrite List.Forall_forall in Hbest.
    specialize (Hbest e He). apply firstBest_In in Hbest.
    apply groupOf_In in Hbest. tauto.
  - split.
    + intros ->. now apply Hfull.
    + intros Hnd. pose proof (deduplicate_distinct events Hnd) as Hd.
      rewrite deduplicate_grouping, Hout in Hd. now injection Hd.
  - split.
    + intros ->. simpl in Hlen. destruct events as [|e events]; [reflexivity|].
      simpl in Hlen. discriminate.
    + intros ->. simpl in Hlen. now destruct out.
Qed.

End SizeFacts.

(** ** Similar events *)

Section SimilarityFacts.
Import JsString EventDeduplicator.

Lemma splitOn_nonempty (p : ascii -> bool) (l : list ascii) :
  DateFns.splitOn p l <> [].
Proof.
  induction l as [|c l IH]; simpl; [discriminate|].
  destruct (DateFns.splitOn p l) as [|piece pieces]; [contradiction|].
  destruct (p c); discriminate.
Qed.

Lemma words_inhabited (s : string) :
  exists w, w ∈ (list_to_set (words s) : gset string).
Proof.
  unfold words. pose proof (splitOn_nonempty (Ascii.eqb " ") (chars s)) as Hne.
  destruct (DateFns.splitOn _ _) as [|piece pieces]; [contradiction|].
  exists (ofChars piece). apply elem_of_list_to_set. simpl. apply elem_of_cons. now left.
Qed.

Lemma ratio_range (k n : nat) :
  (k <= n)%nat -> (0 < n)%nat ->
  (0 <= inject_Z (Z.of_nat k) / inject_Z (Z.of_nat n) <= 1)%Q.
Proof.
  intros Hkn Hn.
  assert (Hpos : (0 < inject_Z (Z.of_nat n))%Q).
  { change 0%Q with (inject_Z 0). rewrite <- Zlt_Qlt. lia. }
  split.
  - apply Qle_shift_div_l; [exact Hpos|]. rewrite Qmult_0_l.
    change 0%Q with (inject_Z 0). rewrite <- Zle_Qle. lia.
  - apply Qle_shift_div_r; [exact Hpos|]. rewrite Qmult_1_l.
    rewrite <- Zle_Qle. lia.
Qed.

Lemma calculateSimilarity_range (a b : EventFingerprint) :
  (0 <= calculateSimilarity a b <= 1)%Q.
Proof.
  unfold calculateSimilarity.
  destruct (negb _ || negb _)%bool; [split; discriminate|]. cbv zeta.
  set (wordsA := list_to_set (words (normalizedTitle a)) : gset string).
  set (wordsB := list_to_set (words (normalizedTitle b)) : gset string).
  apply ratio_range.
  - apply subseteq_size. intros x Hx. apply elem_of_filter in Hx.
    apply elem_of_union. now left.
  - destruct (words_inhabited (normalizedTitle a)) as [w Hw]. fold wordsA in Hw.
    assert (Hsub : ({[ w ]} : gset string) ⊆ wordsA ∪ wordsB).
    { apply singleton_subseteq_l, elem_of_union. now left. }
    apply subseteq_size in Hsub. rewrite size_singleton in Hsub. lia.
Qed.

Lemma calculateSimilarity_sym (a b : EventFingerprint) :
  calculateSimilarity a b = calculateSimilarity b a.
Proof.
  unfold calculateSimilarity.
  rewrite (String.eqb_sym (venue a)), (String.eqb_sym (date a)).
  destruct (negb _ || negb _)%bool; [reflexivity|]. cbv zeta.
  set (wordsA := list_to_set (words (normalizedTitle a)) : gset string).
  set (wordsB := list_to_set (words (normalizedTitle b)) : gset string).
  assert (Hi : (filter (fun x => x ∈ wordsB) wordsA : gset string)
               = filter (fun x => x ∈ wordsA) wordsB).
  { apply set_eq. intros x. rewrite !elem_of_filter. tauto. }
  assert (Hu : wordsA ∪ wordsB = wordsB ∪ wordsA) by apply (comm_L union).
  now rewrite Hi, Hu.
Qed.

Lemma calculateSimilarity_positive (a b : EventFingerprint) :
  (0 < calculateSimilarity a b)%Q -> venue a = venue b /\ date a = date b.
Proof.
  unfold calculateSimilarity.
  destruct (String.eqb_spec (venue a) (venue b)) as [Hv|];
    [|intros H; now apply Qlt_irrefl in H].
  destruct (String.eqb_spec (date a) (date b)) as [Hd|];
    [|intros H; now apply Qlt_irrefl in H].
  now split.
Qed.

Lemma calculateSimilarity_same_words (a b : EventFingerprint) :
  venue a = venue b -> date a = date b ->
  (list_to_set (words (normalizedTitle a)) : gset string)
  = list_to_set (words (normalizedTitle b)) ->
  (calculateSimilarity a b == 1)%Q.
Proof.
  intros Hv Hd Hw. unfold calculateSimilarity.
  rewrite Hv, Hd, !String.eqb_refl. simpl. rewrite Hw.
  set (wordsB := list_to_set (words (normalizedTitle b)) : gset string).
  assert (Hi : (filter (fun x => x ∈ wordsB) wordsB : gset string) = wordsB).
  { apply set_eq. intros x. rewrite elem_of_filter. tauto. }
  assert (Hu : wordsB ∪ wordsB = wordsB) by apply (idemp_L union).
  rewrite Hi, Hu. apply Qmult_inv_r.
  destruct (words_inhabited (normalizedTitle b)) as [w Hin]. fold wordsB in Hin.
  assert (Hsub : ({[ w ]} : gset string) ⊆ wordsB) by now apply singleton_subseteq_l.
  apply subseteq_size in Hsub. rewrite size_singleton in Hsub.
  intros H0. unfold Qeq in H0. simpl in H0. lia.
Qed.

(** X12. The search for similar events never returns an event with the
    identifier of the event asked about, and so never that event itself;
    it returns events of the given list only.  The similarity it
    compares with the threshold is symmetric and lies between 0 and 1
    (a title always has at least one word, so the ratio has a divisor),
    so a threshold above 1 finds nothing; under a positive threshold
    every event found has the venue and the day of the event asked
    about; and under a threshold of at most 1 every event that
    deduplication would merge with it (same fingerprint, or merely the
    same title words in another order) is found unless it has the same
    identifier.  The default threshold, 0.8, is of both kinds. *)
Theorem findSimilar_sound_and_complete (event : Event.t) (events : list Event.t)
    (threshold : Q) :
  let found := findSimilar event events threshold in
  let similarity other :=
    calculateSimilarity (getFingerprint event) (getFingerprint other) in
  (forall other,
     List.In other found <->
     List.In other events /\ Event.id other <> Event.id event /\
     (threshold <= similarity other)%Q) /\
  ~ List.In event found /\
  (forall other,
     (0 <= similarity other <= 1)%Q /\
     similarity other =
       calculateSimilarity (getFingerprint other) (getFingerprint event)) /\
  ((1 < threshold)%Q -> found = []) /\
  ((0 < threshold)%Q ->
   forall other, List.In other found ->
     venue (getFingerprint other) = venue (getFingerprint event) /\
     date (getFingerprint other) = date (getFingerprint event)) /\
  ((threshold <= 1)%Q ->
   forall other,
     List.In other events -> Event.id other <> Event.id event ->
     venue (getFingerprint other) = venue (getFingerprint event) ->
     date (getFingerprint other) = date (getFingerprint event) ->
     (list_to_set (words (normalizedTitle (getFingerprint other))) : gset string)
       = list_to_set (words (normalizedTitle (getFingerprint event))) ->
     List.In other found) /\
  ((threshold <= 1)%Q ->
   forall other,
     List.In other events -> Event.id other <> Event.id event ->
     eventKey other = eventKey event ->
     List.In other found) /\
  (forall text, (0 < size (list_to_set (words text) : gset string))%nat) /\
  (0 < defaultThreshold <= 1)%Q.
Proof.
  cbv zeta.
  assert (Hmem : forall other,
            List.In other (findSimilar event events threshold) <->
            List.In other events /\ Event.id other <> Event.id event /\
            (threshold <=
             calculateSimilarity (getFingerprint event) (getFingerprint other))%Q).
  { intros other. unfold findSimilar. cbv zeta. rewrite List.filter_In.
    destruct (String.eqb_spec (Event.id event) (Event.id other)) as [Heq|Hne].
    - split; [intros [_ [=]]|]. intros (_ & Hne & _). now elim Hne.
    - rewrite Qle_bool_iff. intuition congruence. }
  assert (Hsame : (threshold <= 1)%Q ->
            forall other,
              List.In other events -> Event.id other <> Event.id event ->
              venue (getFingerprint other) = venue (getFingerprint event) ->
              date (getFingerprint other) = date (getFingerprint event) ->
              (list_to_set (words (normalizedTitle (getFingerprint other)))
                 : gset string)
              = list_to_set (words (normalizedTitle (getFingerprint event))) ->
              List.In other (findSimilar event events threshold)).
  { intros Hth other Hin Hid Hv Hd Hw. apply Hmem. split; [exact Hin|].
    split; [exact Hid|].
    rewrite (calculateSimilarity_same_words (getFingerprint event)
               (getFingerprint other)); [exact Hth|congruence|congruence|congruence]. }
  split; [exact Hmem|].
  split; [|split; [|split; [|split; [|split; [|split; [|split]]]]]].
  - intros Hin. apply Hmem in Hin. destruct Hin as (_ & Hne & _). now apply Hne.
  - intros other. split; [apply calculateSimilarity_range|apply calculateSimilarity_sym].
  - intros Hth. destruct (findSimilar event events threshold) as [|other rest] eqn:Hf;
      [reflexivity|]. exfalso.
    destruct (Hmem other) as [Hin _].
    destruct (Hin (or_introl eq_refl)) as (_ & _ & Hle).
    pose proof (calculateSimilarity_range (getFingerprint event) (getFingerprint other))
      as [_ Hone].
    apply (Qlt_irrefl 1). eapply Qlt_le_trans; [exact Hth|].
    eapply Qle_trans; [exact Hle|exact Hone].
  - intros Hth other Hin. apply Hmem in Hin. destruct Hin as (_ & _ & Hle).
    destruct (calculateSimilarity_positive (getFingerprint event) (getFingerprint other))
      as [Hv Hd]; [eapply Qlt_le_trans; [exact Hth|exact Hle]|].
    now split.
  - exact Hsame.
  - intros Hth other Hin Hid Hkey. apply eventKey_fingerprint in Hkey.
    apply (Hsame Hth); [exact Hin|exact Hid|now rewrite Hkey..].
  - intros text. destruct (words_inhabited text) as [w Hw].
    assert (Hsub : ({[ w ]} : gset string) ⊆ list_to_set (words text))
      by now apply singleton_subseteq_l.
    apply subseteq_size in Hsub. rewrite size_singleton in Hsub. lia.
  - unfold defaultThreshold. split; [reflexivity|discriminate].
Qed.

End SimilarityFacts.

(** * More on the date parser *)

(** ** Times of day *)

Section TimeFacts.
Import JsString JsDate.

Variable h : Host.

Lemma getHours_range (t : Z) : 0 <= getHours h t < 24.
Proof.
  unfold getHours, localFields, fieldsOfTime.
  destruct (civilFromDays _) as [[y m] d]. simpl.
  pose proof (Z.mod_pos_bound (t + offsetMs h) msPerDay eq_refl) as Hrest.
  unfold msPerDay, msPerHour in *.
  split; [apply Z.div_pos; lia|apply Z.div_lt_upper_bound; lia].
Qed.

Lemma getMinutes_range (t : Z) : 0 <= getMinutes h t < 60.
Proof.
  unfold getMinutes, localFields, fieldsOfTime.
  destruct (civilFromDays _) as [[y m] d]. simpl.
  pose proof (Z.mod_pos_bound ((t + offsetMs h) mod msPerDay) msPerHour eq_refl)
    as Hrest.
  unfold msPerDay, msPerHour, msPerMinute in *.
  split; [apply Z.div_pos; lia|apply Z.div_lt_upper_bound; lia].
Qed.

Lemma isDigit_value (c : ascii) :
  isDigit c = true -> 0 <= Z.of_N (code c) - 48 <= 9.
Proof.
  unfold isDigit, inRange. intros Hc. apply andb_true_iff in Hc.
  destruct Hc as [Hlo Hhi]. apply N.leb_le in Hlo, Hhi. lia.
Qed.

Lemma spanAtMost_digits (n : nat) (l run rest : list ascii) :
  Rx.spanAtMost n isDigit l = (run, rest) ->
  List.Forall (fun c => isDigit c = true) run /\ (List.length run <= n)%nat.
Proof.
  revert l run rest. induction n as [|n IH]; intros l run rest; simpl.
  - intros [= <- _]. split; [constructor|simpl; lia].
  - destruct l as [|c l]; [intros [= <- _]; split; [constructor|simpl; lia]|].
    destruct (isDigit c) eqn:Hc; [|intros [= <- _]; split; [constructor|simpl; lia]].
    destruct (Rx.spanAtMost n isDigit l) as [run' rest'] eqn:Hs.
    intros [= <- _]. destruct (IH _ _ _ Hs) as [Hall Hlen].
    split; [now constructor|simpl; lia].
Qed.

Lemma digitsExactly_digits (n : nat) (l ds rest : list ascii) :
  Rx.digitsExactly n l = Some (ds, rest) ->
  List.Forall (fun c => isDigit c = true) ds /\ List.length ds = n.
Proof.
  revert l ds rest. induction n as [|n IH]; intros l ds rest; simpl.
  - intros [= <- _]. split; [constructor|reflexivity].
  - destruct l as [|c l]; [discriminate|].
    destruct (isDigit c) eqn:Hc; [|discriminate].
    destruct (Rx.digitsExactly n l) as [[ds' rest']|] eqn:Hd; [|discriminate].
    intros [= <- _]. destruct (IH _ _ _ Hd) as [Hall Hlen].
    split; [now constructor|simpl; now rewrite Hlen].
Qed.

Lemma parseDigits_two (l : list ascii) :
  List.Forall (fun c => isDigit c = true) l -> (List.length l <= 2)%nat ->
  0 <= JsNumber.parseDigits l <= 99.
Proof.
  intros Hall Hlen. unfold JsNumber.parseDigits.
  destruct l as [|a [|b [|c l]]]; simpl in *; [lia| | |lia].
  - inversion Hall as [|? ? Ha _]; subst. apply isDigit_value in Ha. lia.
  - inversion Hall as [|? ? Ha Hall']; subst. inversion Hall' as [|? ? Hb _]; subst.
    apply isDigit_value in Ha, Hb. lia.
Qed.

Lemma minutesPart_digits (rest : list ascii) :
  match
    fst (match rest with
         | ":"%char :: r =>
           match Rx.digitsExactly 2 r with
           | Some (ms, r') => (Some ms, r')
           | None => (None, rest)
           end
         | _ => (None, rest)
         end)
  with
  | Some ds => List.Forall (fun c => isDigit c = true) ds /\ List.length ds = 2%nat
  | None => True
  end.
Proof.
  destruct rest as [|c r]; [exact I|].
  destruct c as [[] [] [] [] [] [] [] []]; try exact I.
  destruct (Rx.digitsExactly 2 r) as [[ms r']|] eqn:Hd; [|exact I].
  simpl. exact (digitsExactly_digits _ _ _ _ Hd).
Qed.

Lemma simpleMatchAt_parts (l hs : list ascii) (ms : option (list ascii))
    (period : option string) :
  DateParser.simpleMatchAt l = Some (hs, ms, period) ->
  (List.Forall (fun c => isDigit c = true) hs /\ (List.length hs <= 2)%nat) /\
  match ms with
  | Some ds => List.Forall (fun c => isDigit c = true) ds /\ List.length ds = 2%nat
  | None => True
  end.
Proof.
  unfold DateParser.simpleMatchAt, Rx.digitsAtMost.
  destruct (Rx.spanAtMost 2 isDigit l) as [run rest] eqn:Hs.
  destruct run as [|c run]; [discriminate|].
  pose proof (minutesPart_digits rest) as Hms.
  destruct (match rest with
            | ":"%char :: r =>
              match Rx.digitsExactly 2 r with
              | Some (ms, r') => (Some ms, r')
              | None => (None, rest)
              end
            | _ => (None, rest)
            end) as [ms' rest'].
  intros [= <- <- _]. split; [|exact Hms].
  exact (spanAtMost_digits _ _ _ _ Hs).
Qed.

Lemma tryTimeFormats_range (text : string) (formats : list string)
    (time : DateParser.Time) :
  DateParser.tryTimeFormats h text formats = Some time ->
  0 <= DateParser.hours time < 24 /\ 0 <= DateParser.minutes time < 60.
Proof.
  induction formats as [|fmt formats IH]; simpl; [discriminate|].
  destruct (DateFns.parse h text fmt (now h)) as [parsed|]; [|exact IH].
  intros [= <-]. simpl. split; [apply getHours_range|apply getMinutes_range].
Qed.

Lemma parseTime_range (timeStr : string) (time : DateParser.Time) :
  fst (DateParser.parseTime h timeStr) = Some time ->
  0 <= DateParser.hours time <= 111 /\ 0 <= DateParser.minutes time <= 99.
Proof.
  unfold DateParser.parseTime.
  destruct (String.eqb timeStr ""); [discriminate|]. cbv zeta.
  destruct (DateParser.tryTimeFormats h _ _) as [found|] eqn:Hf.
  - intros [= <-]. apply tryTimeFormats_range in Hf. lia.
  - destruct (Rx.search DateParser.simpleMatchAt _) as [[[hs ms] period]|] eqn:Hs;
      [|discriminate].
    apply search_found in Hs. destruct Hs as (pre & suf & _ & Hm).
    apply simpleMatchAt_parts in Hm. destruct Hm as [[Hhs Hlen] Hms].
    pose proof (parseDigits_two hs Hhs Hlen) as Hhours.
    assert (Hminutes : 0 <= match ms with
                            | Some ds => JsNumber.parseDigits ds
                            | None => 0
                            end <= 99).
    { destruct ms as [ds|]; [|lia]. destruct Hms as [Hds Hlen'].
      apply parseDigits_two; [exact Hds|lia]. }
    simpl. intros [= <-]. simpl. split; [|exact Hminutes].
    destruct (_ && negb (JsNumber.parseDigits hs =? 12))%bool.
    + destruct (_ && (JsNumber.parseDigits hs + 12 =? 12))%bool; lia.
    + destruct (_ && (JsNumber.parseDigits hs =? 12))%bool; lia.
Qed.

(** X13. The hours and minutes that parseTime returns are never
    negative and never exceed 111 and 99.  When one of the time formats
    reads the text they are a time of day, below 24 and 60; only the
    fallback pattern can give more. *)
Theorem parseTime_bounds (timeStr : string) (time : DateParser.Time) :
  fst (DateParser.parseTime h timeStr) = Some time ->
  0 <= DateParser.hours time <= 111 /\
  0 <= DateParser.minutes time <= 99 /\
  snd (DateParser.parseTime h timeStr) = [] /\
  (forall read,
     DateParser.tryTimeFormats h (DateParser.cleanTimeString timeStr)
       DateParser.TIME_FORMATS = Some read ->
     time = read /\ DateParser.hours time < 24 /\ DateParser.minutes time < 60).
Proof.
  intros Hsome. destruct (parseTime_range _ _ Hsome) as [Hh Hm].
  split; [exact Hh|]. split; [exact Hm|].
  unfold DateParser.parseTime in *.
  destruct (String.eqb timeStr ""); [discriminate|]. cbv zeta in *.
  destruct (DateParser.tryTimeFormats h _ _) as [found|] eqn:Hf.
  - simpl in Hsome. injection Hsome as <-. split; [reflexivity|].
    intros read [= <-]. apply tryTimeFormats_range in Hf. split; [reflexivity|lia].
  - destruct (Rx.search DateParser.simpleMatchAt _) as [[[hs ms] period]|];
      [|discriminate].
    split; [reflexivity|]. intros read [=].
Qed.

End TimeFacts.

(* the evening hour of the sample record *)
Lemma parseTime_bounds_sample :
  exists time,
    fst (DateParser.parseTime (Samples.utcAt "2025-06-01T12:00:00.000Z") "7pm")
      = Some time /\
    0 <= DateParser.hours time <= 111.
Proof.
  exists {| DateParser.hours := 19; DateParser.minutes := 0 |}.
  assert (Hread : fst (DateParser.parseTime
                         (Samples.utcAt "2025-06-01T12:00:00.000Z") "7pm")
                  = Some {| DateParser.hours := 19; DateParser.minutes := 0 |})
    by (vm_compute; reflexivity).
  split; [exact Hread|].
  exact (proj1 (parseTime_bounds _ _ _ Hread)).
Defined.

(** ** A date with a time *)

Section DateTimeFacts.
Import JsString JsDate.

Variable h : Host.

Lemma parseDate_log_some (dateStr : string) (referenceDate : option Z)
    (d : JsDate.t) :
  fst (DateParser.parseDate h dateStr referenceDate) = Some d ->
  snd (DateParser.parseDate h dateStr referenceDate) = [].
Proof.
  unfold DateParser.parseDate.
  destruct (String.eqb _ ""); [discriminate|]. cbv zeta.
  destruct (DateFns.isValid _); [reflexivity|].
  destruct (DateParser.tryFormats _ _ _ _); [reflexivity|].
  destruct (DateParser.parseRelativeDate _ _ _); [reflexivity|discriminate].
Qed.

(** X14. parseDateTime fails exactly when parseDate fails, whatever the
    time text is: a time never costs the date.  Without a time text, or
    with one that parseTime cannot read, it returns the date of
    parseDate unchanged.  With a time that was read it returns that date
    with its hours and minutes set, by setHours, to what parseTime
    returned, which is passed on unchecked: at most 111 hours and 99
    minutes.  Its warnings are those of parseDate, followed by those of
    parseTime when a date was read and a time text was given. *)
Theorem parseDateTime_sets_time_of_day (dateStr : string)
    (timeStr : option string) :
  let result := fst (DateParser.parseDateTime h dateStr timeStr) in
  let date := fst (DateParser.parseDate h dateStr None) in
  let time :=
    if truthy timeStr then fst (DateParser.parseTime h (orEmpty timeStr))
    else None in
  (result = None <-> date = None) /\
  (time = None -> result = date) /\
  (forall t read,
     date = Some (Valid t) -> time = Some read ->
     result = Some (Valid (setHours h t (DateParser.hours read)
                             (DateParser.minutes read))) /\
     0 <= DateParser.hours read <= 111 /\
     0 <= DateParser.minutes read <= 99) /\
  snd (DateParser.parseDateTime h dateStr timeStr)
  = snd (DateParser.parseDate h dateStr None)
    ++ (if truthy timeStr
        then match date with
             | Some _ => snd (DateParser.parseTime h (orEmpty timeStr))
             | None => []
             end
        else []).
Proof.
  cbv zeta. unfold DateParser.parseDateTime.
  destruct (DateParser.parseDate h dateStr None) as [[date|] log] eqn:Hdate;
    cbn [fst snd].
  - destruct (truthy timeStr).
    + pose proof (parseTime_range h (orEmpty timeStr)) as Hrange.
      destruct (DateParser.parseTime h (orEmpty timeStr)) as [[read|] timeLog];
        cbn [fst snd] in *.
      * split; [split; discriminate|]. split; [discriminate|]. split.
        -- intros t read' [= ->] [= <-].
           destruct (Hrange read eq_refl) as [Hh Hm].
           split; [reflexivity|]. lia.
        -- reflexivity.
      * split; [split; discriminate|]. split; [reflexivity|].
        split; [discriminate|reflexivity].
    + split; [split; discriminate|]. split; [reflexivity|].
      split; [discriminate|]. now rewrite List.app_nil_r.
  - split; [tauto|]. split; [reflexivity|]. split; [discriminate|].
    destruct (truthy timeStr); now rewrite List.app_nil_r.
Qed.

End DateTimeFacts.

(** ** Relative dates *)

Section RelativeFacts.
Import JsString JsDate.

Variable h : Host.

Lemma getDay_addDays (t n : Z) :
  getDay h (t + n * msPerDay) = (getDay h t + n) mod 7.
Proof.
  unfold getDay.
  replace (t + n * msPerDay + offsetMs h) with (t + offsetMs h + n * msPerDay) by lia.
  rewrite Z.div_add by discriminate.
  rewrite Zplus_mod_idemp_l. f_equal. lia.
Qed.

Lemma nextDay_spec (t day : Z) :
  0 <= day <= 6 ->
  exists days,
    DateFns.nextDay h t day = t + days * msPerDay /\ 1 <= days <= 7 /\
    getDay h (t + days * msPerDay) = day.
Proof.
  intros Hday. unfold DateFns.nextDay, DateFns.addDays. cbv zeta.
  assert (Hg : 0 <= getDay h t < 7) by (apply Z.mod_pos_bound; lia).
  destruct (Z.leb_spec (day - getDay h t) 0) as [Hle|Hgt].
  - exists (day - getDay h t + 7). split; [reflexivity|]. split; [lia|].
    rewrite getDay_addDays.
    replace (getDay h t + (day - getDay h t + 7)) with (day + 1 * 7) by lia.
    rewrite Z.mod_add by lia. apply Z.mod_small. lia.
  - exists (day - getDay h t). split; [reflexivity|]. split; [lia|].
    rewrite getDay_addDays.
    replace (getDay h t + (day - getDay h t)) with day by lia.
    apply Z.mod_small. lia.
Qed.

Lemma lookup_weekday (name : string) :
  List.In name Rx.weekdays ->
  exists day, DateParser.lookup name DateParser.DAY_NAMES = Some day /\ 0 <= day <= 6.
Proof.
  intros Hin. simpl in Hin.
  repeat (destruct Hin as [<-|Hin]; [eexists; split; [reflexivity|lia]|]).
  contradiction.
Qed.

Lemma startsWithChars_app (p rest : list ascii) :
  startsWithChars p (p ++ rest) = true.
Proof.
  induction p as [|c p IH]; simpl; [reflexivity|].
  now rewrite Ascii.eqb_refl, IH.
Qed.

Lemma includesChars_at (p pre rest : list ascii) :
  includesChars p (pre ++ p ++ rest) = true.
Proof.
  induction pre as [|c pre IH].
  - simpl app. destruct (p ++ rest) as [|c l] eqn:Heq.
    + simpl. rewrite <- Heq. now rewrite startsWithChars_app.
    + cbn [includesChars]. rewrite <- Heq. now rewrite startsWithChars_app.
  - simpl app. cbn [includesChars]. rewrite IH. apply orb_true_r.
Qed.

Lemma dropSpaces_suffix (l : list ascii) : exists sp, l = sp ++ dropSpaces l.
Proof.
  induction l as [|c l [sp IH]]; [now exists []|]. simpl.
  destruct (isSpace c); [|now exists []].
  exists (c :: sp). simpl. now rewrite <- IH.
Qed.

(* the weekday that follows optional white space *)
Lemma weekday_after_spaces (ci : bool) (l : list ascii) (i : nat)
    (m rest : list ascii) :
  List.Forall (fun c => lowerChar c = c) l ->
  Rx.oneOf ci Rx.weekdays (Rx.spaces l) = Some (i, m, rest) ->
  List.In (ofChars m) Rx.weekdays /\ exists sp, l = sp ++ m ++ rest.
Proof.
  intros Hlow Ho. unfold Rx.spaces in Ho.
  destruct (dropSpaces_suffix l) as [sp Hsp].
  destruct ci.
  - apply oneOf_ci in Ho. destruct Ho as [Heq (day & Hday & Hmap)].
    rewrite Hsp, Heq in Hlow. apply List.Forall_app in Hlow.
    destruct Hlow as [_ Hlow]. apply List.Forall_app in Hlow.
    destruct Hlow as [Hm _]. rewrite (map_lower_fixed m Hm) in Hmap.
    assert (Hfixed : List.map lowerChar (chars day) = chars day).
    { simpl in Hday.
      repeat (destruct Hday as [<-|Hday]; [reflexivity|]). contradiction. }
    rewrite Hfixed in Hmap. subst m. rewrite ofChars_chars.
    split; [exact Hday|]. exists sp. now rewrite <- Heq.
  - apply oneOf_exact in Ho. destruct Ho as [Hday Heq].
    split; [exact Hday|]. exists sp. now rewrite <- Heq.
Qed.

Lemma dayMatchAt_weekday (l : list ascii) (qualifier : option string)
    (name : string) :
  List.Forall (fun c => lowerChar c = c) l ->
  DateParser.dayMatchAt l = Some (qualifier, name) ->
  List.In name Rx.weekdays /\
  (exists pre rest, l = pre ++ chars name ++ rest) /\
  (qualifier = Some "next" -> exists rest, l = chars "next" ++ rest).
Proof.
  intros Hlow. unfold DateParser.dayMatchAt.
  assert (Hplain :
            match Rx.oneOf false Rx.weekdays (Rx.spaces l) with
            | Some (_, m, _) => Some (@None string, ofChars m)
            | None => None
            end = Some (qualifier, name) ->
            List.In name Rx.weekdays /\
            (exists pre rest, l = pre ++ chars name ++ rest) /\
            (qualifier = Some "next" -> exists rest, l = chars "next" ++ rest)).
  { destruct (Rx.oneOf false Rx.weekdays (Rx.spaces l)) as [[[i m] rest]|] eqn:Ho;
      [|discriminate].
    intros [= <- <-]. apply (weekday_after_spaces false l) in Ho; [|exact Hlow].
    destruct Ho as [Hday [sp Heq]]. split; [exact Hday|]. split; [|discriminate].
    exists sp, rest. now rewrite chars_ofChars. }
  destruct (Rx.oneOf false ["next"; "this"] l) as [[[j q] rest]|] eqn:Hq;
    [|exact Hplain].
  apply oneOf_exact in Hq. destruct Hq as [Hq Heq].
  destruct (Rx.oneOf false Rx.weekdays (Rx.spaces rest)) as [[[i m] rest']|] eqn:Ho;
    [|exact Hplain].
  intros [= <- <-].
  assert (Hrest : List.Forall (fun c => lowerChar c = c) rest).
  { rewrite Heq in Hlow. now apply List.Forall_app in Hlow. }
  apply (weekday_after_spaces false rest) in Ho; [|exact Hrest].
  destruct Ho as [Hday [sp Hsp]]. split; [exact Hday|]. split.
  - exists (q ++ sp), rest'. rewrite chars_ofChars, Heq, Hsp.
    now rewrite <- List.app_assoc.
  - intros [= Hnext]. exists rest. rewrite Heq. f_equal.
    rewrite <- Hnext. now rewrite chars_ofChars.
Qed.

Lemma everyMatchAt_weekday (ci : bool) (l : list ascii) (name : string) :
  List.Forall (fun c => lowerChar c = c) l ->
  DateParser.everyMatchAt ci l = Some name ->
  List.In name Rx.weekdays /\ exists pre rest, l = pre ++ chars name ++ rest.
Proof.
  intros Hlow. unfold DateParser.everyMatchAt.
  destruct (Rx.literal ci (chars "every") l) as [[m rest]|] eqn:Hl; [|discriminate].
  assert (Heq : l = m ++ rest).
  { destruct ci; [now apply literal_ci in Hl|].
    apply literal_exact in Hl. destruct Hl as [-> ->]. reflexivity. }
  destruct (Rx.oneOf ci Rx.weekdays (Rx.spaces rest)) as [[[i day] rest']|] eqn:Ho;
    [|discriminate].
  intros [= <-].
  assert (Hrest : List.Forall (fun c => lowerChar c = c) rest).
  { rewrite Heq in Hlow. now apply List.Forall_app in Hlow. }
  apply (weekday_after_spaces ci rest) in Ho; [|exact Hrest].
  destruct Ho as [Hday [sp Hsp]]. split; [exact Hday|].
  exists (m ++ sp), rest'. rewrite chars_ofChars, Heq, Hsp.
  now rewrite <- List.app_assoc.
Qed.

Lemma includes_found (text : string) (p pre suf before after : list ascii) :
  chars text = pre ++ suf -> suf = before ++ p ++ after ->
  includes text (ofChars p) = true.
Proof.
  intros Htext Hsuf. unfold includes. rewrite chars_ofChars, Htext, Hsuf.
  rewrite List.app_assoc. apply includesChars_at.
Qed.

(** X15. A relative date is never in the past.  "today" is the
    reference itself and "tomorrow" the day after it, by addDays; any
    other text that is read names a weekday, and the result falls on
    that day of the week, strictly after the reference: it is the next
    day of that name, which addDays reaches in 1 to 7 days from the
    reference (so never the reference day itself), or, only if the text
    says "next", the day one week after that one. *)
Theorem parseRelativeDate_upcoming (dateStr : string) (reference : Z)
    (d : JsDate.t) :
  DateParser.parseRelativeDate h dateStr reference = Some d ->
  exists t,
    d = Valid t /\
    reference <= t /\
    (toLowerCase dateStr = "today" -> t = reference) /\
    (toLowerCase dateStr = "tomorrow" -> t = DateFns.addDays reference 1) /\
    (toLowerCase dateStr <> "today" -> toLowerCase dateStr <> "tomorrow" ->
     exists name day days,
       List.In name Rx.weekdays /\
       includes (toLowerCase dateStr) name = true /\
       DateParser.lookup name DateParser.DAY_NAMES = Some day /\
       getDay h t = day /\
       reference < t /\
       1 <= days <= 7 /\
       DateFns.nextDay h reference day = DateFns.addDays reference days /\
       (t = DateFns.nextDay h reference day \/
        t = DateFns.addWeeks (DateFns.nextDay h reference day) 1 /\
        includes (toLowerCase dateStr) "next" = true)).
Proof.
  unfold DateParser.parseRelativeDate. cbv zeta.
  pose proof (lowered_toLowerCase dateStr) as Hlow.
  destruct (String.eqb_spec (toLowerCase dateStr) "today") as [Htoday|Hnot_today].
  { intros [= <-]. exists reference. split; [reflexivity|]. split; [lia|].
    split; [reflexivity|]. split; [congruence|]. congruence. }
  destruct (String.eqb_spec (toLowerCase dateStr) "tomorrow") as [Htomorrow|Hnot_tomorrow].
  { intros [= <-]. exists (DateFns.addDays reference 1). split; [reflexivity|].
    split; [unfold DateFns.addDays, msPerDay; lia|].
    split; [congruence|]. split; [reflexivity|]. congruence. }
  destruct (Rx.search DateParser.dayMatchAt (chars (toLowerCase dateStr)))
    as [[qualifier name]|] eqn:Hday.
  - apply search_found in Hday. destruct Hday as (pre & suf & Htext & Hm).
    assert (Hsuf : List.Forall (fun c => lowerChar c = c) suf).
    { rewrite Htext in Hlow. now apply List.Forall_app in Hlow. }
    apply dayMatchAt_weekday in Hm; [|exact Hsuf].
    destruct Hm as (Hname & (before & after & Hat) & Hnext).
    destruct (lookup_weekday name Hname) as (day & Hlookup & Hrange).
    rewrite Hlookup.
    destruct (nextDay_spec reference day Hrange) as (days & Hnd & Hdays & Hgd).
    assert (Hincl : includes (toLowerCase dateStr) name = true).
    { rewrite <- (ofChars_chars name). eapply includes_found; eassumption. }
    destruct (match qualifier with
              | Some q => String.eqb q "next"
              | None => false
              end) eqn:Hq.
    + intros [= <-].
      exists (DateFns.addWeeks (DateFns.nextDay h reference day) 1).
      assert (Hlater : DateFns.addWeeks (DateFns.nextDay h reference day) 1
                       = reference + days * msPerDay + 7 * msPerDay).
      { rewrite Hnd. unfold DateFns.addWeeks, DateFns.addDays. lia. }
      split; [reflexivity|]. split; [rewrite Hlater; unfold msPerDay; lia|].
      split; [congruence|]. split; [congruence|].
      intros _ _. exists name, day, days.
      split; [exact Hname|]. split; [exact Hincl|]. split; [exact Hlookup|].
      split.
      * rewrite Hlater, getDay_addDays, Hgd.
        replace (day + 7) with (day + 1 * 7) by lia.
        rewrite Z.mod_add by lia. apply Z.mod_small. lia.
      * split; [rewrite Hlater; unfold msPerDay; lia|]. split; [exact Hdays|].
        split; [exact Hnd|]. right. split; [reflexivity|].
        destruct qualifier as [q|]; [|discriminate].
        apply String.eqb_eq in Hq. subst q.
        destruct (Hnext eq_refl) as [rest Hrest].
        change "next" with (ofChars (chars "next")).
        apply (includes_found _ _ pre suf [] rest Htext). exact Hrest.
    + intros [= <-]. exists (DateFns.nextDay h reference day).
      split; [reflexivity|]. split; [rewrite Hnd; unfold msPerDay; lia|].
      split; [congruence|]. split; [congruence|].
      intros _ _. exists name, day, days.
      split; [exact Hname|]. split; [exact Hincl|]. split; [exact Hlookup|].
      split; [now rewrite Hnd|].
      split; [rewrite Hnd; unfold msPerDay; lia|]. split; [exact Hdays|].
      split; [exact Hnd|]. now left.
  - destruct (Rx.search (DateParser.everyMatchAt false) (chars (toLowerCase dateStr)))
      as [name|] eqn:Hevery; [|discriminate].
    apply search_found in Hevery. destruct Hevery as (pre & suf & Htext & Hm).
    assert (Hsuf : List.Forall (fun c => lowerChar c = c) suf).
    { rewrite Htext in Hlow. now apply List.Forall_app in Hlow. }
    apply everyMatchAt_weekday in Hm; [|exact Hsuf].
    destruct Hm as (Hname & before & after & Hat).
    destruct (lookup_weekday name Hname) as (day & Hlookup & Hrange).
    rewrite Hlookup.
    destruct (nextDay_spec reference day Hrange) as (days & Hnd & Hdays & Hgd).
    intros [= <-]. exists (DateFns.nextDay h reference day).
    split; [reflexivity|]. split; [rewrite Hnd; unfold msPerDay; lia|].
    split; [congruence|]. split; [congruence|].
    intros _ _. exists name, day, days.
    split; [exact Hname|]. split.
    + rewrite <- (ofChars_chars name). eapply includes_found; eassumption.
    + split; [exact Hlookup|]. split; [now rewrite Hnd|].
      split; [rewrite Hnd; unfold msPerDay; lia|]. split; [exact Hdays|].
      split; [exact Hnd|]. now left.
Qed.

End RelativeFacts.

(* "next friday", asked on Sunday 1 June 2025 at noon *)
Lemma parseRelativeDate_upcoming_sample :
  exists t,
    JsDate.Valid (JsDate.timeOf "2025-06-13T12:00:00.000Z") = JsDate.Valid t /\
    JsDate.timeOf "2025-06-01T12:00:00.000Z" <= t.
Proof.
  destruct (parseRelativeDate_upcoming
              (Samples.utcAt "2025-06-01T12:00:00.000Z") "next friday"
              (JsDate.timeOf "2025-06-01T12:00:00.000Z")
              (JsDate.Valid (JsDate.timeOf "2025-06-13T12:00:00.000Z")))
    as (t & Hd & Hle & _).
  - vm_compute. reflexivity.
  - exists t. split; [exact Hd|exact Hle].
Defined.

(** ** Recurrence patterns *)

Section RecurringFacts.
Import JsString.

Lemma span_spec (p : ascii -> bool) (l run rest : list ascii) :
  Rx.span p l = (run, rest) ->
  l = run ++ rest /\ List.Forall (fun c => p c = true) run.
Proof.
  revert run rest. induction l as [|c l IH]; intros run rest; simpl.
  - intros [= <- <-]. split; [reflexivity|constructor].
  - destruct (p c) eqn:Hc; [|intros [= <- <-]; split; [reflexivity|constructor]].
    destruct (Rx.span p l) as [run' rest'] eqn:Hs.
    intros [= <- <-]. destruct (IH _ _ eq_refl) as [-> Hall].
    split; [reflexivity|now constructor].
Qed.

Lemma digits_spec (l run rest : list ascii) :
  Rx.digits l = Some (run, rest) ->
  l = run ++ rest /\ run <> [] /\ List.Forall (fun c => isDigit c = true) run.
Proof.
  unfold Rx.digits. destruct (Rx.span isDigit l) as [run' rest'] eqn:Hs.
  destruct run' as [|c run']; [discriminate|].
  intros [= <- <-]. apply span_spec in Hs. destruct Hs as [Heq Hall].
  split; [exact Heq|]. split; [discriminate|exact Hall].
Qed.

Lemma spaces1_suffix (l rest : list ascii) :
  Rx.spaces1 l = Some rest -> exists sp, l = sp ++ rest.
Proof.
  unfold Rx.spaces1. destruct l as [|c l]; [discriminate|].
  destruct (isSpace c); [|discriminate]. intros [= <-].
  destruct (dropSpaces_suffix l) as [sp Hsp]. exists (c :: sp). simpl.
  now rewrite <- Hsp.
Qed.

Lemma oneOf_weekday_lowered (l : list ascii) (i : nat) (m rest : list ascii) :
  List.Forall (fun c => lowerChar c = c) l ->
  Rx.oneOf true Rx.weekdays l = Some (i, m, rest) ->
  List.In (ofChars m) Rx.weekdays.
Proof.
  intros Hlow Ho. apply oneOf_ci in Ho. destruct Ho as [Heq (day & Hday & Hmap)].
  rewrite Heq in Hlow. apply List.Forall_app in Hlow. destruct Hlow as [Hm _].
  rewrite (map_lower_fixed m Hm) in Hmap.
  assert (Hfixed : List.map lowerChar (chars day) = chars day).
  { simpl in Hday.
    repeat (destruct Hday as [<-|Hday]; [reflexivity|]). contradiction. }
  rewrite Hfixed in Hmap. subst m. now rewrite ofChars_chars.
Qed.

Lemma Forall_suffix {A} (P : A -> Prop) (l pre rest : list A) :
  List.Forall P l -> l = pre ++ rest -> List.Forall P rest.
Proof. intros Hall ->. now apply List.Forall_app in Hall. Qed.

Lemma ordinalMatchAt_parts (l : list ascii) (first second day : string) :
  List.Forall (fun c => lowerChar c = c) l ->
  DateParser.ordinalMatchAt l = Some (first, second, day) ->
  List.In day Rx.weekdays /\
  (first <> "" /\ List.Forall (fun c => isDigit c = true) (chars first)) /\
  (second <> "" /\ List.Forall (fun c => isDigit c = true) (chars second)).
Proof.
  intros Hlow. unfold DateParser.ordinalMatchAt.
  destruct (Rx.digits l) as [[d1 l1]|] eqn:H1; [|discriminate].
  cbn [mbind option_bind].
  destruct (Rx.oneOf true Rx.ordinalSuffixes l1) as [[[i1 s1] l2]|] eqn:H2;
    [|discriminate].
  cbn [mbind option_bind].
  destruct (Rx.spaces1 l2) as [l3|] eqn:H3; [|discriminate].
  cbn [mbind option_bind].
  destruct (Rx.literal true (chars "and") l3) as [[a l4]|] eqn:H4; [|discriminate].
  cbn [mbind option_bind].
  destruct (Rx.spaces1 l4) as [l5|] eqn:H5; [|discriminate].
  cbn [mbind option_bind].
  destruct (Rx.digits l5) as [[d2 l6]|] eqn:H6; [|discriminate].
  cbn [mbind option_bind].
  destruct (Rx.oneOf true Rx.ordinalSuffixes l6) as [[[i2 s2] l7]|] eqn:H7;
    [|discriminate].
  cbn [mbind option_bind].
  destruct (Rx.spaces1 l7) as [l8|] eqn:H8; [|discriminate].
  cbn [mbind option_bind].
  destruct (Rx.oneOf true Rx.weekdays l8) as [[[i3 m] l9]|] eqn:H9;
    [|discriminate].
  cbn [mbind option_bind].
  intros [= <- <- <-].
  apply digits_spec in H1, H6.
  destruct H1 as (E1 & N1 & D1). destruct H6 as (E6 & N6 & D6).
  apply oneOf_ci in H2, H7. destruct H2 as [E2 _]. destruct H7 as [E7 _].
  apply spaces1_suffix in H3, H5, H8.
  destruct H3 as [sp3 E3]. destruct H5 as [sp5 E5]. destruct H8 as [sp8 E8].
  apply literal_ci in H4. destruct H4 as [E4 _].
  assert (Hl8 : List.Forall (fun c => lowerChar c = c) l8).
  { pose proof (Forall_suffix _ _ _ _ Hlow E1) as L1.
    pose proof (Forall_suffix _ _ _ _ L1 E2) as L2.
    pose proof (Forall_suffix _ _ _ _ L2 E3) as L3.
    pose proof (Forall_suffix _ _ _ _ L3 E4) as L4.
    pose proof (Forall_suffix _ _ _ _ L4 E5) as L5.
    pose proof (Forall_suffix _ _ _ _ L5 E6) as L6.
    pose proof (Forall_suffix _ _ _ _ L6 E7) as L7.
    exact (Forall_suffix _ _ _ _ L7 E8). }
  split; [exact (oneOf_weekday_lowered _ _ _ _ Hl8 H9)|].
  rewrite !chars_ofChars. split; (split; [|assumption]).
  - intros Hempty. apply N1. apply (f_equal chars) in Hempty.
    now rewrite chars_ofChars in Hempty.
  - intros Hempty. apply N6. apply (f_equal chars) in Hempty.
    now rewrite chars_ofChars in Hempty.
Qed.

Lemma toLowerCase_toUpperCase (s : string) :
  toLowerCase (toUpperCase s) = toLowerCase s.
Proof.
  unfold toLowerCase, toUpperCase, onChars. rewrite chars_ofChars. f_equal.
  rewrite List.map_map. apply List.map_ext. apply lower_upper.
Qed.

Lemma toLowerCase_idempotent (s : string) :
  toLowerCase (toLowerCase s) = toLowerCase s.
Proof.
  unfold toLowerCase, onChars. rewrite chars_ofChars. f_equal.
  rewrite List.map_map. apply List.map_ext. apply lower_lower.
Qed.

(** X16. A recurrence pattern is always one of five shapes: "weekly:"
    followed by a weekday name in lower case, one of the three words
    "weekly", "monthly" and "daily" (all four only for a text that
    contains "every"), or "monthly:" followed by two numbers separated
    by a comma, a colon and a weekday name.  The pattern does not depend
    on the case of the text. *)
Theorem detectRecurringPattern_shapes (dateStr pattern : string) :
  DateParser.detectRecurringPattern dateStr = Some pattern ->
  let lower := toLowerCase dateStr in
  ((includes lower "every" = true /\
    ((exists day,
        List.In day Rx.weekdays /\ includes lower day = true /\
        pattern = "weekly:" +:+ day) \/
     (pattern = "weekly" /\ includes lower "week" = true) \/
     (pattern = "monthly" /\ includes lower "month" = true) \/
     (pattern = "daily" /\ includes lower "day" = true))) \/
   (exists first second day,
      List.In day Rx.weekdays /\
      (first <> "" /\ List.Forall (fun c => isDigit c = true) (chars first)) /\
      (second <> "" /\ List.Forall (fun c => isDigit c = true) (chars second)) /\
      pattern = "monthly:" +:+ first +:+ "," +:+ second +:+ ":" +:+ day)) /\
  DateParser.detectRecurringPattern (toUpperCase dateStr) = Some pattern /\
  DateParser.detectRecurringPattern (toLowerCase dateStr) = Some pattern.
Proof.
  intros Hp. cbv zeta. split; [|split].
  - revert Hp. unfold DateParser.detectRecurringPattern. cbv zeta.
    pose proof (lowered_toLowerCase dateStr) as Hlow.
    assert (Hordinal :
              match Rx.search DateParser.ordinalMatchAt (chars (toLowerCase dateStr)) with
              | Some (first, second, day) =>
                Some ("monthly:" +:+ first +:+ "," +:+ second +:+ ":" +:+ day)
              | None => None
              end = Some pattern ->
              exists first second day,
                List.In day Rx.weekdays /\
                (first <> "" /\
                 List.Forall (fun c => isDigit c = true) (chars first)) /\
                (second <> "" /\
                 List.Forall (fun c => isDigit c = true) (chars second)) /\
                pattern = "monthly:" +:+ first +:+ "," +:+ second +:+ ":" +:+ day).
    { destruct (Rx.search DateParser.ordinalMatchAt _) as [[[first second] day]|] eqn:Hs;
        [|discriminate].
      intros [= <-]. apply search_found in Hs. destruct Hs as (pre & suf & Htext & Hm).
      apply ordinalMatchAt_parts in Hm; [|exact (Forall_suffix _ _ _ _ Hlow Htext)].
      destruct Hm as (Hday & Hfirst & Hsecond).
      exists first, second, day. tauto. }
    destruct (includes (toLowerCase dateStr) "every") eqn:Hevery;
      [|intros Hp; right; now apply Hordinal].
    destruct (Rx.search (DateParser.everyMatchAt true) _) as [day|] eqn:Hs.
    + intros [= <-]. left. split; [reflexivity|]. left.
      apply search_found in Hs. destruct Hs as (pre & suf & Htext & Hm).
      apply everyMatchAt_weekday in Hm; [|exact (Forall_suffix _ _ _ _ Hlow Htext)].
      destruct Hm as (Hday & before & after & Hat).
      exists day. split; [exact Hday|]. split; [|reflexivity].
      rewrite <- (ofChars_chars day). eapply includes_found; eassumption.
    + destruct (includes (toLowerCase dateStr) "week") eqn:Hweek;
        [intros [= <-]; left; split; [reflexivity|]; right; left; now split|].
      destruct (includes (toLowerCase dateStr) "month") eqn:Hmonth;
        [intros [= <-]; left; split; [reflexivity|]; right; right; left; now split|].
      destruct (includes (toLowerCase dateStr) "day") eqn:Hdaily;
        [intros [= <-]; left; split; [reflexivity|]; right; right; right; now split|].
      intros Hp. right. now apply Hordinal.
  - rewrite <- Hp. unfold DateParser.detectRecurringPattern.
    now rewrite toLowerCase_toUpperCase.
  - rewrite <- Hp. unfold DateParser.detectRecurringPattern.
    now rewrite toLowerCase_idempotent.
Qed.

End RecurringFacts.

(* the date text of the sample record *)
Lemma detectRecurringPattern_shapes_sample :
  DateParser.detectRecurringPattern (JsString.toUpperCase "Every Thursday")
  = Some "weekly:thursday".
Proof.
  apply (detectRecurringPattern_shapes "Every Thursday" "weekly:thursday").
  vm_compute. reflexivity.
Defined.

(** * Dates written by the normaliser and read by the status manager *)

(** ** The calendar *)

Section CalendarFacts.
Import JsDate.

Lemma yearOfEra_range (doe : Z) :
  0 <= doe <= 146096 ->
  let yoe := (doe - doe / 1460 + doe / 36524 - doe / 146096) / 365 in
  let doy := doe - (365 * yoe + yoe / 4 - yoe / 100) in
  0 <= yoe <= 399 /\ 0 <= doy <= 365 /\
  (doy = 365 ->
   (yoe + 1) mod 400 = 0 \/ ((yoe + 1) mod 4 = 0 /\ (yoe + 1) mod 100 <> 0)).
Proof. intros H. cbv zeta. Z.div_mod_to_equations; lia. Qed.

Lemma monthOfYear_range (doy : Z) :
  0 <= doy <= 365 ->
  let mp := (5 * doy + 2) / 153 in
  let d := doy - (153 * mp + 2) / 5 + 1 in
  0 <= mp <= 11 /\ 1 <= d <= 31 /\
  (mp = 11 -> d <= 28 \/ (d = 29 /\ doy = 365)) /\
  (mp = 1 \/ mp = 3 \/ mp = 6 \/ mp = 8 -> d <= 30).
Proof. intros H. cbv zeta. Z.div_mod_to_equations; lia. Qed.

Lemma isLeapYear_shift (yoe era : Z) :
  (yoe + 1) mod 400 = 0 \/ ((yoe + 1) mod 4 = 0 /\ (yoe + 1) mod 100 <> 0) ->
  isLeapYear (yoe + era * 400 + 1) = true.
Proof.
  intros Hleap. unfold isLeapYear.
  assert (H400 : (yoe + era * 400 + 1) mod 400 = (yoe + 1) mod 400).
  { replace (yoe + era * 400 + 1) with (yoe + 1 + era * 400) by lia.
    apply Z.mod_add. lia. }
  assert (H100 : (yoe + era * 400 + 1) mod 100 = (yoe + 1) mod 100).
  { replace (yoe + era * 400 + 1) with (yoe + 1 + (era * 4) * 100) by lia.
    apply Z.mod_add. lia. }
  assert (H4 : (yoe + era * 400 + 1) mod 4 = (yoe + 1) mod 4).
  { replace (yoe + era * 400 + 1) with (yoe + 1 + (era * 100) * 4) by lia.
    apply Z.mod_add. lia. }
  rewrite H400, H100, H4.
  destruct Hleap as [->|[-> Hne]]; [reflexivity|].
  apply Z.eqb_neq in Hne. rewrite Hne. simpl. apply orb_true_r.
Qed.

(* the calendar date of a day number names that day, and is a date of
   the calendar *)
Lemma civil_roundtrip (z : Z) :
  let '(y, m, d) := civilFromDays z in
  daysFromCivil y m d = z /\ 1 <= m <= 12 /\ 1 <= d <= daysInMonth y (m - 1).
Proof.
  unfold civilFromDays, daysFromCivil. cbv zeta.
  set (z' := z + 719468).
  set (era := z' / 146097).
  set (doe := z' - era * 146097).
  assert (Hdoe : 0 <= doe <= 146096).
  { unfold doe, era. pose proof (Z.div_mod z' 146097 ltac:(lia)).
    pose proof (Z.mod_pos_bound z' 146097 ltac:(lia)). lia. }
  pose proof (yearOfEra_range doe Hdoe) as Hyoe. cbv zeta in Hyoe.
  set (yoe := (doe - doe / 1460 + doe / 36524 - doe / 146096) / 365) in *.
  set (doy := doe - (365 * yoe + yoe / 4 - yoe / 100)) in *.
  destruct Hyoe as (Hyoe & Hdoy & Hleap).
  pose proof (monthOfYear_range doy Hdoy) as Hmp. cbv zeta in Hmp.
  set (mp := (5 * doy + 2) / 153) in *.
  set (d := doy - (153 * mp + 2) / 5 + 1) in *.
  destruct Hmp as (Hmp & Hd & Hfeb & Hshort).
  assert (Hera : (yoe + era * 400) / 400 = era).
  { clearbody yoe era. clear - Hyoe. Z.div_mod_to_equations; lia. }
  destruct (Z.ltb_spec mp 10) as [Hlt|Hge].
  - destruct (Z.leb_spec (mp + 3) 2); [lia|].
    destruct (Z.ltb_spec 2 (mp + 3)); [|lia].
    rewrite Hera.
    replace (mp + 3 - 3) with mp by lia.
    replace (yoe + era * 400 - era * 400) with yoe by lia.
    split; [unfold d, doy, doe, z'; lia|]. split; [lia|]. split; [lia|].
    unfold daysInMonth.
    destruct (Z.eqb_spec (mp + 3 - 1) 1); [lia|].
    destruct (Z.eqb_spec (mp + 3 - 1) 3), (Z.eqb_spec (mp + 3 - 1) 5),
      (Z.eqb_spec (mp + 3 - 1) 8), (Z.eqb_spec (mp + 3 - 1) 10); simpl; lia.
  - destruct (Z.leb_spec (mp - 9) 2); [|lia].
    destruct (Z.ltb_spec 2 (mp - 9)); [lia|].
    replace (yoe + era * 400 + 1 - 1) with (yoe + era * 400) by lia.
    rewrite Hera.
    replace (mp - 9 + 9) with mp by lia.
    replace (yoe + era * 400 - era * 400) with yoe by lia.
    split; [unfold d, doy, doe, z'; lia|]. split; [lia|]. split; [lia|].
    unfold daysInMonth.
    destruct (Z.eqb_spec (mp - 9 - 1) 1) as [Hfebruary|Hjanuary].
    + assert (Hmp11 : mp = 11) by lia.
      destruct (Hfeb Hmp11) as [Hshortmonth|[Hd29 Hlast]].
      * destruct (isLeapYear _); lia.
      * rewrite (isLeapYear_shift yoe era (Hleap Hlast)). lia.
    + destruct (Z.eqb_spec (mp - 9 - 1) 3), (Z.eqb_spec (mp - 9 - 1) 5),
        (Z.eqb_spec (mp - 9 - 1) 8), (Z.eqb_spec (mp - 9 - 1) 10); simpl; lia.
Qed.

(* the fields of a time value name it, and are fields of the calendar
   and the clock *)
Lemma fieldsOfTime_sound (t : Z) :
  let f := fieldsOfTime t in
  timeOfFields f = t /\
  0 <= month f <= 11 /\ 1 <= day f <= daysInMonth (year f) (month f) /\
  0 <= hours f <= 23 /\ 0 <= minutes f <= 59 /\ 0 <= seconds f <= 59 /\
  0 <= milliseconds f <= 999.
Proof.
  cbv zeta. unfold fieldsOfTime, timeOfFields.
  pose proof (civil_roundtrip (t / msPerDay)) as Hcivil.
  destruct (civilFromDays (t / msPerDay)) as [[y m] d]. simpl.
  destruct Hcivil as (Hdays & Hm & Hd).
  replace ((m - 1) / 12) with 0 by (Z.div_mod_to_equations; lia).
  replace ((m - 1) mod 12 + 1) with m by (Z.div_mod_to_equations; lia).
  rewrite Z.add_0_r, Hdays.
  pose proof (Z.div_mod t msPerDay ltac:(discriminate)) as Hsplit.
  pose proof (Z.mod_pos_bound t msPerDay eq_refl) as Hrest.
  set (rest := t mod msPerDay) in *. set (days := t / msPerDay) in *.
  clearbody rest days. unfold msPerDay, msPerHour, msPerMinute in *.
  split; [Z.div_mod_to_equations; lia|].
  split; [lia|]. split; [exact Hd|].
  repeat split; Z.div_mod_to_equations; lia.
Qed.

Lemma daysFromCivil_year_start (y m d : Z) :
  1 <= m <= 12 -> 1 <= d -> daysFromCivil y 1 1 <= daysFromCivil y m d.
Proof.
  intros Hm Hd. unfold daysFromCivil. cbv zeta.
  change (1 <=? 2) with true. change (2 <? 1) with false. cbv iota.
  destruct (Z.leb_spec m 2); destruct (Z.ltb_spec 2 m); try lia;
    Z.div_mod_to_equations; lia.
Qed.

Lemma daysFromCivil_year_end (y m d : Z) :
  1 <= m <= 12 -> 1 <= d <= 31 -> daysFromCivil y m d < daysFromCivil (y + 1) 1 1.
Proof.
  intros Hm Hd. unfold daysFromCivil. cbv zeta.
  change (1 <=? 2) with true. change (2 <? 1) with false. cbv iota.
  replace (y + 1 - 1) with y by lia.
  destruct (Z.leb_spec m 2); destruct (Z.ltb_spec 2 m); try lia;
    Z.div_mod_to_equations; lia.
Qed.

Lemma daysInMonth_le_31 (y month : Z) : daysInMonth y month <= 31.
Proof.
  unfold daysInMonth. destruct (month =? 1); [destruct (isLeapYear y); lia|].
  destruct ((month =? 3) || (month =? 5) || (month =? 8) || (month =? 10))%bool; lia.
Qed.

(* a date moved into the year after that of an instant lies after the
   instant *)
Lemma year_end_after (instant : Z) :
  instant < daysFromCivil (year (fieldsOfTime instant) + 1) 1 1 * msPerDay.
Proof.
  unfold fieldsOfTime.
  pose proof (civil_roundtrip (instant / msPerDay)) as Hcivil.
  destruct (civilFromDays (instant / msPerDay)) as [[y m] d].
  cbn [year]. destruct Hcivil as (Hdays & Hm & Hd).
  pose proof (daysInMonth_le_31 y (m - 1)) as Hdim.
  pose proof (daysFromCivil_year_end y m d Hm ltac:(lia)) as Hend.
  pose proof (Z.div_mod instant msPerDay ltac:(discriminate)) as Hsplit.
  pose proof (Z.mod_pos_bound instant msPerDay eq_refl) as Hrest.
  rewrite Hdays in Hend. unfold msPerDay in *. nia.
Qed.

(* a date moved into the year after that of an instant lies after the
   instant *)
Lemma setFullYear_next_year (h : Host) (instant parsed : Z) :
  instant < setFullYear h parsed (getFullYear h instant + 1).
Proof.
  unfold setFullYear, getFullYear, ofLocalFields, localFields. cbv zeta.
  pose proof (fieldsOfTime_sound (parsed + offsetMs h)) as Hp. cbv zeta in Hp.
  destruct Hp as (_ & Hmonth & Hday & Hhours & Hminutes & Hseconds & Hms).
  pose proof (year_end_after (instant + offsetMs h)) as Hend.
  set (f := fieldsOfTime (parsed + offsetMs h)) in *.
  set (Y := year (fieldsOfTime (instant + offsetMs h))) in *.
  unfold timeOfFields. cbn [year month day hours minutes seconds milliseconds].
  replace (month f / 12) with 0 by (Z.div_mod_to_equations; lia).
  replace (month f mod 12 + 1) with (month f + 1) by (Z.div_mod_to_equations; lia).
  rewrite Z.add_0_r.
  pose proof (daysFromCivil_year_start (Y + 1) (month f + 1) (day f)
                ltac:(lia) ltac:(lia)) as Hstart.
  unfold msPerDay, msPerHour, msPerMinute in *. nia.
Qed.

End CalendarFacts.

(** ** Decimal fields *)

Section DigitFacts.
Import JsString.

Lemma code_digitChar (d : Z) :
  0 <= d <= 9 -> Z.of_N (code (JsNumber.digitChar d)) - 48 = d.
Proof.
  intros Hd. unfold JsNumber.digitChar, code.
  rewrite N_ascii_embedding by lia. lia.
Qed.

Lemma isDigit_digitChar (d : Z) : 0 <= d <= 9 -> isDigit (JsNumber.digitChar d) = true.
Proof.
  intros Hd. unfold isDigit, inRange, JsNumber.digitChar, code.
  rewrite N_ascii_embedding by lia.
  apply andb_true_iff. split; apply N.leb_le; lia.
Qed.

Lemma padded_length (width : nat) (n : Z) :
  List.length (JsNumber.padded width n) = width.
Proof.
  revert n. induction width as [|w IH]; intros n; simpl; [reflexivity|].
  rewrite List.length_app, IH. simpl. lia.
Qed.

Lemma padded_digits (width : nat) (n : Z) :
  List.Forall (fun c => isDigit c = true) (JsNumber.padded width n).
Proof.
  revert n. induction width as [|w IH]; intros n; simpl; [constructor|].
  apply List.Forall_app. split; [apply IH|]. constructor; [|constructor].
  apply isDigit_digitChar. pose proof (Z.mod_pos_bound n 10 eq_refl). lia.
Qed.

Lemma parseDigits_snoc (l : list ascii) (c : ascii) :
  JsNumber.parseDigits (l ++ [c])
  = JsNumber.parseDigits l * 10 + (Z.of_N (code c) - 48).
Proof. unfold JsNumber.parseDigits. now rewrite List.fold_left_app. Qed.

Lemma parseDigits_padded (width : nat) (n : Z) :
  JsNumber.parseDigits (JsNumber.padded width n) = n mod 10 ^ Z.of_nat width.
Proof.
  revert n. induction width as [|w IH]; intros n.
  - simpl. now rewrite Z.mod_1_r.
  - cbn [JsNumber.padded]. rewrite parseDigits_snoc, IH.
    rewrite code_digitChar by (pose proof (Z.mod_pos_bound n 10 eq_refl); lia).
    rewrite Nat2Z.inj_succ, Z.pow_succ_r by lia.
    rewrite (Z.rem_mul_r n 10 (10 ^ Z.of_nat w)) by lia. lia.
Qed.

Lemma takeDigits_app (ds rest : list ascii) :
  List.Forall (fun c => isDigit c = true) ds ->
  JsDate.takeDigits (List.length ds) (ds ++ rest) = Some (ds, rest).
Proof.
  induction 1 as [|c ds Hc _ IH]; simpl; [reflexivity|].
  now rewrite Hc, IH.
Qed.

Lemma number_padded (width : nat) (n : Z) (rest : list ascii) :
  0 <= n < 10 ^ Z.of_nat width ->
  JsDate.number width (JsNumber.padded width n ++ rest) = Some (n, rest).
Proof.
  intros Hn. unfold JsDate.number.
  rewrite <- (padded_length width n) at 1.
  rewrite takeDigits_app by apply padded_digits.
  rewrite parseDigits_padded. now rewrite Z.mod_small.
Qed.

Lemma number_padded2 (n : Z) (rest : list ascii) :
  0 <= n <= 99 -> JsDate.number 2 (JsNumber.padded 2 n ++ rest) = Some (n, rest).
Proof. intros Hn. apply number_padded. change (10 ^ Z.of_nat 2) with 100. lia. Qed.

Lemma number_padded3 (n : Z) (rest : list ascii) :
  0 <= n <= 999 -> JsDate.number 3 (JsNumber.padded 3 n ++ rest) = Some (n, rest).
Proof. intros Hn. apply number_padded. change (10 ^ Z.of_nat 3) with 1000. lia. Qed.

Lemma number_padded4 (n : Z) (rest : list ascii) :
  0 <= n <= 9999 -> JsDate.number 4 (JsNumber.padded 4 n ++ rest) = Some (n, rest).
Proof. intros Hn. apply number_padded. change (10 ^ Z.of_nat 4) with 10000. lia. Qed.

End DigitFacts.

(** ** Reading an ISO string back *)

Section IsoFacts.
Import JsString JsDate.

(* the years that toISOString writes with four digits *)
Lemma ofISOString_toISOString (t : Z) :
  0 <= year (fieldsOfTime t) <= 9999 ->
  ofISOString (toISOString t) = Valid t.
Proof.
  intros Hyear. pose proof (fieldsOfTime_sound t) as Hf. cbv zeta in Hf.
  destruct Hf as (Htime & Hmonth & Hday & Hhours & Hminutes & Hseconds & Hms).
  unfold ofISOString, toISOString, showYear, pad. cbv zeta.
  set (f := fieldsOfTime t) in *.
  replace ((0 <=? year f) && (year f <=? 9999))%bool with true
    by (symmetry; apply andb_true_iff; split; apply Z.leb_le; lia).
  rewrite !chars_append, !chars_ofChars.
  assert (Hdim : day f <= 31).
  { destruct Hday as [_ Hday]. unfold daysInMonth in Hday.
    destruct (month f =? 1); [destruct (isLeapYear (year f)); lia|].
    destruct ((month f =? 3) || (month f =? 5) || (month f =? 8) || (month f =? 10))%bool;
      lia. }
  rewrite number_padded4 by lia. cbn [mbind option_bind].
  simpl chars. cbn [app expect]. rewrite Ascii.eqb_refl.
  cbn [mbind option_bind].
  rewrite number_padded2 by lia. cbn [mbind option_bind].
  cbn [app expect]. rewrite Ascii.eqb_refl. cbn [mbind option_bind].
  rewrite number_padded2 by lia. cbn [mbind option_bind].
  cbn [app expect]. rewrite Ascii.eqb_refl. cbn [mbind option_bind].
  rewrite number_padded2 by lia. cbn [mbind option_bind].
  cbn [app expect]. rewrite Ascii.eqb_refl. cbn [mbind option_bind].
  rewrite number_padded2 by lia. cbn [mbind option_bind].
  cbn [app expect]. rewrite Ascii.eqb_refl. cbn [mbind option_bind].
  rewrite number_padded2 by lia. cbn [mbind option_bind].
  cbn [app expect]. rewrite Ascii.eqb_refl. cbn [mbind option_bind].
  rewrite <- (List.app_nil_r (JsNumber.padded 3 (milliseconds f) ++ ["Z"%char])).
  rewrite <- List.app_assoc.
  rewrite number_padded3 by lia. cbn [mbind option_bind].
  cbn [app expect]. rewrite Ascii.eqb_refl. cbn [mbind option_bind].
  replace (month f + 1 - 1) with (month f) by lia.
  replace (_ && _)%bool with true.
  - f_equal. rewrite <- Htime. now destruct f.
  - symmetry. repeat (apply andb_true_iff; split); try reflexivity;
      apply Z.leb_le; lia.
Qed.

End IsoFacts.

(** ** From the normaliser to the status manager *)

Section PipelineFacts.
Import JsString JsDate EventNormalizer VenueStatusManager.

(** X19. The date string that the normaliser stores reads back, in the
    status manager, as the very instant that the date parser returned
    (for the years that are written with four digits).  So a normalised
    event is never skipped as undated: it counts as a future event
    exactly when that instant is not before the start of the day of the
    scrape, and alone in a batch it is the last event, under its own
    date string. *)
Theorem normalized_event_is_counted (h : Host) (rawData : RawEventData.t)
    (venue : VenueInfo.t) (source : string) (event : Event.t) (t : Z) :
  fst (normalizeEvent h rawData venue source) = Some event ->
  fst (DateParser.parseDate h (orEmpty (RawEventData.date rawData)) None)
    = Some (Valid t) ->
  0 <= year (fieldsOfTime t) <= 9999 ->
  ofISOString (Event.date event) = Valid t /\
  (forall host asOfDate,
     filterFutureEvents ofISOString host [event] asOfDate
     = if startOfDay host asOfDate <=? t then [event] else []) /\
  findLastEventDate ofISOString [event] = Some (Event.date event).
Proof.
  intros Hsome Hparse Hyear. apply normalizeEvent_some in Hsome.
  destruct Hsome as (_ & _ & _ & t' & Hparse' & Hevent).
  rewrite Hparse' in Hparse. injection Hparse as ->.
  assert (Hdate : Event.date event = JsDate.toISOString t) by now rewrite Hevent.
  assert (Hread : ofISOString (Event.date event) = Valid t).
  { rewrite Hdate. now apply ofISOString_toISOString. }
  split; [exact Hread|]. split.
  - intros host asOfDate. unfold filterFutureEvents. cbv zeta. simpl List.filter.
    rewrite Hread. simpl. now destruct (startOfDay host asOfDate <=? t).
  - unfold findLastEventDate. simpl. rewrite Hread. simpl.
    unfold maxTime. simpl. now rewrite Hdate.
Qed.

Lemma validTimes_all (events : list Event.t) :
  (forall e, List.In e events ->
     exists t, Event.date e = JsDate.toISOString t /\ 0 <= year (fieldsOfTime t) <= 9999) ->
  forall e, List.In e events ->
    exists t, ofISOString (Event.date e) = Valid t /\ Event.date e = JsDate.toISOString t.
Proof.
  intros Hdated e Hin. destruct (Hdated e Hin) as (t & Hdate & Hyear).
  exists t. split; [|exact Hdate]. rewrite Hdate. now apply ofISOString_toISOString.
Qed.

(* the last event of a batch of dated events *)
Lemma latest_of_dated_batch (events : list Event.t) :
  events <> [] ->
  (forall e, List.In e events ->
     exists t, Event.date e = JsDate.toISOString t /\
               0 <= year (fieldsOfTime t) <= 9999) ->
  exists latest t,
    List.In latest events /\
    findLastEventDate ofISOString events = Some (Event.date latest) /\
    Event.date latest = JsDate.toISOString t /\
    ofISOString (Event.date latest) = Valid t /\
    (forall e, List.In e events ->
       exists t', ofISOString (Event.date e) = Valid t' /\ t' <= t).
Proof.
  intros Hne Hdated.
  pose proof (validTimes_all events Hdated) as Hread.
  unfold findLastEventDate.
  destruct events as [|first rest]; [now elim Hne|].
  set (events := first :: rest) in *.
  destruct (Hread first (or_introl eq_refl)) as (t0 & Ht0 & _).
  assert (Hin0 : List.In t0 (validTimes
                   (List.map (fun e => ofISOString (Event.date e)) events))).
  { apply validTimes_In. exists first. split; [now left|exact Ht0]. }
  destruct (validTimes _) as [|tfirst trest] eqn:Hv; [contradiction|].
  destruct (maxTime_greatest tfirst trest) as [Hmem Hmax].
  rewrite <- Hv in Hmem, Hmax. clear Hin0.
  apply validTimes_In in Hmem. destruct Hmem as (latest & Hlatest & Hread_latest).
  exists latest, (maxTime tfirst trest).
  destruct (Hread latest Hlatest) as (tl & Htl & Hdate).
  rewrite Htl in Hread_latest. injection Hread_latest as Heq.
  split; [exact Hlatest|]. split; [now rewrite Hdate, Heq|].
  split; [now rewrite Hdate, Heq|].
  split; [now rewrite Htl, Heq|].
  intros e He. destruct (Hread e He) as (t' & Ht' & _). exists t'.
  split; [exact Ht'|]. apply Hmax. apply validTimes_In. now exists e.
Qed.

(** X20. When every event of a scraped batch carries a date string
    written by toISOString, as the normaliser's events do, the last
    event date that a scrape records is the date string of one of the
    events of the batch, unchanged, and no event of the batch is later;
    the venue is recorded as having future events exactly when that
    latest event is not before the start of the day of the scrape. *)
Theorem lastEventDate_is_a_batch_date (host : Host)
    (disk : option VenueStatusFile.t) (st : State)
    (venueId venueName : string) (events : list Event.t) (scrapeDate : Z) :
  events <> [] ->
  (forall e, List.In e events ->
     exists t, Event.date e = JsDate.toISOString t /\
               0 <= year (fieldsOfTime t) <= 9999) ->
  let status :=
    snd (recordScrape ofISOString host disk st venueId venueName events scrapeDate) in
  exists latest t,
    List.In latest events /\
    VenueStatus.lastEventDate status = Some (Event.date latest) /\
    ofISOString (Event.date latest) = Valid t /\
    (forall e, List.In e events ->
       exists t', ofISOString (Event.date e) = Valid t' /\ t' <= t) /\
    (VenueStatus.hasFutureEvents status = true <-> startOfDay host scrapeDate <= t).
Proof.
  intros Hne Hdated. cbv zeta.
  destruct (latest_of_dated_batch events Hne Hdated)
    as (latest & t & Hlatest & Hlast & _ & Hread & Hmax).
  exists latest, t.
  unfold recordScrape. rewrite updateVenueStatus_lastEventDate,
    updateVenueStatus_hasFutureEvents.
  split; [exact Hlatest|]. split; [exact Hlast|]. split; [exact Hread|].
  split; [exact Hmax|].
  rewrite filterFutureEvents_nonempty. split.
  - intros (e & t' & He & Ht' & Hle).
    destruct (Hmax e He) as (t'' & Ht'' & Hle'').
    rewrite Ht' in Ht''. injection Ht'' as <-. lia.
  - intros Hle. now exists latest, t.
Qed.

End PipelineFacts.

(** ** Where a parsed date comes from *)

Section ProvenanceFacts.
Import JsString JsDate.

Variable h : Host.

Lemma tryFormats_not_before_clock (text : string) (reference : Z)
    (formats : list string) (t : Z) :
  DateParser.tryFormats h text reference formats = Some (Valid t) ->
  DateParser.hasFourDigits text = false ->
  now h <= t.
Proof.
  intros Htry Hyearless. induction formats as [|fmt formats IH]; [discriminate|].
  simpl in Htry. destruct (DateFns.parse h text fmt reference) as [parsed|];
    [|now apply IH].
  rewrite Hyearless in Htry. simpl in Htry.
  destruct (Z.ltb_spec parsed (now h)) as [Hpast|Hfuture].
  - injection Htry as <-.
    pose proof (setFullYear_next_year h (now h) parsed). lia.
  - injection Htry as <-. exact Hfuture.
Qed.

Lemma lookup_range (name : string) (day : Z) :
  DateParser.lookup name DateParser.DAY_NAMES = Some day -> 0 <= day <= 6.
Proof.
  unfold DateParser.DAY_NAMES. simpl.
  repeat (destruct (String.eqb name _); [intros [= <-]; lia|]). discriminate.
Qed.

Lemma nextDay_later (t day : Z) : 0 <= day <= 6 -> t < DateFns.nextDay h t day.
Proof.
  intros Hday. unfold DateFns.nextDay, DateFns.addDays. cbv zeta.
  assert (Hg : 0 <= getDay h t < 7) by (apply Z.mod_pos_bound; lia).
  unfold msPerDay. destruct (day - getDay h t <=? 0) eqn:Hle; lia.
Qed.

Lemma parseRelativeDate_not_before (text : string) (reference t : Z) :
  DateParser.parseRelativeDate h text reference = Some (Valid t) -> reference <= t.
Proof.
  unfold DateParser.parseRelativeDate. cbv zeta.
  destruct (String.eqb _ "today"); [intros [= <-]; lia|].
  destruct (String.eqb _ "tomorrow");
    [intros [= <-]; unfold DateFns.addDays, msPerDay; lia|].
  destruct (Rx.search DateParser.dayMatchAt _) as [[qualifier name]|].
  - destruct (DateParser.lookup name DateParser.DAY_NAMES) as [day|] eqn:Hl.
    + pose proof (nextDay_later reference day (lookup_range _ _ Hl)) as Hnext.
      destruct (match qualifier with Some q => String.eqb q "next" | None => false end);
        intros [= <-]; unfold DateFns.addWeeks, DateFns.addDays, msPerDay; lia.
    + destruct (Rx.search (DateParser.everyMatchAt false) _) as [name'|];
        [|discriminate].
      destruct (DateParser.lookup name' DateParser.DAY_NAMES) as [day|] eqn:Hl';
        [|discriminate].
      pose proof (nextDay_later reference day (lookup_range _ _ Hl')) as Hnext.
      intros [= <-]. lia.
  - destruct (Rx.search (DateParser.everyMatchAt false) _) as [name'|];
      [|discriminate].
    destruct (DateParser.lookup name' DateParser.DAY_NAMES) as [day|] eqn:Hl';
      [|discriminate].
    pose proof (nextDay_later reference day (lookup_range _ _ Hl')) as Hnext.
    intros [= <-]. lia.
Qed.

(** X24. parseDate never returns an invalid date, and it logs exactly
    when it fails on a text that is not empty: one warning that quotes
    the text.  A date that it returns was read in one of three ways: as
    an ISO date; by one of the formats, and then, when the cleaned text
    has no run of four digits, it is never before the clock, whatever
    the reference date is; or as a relative date, and then it is never
    before the reference. *)
Theorem parseDate_provenance (dateStr : string) (referenceDate : option Z) :
  let cleaned := DateParser.cleanDateString dateStr in
  let reference := match referenceDate with Some r => r | None => now h end in
  match fst (DateParser.parseDate h dateStr referenceDate) with
  | None =>
    snd (DateParser.parseDate h dateStr referenceDate)
    = if String.eqb dateStr "" then []
      else [(warn, "Could not parse date: " +:+ quote +:+ dateStr +:+ quote)]
  | Some d =>
    snd (DateParser.parseDate h dateStr referenceDate) = [] /\
    exists t,
      d = Valid t /\
      (DateFns.parseISO h cleaned = Valid t \/
       (DateFns.parseISO h cleaned = Invalid /\
        DateParser.tryFormats h cleaned reference DateParser.DATE_FORMATS
          = Some (Valid t) /\
        (DateParser.hasFourDigits cleaned = false -> now h <= t)) \/
       (DateFns.parseISO h cleaned = Invalid /\
        DateParser.tryFormats h cleaned reference DateParser.DATE_FORMATS = None /\
        DateParser.parseRelativeDate h cleaned reference = Some (Valid t) /\
        reference <= t))
  end.
Proof.
  cbv zeta. unfold DateParser.parseDate.
  destruct (String.eqb dateStr ""); [reflexivity|]. cbv zeta.
  set (cleaned := DateParser.cleanDateString dateStr).
  set (reference := match referenceDate with Some r => r | None => now h end).
  destruct (DateFns.parseISO h cleaned) as [iso|] eqn:Hiso; simpl DateFns.isValid;
    cbv iota.
  { cbn [fst snd]. split; [reflexivity|]. exists iso. split; [reflexivity|now left]. }
  destruct (DateParser.tryFormats h cleaned reference DateParser.DATE_FORMATS)
    as [d|] eqn:Hformats.
  { cbn [fst snd]. split; [reflexivity|].
    destruct (tryFormats_valid _ _ _ _ _ Hformats) as [t ->].
    exists t. split; [reflexivity|]. right. left.
    split; [reflexivity|]. split; [reflexivity|].
    now apply (tryFormats_not_before_clock cleaned reference DateParser.DATE_FORMATS). }
  destruct (DateParser.parseRelativeDate h cleaned reference) as [d|] eqn:Hrelative.
  { cbn [fst snd]. split; [reflexivity|].
    destruct (parseRelativeDate_valid _ _ _ _ Hrelative) as [t ->].
    exists t. split; [reflexivity|]. right. right.
    split; [reflexivity|]. split; [reflexivity|]. split; [reflexivity|].
    now apply (parseRelativeDate_not_before cleaned). }
  reflexivity.
Qed.

End ProvenanceFacts.

(* the sample record, normalised on the Pacific coast on a Tuesday *)
Lemma normalized_event_is_counted_sample :
  exists event,
    fst (EventNormalizer.normalizeEvent
           (Samples.pacificAt "2026-11-03T20:00:00.000Z")
           Samples.triviaNight Samples.crookedLane "crooked-lane") = Some event /\
    JsDate.ofISOString (Event.date event)
    = JsDate.Valid (JsDate.timeOf "2026-11-05T20:00:00.000Z").
Proof.
  eexists. split; [vm_compute; reflexivity|].
  apply (normalized_event_is_counted
           (Samples.pacificAt "2026-11-03T20:00:00.000Z")
           Samples.triviaNight Samples.crookedLane "crooked-lane").
  - vm_compute. reflexivity.
  - vm_compute. reflexivity.
  - vm_compute. split; discriminate.
Defined.

(* two trivia nights, the later one first *)
Lemma lastEventDate_is_a_batch_date_sample :
  exists latest t,
    List.In latest [Samples.triviaEvent "2025-06-05T19:00:00.000Z";
                    Samples.triviaEvent "2025-05-29T19:00:00.000Z"] /\
    VenueStatus.lastEventDate
      (snd (VenueStatusManager.recordScrape JsDate.ofISOString
              (Samples.utcAt "2025-06-01T12:00:00.000Z") None
              (Some Samples.statusFile) "crooked-lane" "Crooked Lane"
              [Samples.triviaEvent "2025-06-05T19:00:00.000Z";
               Samples.triviaEvent "2025-05-29T19:00:00.000Z"]
              (JsDate.timeOf "2025-06-01T12:00:00.000Z")))
    = Some (Event.date latest) /\
    JsDate.ofISOString (Event.date latest) = JsDate.Valid t.
Proof.
  destruct (lastEventDate_is_a_batch_date
              (Samples.utcAt "2025-06-01T12:00:00.000Z") None
              (Some Samples.statusFile) "crooked-lane" "Crooked Lane"
              [Samples.triviaEvent "2025-06-05T19:00:00.000Z";
               Samples.triviaEvent "2025-05-29T19:00:00.000Z"]
              (JsDate.timeOf "2025-06-01T12:00:00.000Z"))
    as (latest & t & Hin & Hlast & Hread & _).
  - discriminate.
  - intros e [<-|[<-|[]]].
    + exists (JsDate.timeOf "2025-06-05T19:00:00.000Z").
      split; [vm_compute; reflexivity|vm_compute; split; discriminate].
    + exists (JsDate.timeOf "2025-05-29T19:00:00.000Z").
      split; [vm_compute; reflexivity|vm_compute; split; discriminate].
  - exists latest, t. split; [exact Hin|]. split; [exact Hlast|exact Hread].
Defined.

(** * The scraper's loop over the raw events *)

Section ScraperFacts.
Import JsString EventNormalizer BaseScraper.

Lemma normalizeEvent_log_warns (h : Host) (rawData : RawEventData.t)
    (venue : VenueInfo.t) (source : string) :
  List.Forall (fun entry => fst entry = warn)
    (snd (normalizeEvent h rawData venue source)).
Proof.
  destruct (fst (normalizeEvent h rawData venue source)) as [event|] eqn:Hresult.
  - apply normalizeEvent_some in Hresult. destruct Hresult as (_ & _ & -> & _).
    constructor.
  - revert Hresult. unfold normalizeEvent.
    pose proof (normalizeBody_completes h rawData venue source) as [result Hbody].
    destruct (normalizeBody h rawData venue source) as [[result'|e] log] eqn:Hb;
      [|discriminate].
    simpl. intros ->. revert Hb. unfold normalizeBody.
    destruct (negb (truthy (RawEventData.title rawData)));
      [intros [= <-]; repeat constructor|].
    destruct (truthy (RawEventData.date rawData)).
    + unfold DateParser.parseDate.
      destruct (String.eqb _ ""); [intros [= <-]; repeat constructor|]. cbv zeta.
      destruct (DateFns.isValid _) eqn:Hiso.
      { destruct (DateFns.parseISO _ _); [|discriminate].
        simpl. discriminate. }
      destruct (DateParser.tryFormats _ _ _ _) as [d|] eqn:Hf.
      { destruct (tryFormats_valid _ _ _ _ _ Hf) as [t ->]. simpl. discriminate. }
      destruct (DateParser.parseRelativeDate _ _ _) as [d|] eqn:Hr.
      { destruct (parseRelativeDate_valid _ _ _ _ Hr) as [t ->]. simpl. discriminate. }
      intros [= <-]. repeat constructor.
    + intros [= <-]. repeat constructor.
Qed.

(* a record with a title and a date that parses becomes an event *)
Lemma normalizeEvent_returns (h : Host) (rawData : RawEventData.t)
    (venue : VenueInfo.t) (source : string) (t : Z) :
  truthy (RawEventData.title rawData) = true ->
  truthy (RawEventData.date rawData) = true ->
  fst (DateParser.parseDate h (orEmpty (RawEventData.date rawData)) None)
    = Some (JsDate.Valid t) ->
  exists event,
    fst (normalizeEvent h rawData venue source) = Some event /\
    Event.date event = JsDate.toISOString t.
Proof.
  intros Htitle Hdate Hparse. unfold normalizeEvent, normalizeBody.
  rewrite Htitle, Hdate. simpl negb. cbv iota.
  destruct (DateParser.parseDate h (orEmpty (RawEventData.date rawData)) None)
    as [d log]. simpl in Hparse. subst d. simpl.
  eexists. split; reflexivity.
Qed.

(* the events of the loop are the records that normalise, each with the
   host of its turn *)
Lemma normalizeAll_events (hostAt : nat -> Host) (index : nat)
    (rawEvents : list RawEventData.t) (venue : VenueInfo.t) (source : string)
    (event : Event.t) :
  List.In event (fst (fst (normalizeAll hostAt index rawEvents venue source))) <->
  exists i rawEvent,
    List.nth_error rawEvents i = Some rawEvent /\
    fst (normalizeEvent (hostAt (index + i)%nat) rawEvent venue source) = Some event.
Proof.
  revert index. induction rawEvents as [|rawEvent rest IH]; intros index.
  - simpl. split; [contradiction|]. intros (i & raw & Hnth & _).
    now destruct i.
  - cbn [normalizeAll]. specialize (IH (S index)).
    destruct (normalizeEvent (hostAt index) rawEvent venue source)
      as [[first|] log] eqn:Hone;
      destruct (normalizeAll hostAt (S index) rest venue source)
        as [[events warnings] logs]; simpl in IH |- *.
    + split.
      * intros [<-|Hin].
        -- exists 0%nat, rawEvent. split; [reflexivity|].
           now rewrite Nat.add_0_r, Hone.
        -- apply IH in Hin. destruct Hin as (i & raw & Hnth & Hsome).
           exists (S i), raw. split; [exact Hnth|].
           now rewrite Nat.add_succ_r.
      * intros (i & raw & Hnth & Hsome). destruct i as [|i].
        -- simpl in Hnth. injection Hnth as <-.
           rewrite Nat.add_0_r, Hone in Hsome. left. now injection Hsome.
        -- right. apply IH. exists i, raw. split; [exact Hnth|].
           now rewrite Nat.add_succ_r in Hsome.
    + split.
      * intros Hin. apply IH in Hin. destruct Hin as (i & raw & Hnth & Hsome).
        exists (S i), raw. split; [exact Hnth|]. now rewrite Nat.add_succ_r.
      * intros (i & raw & Hnth & Hsome). destruct i as [|i].
        -- simpl in Hnth. injection Hnth as <-.
           rewrite Nat.add_0_r, Hone in Hsome. discriminate.
        -- apply IH. exists i, raw. split; [exact Hnth|].
           now rewrite Nat.add_succ_r in Hsome.
Qed.

(** X21. The scraper accounts for every raw record: each one becomes
    either one event or one warning, so the events and the warnings
    together are as many as the records.  Every event carries the venue
    and the source of the scraper, a date written by toISOString, an
    identifier that can be recomputed from its stored fields and a
    confidence of at least 0.65; every warning names the title of a
    record that could not be normalised; and nothing is logged above
    the level of a warning. *)
Theorem scrape_accounts_for_every_record (hostAt : nat -> Host) (index : nat)
    (rawEvents : list RawEventData.t) (venue : VenueInfo.t) (source : string) :
  let events := fst (fst (normalizeAll hostAt index rawEvents venue source)) in
  let warnings := snd (fst (normalizeAll hostAt index rawEvents venue source)) in
  let log := snd (normalizeAll hostAt index rawEvents venue source) in
  (List.length events + List.length warnings = List.length rawEvents)%nat /\
  List.Forall
    (fun event =>
       Event.venue event = venue /\ Event.source event = source /\
       (exists t, Event.date event = JsDate.toISOString t) /\
       Event.id event =
         generateEventId (Event.title event) (Event.date event)
           (VenueInfo.name venue) /\
       ((13 # 20) <= Event.confidence event <= 1)%Q)
    events /\
  List.Forall
    (fun warning =>
       exists rawEvent h,
         List.In rawEvent rawEvents /\ warning = warningFor rawEvent /\
         fst (normalizeEvent h rawEvent venue source) = None)
    warnings /\
  List.Forall (fun entry => fst entry = warn) log /\
  (warnings = [] <-> List.length events = List.length rawEvents).
Proof.
  cbv zeta. revert index.
  induction rawEvents as [|rawEvent rest IH]; intros index.
  - simpl. repeat split; constructor.
  - cbn [normalizeAll].
    pose proof (normalizeEvent_log_warns (hostAt index) rawEvent venue source) as Hlog.
    destruct (normalizeEvent (hostAt index) rawEvent venue source)
      as [[event|] log] eqn:Hone;
      specialize (IH (S index));
      destruct (normalizeAll hostAt (S index) rest venue source)
        as [[events warnings] logs];
      simpl in IH, Hlog |- *;
      destruct IH as (Hcount & Hevents & Hwarnings & Hlogs & Hnone).
    + assert (Hsome : fst (normalizeEvent (hostAt index) rawEvent venue source)
                      = Some event) by now rewrite Hone.
      pose proof (normalizeEvent_some _ _ _ _ _ Hsome)
        as (_ & Hdate & _ & t & _ & Hevent).
      split; [lia|]. split; [|split; [|split]].
      * constructor; [|exact Hevents]. rewrite Hevent. simpl.
        split; [reflexivity|]. split; [reflexivity|]. split; [now exists t|].
        split.
        -- unfold generateEventId, hashInput. cbv zeta.
           now rewrite alnumOnly_normalizeTitle.
        -- now apply calculateConfidence_dated.
      * eapply List.Forall_impl; [|exact Hwarnings].
        intros w (raw & h & Hin & Hw & Hdrop). exists raw, h.
        split; [now right|]. now split.
      * apply List.Forall_app. now split.
      * split; [intros Hw; f_equal; now apply Hnone|].
        intros Hlen. apply Hnone. lia.
    + split; [lia|]. split; [exact Hevents|]. split; [|split].
      * constructor.
        -- exists rawEvent, (hostAt index). split; [now left|].
           split; [reflexivity|]. now rewrite Hone.
        -- eapply List.Forall_impl; [|exact Hwarnings].
           intros w (raw & h & Hin & Hw & Hdrop). exists raw, h.
           split; [now right|]. now split.
      * apply List.Forall_app. now split.
      * split; [discriminate|]. intros Hlen. exfalso. lia.
Qed.

End ScraperFacts.

(** * What every recorded status satisfies *)

Section RunFacts.
Import JsString VenueStatusManager ScrapeRuns.

Variable dateOfString : string -> JsDate.t.

Lemma findLastEventDate_truthy (host : Host) (events : list Event.t)
    (asOfDate : Z) :
  (0 <? Z.of_nat (List.length (filterFutureEvents dateOfString host events asOfDate)))
    = true ->
  truthy (findLastEventDate dateOfString events) = true.
Proof.
  intros Hfuture. apply filterFutureEvents_nonempty in Hfuture.
  destruct Hfuture as (e & t & Hin & Hdate & _).
  assert (Ht : List.In t (validTimes
                 (List.map (fun e => dateOfString (Event.date e)) events))).
  { apply validTimes_In. eauto. }
  unfold findLastEventDate. destruct events as [|a l]; [contradiction|].
  destruct (validTimes _) as [|first rest]; [contradiction|].
  apply toISOString_truthy.
Qed.

Lemma recordScrape_consistent (host : Host) (file : VenueStatusFile.t)
    (venueId venueName : string) (events : list Event.t) (scrapeDate : Z) :
  (forall status,
     VenueStatusFile.venues file !! venueId = Some status ->
     0 <= VenueStatus.consecutiveScrapesWithNoFutureEvents status) ->
  consistent venueId
    (snd (recordScrape dateOfString host None (Some file) venueId venueName
            events scrapeDate)).
Proof.
  intros Hprevious. unfold consistent.
  set (result := recordScrape dateOfString host None (Some file) venueId venueName
                   events scrapeDate).
  assert (Hcounter : VenueStatus.consecutiveScrapesWithNoFutureEvents (snd result)
                     = if 0 <? Z.of_nat (List.length
                                  (filterFutureEvents dateOfString host events
                                     scrapeDate))
                       then 0
                       else match VenueStatusFile.venues file !! venueId with
                            | Some s => VenueStatus.consecutiveScrapesWithNoFutureEvents s
                            | None => 0
                            end + 1).
  { unfold result, recordScrape. now rewrite updateVenueStatus_counter. }
  assert (Hflag : VenueStatus.hasFutureEvents (snd result)
                  = (0 <? Z.of_nat (List.length
                               (filterFutureEvents dateOfString host events
                                  scrapeDate)))).
  { unfold result, recordScrape. now rewrite updateVenueStatus_hasFutureEvents. }
  assert (Hlast : VenueStatus.lastEventDate (snd result)
                  = findLastEventDate dateOfString events).
  { unfold result, recordScrape. now rewrite updateVenueStatus_lastEventDate. }
  assert (Hprev : 0 <= match VenueStatusFile.venues file !! venueId with
                       | Some s => VenueStatus.consecutiveScrapesWithNoFutureEvents s
                       | None => 0
                       end).
  { destruct (VenueStatusFile.venues file !! venueId) as [s|] eqn:Hs; [|lia].
    now apply Hprevious. }
  split; [reflexivity|].
  split; [rewrite Hcounter; destruct (0 <? _); lia|].
  split; [rewrite Hcounter, Hflag; destruct (0 <? _); split; (reflexivity || discriminate || lia)|].
  split; [rewrite Hflag; apply Z.ltb_lt|].
  split.
  { unfold result, recordScrape, updateVenueStatus. simpl.
    split; [lia|]. apply inj_le. apply List.filter_length_le. }
  split.
  { rewrite Hflag, Hlast. apply findLastEventDate_truthy. }
  unfold result, recordScrape, updateVenueStatus. simpl.
  match goal with |- context [updateHistory ?e ?n] =>
    destruct (updateHistory_last e n) as (earlier & -> & Hlen)
  end.
  eexists. split; [reflexivity|exact Hlen].
Qed.

Lemma reachable_consistent (file : VenueStatusFile.t) :
  reachable dateOfString file ->
  forall venueId status,
    VenueStatusFile.venues file !! venueId = Some status ->
    consistent venueId status.
Proof.
  induction 1 as [host|host file file' id name events scrapeDate Hreach IH Hstep
                  |host file Hreach IH]; intros venueId status Hstored.
  - simpl in Hstored. now rewrite lookup_empty in Hstored.
  - pose proof (recordScrape_consistent host file id name events scrapeDate) as Hnew.
    unfold recordScrape, updateVenueStatus in Hstep, Hnew. simpl in Hstep, Hnew.
    injection Hstep as <-. simpl in Hstored.
    destruct (decide (id = venueId)) as [->|Hne].
    + rewrite lookup_insert_eq in Hstored. injection Hstored as <-.
      apply Hnew. intros s Hs. now apply (IH venueId s Hs).
    + rewrite lookup_insert_ne in Hstored by exact Hne. now apply IH.
  - now apply IH.
Qed.

(** X25. Whatever sequence of scrapes, failed scrapes and saves has
    produced a status file from nothing, every status in it is stored
    under its own venue id, its counter of empty scrapes is not
    negative and is zero exactly when the last scrape found future
    events, a venue with future events has a last event date, the
    count of future events does not exceed the total, and its history
    has between one and ten entries.  So a venue that is kept had
    future events at its last scrape, and a venue to monitor has one or
    two empty scrapes on record. *)
Theorem recorded_statuses_are_consistent (file : VenueStatusFile.t)
    (venueId : string) (status : VenueStatus.t) :
  reachable dateOfString file ->
  VenueStatusFile.venues file !! venueId = Some status ->
  consistent venueId status /\
  (forall asOfDate,
     StalenessReport.recommendation
       (analyzeVenueStaleness dateOfString status asOfDate) = keep ->
     VenueStatus.hasFutureEvents status = true /\
     truthy (VenueStatus.lastEventDate status) = true) /\
  (forall asOfDate,
     StalenessReport.recommendation
       (analyzeVenueStaleness dateOfString status asOfDate) = monitor ->
     1 <= VenueStatus.consecutiveScrapesWithNoFutureEvents status <= 2).
Proof.
  intros Hreach Hstored.
  pose proof (reachable_consistent file Hreach venueId status Hstored) as Hc.
  split; [exact Hc|].
  destruct Hc as (_ & Hc0 & Hzero & _ & _ & Hdated & _).
  split; intros asOfDate; rewrite analyze_recommendation; cbv zeta.
  - destruct (Z.leb_spec 3 (VenueStatus.consecutiveScrapesWithNoFutureEvents status));
      [rewrite orb_true_r; discriminate|].
    destruct (_ && _)%bool; [discriminate|]. simpl.
    destruct (truthy (VenueStatus.lastEventDate status)); [|discriminate]. simpl.
    destruct (Z.ltb_spec 0 (VenueStatus.consecutiveScrapesWithNoFutureEvents status));
      [discriminate|].
    intros _. split; [|reflexivity]. apply Hzero. lia.
  - destruct (Z.leb_spec 3 (VenueStatus.consecutiveScrapesWithNoFutureEvents status));
      [rewrite orb_true_r; discriminate|].
    destruct (_ && _)%bool; [discriminate|]. simpl.
    destruct (truthy (VenueStatus.lastEventDate status)) eqn:Hknown; simpl.
    + destruct (Z.ltb_spec 0 (VenueStatus.consecutiveScrapesWithNoFutureEvents status));
        [|discriminate].
      intros _. lia.
    + intros _. split; [|lia].
      destruct (Z.eq_dec (VenueStatus.consecutiveScrapesWithNoFutureEvents status) 0)
        as [Hz|Hnz]; [|lia].
      apply Hzero in Hz. apply Hdated in Hz. congruence.
Qed.

End RunFacts.

(* one quiet scrape of a venue, on a machine without a status file *)
Lemma recorded_statuses_are_consistent_sample :
  exists status,
    VenueStatus.consecutiveScrapesWithNoFutureEvents status = 1 /\
    ScrapeRuns.consistent "crooked-lane" status.
Proof.
  pose (host := Samples.utcAt "2025-06-01T12:00:00.000Z").
  pose (result :=
          VenueStatusManager.recordScrape JsDate.ofISOString host None
            (Some (snd (VenueStatusManager.load host None None)))
            "crooked-lane" "Crooked Lane"
            [Samples.triviaEvent "2025-05-29T19:00:00.000Z"]
            (JsDate.timeOf "2025-06-01T12:00:00.000Z")).
  exists (snd result). split; [vm_compute; reflexivity|].
  destruct (recorded_statuses_are_consistent JsDate.ofISOString
              {| VenueStatusFile.version := "1.0.0";
                 VenueStatusFile.updatedAt :=
                   JsDate.toISOString (JsDate.timeOf "2025-06-01T12:00:00.000Z");
                 VenueStatusFile.venues :=
                   <[ "crooked-lane" := snd result ]> ∅ |}
              "crooked-lane" (snd result)) as [Hconsistent _].
  - apply (ScrapeRuns.reachable_scrape JsDate.ofISOString host
             (snd (VenueStatusManager.load host None None)) _
             "crooked-lane" "Crooked Lane"
             [Samples.triviaEvent "2025-05-29T19:00:00.000Z"]
             (JsDate.timeOf "2025-06-01T12:00:00.000Z")).
    + apply ScrapeRuns.reachable_fresh.
    + reflexivity.
  - apply lookup_insert_eq.
  - exact Hconsistent.
Defined.

(** * From the raw records of a venue to its standing *)

Section EndToEndFacts.
Import JsString JsDate VenueStatusManager BaseScraper.

(** X29. A venue whose page lists an upcoming event is kept.  When one
    raw record of the scrape has a title and a date that the parser
    reads as an instant not before the start of the day of the scrape
    (the dates of the records having years of four digits), the status
    recorded for the events of the scraper's loop has future events,
    no empty scrape on its counter and the date string of one of the
    events as its last event date; analysed less than 91 days after the
    local midnight that starts the day of the scrape, it is not stale
    and the recommendation is "keep". *)
Theorem listed_upcoming_event_keeps_venue (hostAt : nat -> Host) (index : nat)
    (rawEvents : list RawEventData.t) (venue : VenueInfo.t) (source : string)
    (host : Host) (disk : option VenueStatusFile.t) (st : State)
    (venueId venueName : string) (scrapeDate asOfDate : Z) :
  let events := fst (fst (normalizeAll hostAt index rawEvents venue source)) in
  let status :=
    snd (recordScrape ofISOString host disk st venueId venueName events scrapeDate) in
  (forall i rawEvent t,
     List.nth_error rawEvents i = Some rawEvent ->
     fst (DateParser.parseDate (hostAt (index + i)%nat)
            (orEmpty (RawEventData.date rawEvent)) None) = Some (Valid t) ->
     0 <= year (fieldsOfTime t) <= 9999) ->
  (exists i rawEvent t,
     List.nth_error rawEvents i = Some rawEvent /\
     truthy (RawEventData.title rawEvent) = true /\
     truthy (RawEventData.date rawEvent) = true /\
     fst (DateParser.parseDate (hostAt (index + i)%nat)
            (orEmpty (RawEventData.date rawEvent)) None) = Some (Valid t) /\
     startOfDay host scrapeDate <= t) ->
  asOfDate < startOfDay host scrapeDate + 91 * msPerDay ->
  VenueStatus.hasFutureEvents status = true /\
  VenueStatus.consecutiveScrapesWithNoFutureEvents status = 0 /\
  (exists latest,
     List.In latest events /\
     VenueStatus.lastEventDate status = Some (Event.date latest)) /\
  StalenessReport.recommendation
    (analyzeVenueStaleness ofISOString status asOfDate) = keep /\
  StalenessReport.isStale
    (analyzeVenueStaleness ofISOString status asOfDate) = false.
Proof.
  cbv zeta. intros Hyears Hupcoming HasOf.
  set (events := fst (fst (normalizeAll hostAt index rawEvents venue source))).
  assert (Hdated : forall e, List.In e events ->
            exists t, Event.date e = JsDate.toISOString t /\
                      0 <= year (fieldsOfTime t) <= 9999).
  { intros e He. apply normalizeAll_events in He.
    destruct He as (i & raw & Hnth & Hsome).
    pose proof (normalizeEvent_some _ _ _ _ _ Hsome)
      as (_ & _ & _ & t & Hparse & Hevent).
    exists t. split; [now rewrite Hevent|].
    apply (Hyears i raw t Hnth). now rewrite Hparse. }
  destruct Hupcoming as (i & raw & t0 & Hnth & Htitle & Hdate & Hparse & Hle).
  destruct (normalizeEvent_returns (hostAt (index + i)%nat) raw venue source t0
              Htitle Hdate Hparse) as (e0 & Hsome & Hdate0).
  assert (Hin0 : List.In e0 events).
  { apply normalizeAll_events. now exists i, raw. }
  assert (Hread0 : ofISOString (Event.date e0) = Valid t0).
  { rewrite Hdate0. apply ofISOString_toISOString. now apply (Hyears i raw). }
  assert (Hne : events <> []) by (intros Hnil; now rewrite Hnil in Hin0).
  destruct (latest_of_dated_batch events Hne Hdated)
    as (latest & tl & Hlatest & Hlast & Hdatel & Hreadl & Hmax).
  assert (Hle0 : t0 <= tl).
  { destruct (Hmax e0 Hin0) as (t' & Ht' & Hle').
    rewrite Hread0 in Ht'. now injection Ht' as <-. }
  assert (Hfuture : (0 <? Z.of_nat (List.length
                             (filterFutureEvents ofISOString host events scrapeDate)))
                    = true).
  { apply filterFutureEvents_nonempty. now exists e0, t0. }
  set (status := snd (recordScrape ofISOString host disk st venueId venueName
                        events scrapeDate)).
  assert (Hflag : VenueStatus.hasFutureEvents status = true).
  { unfold status, recordScrape. now rewrite updateVenueStatus_hasFutureEvents. }
  assert (Hcounter : VenueStatus.consecutiveScrapesWithNoFutureEvents status = 0).
  { unfold status, recordScrape. now rewrite updateVenueStatus_counter, Hfuture. }
  assert (Hstored : VenueStatus.lastEventDate status = Some (Event.date latest)).
  { unfold status, recordScrape. now rewrite updateVenueStatus_lastEventDate. }
  split; [exact Hflag|]. split; [exact Hcounter|].
  split; [now exists latest|].
  apply (recent_status_kept ofISOString host status tl scrapeDate asOfDate).
  - exact Hcounter.
  - now rewrite Hstored, Hdatel.
  - now rewrite <- Hdatel.
  - lia.
  - exact HasOf.
Qed.

End EndToEndFacts.

(* the trivia night of the samples, scraped on a Tuesday for the venue
   that had two quiet scrapes *)
Lemma listed_upcoming_event_keeps_venue_sample :
  StalenessReport.recommendation
    (VenueStatusManager.analyzeVenueStaleness JsDate.ofISOString
       (snd (VenueStatusManager.recordScrape JsDate.ofISOString
               (Samples.pacificAt "2026-11-03T20:00:00.000Z") None
               (Some Samples.statusFile) "crooked-lane" "Crooked Lane"
               (fst (fst (BaseScraper.normalizeAll
                            (fun _ => Samples.pacificAt "2026-11-03T20:00:00.000Z")
                            0 [Samples.triviaNight] Samples.crookedLane
                            "crooked-lane")))
               (JsDate.timeOf "2026-11-03T20:00:00.000Z")))
       (JsDate.timeOf "2026-11-03T20:00:00.000Z")) = keep.
Proof.
  apply (listed_upcoming_event_keeps_venue
           (fun _ => Samples.pacificAt "2026-11-03T20:00:00.000Z")
           0 [Samples.triviaNight] Samples.crookedLane "crooked-lane"
           (Samples.pacificAt "2026-11-03T20:00:00.000Z") None
           (Some Samples.statusFile) "crooked-lane" "Crooked Lane"
           (JsDate.timeOf "2026-11-03T20:00:00.000Z")
           (JsDate.timeOf "2026-11-03T20:00:00.000Z")).
  - intros i rawEvent t Hnth Hparse. destruct i as [|i].
    + injection Hnth as <-. vm_compute in Hparse. injection Hparse as <-.
      vm_compute. split; discriminate.
    + now destruct i.
  - exists 0%nat, Samples.triviaNight, (JsDate.timeOf "2026-11-05T20:00:00.000Z").
    split; [reflexivity|]. split; [reflexivity|]. split; [reflexivity|].
    split; [vm_compute; reflexivity|vm_compute; discriminate].
  - vm_compute. reflexivity.
Defined.

(** * The case of the texts *)

Section CaseFacts.
Import JsString.

Lemma isSpace_upperChar (c : ascii) : isSpace (upperChar c) = isSpace c.
Proof. destruct c as [[] [] [] [] [] [] [] []]; reflexivity. Qed.

Lemma upper_upper (c : ascii) : upperChar (upperChar c) = upperChar c.
Proof. destruct c as [[] [] [] [] [] [] [] []]; reflexivity. Qed.

Lemma upper_lower (c : ascii) : upperChar (lowerChar c) = upperChar c.
Proof. destruct c as [[] [] [] [] [] [] [] []]; reflexivity. Qed.

Lemma dropSpaces_map (f : ascii -> ascii) (l : list ascii) :
  (forall c, isSpace (f c) = isSpace c) ->
  dropSpaces (List.map f l) = List.map f (dropSpaces l).
Proof.
  intros Hf. induction l as [|c l IH]; simpl; [reflexivity|].
  rewrite Hf. now destruct (isSpace c).
Qed.

Lemma trimChars_map (f : ascii -> ascii) (l : list ascii) :
  (forall c, isSpace (f c) = isSpace c) ->
  trimChars (List.map f l) = List.map f (trimChars l).
Proof.
  intros Hf. unfold trimChars.
  rewrite dropSpaces_map, <- List.map_rev, dropSpaces_map, <- List.map_rev by exact Hf.
  reflexivity.
Qed.

Lemma toUpperCase_trim_upper (s : string) :
  toUpperCase (trim (toUpperCase s)) = toUpperCase (trim s).
Proof.
  unfold toUpperCase, trim, onChars. rewrite !chars_ofChars. f_equal.
  rewrite trimChars_map by apply isSpace_upperChar.
  rewrite List.map_map. apply List.map_ext. apply upper_upper.
Qed.

Lemma isSpace_lowerChar (c : ascii) : isSpace (lowerChar c) = isSpace c.
Proof. destruct c as [[] [] [] [] [] [] [] []]; reflexivity. Qed.

Lemma toUpperCase_trim_lower (s : string) :
  toUpperCase (trim (toLowerCase s)) = toUpperCase (trim s).
Proof.
  unfold toUpperCase, toLowerCase, trim, onChars. rewrite !chars_ofChars. f_equal.
  rewrite trimChars_map by apply isSpace_lowerChar.
  rewrite List.map_map. apply List.map_ext. apply upper_lower.
Qed.

Lemma eqb_empty_map (f : ascii -> ascii) (s : string) :
  String.eqb (onChars (List.map f) s) "" = String.eqb s "".
Proof. destruct s; reflexivity. Qed.

(** X26. parseTime does not look at the case of the time text: the
    text in upper case and the text in lower case are cleaned to the
    same string and so give the same hours and minutes, or fail
    together; only the warning quotes the text as it was given. *)
Theorem parseTime_ignores_case (h : Host) (timeStr : string) :
  DateParser.cleanTimeString (toUpperCase timeStr)
    = DateParser.cleanTimeString timeStr /\
  DateParser.cleanTimeString (toLowerCase timeStr)
    = DateParser.cleanTimeString timeStr /\
  fst (DateParser.parseTime h (toUpperCase timeStr))
    = fst (DateParser.parseTime h timeStr) /\
  fst (DateParser.parseTime h (toLowerCase timeStr))
    = fst (DateParser.parseTime h timeStr).
Proof.
  assert (Hupper : DateParser.cleanTimeString (toUpperCase timeStr)
                   = DateParser.cleanTimeString timeStr).
  { unfold DateParser.cleanTimeString. now rewrite toUpperCase_trim_upper. }
  assert (Hlower : DateParser.cleanTimeString (toLowerCase timeStr)
                   = DateParser.cleanTimeString timeStr).
  { unfold DateParser.cleanTimeString. now rewrite toUpperCase_trim_lower. }
  split; [exact Hupper|]. split; [exact Hlower|].
  unfold DateParser.parseTime. rewrite Hupper, Hlower.
  rewrite (eqb_empty_map upperChar timeStr : String.eqb (toUpperCase timeStr) "" = _).
  rewrite (eqb_empty_map lowerChar timeStr : String.eqb (toLowerCase timeStr) "" = _).
  destruct (String.eqb timeStr ""); [now split|]. cbv zeta.
  destruct (DateParser.tryTimeFormats h _ _); [now split|].
  destruct (Rx.search DateParser.simpleMatchAt _) as [[[hs ms] period]|]; now split.
Qed.

Lemma toLowerCase_append (s1 s2 : string) :
  toLowerCase (s1 +:+ s2) = toLowerCase s1 +:+ toLowerCase s2.
Proof.
  apply chars_inj. rewrite chars_append. unfold toLowerCase, onChars.
  rewrite !chars_ofChars, chars_append. apply List.map_app.
Qed.

Lemma eventText_upper (title : string) (description : option string) :
  EventNormalizer.eventText (toUpperCase title) (option_map toUpperCase description)
  = EventNormalizer.eventText title description.
Proof.
  unfold EventNormalizer.eventText. rewrite !toLowerCase_append.
  rewrite toLowerCase_toUpperCase. do 2 f_equal.
  destruct description as [d|]; simpl; [apply toLowerCase_toUpperCase|reflexivity].
Qed.

(** X27. The type and the tags of an event do not depend on the case
    of the ASCII letters of its title and description: both are computed
    from the text in lower case.  Two titles with the same lower-casing,
    with descriptions of the same lower-casing, get the same type and
    the same tags; so do a title and a description and their
    lower-casings, and, when they are ASCII text, their upper-casings. *)
Theorem classification_ignores_case (title : string) (description : option string) :
  (forall title' description',
     toLowerCase title' = toLowerCase title ->
     toLowerCase (orEmpty description') = toLowerCase (orEmpty description) ->
     EventNormalizer.detectEventType title' description'
     = EventNormalizer.detectEventType title description /\
     EventNormalizer.extractTags title' description'
     = EventNormalizer.extractTags title description) /\
  (isAscii title = true -> isAscii (orEmpty description) = true ->
   EventNormalizer.detectEventType (toUpperCase title)
     (option_map toUpperCase description)
   = EventNormalizer.detectEventType title description /\
   EventNormalizer.extractTags (toUpperCase title)
     (option_map toUpperCase description)
   = EventNormalizer.extractTags title description) /\
  EventNormalizer.detectEventType (toLowerCase title)
    (option_map toLowerCase description)
  = EventNormalizer.detectEventType title description /\
  EventNormalizer.extractTags (toLowerCase title)
    (option_map toLowerCase description)
  = EventNormalizer.extractTags title description.
Proof.
  assert (Hlower : EventNormalizer.eventText (toLowerCase title)
                     (option_map toLowerCase description)
                   = EventNormalizer.eventText title description).
  { unfold EventNormalizer.eventText. rewrite !toLowerCase_append.
    rewrite toLowerCase_idempotent. do 2 f_equal.
    destruct description as [d|]; simpl; [apply toLowerCase_idempotent|reflexivity]. }
  unfold EventNormalizer.detectEventType, EventNormalizer.extractTags.
  rewrite eventText_upper, Hlower. split; [|repeat split].
  intros title' description' Htitle Hdescription.
  assert (Hsame : EventNormalizer.eventText title' description'
                  = EventNormalizer.eventText title description).
  { unfold EventNormalizer.eventText. rewrite !toLowerCase_append.
    now rewrite Htitle, Hdescription. }
  rewrite Hsame. now split.
Qed.

End CaseFacts.

(** * White space in titles and fingerprints *)

Section SpaceFacts.
Import JsString.

Lemma dropSpaces_clean (l : list ascii) : startsClean (dropSpaces l) = true.
Proof.
  induction l as [|c l IH]; simpl; [reflexivity|].
  destruct (isSpace c) eqn:Hc; [exact IH|]. simpl. now rewrite Hc.
Qed.

Lemma clean_dropSpaces (l : list ascii) :
  startsClean l = true -> dropSpaces l = l.
Proof.
  destruct l as [|c l]; simpl; [reflexivity|].
  now destruct (isSpace c).
Qed.

Lemma dropSpaces_app_nonspace (a b : list ascii) (c : ascii) :
  isSpace c = false -> dropSpaces (a ++ c :: b) = dropSpaces a ++ c :: b.
Proof.
  intros Hc. induction a as [|x a IH]; simpl; [now rewrite Hc|].
  now destruct (isSpace x).
Qed.

(* dropping the white space at the end keeps a clean start *)
Lemma clean_dropEnd (l : list ascii) :
  startsClean l = true -> startsClean (List.rev (dropSpaces (List.rev l))) = true.
Proof.
  destruct l as [|c l]; [reflexivity|]. simpl. intros Hc.
  apply negb_true_iff in Hc.
  change (List.rev l ++ [c]) with (List.rev l ++ c :: []).
  rewrite dropSpaces_app_nonspace by exact Hc.
  rewrite List.rev_app_distr. simpl. now rewrite Hc.
Qed.

Lemma trimChars_clean (l : list ascii) :
  startsClean (trimChars l) = true /\ startsClean (List.rev (trimChars l)) = true.
Proof.
  unfold trimChars. split.
  - apply clean_dropEnd, dropSpaces_clean.
  - rewrite List.rev_involutive. apply dropSpaces_clean.
Qed.

Lemma clean_trimChars (l : list ascii) :
  startsClean l = true -> startsClean (List.rev l) = true -> trimChars l = l.
Proof.
  intros Hhead Hlast. unfold trimChars.
  rewrite (clean_dropSpaces l Hhead), (clean_dropSpaces _ Hlast).
  apply List.rev_involutive.
Qed.

Lemma clean_rev_tail (c : ascii) (l : list ascii) :
  startsClean (List.rev (c :: l)) = true -> startsClean (List.rev l) = true.
Proof.
  simpl. destruct (List.rev l) as [|x r]; [reflexivity|]. exact (fun H => H).
Qed.

Lemma clean_rev_dropSpaces (l : list ascii) :
  startsClean (List.rev l) = true -> startsClean (List.rev (dropSpaces l)) = true.
Proof.
  induction l as [|c l IH]; [reflexivity|]. intros Hlast. simpl dropSpaces.
  destruct (isSpace c); [|exact Hlast].
  apply IH. now apply (clean_rev_tail c).
Qed.

Lemma collapseFrom_idempotent (inRun : bool) (l : list ascii) :
  collapseFrom inRun (collapseFrom inRun l) = collapseFrom inRun l.
Proof.
  revert inRun. induction l as [|c l IH]; intros inRun; simpl; [reflexivity|].
  destruct (isSpace c) eqn:Hc.
  - destruct inRun; [apply IH|]. simpl. now rewrite IH.
  - simpl. now rewrite Hc, IH.
Qed.

Lemma collapseFrom_length (inRun : bool) (l : list ascii) :
  (List.length (collapseFrom inRun l) <= List.length l)%nat.
Proof.
  revert inRun. induction l as [|c l IH]; intros inRun; simpl; [lia|].
  destruct (isSpace c).
  - destruct inRun; simpl.
    + specialize (IH true). lia.
    + specialize (IH true). lia.
  - simpl. specialize (IH false). lia.
Qed.

Lemma collapseFrom_clean (l : list ascii) :
  startsClean l = true -> startsClean (collapseFrom false l) = true.
Proof.
  destruct l as [|c l]; [reflexivity|]. simpl. intros Hc.
  apply negb_true_iff in Hc. rewrite Hc. simpl. now rewrite Hc.
Qed.

Lemma collapseFrom_snoc (inRun : bool) (l : list ascii) (c : ascii) :
  exists tail,
    collapseFrom inRun (l ++ [c]) = collapseFrom inRun l ++ tail /\
    (List.length tail <= 1)%nat /\
    (isSpace c = false -> tail = [c]).
Proof.
  revert inRun. induction l as [|x l IH]; intros inRun.
  - simpl. destruct (isSpace c) eqn:Hc.
    + destruct inRun; eexists; (split; [reflexivity|]); split; simpl; (lia || discriminate).
    + exists [c]. split; [reflexivity|]. split; [simpl; lia|reflexivity].
  - simpl. destruct (isSpace x).
    + destruct inRun.
      * apply IH.
      * destruct (IH true) as (tail & -> & Hlen & Hc). now exists tail.
    + destruct (IH false) as (tail & -> & Hlen & Hc). now exists tail.
Qed.

Lemma collapseFrom_clean_end (l : list ascii) :
  startsClean (List.rev l) = true ->
  startsClean (List.rev (collapseFrom false l)) = true.
Proof.
  destruct (List.rev l) as [|c r] eqn:Hrev; intros Hlast.
  - apply (f_equal (@List.rev ascii)) in Hrev. rewrite List.rev_involutive in Hrev.
    now subst l.
  - apply (f_equal (@List.rev ascii)) in Hrev. rewrite List.rev_involutive in Hrev.
    simpl in Hrev, Hlast. apply negb_true_iff in Hlast. subst l.
    destruct (collapseFrom_snoc false (List.rev r) c) as (tail & -> & _ & Htail).
    rewrite (Htail Hlast), List.rev_app_distr. simpl. now rewrite Hlast.
Qed.

(* lists in which every run of white space is one space character *)
Lemma collapsed_tail (c : ascii) (l : list ascii) :
  collapseFrom false (c :: l) = c :: l -> collapseFrom false l = l.
Proof.
  simpl. destruct (isSpace c).
  - intros [= _ Hl]. destruct l as [|c' l']; [reflexivity|].
    simpl in Hl |- *. destruct (isSpace c'); [|exact Hl].
    exfalso. pose proof (collapseFrom_length true l') as Hlen.
    rewrite Hl in Hlen. simpl in Hlen. lia.
  - now intros [= Hl].
Qed.

Lemma collapsed_dropSpaces (l : list ascii) :
  collapseFrom false l = l -> collapseFrom false (dropSpaces l) = dropSpaces l.
Proof.
  induction l as [|c l IH]; [trivial|]. intros Hl. simpl dropSpaces.
  destruct (isSpace c); [|exact Hl]. apply IH. now apply (collapsed_tail c).
Qed.

Lemma collapsed_init (l : list ascii) (c : ascii) :
  collapseFrom false (l ++ [c]) = l ++ [c] -> collapseFrom false l = l.
Proof.
  destruct (collapseFrom_snoc false l c) as (tail & -> & Hlen & _).
  intros Heq. pose proof (collapseFrom_length false l) as Hle.
  assert (Hlengths : (List.length (collapseFrom false l) + List.length tail
                      = List.length l + 1)%nat).
  { rewrite <- List.length_app, Heq, List.length_app. reflexivity. }
  destruct tail as [|x [|y tail]]; simpl in *; try lia.
  now apply List.app_inj_tail in Heq.
Qed.

Lemma collapsed_dropEnd (r : list ascii) :
  collapseFrom false (List.rev r) = List.rev r ->
  collapseFrom false (List.rev (dropSpaces r)) = List.rev (dropSpaces r).
Proof.
  induction r as [|c r IH]; [trivial|]. intros Hr. simpl dropSpaces.
  destruct (isSpace c); [|exact Hr]. apply IH. simpl in Hr.
  now apply (collapsed_init _ c).
Qed.

Lemma collapsed_trimChars (l : list ascii) :
  collapseFrom false l = l -> collapseFrom false (trimChars l) = trimChars l.
Proof.
  intros Hl. unfold trimChars. apply collapsed_dropEnd.
  rewrite List.rev_involutive. now apply collapsed_dropSpaces.
Qed.

Lemma kept_lower (c : ascii) :
  EventDeduplicator.keptByNormalize c = true -> lowerChar c = c.
Proof. destruct c as [[] [] [] [] [] [] [] []]; (reflexivity || discriminate). Qed.

Lemma filter_all {A} (p : A -> bool) (l : list A) :
  List.Forall (fun x => p x = true) l -> List.filter p l = l.
Proof.
  induction 1 as [|x l Hx _ IH]; simpl; [reflexivity|]. now rewrite Hx, IH.
Qed.

(* the three facts for the characters of a normalised title *)
Lemma normalizeTitle_chars (title : string) :
  let l := chars (EventNormalizer.normalizeTitle title) in
  startsClean l = true /\ startsClean (List.rev l) = true /\
  collapseFrom false l = l.
Proof.
  cbv zeta. unfold EventNormalizer.normalizeTitle, trim, onChars.
  rewrite !chars_ofChars.
  destruct (trimChars_clean (chars title)) as [Hhead0 Hlast0].
  set (l1 := collapseSpaces (trimChars (chars title))).
  assert (H1 : startsClean l1 = true /\ startsClean (List.rev l1) = true /\
               collapseFrom false l1 = l1).
  { unfold l1, collapseSpaces. split; [now apply collapseFrom_clean|].
    split; [now apply collapseFrom_clean_end|apply collapseFrom_idempotent]. }
  clearbody l1. destruct H1 as (Hhead1 & Hlast1 & Hcol1).
  set (l2 := match l1 with "-"%char :: r => dropSpaces r | _ => l1 end).
  assert (H2 : startsClean l2 = true /\ startsClean (List.rev l2) = true /\
               collapseFrom false l2 = l2).
  { unfold l2. destruct l1 as [|c r]; [now repeat split|].
    destruct (Ascii.eqb_spec c "-") as [->|Hne].
    - split; [apply dropSpaces_clean|].
      split; [apply clean_rev_dropSpaces; now apply (clean_rev_tail "-")|].
      apply collapsed_dropSpaces. now apply (collapsed_tail "-").
    - destruct c as [[] [] [] [] [] [] [] []]; try (now repeat split). }
  clearbody l2. destruct H2 as (Hhead2 & Hlast2 & Hcol2).
  destruct (List.rev l2) as [|c r] eqn:Hrev;
    [cbv iota; rewrite Hrev; now repeat split|].
  assert (Hl2 : l2 = List.rev r ++ [c]).
  { rewrite <- (List.rev_involutive l2), Hrev. reflexivity. }
  destruct (Ascii.eqb_spec c "-") as [->|Hne].
  - assert (Hinit : collapseFrom false (List.rev r) = List.rev r).
    { apply (collapsed_init _ "-"). now rewrite <- Hl2. }
    assert (Hhead_r : startsClean (List.rev r) = true).
    { rewrite Hl2 in Hhead2. destruct (List.rev r); [reflexivity|exact Hhead2]. }
    split; [|split].
    + rewrite <- (List.rev_involutive r) at 1. now apply clean_dropEnd.
    + rewrite List.rev_involutive. apply dropSpaces_clean.
    + now apply collapsed_dropEnd.
  - destruct c as [[] [] [] [] [] [] [] []];
      first [now elim Hne
            |cbv iota; rewrite Hrev; repeat split; assumption].
Qed.

Lemma normalizeString_chars (s : string) :
  let l := chars (EventDeduplicator.normalizeString s) in
  startsClean l = true /\ startsClean (List.rev l) = true /\
  collapseFrom false l = l.
Proof.
  cbv zeta. unfold EventDeduplicator.normalizeString, trim, onChars.
  rewrite !chars_ofChars.
  set (l0 := chars (removeChars _ _)).
  destruct (trimChars_clean (collapseSpaces l0)) as [Hhead Hlast].
  split; [exact Hhead|]. split; [exact Hlast|].
  apply collapsed_trimChars. apply collapseFrom_idempotent.
Qed.

(** X28. Stored titles and fingerprint strings are tidy: a normalised
    title, and a string normalised for the fingerprint, neither starts
    nor ends with white space, and every run of white space in it is a
    single space character, so trimming it or collapsing its white
    space again changes nothing.  A fingerprint string holds only
    lower-case letters, digits and spaces, and normalising it again
    gives it back. *)
Theorem titles_and_fingerprints_are_tidy (text : string) :
  let title := EventNormalizer.normalizeTitle text in
  let key := EventDeduplicator.normalizeString text in
  (startsClean (chars title) = true /\ startsClean (List.rev (chars title)) = true /\
   trim title = title /\ onChars collapseSpaces title = title) /\
  (startsClean (chars key) = true /\ startsClean (List.rev (chars key)) = true /\
   trim key = key /\ onChars collapseSpaces key = key) /\
  List.Forall (fun c => (isLower c || isDigit c || Ascii.eqb c " ")%bool = true)
    (chars key) /\
  EventDeduplicator.normalizeString key = key.
Proof.
  cbv zeta.
  destruct (normalizeTitle_chars text) as (Hhead_t & Hlast_t & Hcol_t).
  destruct (normalizeString_chars text) as (Hhead_k & Hlast_k & Hcol_k).
  pose proof (normalizeString_kept text) as Hkept.
  assert (Htidy : forall s,
            startsClean (chars s) = true -> startsClean (List.rev (chars s)) = true ->
            collapseFrom false (chars s) = chars s ->
            trim s = s /\ onChars collapseSpaces s = s).
  { intros s Hhead Hlast Hcol. unfold trim, onChars, collapseSpaces.
    rewrite (clean_trimChars _ Hhead Hlast), Hcol, ofChars_chars. now split. }
  destruct (Htidy _ Hhead_t Hlast_t Hcol_t) as [Htrim_t Hcollapse_t].
  destruct (Htidy _ Hhead_k Hlast_k Hcol_k) as [Htrim_k Hcollapse_k].
  split; [now repeat split|]. split; [now repeat split|]. split.
  - assert (Hplain : forall l,
              collapseFrom false l = l ->
              List.Forall (fun c => isSpace c = true -> c = " "%char) l).
    { induction l as [|c l IH]; [constructor|]. intros Hcol.
      constructor; [|apply IH; now apply (collapsed_tail c)].
      simpl in Hcol. intros Hc. rewrite Hc in Hcol. now injection Hcol. }
    specialize (Hplain _ Hcol_k).
    rewrite List.Forall_forall in Hkept, Hplain. apply List.Forall_forall.
    intros c Hc. specialize (Hkept c Hc). specialize (Hplain c Hc).
    unfold EventDeduplicator.keptByNormalize in Hkept.
    destruct (isLower c || isDigit c)%bool; [reflexivity|]. simpl in Hkept |- *.
    rewrite (Hplain Hkept). reflexivity.
  - set (key := EventDeduplicator.normalizeString text) in *.
    unfold EventDeduplicator.normalizeString at 1.
    assert (Hlower : toLowerCase key = key).
    { unfold toLowerCase, onChars. rewrite <- (ofChars_chars key) at 2. f_equal.
      apply map_lower_fixed. eapply List.Forall_impl; [|exact Hkept].
      intros c. apply kept_lower. }
    rewrite Hlower.
    assert (Hfilter : removeChars (fun c => negb (EventDeduplicator.keptByNormalize c)) key
                      = key).
    { unfold removeChars, onChars. rewrite <- (ofChars_chars key) at 2. f_equal.
      apply filter_all. eapply List.Forall_impl; [|exact Hkept].
      intros c ->. reflexivity. }
    rewrite Hfilter, Hcollapse_k. exact Htrim_k.
Qed.

End SpaceFacts.

(** * Two showings on one day *)

Section SameDayFacts.
Import JsString JsDate EventDeduplicator.

Lemma untilChar_app (sep : ascii) (l rest : list ascii) :
  ~ List.In sep l -> untilChar sep (l ++ sep :: rest) = l.
Proof.
  induction l as [|c l IH]; simpl; intros Hnot.
  - now rewrite Ascii.eqb_refl.
  - destruct (Ascii.eqb_spec c sep) as [->|Hne]; [exfalso; apply Hnot; now left|].
    f_equal. apply IH. intros Hin. apply Hnot. now right.
Qed.

Lemma digit_not_T (c : ascii) : isDigit c = true -> c <> "T"%char.
Proof. intros Hc ->. discriminate. Qed.

Lemma padded_no_T (width : nat) (n : Z) :
  ~ List.In "T"%char (JsNumber.padded width n).
Proof.
  intros Hin. pose proof (padded_digits width n) as Hall.
  rewrite List.Forall_forall in Hall. now apply (digit_not_T _ (Hall _ Hin)).
Qed.

(* the part of an ISO string that the fingerprint keeps *)
Lemma datePart_toISOString (t : Z) :
  0 <= year (fieldsOfTime t) <= 9999 ->
  chars (splitHead "T" (toISOString t))
  = JsNumber.padded 4 (year (fieldsOfTime t)) ++ "-"%char
    :: JsNumber.padded 2 (month (fieldsOfTime t) + 1) ++ "-"%char
    :: JsNumber.padded 2 (day (fieldsOfTime t)).
Proof.
  intros Hyear. unfold splitHead, onChars, toISOString, showYear, pad. cbv zeta.
  replace ((0 <=? year (fieldsOfTime t)) && (year (fieldsOfTime t) <=? 9999))%bool
    with true by (symmetry; apply andb_true_iff; split; apply Z.leb_le; lia).
  rewrite !chars_append, !chars_ofChars. simpl chars. cbn [app].
  set (datePart := JsNumber.padded 4 (year (fieldsOfTime t)) ++ "-"%char
                   :: JsNumber.padded 2 (month (fieldsOfTime t) + 1) ++ "-"%char
                   :: JsNumber.padded 2 (day (fieldsOfTime t))).
  match goal with
  | |- untilChar _ ?l = _ =>
    replace l with (datePart ++ "T"%char ::
                    JsNumber.padded 2 (hours (fieldsOfTime t)) ++ ":"%char
                    :: JsNumber.padded 2 (minutes (fieldsOfTime t)) ++ ":"%char
                    :: JsNumber.padded 2 (seconds (fieldsOfTime t)) ++ "."%char
                    :: JsNumber.padded 3 (milliseconds (fieldsOfTime t)) ++ ["Z"%char])
  end.
  - apply untilChar_app. unfold datePart. intros Hin.
    apply List.in_app_iff in Hin. destruct Hin as [Hin|[Hin|Hin]];
      [now apply padded_no_T in Hin|discriminate|].
    apply List.in_app_iff in Hin. destruct Hin as [Hin|[Hin|Hin]];
      [now apply padded_no_T in Hin|discriminate|now apply padded_no_T in Hin].
  - unfold datePart. rewrite <- !List.app_assoc. cbn [app].
    rewrite <- !List.app_assoc. reflexivity.
Qed.

Lemma dayNumber_of_fields (t : Z) :
  daysFromCivil (year (fieldsOfTime t)) (month (fieldsOfTime t) + 1)
    (day (fieldsOfTime t)) = t / msPerDay.
Proof.
  unfold fieldsOfTime. pose proof (civil_roundtrip (t / msPerDay)) as Hcivil.
  destruct (civilFromDays (t / msPerDay)) as [[y m] d]. simpl.
  destruct Hcivil as (Hdays & _). now replace (m - 1 + 1) with m by lia.
Qed.

Lemma fields_of_dayNumber (t1 t2 : Z) :
  t1 / msPerDay = t2 / msPerDay ->
  year (fieldsOfTime t1) = year (fieldsOfTime t2) /\
  month (fieldsOfTime t1) = month (fieldsOfTime t2) /\
  day (fieldsOfTime t1) = day (fieldsOfTime t2).
Proof.
  intros Heq. unfold fieldsOfTime. rewrite Heq.
  destruct (civilFromDays (t2 / msPerDay)) as [[y m] d]. now repeat split.
Qed.

(* ISO strings of four-digit years have the same date part exactly on
   the same day *)
Lemma datePart_same_day (t1 t2 : Z) :
  0 <= year (fieldsOfTime t1) <= 9999 -> 0 <= year (fieldsOfTime t2) <= 9999 ->
  (splitHead "T" (toISOString t1) = splitHead "T" (toISOString t2)
   <-> t1 / msPerDay = t2 / msPerDay).
Proof.
  intros Hy1 Hy2. split.
  - intros Heq. apply (f_equal chars) in Heq.
    rewrite !datePart_toISOString in Heq by assumption.
    pose proof (fieldsOfTime_sound t1) as H1. pose proof (fieldsOfTime_sound t2) as H2.
    cbv zeta in H1, H2.
    destruct H1 as (_ & Hm1 & Hd1 & _). destruct H2 as (_ & Hm2 & Hd2 & _).
    pose proof (daysInMonth_le_31 (year (fieldsOfTime t1)) (month (fieldsOfTime t1))).
    pose proof (daysInMonth_le_31 (year (fieldsOfTime t2)) (month (fieldsOfTime t2))).
    assert (Hyear : year (fieldsOfTime t1) = year (fieldsOfTime t2)).
    { apply (f_equal (number 4)) in Heq.
      rewrite !number_padded4 in Heq by lia. now injection Heq. }
    rewrite Hyear in Heq. apply List.app_inv_head in Heq.
    apply (f_equal (@List.tl ascii)) in Heq. cbn [List.tl] in Heq.
    assert (Hmonth : month (fieldsOfTime t1) + 1 = month (fieldsOfTime t2) + 1).
    { apply (f_equal (number 2)) in Heq.
      rewrite !number_padded2 in Heq by lia. now injection Heq. }
    rewrite Hmonth in Heq. apply List.app_inv_head in Heq.
    apply (f_equal (@List.tl ascii)) in Heq. cbn [List.tl] in Heq.
    assert (Hday : day (fieldsOfTime t1) = day (fieldsOfTime t2)).
    { rewrite <- (List.app_nil_r (JsNumber.padded 2 (day (fieldsOfTime t1)))) in Heq.
      rewrite <- (List.app_nil_r (JsNumber.padded 2 (day (fieldsOfTime t2)))) in Heq.
      apply (f_equal (number 2)) in Heq.
      rewrite !number_padded2 in Heq by lia. now injection Heq. }
    rewrite <- (dayNumber_of_fields t1), <- (dayNumber_of_fields t2).
    now rewrite Hyear, Hmonth, Hday.
  - intros Heq. apply chars_inj. rewrite !datePart_toISOString by assumption.
    destruct (fields_of_dayNumber t1 t2 Heq) as (-> & -> & ->). reflexivity.
Qed.

(** X30. Deduplication works by the day of the ISO date string.  Two
    events of one venue with the same normalised title, dated by
    toISOString in years of four digits, have the same fingerprint
    exactly when their instants fall on the same day of the ISO string
    (the UTC day), whatever their times are.  Such a pair is merged
    into one event, the one whose completeness score, a double, is the
    larger, and the first when the two doubles are equal, so that one
    of two showings on one day is lost; a pair on different days is
    returned unchanged. *)
Theorem same_day_showings_are_merged (a b : Event.t) (ta tb : Z) :
  Event.date a = toISOString ta ->
  Event.date b = toISOString tb ->
  0 <= year (fieldsOfTime ta) <= 9999 ->
  0 <= year (fieldsOfTime tb) <= 9999 ->
  normalizeString (Event.title a) = normalizeString (Event.title b) ->
  normalizeString (VenueInfo.name (Event.venue a))
    = normalizeString (VenueInfo.name (Event.venue b)) ->
  (eventKey a = eventKey b <-> ta / msPerDay = tb / msPerDay) /\
  (ta / msPerDay = tb / msPerDay ->
   ((completeness b <= completeness a)%Q -> deduplicate [a; b] = Some [a]) /\
   ((completeness a < completeness b)%Q -> deduplicate [a; b] = Some [b])) /\
  (ta / msPerDay <> tb / msPerDay -> deduplicate [a; b] = Some [a; b]).
Proof.
  intros Hda Hdb Hya Hyb Htitle Hvenue.
  assert (Hkey : eventKey a = eventKey b <-> ta / msPerDay = tb / msPerDay).
  { rewrite eventKey_fingerprint. unfold getFingerprint.
    rewrite Hda, Hdb, Htitle, Hvenue.
    rewrite <- (datePart_same_day ta tb Hya Hyb). split.
    - now intros [= Heq].
    - now intros ->. }
  split; [exact Hkey|]. split.
  - intros Hday. apply Hkey in Hday.
    assert (Hgroup : deduplicate [a; b]
                     = match selectBestEvent [a; b] with
                       | Some best => Some [best]
                       | None => None
                       end).
    { rewrite deduplicate_grouping. cbn [List.map DedupSpec.firstSeen List.filter].
      rewrite Hday, String.eqb_refl. cbn [negb List.filter List.map].
      unfold DedupSpec.groupOf. cbn [List.filter].
      rewrite Hday, String.eqb_refl. cbn [selectAll].
      now destruct (selectBestEvent [a; b]). }
    rewrite Hgroup, selectBestEvent_cons, selectBestEvent_single.
    split.
    + intros Hle. apply positive_ge in Hle. now rewrite Hle.
    + intros Hlt. apply positive_lt in Hlt. now rewrite Hlt.
  - intros Hday. apply deduplicate_distinct. simpl.
    constructor; [|constructor; [intros []|constructor]].
    intros [Heq|[]]. apply Hday, Hkey. now symmetry.
Qed.

End SameDayFacts.

(* an early and a late trivia night on the fifth of June *)
Lemma same_day_showings_are_merged_sample :
  EventDeduplicator.deduplicate
    [Samples.triviaEvent "2025-06-05T19:00:00.000Z";
     Samples.eventTitled "Trivia Night" "2025-06-05T21:30:00.000Z"]
  = Some [Samples.triviaEvent "2025-06-05T19:00:00.000Z"].
Proof.
  destruct (same_day_showings_are_merged
              (Samples.triviaEvent "2025-06-05T19:00:00.000Z")
              (Samples.eventTitled "Trivia Night" "2025-06-05T21:30:00.000Z")
              (JsDate.timeOf "2025-06-05T19:00:00.000Z")
              (JsDate.timeOf "2025-06-05T21:30:00.000Z"))
    as (_ & Hmerged & _).
  - vm_compute. reflexivity.
  - vm_compute. reflexivity.
  - vm_compute. split; discriminate.
  - vm_compute. split; discriminate.
  - reflexivity.
  - reflexivity.
  - destruct Hmerged as [Hfirst _]; [vm_compute; reflexivity|].
    apply Hfirst. vm_compute. discriminate.
Defined.
